(** * A shallow embedding of the calculator's expression engine

    The Go packages [calculator], [utils] and [parser] are embedded as
    executable Rocq functions:

    - [float64] is IEEE-754 binary64 as specified by [SpecFloat]
      (53 bits of precision, round to nearest even);
    - Go strings are [string]s, i.e. sequences of bytes; tokens are
      [list string];
    - the shared mutable [Calculator] and [Parser] objects are threaded
      explicitly: a method that mutates its receiver returns the new one;
    - a Go [(float64, error)] pair is a [result]: [Ok v], [Err msg] with the
      text of the Go error, or [Diverge] where the Go loop does not return;
    - the functions of Go's [math] package whose value is not fixed by the
      language (sin, exp, pow, ...) are fields of a record [GoMath] over which
      every definition and theorem of the engine is parametric. *)

From Stdlib Require Import ZArith Bool List String Ascii Lia.
From Stdlib Require Import Floats.SpecFloat.
From Stdlib Require Import Numbers.DecimalString.
From Stdlib Require Import Sorting.Permutation.
Import ListNotations.

Local Open Scope string_scope.
Local Open Scope Z_scope.

(** ** Results *)

Inductive result (A : Type) : Type :=
| Ok (a : A)
| Err (msg : string)
| Diverge.
Arguments Ok {A} a.
Arguments Err {A} msg.
Arguments Diverge {A}.

Definition is_Ok {A} (r : result A) : bool :=
  match r with Ok _ => true | _ => false end.

Definition is_Err {A} (r : result A) : bool :=
  match r with Err _ => true | _ => false end.

Definition bind {A B} (r : result A) (f : A -> result B) : result B :=
  match r with
  | Ok a => f a
  | Err m => Err m
  | Diverge => Diverge
  end.

(** A run-time panic, as an error whose text starts with [panic: ]. *)
Definition panic {A} (msg : string) : result A := Err ("panic: " ++ msg).

(** Go's [int] on a 64-bit platform: the value a result wraps to. *)
Definition wrap64 (n : Z) : Z := (n + 2 ^ 63) mod 2 ^ 64 - 2 ^ 63.

(** ** float64 *)

Module F64.

Definition float64 := spec_float.
Definition prec : Z := 53.
Definition emax : Z := 1024.

Definition add : float64 -> float64 -> float64 := SFadd prec emax.
Definition sub : float64 -> float64 -> float64 := SFsub prec emax.
Definition mul : float64 -> float64 -> float64 := SFmul prec emax.
Definition div : float64 -> float64 -> float64 := SFdiv prec emax.
Definition neg : float64 -> float64 := SFopp.
Definition eqb : float64 -> float64 -> bool := SFeqb.
Definition ltb : float64 -> float64 -> bool := SFltb.
Definition leb : float64 -> float64 -> bool := SFleb.
Definition gtb (x y : float64) : bool := SFltb y x.
Definition neqb (x y : float64) : bool := negb (SFeqb x y).

(** The float64 nearest to an integer (exact below 2^53). *)
Definition of_Z (n : Z) : float64 := binary_normalize prec emax n 0 false.

Definition zero : float64 := S754_zero false.
Definition one : float64 := of_Z 1.
Definition pInf : float64 := S754_infinity false.
Definition NaN : float64 := S754_nan.

Definition IsNaN (x : float64) : bool :=
  match x with S754_nan => true | _ => false end.

Definition IsInf (x : float64) : bool :=
  match x with S754_infinity _ => true | _ => false end.

Definition is_finite (x : float64) : bool :=
  match x with
  | S754_zero _ | S754_finite _ _ _ => true
  | _ => false
  end.

(** [math.Trunc]: the integer part, keeping the sign (also of a zero). *)
Definition Trunc (x : float64) : float64 :=
  match x with
  | S754_finite s m e =>
      if 0 <=? e then x
      else
        let q := Z.shiftr (Zpos m) (- e) in
        if q =? 0 then S754_zero s
        else binary_normalize prec emax (if s then - q else q) 0 s
  | _ => x
  end.

(** [math.Abs] and [math.Sqrt] (IEEE-754 correctly rounded). *)
Definition Abs : float64 -> float64 := SFabs.
Definition Sqrt : float64 -> float64 := SFsqrt prec emax.

(** The integer part of a finite float64, as an integer. *)
Definition to_Z (x : float64) : Z :=
  match x with
  | S754_finite s m e =>
      let a := if 0 <=? e then Z.shiftl (Zpos m) e else Z.shiftr (Zpos m) (- e) in
      if s then - a else a
  | _ => 0
  end.

End F64.
Export F64.

(** ** Bytes and strings *)

Module Str.

Definition code (c : ascii) : nat := nat_of_ascii c.

Definition in_range (lo hi : nat) (c : ascii) : bool :=
  (Nat.leb lo (code c) && Nat.leb (code c) hi)%bool.

Definition isDigitB (c : ascii) : bool := in_range 48 57 c.
Definition isLowerB (c : ascii) : bool := in_range 97 122 c.
Definition isUpperB (c : ascii) : bool := in_range 65 90 c.
Definition isLetterB (c : ascii) : bool := (isLowerB c || isUpperB c)%bool.

(** The regular-expression class [\w] (ASCII). *)
Definition isWordB (c : ascii) : bool :=
  (isLetterB c || isDigitB c || Ascii.eqb c "_")%bool.

(** The regular-expression class [\s]: tab, newline, form feed, return, space. *)
Definition isReSpaceB (c : ascii) : bool :=
  (Ascii.eqb c "009" || Ascii.eqb c "010" || Ascii.eqb c "012"
   || Ascii.eqb c "013" || Ascii.eqb c " ")%bool.

(** White space as [strings.TrimSpace] sees it (ASCII part). *)
Definition isSpaceB (c : ascii) : bool :=
  (isReSpaceB c || Ascii.eqb c "011")%bool.

Definition lowerChar (c : ascii) : ascii :=
  if isUpperB c then ascii_of_nat (code c + 32) else c.

(** [strings.ToLower] on ASCII text. *)
Fixpoint ToLower (s : string) : string :=
  match s with
  | EmptyString => EmptyString
  | String c r => String (lowerChar c) (ToLower r)
  end.

(** [strings.ReplaceAll(s, " ", "")]. *)
Fixpoint removeSpaces (s : string) : string :=
  match s with
  | EmptyString => EmptyString
  | String c r => if Ascii.eqb c " " then removeSpaces r else String c (removeSpaces r)
  end.

Fixpoint rev_acc (s acc : string) : string :=
  match s with
  | EmptyString => acc
  | String c r => rev_acc r (String c acc)
  end.

Definition rev (s : string) : string := rev_acc s EmptyString.

Fixpoint trimLeft (s : string) : string :=
  match s with
  | String c r => if isSpaceB c then trimLeft r else s
  | EmptyString => EmptyString
  end.

(** [strings.TrimSpace]. *)
Definition TrimSpace (s : string) : string := rev (trimLeft (rev (trimLeft s))).

(** [strings.HasPrefix(s, p)]. *)
Fixpoint HasPrefix (s p : string) : bool :=
  match p, s with
  | EmptyString, _ => true
  | String a p', String b s' => (Ascii.eqb a b && HasPrefix s' p')%bool
  | String _ _, EmptyString => false
  end.

(** [strings.Contains(s, sub)]. *)
Fixpoint Contains (s sub : string) : bool :=
  (HasPrefix s sub ||
   match s with
   | EmptyString => false
   | String _ r => Contains r sub
   end)%bool.

(** [strings.HasSuffix(s, suffix)]. *)
Definition HasSuffix (s suffix : string) : bool := HasPrefix (rev s) (rev suffix).

(** [strings.Count(s, string(c))] for a one-byte pattern. *)
Fixpoint CountChar (s : string) (c : ascii) : nat :=
  match s with
  | EmptyString => O
  | String a r => ((if Ascii.eqb a c then 1 else 0) + CountChar r c)%nat
  end.

(** [strings.ContainsRune] / membership of a byte in a string. *)
Fixpoint ContainsChar (s : string) (c : ascii) : bool :=
  match s with
  | EmptyString => false
  | String a r => (Ascii.eqb a c || ContainsChar r c)%bool
  end.

(** The slice [s[:n]]. *)
Fixpoint take (n : nat) (s : string) : string :=
  match n, s with
  | S n', String c r => String c (take n' r)
  | _, _ => EmptyString
  end.

(** The slice [s[n:]]. *)
Fixpoint drop (n : nat) (s : string) : string :=
  match n, s with
  | S n', String _ r => drop n' r
  | _, _ => s
  end.

(** [strings.LastIndex(s, string(c))]: the largest index of [c], if any. *)
Fixpoint LastIndexChar (s : string) (c : ascii) : option nat :=
  match s with
  | EmptyString => None
  | String a r =>
      match LastIndexChar r c with
      | Some i => Some (S i)
      | None => if Ascii.eqb a c then Some O else None
      end
  end.

(** [strings.Replace(s, old, new, 1)]: the first occurrence of [old]
    (a non-empty string here) is replaced. *)
Fixpoint Replace1 (s old new : string) : string :=
  if HasPrefix s old then new ++ drop (String.length old) s
  else match s with
       | EmptyString => EmptyString
       | String c r => String c (Replace1 r old new)
       end.

(** [strings.Split(s, string(sep))] for a one-byte separator. *)
Fixpoint SplitChar_go (s : string) (sep : ascii) (cur : string) : list string :=
  match s with
  | EmptyString => [rev cur]
  | String c r =>
      if Ascii.eqb c sep then rev cur :: SplitChar_go r sep EmptyString
      else SplitChar_go r sep (String c cur)
  end.

Definition SplitChar (s : string) (sep : ascii) : list string :=
  SplitChar_go s sep EmptyString.

Definition string_of_Z (n : Z) : string :=
  NilZero.string_of_uint (N.to_uint (Z.to_N n)).

Definition nonEmpty (s : string) : bool :=
  match s with EmptyString => false | _ => true end.

Definition inList (x : string) (l : list string) : bool :=
  existsb (String.eqb x) l.

Fixpoint repeatChar (c : ascii) (n : nat) : string :=
  match n with
  | O => EmptyString
  | S n' => String c (repeatChar c n')
  end.

End Str.
Export Str.

(** ** Go's [strconv] and [fmt] on float64 *)

Module Strconv.

(** [num / den] rounded to the nearest float64, ties to even
    ([num], [den] positive). *)
Definition round_ratio (sgn : bool) (num den : Z) : float64 :=
  let '(q, e, l) := SFdiv_core_binary prec emax num 0 den 0 in
  binary_round_aux prec emax sgn q e l.

Definition digitVal (c : ascii) : Z := Z.of_nat (code c) - 48.

(** Reads a run of decimal digits: the accumulated value, the number of
    digits read and the rest of the input. *)
Fixpoint readDigits (s : string) (acc : Z) (n : nat) : Z * nat * string :=
  match s with
  | String c r =>
      if isDigitB c then readDigits r (10 * acc + digitVal c) (S n)
      else (acc, n, s)
  | EmptyString => (acc, n, s)
  end.

Definition readSign (s : string) : bool * string :=
  match s with
  | String "-" r => (true, r)
  | String "+" r => (false, r)
  | _ => (false, s)
  end.

(** The optional exponent part [e[+-]ddd] of a decimal literal; [None] when
    an exponent marker is not followed by digits or text is left over. *)
Definition readExponent (s : string) : option Z :=
  match s with
  | EmptyString => Some 0
  | String c r =>
      if Ascii.eqb (lowerChar c) "e" then
        let '(esgn, r1) := readSign r in
        let '(e, ne, r2) := readDigits r1 0 0 in
        match ne, r2 with
        | S _, EmptyString => Some (if esgn then - e else e)
        | _, _ => None
        end
      else None
  end.

(** The decimal floating-point literals of [strconv.ParseFloat]:
    [digits [. digits] [exponent]] with at least one mantissa digit.
    Returns the mantissa, the number of digits after the point and the
    exponent. *)
Definition readDecimal (s : string) : option (Z * nat * Z) :=
  let '(m1, n1, r1) := readDigits s 0 0 in
  let '(m2, n2, r2) :=
    match r1 with
    | String "." r => readDigits r m1 0
    | _ => (m1, O, r1)
    end in
  match (n1 + n2)%nat with
  | O => None
  | S _ =>
      match readExponent r2 with
      | Some e => Some (m2, n2, e)
      | None => None
      end
  end.

(** [strconv.ParseFloat(s, 64)]; [None] stands for a non-nil error (a syntax
    error, or a range error when the value overflows).  The value is the
    float64 nearest to the decimal number (ties to even); underflow gives a
    zero without error.  Besides decimal literals the words [inf],
    [infinity] (optionally signed) and [nan] are accepted, in any case.
    Hexadecimal literals ([0x...p...]) and underscores between digits are
    not modelled: the engine only passes tokens and number matches, and
    those that hold a digit hold no [x] and no underscore. *)
Definition ParseFloat (s : string) : option float64 :=
  let '(sgn, r) := readSign s in
  let low := ToLower r in
  if (String.eqb low "inf" || String.eqb low "infinity")%bool
  then Some (S754_infinity sgn)
  else if String.eqb (ToLower s) "nan" then Some S754_nan
  else
    match readDecimal r with
    | None => None
    | Some (m, nfrac, e) =>
        if m =? 0 then Some (S754_zero sgn)
        else
          let k := e - Z.of_nat nfrac in
          let v := round_ratio sgn (m * 10 ^ Z.max k 0) (10 ^ Z.max (- k) 0) in
          if IsInf v then None else Some v
    end.

(** [num / den] rounded to the nearest integer, ties to even. *)
Definition div_half_even (num den : Z) : Z :=
  let q := num / den in
  let r := num mod den in
  match 2 * r ?= den with
  | Lt => q
  | Gt => q + 1
  | Eq => if Z.even q then q else q + 1
  end.

(** [m * 2^e * 10^p] rounded to the nearest integer, ties to even. *)
Definition scaled (m : positive) (e p : Z) : Z :=
  div_half_even (Zpos m * 2 ^ Z.max e 0 * 10 ^ Z.max p 0)
                (2 ^ Z.max (- e) 0 * 10 ^ Z.max (- p) 0).

Definition signStr (s : bool) : string := if s then "-" else "".

(** The digits of [n] with [p] digits after the point, [n] counting units
    of [10^-p]. *)
Definition fixedStr (p : nat) (n : Z) : string :=
  let P := 10 ^ Z.of_nat p in
  string_of_Z (n / P) ++
  match p with
  | O => ""
  | S _ => "." ++ drop 1 (string_of_Z (P + n mod P))
  end.

(** [fmt.Sprintf("%.<p>f", x)]. *)
Definition FormatF (p : nat) (x : float64) : string :=
  match x with
  | S754_nan => "NaN"
  | S754_infinity false => "+Inf"
  | S754_infinity true => "-Inf"
  | S754_zero s => signStr s ++ fixedStr p 0
  | S754_finite s m e => signStr s ++ fixedStr p (scaled m e (Z.of_nat p))
  end.

(** [10^k <= m * 2^e]. *)
Definition ge_pow10 (m : positive) (e k : Z) : bool :=
  10 ^ Z.max k 0 * 2 ^ Z.max (- e) 0 <=? Zpos m * 2 ^ Z.max e 0 * 10 ^ Z.max (- k) 0.

(** The decimal exponent [X] of [m * 2^e]: [10^X <= m * 2^e < 10^(X+1)]. *)
Definition decExponent (m : positive) (e : Z) : Z :=
  let b := Zpos (digits2_pos m) + e in
  let k0 := ((b - 1) * 30103) / 100000 - 1 in
  let k1 := if ge_pow10 m e (k0 + 1) then k0 + 1 else k0 in
  let k2 := if ge_pow10 m e (k1 + 1) then k1 + 1 else k1 in
  if ge_pow10 m e (k2 + 1) then k2 + 1 else k2.

Fixpoint stripZeros_rev (s : string) : string :=
  match s with
  | String "0" r => stripZeros_rev r
  | _ => s
  end.

(** Drops the trailing zeros of a digit string. *)
Definition stripTrailingZeros (s : string) : string := rev (stripZeros_rev (rev s)).

(** The digit at index [i] of a digit string, ["0"] outside of it. *)
Definition digitAt (ds : string) (i : Z) : ascii :=
  if i <? 0 then "0"%char
  else match String.get (Z.to_nat i) ds with
       | Some c => c
       | None => "0"%char
       end.

Fixpoint digitsFrom (ds : string) (i : Z) (n : nat) : string :=
  match n with
  | O => EmptyString
  | S n' => String (digitAt ds i) (digitsFrom ds (i + 1) n')
  end.

(** [%e] layout for the digits [ds] with decimal exponent [X]. *)
Definition layoutE (ds : string) (X : Z) : string :=
  take 1 ds ++
  (if Nat.ltb 1 (String.length ds) then "." ++ drop 1 ds else "") ++
  "e" ++ (if X <? 0 then "-" else "+") ++
  (if Z.abs X <? 10 then "0" else "") ++ string_of_Z (Z.abs X).

(** [%f] layout for the digits [ds] with the decimal point after [dp]
    digits. *)
Definition layoutF (ds : string) (dp : Z) : string :=
  let nd := Z.of_nat (String.length ds) in
  (if 0 <? dp then digitsFrom ds 0 (Z.to_nat dp) else "0") ++
  (if dp <? nd then "." ++ digitsFrom ds dp (Z.to_nat (nd - dp)) else "").

(** [fmt.Sprintf("%.6g", x)]: six significant digits, trailing zeros
    dropped, exponent form when the decimal exponent is below -4 or at
    least 6. *)
Definition FormatG6 (x : float64) : string :=
  match x with
  | S754_nan => "NaN"
  | S754_infinity false => "+Inf"
  | S754_infinity true => "-Inf"
  | S754_zero s => signStr s ++ "0"
  | S754_finite s m e =>
      let X0 := decExponent m e in
      let D0 := scaled m e (5 - X0) in
      let '(D, X) := if D0 =? 1000000 then (100000, X0 + 1) else (D0, X0) in
      let ds := stripTrailingZeros (string_of_Z D) in
      signStr s ++
      (if ((X <? -4) || (6 <=? X))%bool then layoutE ds X else layoutF ds (X + 1))
  end.

End Strconv.
Export Strconv.

(** ** Go's [math] package

    The functions below are computed by the Go runtime; the engine only
    passes their results on.  [math_Pow_rest] is [math.Pow] outside of its
    first special case, and [int_of_float64] is the conversion [int(x)]. *)

Record GoMath : Type := {
  math_Sin : float64 -> float64;
  math_Cos : float64 -> float64;
  math_Tan : float64 -> float64;
  math_Asin : float64 -> float64;
  math_Acos : float64 -> float64;
  math_Atan : float64 -> float64;
  math_Sinh : float64 -> float64;
  math_Cosh : float64 -> float64;
  math_Tanh : float64 -> float64;
  math_Cbrt : float64 -> float64;
  math_Log : float64 -> float64;
  math_Log10 : float64 -> float64;
  math_Exp : float64 -> float64;
  math_Round : float64 -> float64;
  math_Floor : float64 -> float64;
  math_Ceil : float64 -> float64;
  math_Mod : float64 -> float64 -> float64;
  math_Pow_rest : float64 -> float64 -> float64;
  int_of_float64 : float64 -> Z
}.

(** [math.Pow]: [Pow(x, +-0) = 1] for any [x] and [Pow(1, y) = 1] for any
    [y] (the first case of its switch); the runtime's value otherwise. *)
Definition math_Pow (rt : GoMath) (x y : float64) : float64 :=
  if (F64.eqb y zero || F64.eqb x one)%bool then one
  else math_Pow_rest rt x y.

Definition of_decimal (s : string) : float64 :=
  match ParseFloat s with
  | Some v => v
  | None => NaN
  end.

(** [math.Pi] and [math.E] as float64 values. *)
Definition math_Pi : float64 :=
  Eval vm_compute in of_decimal "3.14159265358979323846264338327950288419716939937510582097494459".
Definition math_E : float64 :=
  Eval vm_compute in of_decimal "2.71828182845904523536028747135266249775724709369995957496696763".

(** ** Package [calculator] *)

Module calculator.

(** *** arithmetic.go *)

Definition Add (a b : float64) : float64 := F64.add a b.
Definition Subtract (a b : float64) : float64 := F64.sub a b.
Definition Multiply (a b : float64) : float64 := F64.mul a b.

Definition Divide (a b : float64) : result float64 :=
  if F64.eqb b zero then Err "division by zero"
  else Ok (F64.div a b).

Definition Power (rt : GoMath) (base exponent : float64) : float64 :=
  math_Pow rt base exponent.

Definition Modulus (rt : GoMath) (a b : float64) : result float64 :=
  if F64.eqb b zero then Err "modulus by zero"
  else Ok (math_Mod rt a b).

Definition Percentage (value percent : float64) : float64 :=
  F64.div (F64.mul value percent) (of_Z 100).

(** The loop [for i := 2.0; i <= n; i++ { result *= i }], at most [fuel]
    tests of its condition; [None] when they do not suffice. *)
Fixpoint Factorial_loop (fuel : nat) (i res n : float64) : option float64 :=
  match fuel with
  | O => None
  | S f =>
      if F64.leb i n then Factorial_loop f (F64.add i one) (F64.mul res i) n
      else Some res
  end.

Definition two53 : float64 := Eval vm_compute in of_Z (2 ^ 53).

(** Below 2^53 the counter [i] reaches every integer up to [n], so [n + 1]
    tests suffice.  From 2^53 on, [i++] leaves [i] unchanged
    (2^53 + 1 rounds to 2^53) and the loop never exits: no fuel. *)
Definition Factorial_fuel (n : float64) : nat :=
  if F64.ltb n two53 then S (Z.to_nat (to_Z n)) else O.

Definition Factorial (n : float64) : result float64 :=
  if (F64.ltb n zero || F64.neqb n (Trunc n))%bool
  then Err "factorial undefined for non-integer or negative numbers"
  else
    match Factorial_loop (Factorial_fuel n) (of_Z 2) one n with
    | Some r => Ok r
    | None => Diverge
    end.

(** *** memory.go *)

Record Calculator : Type := mkCalculator {
  memory : float64;
  lastResult : float64;
  history : list string
}.

Definition NewCalculator : Calculator :=
  {| memory := zero; lastResult := zero; history := [] |}.

Definition SetMemory (c : Calculator) (value : float64) : Calculator :=
  {| memory := value; lastResult := lastResult c; history := history c |}.

Definition GetMemory (c : Calculator) : float64 := memory c.

Definition AddToMemory (c : Calculator) (value : float64) : Calculator :=
  {| memory := F64.add (memory c) value; lastResult := lastResult c; history := history c |}.

Definition SubtractFromMemory (c : Calculator) (value : float64) : Calculator :=
  {| memory := F64.sub (memory c) value; lastResult := lastResult c; history := history c |}.

Definition ClearMemory (c : Calculator) : Calculator :=
  {| memory := zero; lastResult := lastResult c; history := history c |}.

Definition SetLastResult (c : Calculator) (value : float64) : Calculator :=
  {| memory := memory c; lastResult := value; history := history c |}.

Definition GetLastResult (c : Calculator) : float64 := lastResult c.

(** The entry [fmt.Sprintf("%s = %.6g", expression, result)]. *)
Definition historyLine (expression : string) (res : float64) : string :=
  expression ++ " = " ++ FormatG6 res.

Definition AddToHistory (c : Calculator) (expression : string) (res : float64)
  : Calculator :=
  let h := (history c ++ [historyLine expression res])%list in
  {| memory := memory c;
     lastResult := lastResult c;
     history := if Nat.ltb 100 (List.length h) then List.tl h else h |}.

(** *** history.go *)

(** Instants of [time.Time]. *)
Definition Time := Z.

Record HistoryEntry : Type := mkHistoryEntry {
  Expression : string;
  Result : float64;
  Timestamp : Time
}.

(** The loop of [GetHistory] over the entries from index [i] on; [now k] is
    what [time.Now()] returns when the entry of index [k] is built. *)
Fixpoint GetHistory_from (now : nat -> Time) (i : nat) (h : list string)
  : list HistoryEntry :=
  match h with
  | [] => []
  | entry :: r =>
      {| Expression := entry; Result := zero; Timestamp := now i |}
        :: GetHistory_from now (S i) r
  end.

Definition GetHistory (now : nat -> Time) (c : Calculator) : list HistoryEntry :=
  GetHistory_from now O (history c).

Definition ClearHistory (c : Calculator) : Calculator :=
  {| memory := memory c; lastResult := lastResult c; history := [] |}.

(** *** scientific functions (radians) *)

Definition Sin (rt : GoMath) (x : float64) : float64 := math_Sin rt x.
Definition Cos (rt : GoMath) (x : float64) : float64 := math_Cos rt x.
Definition Tan (rt : GoMath) (x : float64) : float64 := math_Tan rt x.

Definition minus_one : float64 := Eval vm_compute in of_Z (-1).

Definition Asin (rt : GoMath) (x : float64) : result float64 :=
  if (F64.ltb x minus_one || F64.gtb x one)%bool
  then Err "asin input must be between -1 and 1"
  else Ok (math_Asin rt x).

Definition Acos (rt : GoMath) (x : float64) : result float64 :=
  if (F64.ltb x minus_one || F64.gtb x one)%bool
  then Err "acos input must be between -1 and 1"
  else Ok (math_Acos rt x).

Definition Atan (rt : GoMath) (x : float64) : float64 := math_Atan rt x.
Definition Sinh (rt : GoMath) (x : float64) : float64 := math_Sinh rt x.
Definition Cosh (rt : GoMath) (x : float64) : float64 := math_Cosh rt x.
Definition Tanh (rt : GoMath) (x : float64) : float64 := math_Tanh rt x.

Definition Sqrt (x : float64) : result float64 :=
  if F64.ltb x zero then Err "square root of negative number"
  else Ok (F64.Sqrt x).

Definition Cbrt (rt : GoMath) (x : float64) : float64 := math_Cbrt rt x.

Definition Log (rt : GoMath) (x : float64) : result float64 :=
  if F64.leb x zero then Err "logarithm undefined for non-positive numbers"
  else Ok (math_Log rt x).

Definition Log10 (rt : GoMath) (x : float64) : result float64 :=
  if F64.leb x zero then Err "log10 undefined for non-positive numbers"
  else Ok (math_Log10 rt x).

Definition Exp (rt : GoMath) (x : float64) : float64 := math_Exp rt x.
Definition Abs (x : float64) : float64 := F64.Abs x.

End calculator.

(** Go's [error]: [None] is [nil], [Some msg] an error with that text. *)
Definition error := option string.

(** ** Package [utils] *)

Module utils.

(** [DegreesToRadians]: [degrees * math.Pi / 180]. *)
Definition DegreesToRadians (degrees : float64) : float64 :=
  F64.div (F64.mul degrees math_Pi) (of_Z 180).

(** [ParseScientificNotation]; [None] stands for its non-nil error. *)
Definition ParseScientificNotation (rt : GoMath) (s : string) : option float64 :=
  match SplitChar (ToLower s) "e" with
  | [m; e] =>
      match ParseFloat m with
      | None => None
      | Some mantissa =>
          match ParseFloat e with
          | None => None
          | Some exponent => Some (F64.mul mantissa (math_Pow rt (of_Z 10) exponent))
          end
      end
  | _ => None
  end.

(** *** The regular expressions of validators.go *)

(** One character of the class [[0-9+\-*/().^%!a-z\s]] (the class also
    holds the two-byte letter pi, see [validExprChars]). *)
Definition validExprChar (c : ascii) : bool :=
  (isDigitB c || ContainsChar "+-*/().^%!" c || isLowerB c || isReSpaceB c)%bool.

Definition byte_CF : ascii := ascii_of_nat 207.
Definition byte_80 : ascii := ascii_of_nat 128.

(** Every rune is in the class of [ValidExpressionRegex]; the letter pi is
    the byte pair CF 80. *)
Fixpoint validExprChars (s : string) : bool :=
  match s with
  | EmptyString => true
  | String c r =>
      if validExprChar c then validExprChars r
      else
        match r with
        | String c2 r2 =>
            if (Ascii.eqb c byte_CF && Ascii.eqb c2 byte_80)%bool
            then validExprChars r2 else false
        | EmptyString => false
        end
  end.

(** [ValidExpressionRegex.MatchString]: one or more runes of the class. *)
Definition ValidExpressionRegex_Match (s : string) : bool :=
  match s with
  | EmptyString => false
  | _ => validExprChars s
  end.

Fixpoint spanDigits_go (s acc : string) : string * string :=
  match s with
  | String c r => if isDigitB c then spanDigits_go r (String c acc) else (rev acc, s)
  | EmptyString => (rev acc, s)
  end.

(** The longest prefix of digits, and what follows it. *)
Definition spanDigits (s : string) : string * string := spanDigits_go s EmptyString.

(** The part [\d*\.?\d+] of the number pattern, matched at the head
    of [s]: the match and the rest. *)
Definition matchMantissa (s : string) : option (string * string) :=
  let '(d1, r1) := spanDigits s in
  let short := if nonEmpty d1 then Some (d1, r1) else None in
  match r1 with
  | String "." r2 =>
      let '(d2, r3) := spanDigits r2 in
      if nonEmpty d2 then Some (d1 ++ "." ++ d2, r3) else short
  | _ => short
  end.

(** The optional group [(?:[eE][+-]?\d+)?] at the head of [s]. *)
Definition matchExponent (s : string) : string * string :=
  match s with
  | String c r =>
      if (Ascii.eqb c "e" || Ascii.eqb c "E")%bool then
        let '(sg, r1) :=
          match r with
          | String "+" r' => ("+", r')
          | String "-" r' => ("-", r')
          | _ => ("", r)
          end in
        let '(d, r2) := spanDigits r1 in
        if nonEmpty d then (String c (sg ++ d), r2) else ("", s)
      else ("", s)
  | EmptyString => ("", s)
  end.

(** The pattern [-?\d*\.?\d+(?:[eE][+-]?\d+)?] matched at the head
    of [s]. *)
Definition matchNumberAt (s : string) : option (string * string) :=
  let '(sg, r0) :=
    match s with
    | String "-" r => ("-", r)
    | _ => ("", s)
    end in
  match matchMantissa r0 with
  | None => None
  | Some (m, r1) =>
      let '(e, r2) := matchExponent r1 in
      Some (sg ++ m ++ e, r2)
  end.

(** [numberPattern.FindAllString(expr, -1)]: the matches from left to
    right, each search resuming where the previous match ended ([skip]
    counts the bytes of the current match still to be passed). *)
Fixpoint findNumbers_go (skip : nat) (s : string) : list string :=
  match s with
  | EmptyString => []
  | String _ r =>
      match skip with
      | S k => findNumbers_go k r
      | O =>
          match matchNumberAt s with
          | Some (m, _) => m :: findNumbers_go (Nat.pred (String.length m)) r
          | None => findNumbers_go O r
          end
      end
  end.

Definition findNumbers (s : string) : list string := findNumbers_go O s.

(** [ValidNumberRegex.MatchString]: the whole string matches the number
    pattern. *)
Definition ValidNumberRegex_Match (s : string) : bool :=
  let r0 := match s with String "-" r => r | _ => s end in
  let '(d1, r1) := spanDigits r0 in
  let tailOk (r : string) : bool :=
    match r with
    | EmptyString => true
    | _ => match matchExponent r with
           | (String _ _, EmptyString) => true
           | _ => false
           end
    end in
  match r1 with
  | String "." r2 =>
      let '(d2, r3) := spanDigits r2 in
      (nonEmpty d2 && tailOk r3)%bool
  | _ => (nonEmpty d1 && tailOk r1)%bool
  end.

(** The names captured by [([a-z]+)\(] over the whole string
    ([FindAllStringSubmatch]); [cur] is the run of lower-case letters
    read so far, reversed. *)
Fixpoint findFuncNames_go (s cur : string) : list string :=
  match s with
  | EmptyString => []
  | String c r =>
      if isLowerB c then findFuncNames_go r (String c cur)
      else if (Ascii.eqb c "(" && nonEmpty cur)%bool
           then rev cur :: findFuncNames_go r EmptyString
           else findFuncNames_go r EmptyString
  end.

Definition findFuncNames (s : string) : list string := findFuncNames_go s EmptyString.

(** [ValidIdentifierRegex.MatchString]. *)
Definition ValidIdentifierRegex_Match (s : string) : bool :=
  match s with
  | String c r =>
      ((isLetterB c || Ascii.eqb c "_") &&
       (fix all (t : string) : bool :=
          match t with
          | EmptyString => true
          | String a t' => (isWordB a && all t')%bool
          end) r)%bool
  | EmptyString => false
  end.

(** *** validators.go *)

(** [HasBalancedParentheses], from the balance [balance]. *)
Fixpoint HasBalancedParentheses_go (s : string) (balance : Z) : bool :=
  match s with
  | EmptyString => balance =? 0
  | String c r =>
      if Ascii.eqb c "(" then HasBalancedParentheses_go r (balance + 1)
      else if Ascii.eqb c ")" then
             if balance - 1 <? 0 then false
             else HasBalancedParentheses_go r (balance - 1)
           else HasBalancedParentheses_go r balance
  end.

Definition HasBalancedParentheses (expr : string) : bool :=
  HasBalancedParentheses_go expr 0.

Definition operators : string := "+-*/^%".

Definition isSign (c : ascii) : bool := (Ascii.eqb c "+" || Ascii.eqb c "-")%bool.

Fixpoint HasConsecutiveOperators_go (s : string) (prev : ascii) : bool :=
  match s with
  | EmptyString => false
  | String ch r =>
      if (ContainsChar operators prev && ContainsChar operators ch
          && negb (isSign prev && isSign ch))%bool
      then true
      else HasConsecutiveOperators_go r ch
  end.

Definition HasConsecutiveOperators (expr : string) : bool :=
  HasConsecutiveOperators_go expr " ".

Definition validFunctions : list string :=
  ["sin"; "cos"; "tan"; "asin"; "acos"; "atan"; "sinh"; "cosh"; "tanh";
   "sqrt"; "cbrt"; "log"; "log10"; "exp"; "abs"].

Fixpoint firstUnknown (names : list string) : option string :=
  match names with
  | [] => None
  | n :: r => if inList n validFunctions then firstUnknown r else Some n
  end.

Definition ValidateFunctionCalls (expr : string) : error :=
  match firstUnknown (findFuncNames expr) with
  | Some funcName => Some ("unknown function: " ++ funcName)
  | None =>
      if Nat.eqb (CountChar expr "(") (CountChar expr ")") then None
      else Some "mismatched parentheses"
  end.

Definition containsE (s : string) : bool :=
  (ContainsChar s "e" || ContainsChar s "E")%bool.

Definition validateNumber (rt : GoMath) (numStr : string) : error :=
  if negb (ValidNumberRegex_Match numStr)
  then Some ("invalid number format: " ++ numStr)
  else if Nat.ltb 1 (CountChar numStr ".")
  then Some ("invalid number with multiple decimal points: " ++ numStr)
  else if containsE numStr then
    if negb (Nat.eqb (List.length (SplitChar (ToLower numStr) "e")) 2)
    then Some ("invalid scientific notation: " ++ numStr)
    else match ParseScientificNotation rt numStr with
         | None => Some ("invalid scientific notation: " ++ numStr)
         | Some _ => None
         end
  else None.

Fixpoint validateNumbers_loop (rt : GoMath) (numbers : list string) : error :=
  match numbers with
  | [] => None
  | numStr :: r =>
      match validateNumber rt numStr with
      | Some e => Some e
      | None => validateNumbers_loop rt r
      end
  end.

Definition ValidateNumbers (rt : GoMath) (expr : string) : error :=
  validateNumbers_loop rt (findNumbers expr).

Definition ValidateExpression (rt : GoMath) (expr : string) : error :=
  if String.eqb expr "" then Some "empty expression"
  else if negb (HasBalancedParentheses expr) then Some "unbalanced parentheses"
  else if HasConsecutiveOperators expr then Some "consecutive operators"
  else if negb (ValidExpressionRegex_Match expr)
  then Some "invalid characters in expression"
  else if (Contains expr "/0" && negb (Contains expr "/0.")
           && negb (Contains expr "/0."))%bool
  then Some "potential division by zero"
  else
    match ValidateFunctionCalls expr with
    | Some e => Some e
    | None => ValidateNumbers rt expr
    end.

Definition ValidateFactorialArgument (x : float64) : error :=
  if (F64.ltb x zero || F64.neqb x (Trunc x))%bool
  then Some "factorial undefined for non-integer or negative numbers"
  else if F64.gtb x (of_Z 170) then Some "factorial too large for calculation"
  else None.

Definition ValidatePower (base exponent : float64) : error :=
  if (F64.eqb base zero && F64.leb exponent zero)%bool
  then Some "0^0 or 0^(negative) is undefined"
  else if (F64.ltb base zero && F64.neqb exponent (Trunc exponent))%bool
  then Some "negative base with non-integer exponent"
  else None.

Definition reservedKeywords : list string :=
  ["pi"; "e"; "ans"; "sin"; "cos"; "tan"; "asin"; "acos"; "atan";
   "sinh"; "cosh"; "tanh"; "sqrt"; "cbrt"; "log"; "log10"; "exp"; "abs";
   "exit"; "quit"; "help"; "clear"; "mem"; "history"].

Definition IsReservedKeyword (s : string) : bool := inList (ToLower s) reservedKeywords.

Definition IsValidVariableName (name : string) : bool :=
  (ValidIdentifierRegex_Match name && negb (IsReservedKeyword name))%bool.

(** *** Validators of single values *)

Definition ValidateAngle (angle : float64) (mode : string) : error :=
  if String.eqb mode "deg" then
    if (IsInf angle || IsNaN angle)%bool then Some "invalid angle value" else None
  else if String.eqb mode "rad" then
    if (IsInf angle || IsNaN angle)%bool then Some "invalid angle value" else None
  else None.

Definition ValidateLogArgument (x : float64) : error :=
  if F64.leb x zero then Some "logarithm undefined for non-positive numbers"
  else if (IsInf x || IsNaN x)%bool then Some "invalid argument for logarithm"
  else None.

Definition ValidateSqrtArgument (x : float64) : error :=
  if F64.ltb x zero then Some "square root undefined for negative numbers"
  else if (IsInf x || IsNaN x)%bool then Some "invalid argument for square root"
  else None.

Definition ValidateDivision (numerator denominator : float64) : error :=
  if F64.eqb denominator zero then Some "division by zero"
  else if (IsInf numerator || IsInf denominator)%bool
  then Some "invalid values for division"
  else if (IsNaN numerator || IsNaN denominator)%bool
  then Some "NaN values for division"
  else None.

Definition ValidateProbability (p : float64) : error :=
  if (F64.ltb p zero || F64.gtb p one)%bool
  then Some "probability must be between 0 and 1"
  else if (IsInf p || IsNaN p)%bool then Some "invalid probability value"
  else None.

Definition ValidateComplexNumber (real imag : float64) : error :=
  if (IsInf real || IsInf imag)%bool
  then Some "complex number components cannot be infinite"
  else if (IsNaN real || IsNaN imag)%bool
  then Some "complex number components cannot be NaN"
  else None.

(** *** Integer and string helpers *)

(** The loop [for b != 0 { a, b = b, a%b }], at most [fuel] rounds;
    [a%b] is the remainder of the division that truncates. *)
Fixpoint GCD_loop (fuel : nat) (a b : Z) : option Z :=
  if b =? 0 then Some a
  else match fuel with
       | O => None
       | S f => GCD_loop f b (Z.rem a b)
       end.

(** [GCD]: the absolute value of [b] decreases in every round. *)
Definition GCD (a b : Z) : option Z := GCD_loop (Z.abs_nat b) a b.

(** [LCM]: [a * b / GCD(a, b)], the product wrapping and the division
    panicking when the divisor is 0. *)
Definition LCM (a b : Z) : result Z :=
  match GCD a b with
  | None => Diverge
  | Some g =>
      if g =? 0 then panic "runtime error: integer divide by zero"
      else Ok (wrap64 (Z.quot (wrap64 (a * b)) g))
  end.

(** [TruncateString]: the slice [s[:maxLen-3]] panics when its bound is
    negative or beyond the length. *)
Definition TruncateString (s : string) (maxLen : Z) : result string :=
  if Z.of_nat (String.length s) <=? maxLen then Ok s
  else
    let k := wrap64 (maxLen - 3) in
    if ((k <? 0) || (Z.of_nat (String.length s) <? k))%bool
    then panic "runtime error: slice bounds out of range"
    else Ok (take (Z.to_nat k) s ++ "...").

(** [FactorialTable]: 0! to 10!. *)
Definition FactorialTable : list float64 :=
  map of_Z [1; 1; 2; 6; 24; 120; 720; 5040; 40320; 362880; 3628800].

(** The loop [for i := len(FactorialTable); i <= n; i++] of
    [GetFactorial], at most [fuel] rounds. *)
Fixpoint GetFactorial_loop (fuel : nat) (i n : Z) (res : float64) : option float64 :=
  if i <=? n then
    match fuel with
    | O => None
    | S f => GetFactorial_loop f (wrap64 (i + 1)) n (F64.mul res (of_Z i))
    end
  else Some res.

(** [GetFactorial]: the loop runs [n - 10] rounds, but for the largest
    [int], where [i <= n] always holds and it never ends. *)
Definition GetFactorial (n : Z) : result float64 :=
  if n <? 0 then Ok NaN
  else if n <? Z.of_nat (List.length FactorialTable)
  then Ok (nth (Z.to_nat n) FactorialTable NaN)
  else
    match GetFactorial_loop (Z.to_nat (n - 10)) (Z.of_nat (List.length FactorialTable)) n
            (nth (List.length FactorialTable - 1) FactorialTable NaN) with
    | Some r => Ok r
    | None => Diverge
    end.

(** The loop [for i := 5; i*i <= n; i += 6] of [IsPrime], at most [fuel]
    rounds; a remainder by 0 panics. *)
Fixpoint IsPrime_loop (fuel : nat) (n i : Z) : result bool :=
  if wrap64 (i * i) <=? n then
    match fuel with
    | O => Diverge
    | S f =>
        if i =? 0 then panic "runtime error: integer divide by zero"
        else if Z.rem n i =? 0 then Ok false
        else if wrap64 (i + 2) =? 0 then panic "runtime error: integer divide by zero"
        else if Z.rem n (wrap64 (i + 2)) =? 0 then Ok false
        else IsPrime_loop f n (wrap64 (i + 6))
    end
  else Ok true.

(** [IsPrime]: a number that 2 and 3 do not divide is met by [i] or by
    [i + 2] after [n / 6] rounds at most. *)
Definition IsPrime (n : Z) : result bool :=
  if n <? 2 then Ok false
  else if ((n =? 2) || (n =? 3))%bool then Ok true
  else if ((Z.rem n 2 =? 0) || (Z.rem n 3 =? 0))%bool then Ok false
  else IsPrime_loop (S (Z.to_nat (n / 6))) n 5.

End utils.

(** ** Package [parser] *)

Module parser.

Import calculator.

(** A Go [map[string]float64], in the order in which it is ranged over
    (an order Go leaves unspecified). *)
Definition fmap := list (string * float64).

Fixpoint map_set (m : fmap) (k : string) (v : float64) : fmap :=
  match m with
  | [] => [(k, v)]
  | (k', v') :: r => if String.eqb k' k then (k, v) :: r else (k', v') :: map_set r k v
  end.

Fixpoint map_get (m : fmap) (k : string) : option float64 :=
  match m with
  | [] => None
  | (k', v') :: r => if String.eqb k' k then Some v' else map_get r k
  end.

(** The fields [ops], [funcRegex] and [unaryMinus] never change after
    [NewParser]; they are the constants [ops], [findFuncCall] and
    [unaryMinus] below. *)
Record Parser : Type := mkParser {
  calc : Calculator;
  angleMode : string;
  variables : fmap;
  constants : fmap
}.

Definition NewParser (c : Calculator) : Parser :=
  {| calc := c;
     angleMode := "rad";
     variables := [];
     constants := [("pi", math_Pi); ("e", math_E); ("ans", zero)] |}.

Definition ops : list (string * Z) :=
  [("+", 1); ("-", 1); ("*", 2); ("/", 2); ("%", 2); ("^", 3)].

Definition unaryMinus : string := "~".

Definition set_calc (p : Parser) (c : Calculator) : Parser :=
  {| calc := c; angleMode := angleMode p; variables := variables p;
     constants := constants p |}.

Definition set_constant (p : Parser) (k : string) (v : float64) : Parser :=
  {| calc := calc p; angleMode := angleMode p; variables := variables p;
     constants := map_set (constants p) k v |}.

Definition SetAngleMode (p : Parser) (mode : string) : Parser :=
  if (String.eqb mode "deg" || String.eqb mode "rad")%bool
  then {| calc := calc p; angleMode := mode; variables := variables p;
          constants := constants p |}
  else p.

Definition SetVariable (p : Parser) (name : string) (value : float64)
  : error * Parser :=
  if negb (utils.IsValidVariableName name)
  then (Some ("invalid variable name: " ++ name), p)
  else (None,
        {| calc := calc p; angleMode := angleMode p;
           variables := map_set (variables p) name value;
           constants := constants p |}).

Definition GetVariable (p : Parser) (name : string) : option float64 :=
  map_get (variables p) name.

Definition ClearVariables (p : Parser) : Parser :=
  {| calc := calc p; angleMode := angleMode p; variables := [];
     constants := constants p |}.

(** *** Helpers *)

Definition isDigit (ch : ascii) : bool := isDigitB ch.

Definition isNumber (s : string) : bool :=
  match ParseFloat s with Some _ => true | None => false end.

Fixpoint lookupOp (m : list (string * Z)) (k : string) : option Z :=
  match m with
  | [] => None
  | (k', v) :: r => if String.eqb k' k then Some v else lookupOp r k
  end.

Definition isOperator (token : string) : bool :=
  match lookupOp ops token with
  | Some _ => true
  | None => String.eqb token unaryMinus
  end.

Definition precedence (op : string) : Z :=
  if String.eqb op unaryMinus then 4
  else match lookupOp ops op with
       | Some n => n
       | None => 0
       end.

(** *** Substitution of constants and variables *)

Definition isWordOpt (c : option ascii) : bool :=
  match c with Some a => isWordB a | None => false end.

Definition headChar (s : string) : option ascii :=
  match s with String c _ => Some c | EmptyString => None end.

(** The assertion [\b] between two neighbouring bytes ([None]: no byte,
    the position is an end of the text). *)
Definition wordBoundary (before after : option ascii) : bool :=
  xorb (isWordOpt before) (isWordOpt after).

(** [\bname\b] matches at the head of [s], [prev] being the byte before. *)
Definition wordMatchAt (name : string) (prev : option ascii) (s : string) : bool :=
  (HasPrefix s name
   && wordBoundary prev (headChar s)
   && wordBoundary (headChar (rev name)) (headChar (drop (String.length name) s)))%bool.

(** [regexp.MustCompile(`\b` + name + `\b`).ReplaceAllString(s, repl)] for a
    non-empty [name] and a [repl] without [$]: matches are searched from
    left to right in [s], each search resuming after the previous match
    ([skip] counts the bytes of the current match still to be passed). *)
Fixpoint replaceWord_go (name repl : string) (skip : nat) (prev : option ascii)
  (s : string) : string :=
  match s with
  | EmptyString => EmptyString
  | String c r =>
      match skip with
      | S k => replaceWord_go name repl k (Some c) r
      | O =>
          if wordMatchAt name prev s
          then repl ++ replaceWord_go name repl (Nat.pred (String.length name)) (Some c) r
          else String c (replaceWord_go name repl O (Some c) r)
      end
  end.

Definition replaceWord (name repl s : string) : string :=
  replaceWord_go name repl O None s.

(** One [for name, value := range m] loop of [preprocess]. *)
Fixpoint substitute (m : fmap) (expr : string) : string :=
  match m with
  | [] => expr
  | (name, value) :: r => substitute r (replaceWord name (FormatF 10 value) expr)
  end.

(** *** Function calls *)

Fixpoint span (f : ascii -> bool) (s : string) : string * string :=
  match s with
  | String c r =>
      if f c then let '(a, b) := span f r in (String c a, b) else (EmptyString, s)
  | EmptyString => (EmptyString, EmptyString)
  end.

(** [funcRegex] matched at the head of [s]: an identifier (a letter or
    underscore, then the longest run of word characters), an opening
    parenthesis, the longest run of bytes other than a closing parenthesis,
    and a closing parenthesis.  Returns the two captured groups. *)
Definition matchCallAt (s : string) : option (string * string) :=
  match s with
  | String c r =>
      if (isLetterB c || Ascii.eqb c "_")%bool then
        let '(nm, r1) := span isWordB r in
        match r1 with
        | String "(" r2 =>
            let '(args, r3) := span (fun a => negb (Ascii.eqb a ")")) r2 in
            match r3 with
            | String ")" _ => Some (String c nm, args)
            | _ => None
            end
        | _ => None
        end
      else None
  | EmptyString => None
  end.

(** [funcRegex.FindStringSubmatch]: the leftmost match. *)
Fixpoint findFuncCall (s : string) : option (string * string) :=
  match matchCallAt s with
  | Some m => Some m
  | None =>
      match s with
      | String _ r => findFuncCall r
      | EmptyString => None
      end
  end.

(** [matches[0]] for the groups [name] and [args]. *)
Definition callText (name args : string) : string := name ++ "(" ++ args ++ ")".

Fixpoint parseArguments_go (s cur : string) (parenDepth : Z) : list string :=
  match s with
  | EmptyString => if nonEmpty cur then [TrimSpace (rev cur)] else []
  | String ch r =>
      if Ascii.eqb ch "(" then parseArguments_go r (String ch cur) (parenDepth + 1)
      else if Ascii.eqb ch ")" then parseArguments_go r (String ch cur) (parenDepth - 1)
      else if Ascii.eqb ch "," then
        if parenDepth =? 0
        then TrimSpace (rev cur) :: parseArguments_go r EmptyString parenDepth
        else parseArguments_go r (String ch cur) parenDepth
      else parseArguments_go r (String ch cur) parenDepth
  end.

Definition parseArguments (argsStr : string) : list string :=
  parseArguments_go argsStr EmptyString 0.

Fixpoint min_loop (minVal : float64) (values : list float64) : float64 :=
  match values with
  | [] => minVal
  | v :: r => min_loop (if F64.ltb v minVal then v else minVal) r
  end.

Definition min (values : list float64) : float64 :=
  match values with
  | [] => zero
  | v :: r => min_loop v r
  end.

Fixpoint max_loop (maxVal : float64) (values : list float64) : float64 :=
  match values with
  | [] => maxVal
  | v :: r => max_loop (if F64.gtb v maxVal then v else maxVal) r
  end.

Definition max (values : list float64) : float64 :=
  match values with
  | [] => zero
  | v :: r => max_loop v r
  end.

Section Functions.

Variable rt : GoMath.

Definition evaluateTrigFunction (p : Parser) (name : string) (arg0 : float64)
  : result float64 :=
  let arg :=
    if (String.eqb (angleMode p) "deg" && negb (HasSuffix name "h"))%bool
    then utils.DegreesToRadians arg0 else arg0 in
  if String.eqb name "sin" then Ok (Sin rt arg)
  else if String.eqb name "cos" then Ok (Cos rt arg)
  else if String.eqb name "tan" then Ok (Tan rt arg)
  else if String.eqb name "asin" then Asin rt arg
  else if String.eqb name "acos" then Acos rt arg
  else if String.eqb name "atan" then Ok (Atan rt arg)
  else if String.eqb name "sinh" then Ok (Sinh rt arg)
  else if String.eqb name "cosh" then Ok (Cosh rt arg)
  else if String.eqb name "tanh" then Ok (Tanh rt arg)
  else Err ("unknown trigonometric function: " ++ name).

Definition evaluateMathFunction (name : string) (arg : float64) : result float64 :=
  if String.eqb name "sqrt" then Sqrt arg
  else if String.eqb name "cbrt" then Ok (Cbrt rt arg)
  else if String.eqb name "log" then Log rt arg
  else if String.eqb name "log10" then Log10 rt arg
  else if String.eqb name "exp" then Ok (Exp rt arg)
  else if String.eqb name "abs" then Ok (Abs arg)
  else Err ("unknown math function: " ++ name).

Definition evaluateRounding (name : string) (value : float64) (precision : Z)
  : result float64 :=
  let multiplier := math_Pow rt (of_Z 10) (of_Z precision) in
  if String.eqb name "round"
  then Ok (F64.div (math_Round rt (F64.mul value multiplier)) multiplier)
  else if String.eqb name "floor"
  then Ok (F64.div (math_Floor rt (F64.mul value multiplier)) multiplier)
  else if String.eqb name "ceil"
  then Ok (F64.div (math_Ceil rt (F64.mul value multiplier)) multiplier)
  else Ok value.

(** The switch of [evaluateFunction] on the evaluated arguments. *)
Definition dispatchFunction (p : Parser) (name : string) (argValues : list float64)
  : result float64 :=
  if inList name ["sin"; "cos"; "tan"; "asin"; "acos"; "atan"; "sinh"; "cosh"; "tanh"]
  then match argValues with
       | [a] => evaluateTrigFunction p name a
       | _ => Err ("function " ++ name ++ " expects 1 argument")
       end
  else if inList name ["sqrt"; "cbrt"; "log"; "log10"; "exp"; "abs"]
  then match argValues with
       | [a] => evaluateMathFunction name a
       | _ => Err ("function " ++ name ++ " expects 1 argument")
       end
  else if String.eqb name "pow"
  then match argValues with
       | [a; b] => Ok (Power rt a b)
       | _ => Err "pow expects 2 arguments"
       end
  else if String.eqb name "min"
  then match argValues with
       | [] => Err "min expects at least 1 argument"
       | _ => Ok (min argValues)
       end
  else if String.eqb name "max"
  then match argValues with
       | [] => Err "max expects at least 1 argument"
       | _ => Ok (max argValues)
       end
  else if inList name ["round"; "floor"; "ceil"]
  then match argValues with
       | [a] => evaluateRounding name a 0
       | [a; b] => evaluateRounding name a (int_of_float64 rt b)
       | _ => Err (name ++ " expects 1 or 2 arguments")
       end
  else Err ("unknown function: " ++ name).

End Functions.

(** *** Tokens *)

Definition isContByte (c : ascii) : bool := in_range 128 191 c.
Definition isLeadByte (c : ascii) : bool := in_range 192 255 c.
Definition isHighOpt (c : option ascii) : bool :=
  match c with Some a => in_range 128 255 a | None => false end.

Definition flush (cur : string) (tokens : list string) : list string :=
  if nonEmpty cur then rev cur :: tokens else tokens.

(** The loop of [tokenize]: [prev] is the byte before the current one and
    [cur] the number being built, reversed.  The text is taken to be valid
    UTF-8: the bytes of a multi-byte rune form one token. *)
Fixpoint tokenize_go (s : string) (prev : option ascii) (cur : string) : list string :=
  match s with
  | EmptyString => flush cur []
  | String ch r =>
      if (isDigit ch || Ascii.eqb ch "."
          || (Ascii.eqb ch "e" && match prev with Some q => isDigit q | None => false end))%bool
      then tokenize_go r (Some ch) (String ch cur)
      else
        flush cur
          (if Ascii.eqb ch " " then tokenize_go r (Some ch) EmptyString
           else if (isContByte ch && isHighOpt prev)%bool
           then tokenize_go r (Some ch) EmptyString
           else (if isLeadByte ch then String ch (fst (span isContByte r))
                 else String ch EmptyString)
                  :: tokenize_go r (Some ch) EmptyString)
  end.

Definition tokenize (expr : string) : list string := tokenize_go expr None EmptyString.

(** [isUnaryMinus] and [isUnaryPlus] have the same body; [prev] is
    [tokens[i-1]], absent when [i == 0]. *)
Definition isUnaryAt (prev : option string) : bool :=
  match prev with
  | None => true
  | Some q => (negb (isNumber q) && negb (String.eqb q ")")
               && negb (String.eqb q unaryMinus))%bool
  end.

Definition isUnaryMinus : option string -> bool := isUnaryAt.
Definition isUnaryPlus : option string -> bool := isUnaryAt.

Fixpoint processUnaryOperators_go (prev : option string) (tokens : list string)
  : list string :=
  match tokens with
  | [] => []
  | token :: r =>
      if (String.eqb token "-" && isUnaryMinus prev)%bool
      then unaryMinus :: processUnaryOperators_go (Some token) r
      else if (String.eqb token "+" && isUnaryPlus prev)%bool
      then processUnaryOperators_go (Some token) r
      else token :: processUnaryOperators_go (Some token) r
  end.

Definition processUnaryOperators (tokens : list string) : list string :=
  processUnaryOperators_go None tokens.

(** *** Shunting-yard: stacks have their top at the head *)

(** Pops operators to the output down to the nearest left parenthesis. *)
Fixpoint popToParen (stack output : list string) : list string * list string :=
  match stack with
  | top :: rest =>
      if String.eqb top "(" then (stack, output)
      else popToParen rest (output ++ [top])
  | [] => ([], output)
  end.

(** Pops the operators whose precedence is at least that of [token]. *)
Fixpoint popOperators (token : string) (stack output : list string)
  : list string * list string :=
  match stack with
  | top :: rest =>
      if (negb (String.eqb top "(") && (precedence token <=? precedence top))%bool
      then popOperators token rest (output ++ [top])
      else (stack, output)
  | [] => ([], output)
  end.

(** The final loop: everything left on the stack goes to the output. *)
Fixpoint drainStack (stack output : list string) : result (list string) :=
  match stack with
  | top :: rest =>
      if String.eqb top "(" then Err "mismatched parentheses"
      else drainStack rest (output ++ [top])
  | [] => Ok output
  end.

Fixpoint shuntingYard_go (tokens output stack : list string) : result (list string) :=
  match tokens with
  | [] => drainStack stack output
  | token :: r =>
      if isNumber token then shuntingYard_go r (output ++ [token]) stack
      else if String.eqb token "(" then shuntingYard_go r output (token :: stack)
      else if String.eqb token ")" then
        match popToParen stack output with
        | ([], _) => Err "mismatched parentheses"
        | (_ :: stack', output') => shuntingYard_go r output' stack'
        end
      else if isOperator token then
        let '(stack', output') := popOperators token stack output in
        shuntingYard_go r output' (token :: stack')
      else Err ("invalid token: " ++ token)
  end.

Definition shuntingYard (tokens : list string) : result (list string) :=
  shuntingYard_go tokens [] [].

Section Evaluation.

Variable rt : GoMath.

(** The switch of [evaluateRPN] on a binary operator. *)
Definition applyOperator (token : string) (a b : float64) : result float64 :=
  if String.eqb token "+" then Ok (Add a b)
  else if String.eqb token "-" then Ok (Subtract a b)
  else if String.eqb token "*" then Ok (Multiply a b)
  else if String.eqb token "/" then Divide a b
  else if String.eqb token "^" then Ok (Power rt a b)
  else if String.eqb token "%" then Modulus rt a b
  else Err ("unknown operator: " ++ token).

Fixpoint evaluateRPN_go (rpn : list string) (stack : list float64) : result float64 :=
  match rpn with
  | [] =>
      match stack with
      | [v] => Ok v
      | _ => Err "invalid expression"
      end
  | token :: r =>
      if isNumber token then
        match ParseFloat token with
        | Some val => evaluateRPN_go r (val :: stack)
        | None => Err ("invalid number: " ++ token)
        end
      else if String.eqb token unaryMinus then
        match stack with
        | val :: rest => evaluateRPN_go r (F64.neg val :: rest)
        | [] => Err "insufficient operands for unary minus"
        end
      else if isOperator token then
        match stack with
        | b :: a :: rest =>
            match applyOperator token a b with
            | Ok v => evaluateRPN_go r (v :: rest)
            | Err m => Err m
            | Diverge => Diverge
            end
        | _ => Err ("insufficient operands for operator " ++ token)
        end
      else Err ("unknown token in RPN: " ++ token)
  end.

Definition evaluateRPN (rpn : list string) : result float64 := evaluateRPN_go rpn [].

(** The loop [for i := 0; i < factorialCount; i++] of
    [evaluateWithFactorial]. *)
Fixpoint applyFactorial (factorialCount : nat) (res : float64) : result float64 :=
  match factorialCount with
  | O => Ok res
  | S n => bind (Factorial res) (applyFactorial n)
  end.

(** [evaluateWithFactorial], its call of [evaluate] being [ev]. *)
Definition evaluateWithFactorial (ev : string -> result float64) (expr : string)
  : result float64 :=
  match LastIndexChar expr "!" with
  | None => Err "no factorial operator found"
  | Some lastFactorial =>
      let baseExpr := take lastFactorial expr in
      let factorialCount := (String.length expr - lastFactorial)%nat in
      bind (ev baseExpr) (applyFactorial factorialCount)
  end.

(** [evaluate] without the factorial branch. *)
Definition evaluatePlain (expr : string) : result float64 :=
  bind (shuntingYard (processUnaryOperators (tokenize expr))) evaluateRPN.

(** [evaluate]: every recursive call is on a strictly shorter string, so
    [fuel] above the length of [expr] is never used up. *)
Fixpoint evaluate_fuel (fuel : nat) (expr : string) : result float64 :=
  match fuel with
  | O => Diverge
  | S f =>
      if Contains expr "!" then evaluateWithFactorial (evaluate_fuel f) expr
      else evaluatePlain expr
  end.

Definition evaluate (expr : string) : result float64 :=
  evaluate_fuel (S (String.length expr)) expr.

(** *** The evaluation of function calls and of whole expressions

    [evaluateFunction] calls [EvaluateExpression] on every argument;
    [evalArg] stands for that call. *)
Section Calls.

Variable evalArg : Parser -> string -> result float64 * Parser.

Fixpoint evaluateArguments (p : Parser) (args : list string)
  : result (list float64) * Parser :=
  match args with
  | [] => (Ok [], p)
  | arg :: r =>
      match evalArg p arg with
      | (Ok val, p1) =>
          match evaluateArguments p1 r with
          | (Ok vals, p2) => (Ok (val :: vals), p2)
          | other => other
          end
      | (Err m, p1) => (Err ("error in function argument: " ++ m), p1)
      | (Diverge, p1) => (Diverge, p1)
      end
  end.

Definition evaluateFunction (p : Parser) (name argsStr : string)
  : result float64 * Parser :=
  match evaluateArguments p (parseArguments argsStr) with
  | (Ok argValues, p1) => (dispatchFunction rt p1 name argValues, p1)
  | (Err m, p1) => (Err m, p1)
  | (Diverge, p1) => (Diverge, p1)
  end.

(** The loop of [processFunctions]; a round that rewrites a call removes
    at least one opening parenthesis from [expr]. *)
Fixpoint processFunctions_loop (fuel : nat) (p : Parser) (expr : string)
  : result string * Parser :=
  match findFuncCall expr with
  | None => (Ok expr, p)
  | Some (funcName, argsStr) =>
      match fuel with
      | O => (Diverge, p)
      | S f =>
          match evaluateFunction p funcName argsStr with
          | (Ok v, p1) =>
              processFunctions_loop f p1
                (Replace1 expr (callText funcName argsStr) (FormatF 10 v))
          | (Err m, p1) => (Err m, p1)
          | (Diverge, p1) => (Diverge, p1)
          end
      end
  end.

Definition processFunctions (p : Parser) (expr : string) : result string * Parser :=
  processFunctions_loop (S (CountChar expr "(")) p expr.

Definition preprocess (p : Parser) (expr : string) : result string * Parser :=
  let expr1 := ToLower (removeSpaces expr) in
  let expr2 := substitute (constants p) expr1 in
  let expr3 := substitute (variables p) expr2 in
  processFunctions p expr3.

(** The body of [EvaluateExpression]. *)
Definition EvaluateExpression_body (p : Parser) (expr : string)
  : result float64 * Parser :=
  if String.eqb expr "" then (Err "empty expression", p)
  else
    match utils.ValidateExpression rt expr with
    | Some err => (Err ("invalid expression: " ++ err), p)
    | None =>
        let p0 := set_constant p "ans" (GetLastResult (calc p)) in
        match preprocess p0 expr with
        | (Ok processed, p1) =>
            match evaluate processed with
            | Ok res =>
                (Ok res,
                 set_calc p1 (AddToHistory (SetLastResult (calc p1) res) expr res))
            | Err m => (Err m, p1)
            | Diverge => (Diverge, p1)
            end
        | (Err m, p1) => (Err m, p1)
        | (Diverge, p1) => (Diverge, p1)
        end
    end.

End Calls.

(** [EvaluateExpression] nested at most [depth] deep. *)
Fixpoint EvaluateExpression_at (depth : nat) (p : Parser) (expr : string)
  : result float64 * Parser :=
  match depth with
  | O => (Diverge, p)
  | S d => EvaluateExpression_body (EvaluateExpression_at d) p expr
  end.

(** [EvaluateExpression].  The arguments of a call are matched by
    [funcRegex] and hold no closing parenthesis, so an argument that passes
    validation holds no parenthesis at all and evaluates without a further
    call: two levels are all there is (see [EvaluateExpression_depth]). *)
Definition EvaluateExpression (p : Parser) (expr : string) : result float64 * Parser :=
  EvaluateExpression_at 2 p expr.

End Evaluation.

End parser.

Import calculator utils parser.

(** ** Definitions used to state the properties *)

(** A parser on a new calculator, as the application creates it. *)
Definition fresh : Parser := NewParser NewCalculator.

(** Some [GoMath], for closed instances of the theorems; every theorem
    holds for all of them. *)
Definition anyMath : GoMath :=
  {| math_Sin := fun x => x; math_Cos := fun x => x; math_Tan := fun x => x;
     math_Asin := fun x => x; math_Acos := fun x => x; math_Atan := fun x => x;
     math_Sinh := fun x => x; math_Cosh := fun x => x; math_Tanh := fun x => x;
     math_Cbrt := fun x => x; math_Log := fun x => x; math_Log10 := fun x => x;
     math_Exp := fun x => x; math_Round := fun x => x; math_Floor := fun x => x;
     math_Ceil := fun x => x; math_Mod := fun x _ => x;
     math_Pow_rest := fun x _ => x; int_of_float64 := fun _ => 0 |}.

(** Factorial applied [k] times in a row, the first error ending it. *)
Fixpoint iterFactorial (k : nat) (v : float64) : result float64 :=
  match k with
  | O => Ok v
  | S k' => bind (iterFactorial k' v) Factorial
  end.

(** The entries [GetHistory] is to return for the lines [h], from index [i]. *)
Definition entryOf (now : nat -> Time) (ix : nat * string) : HistoryEntry :=
  {| Expression := snd ix; Result := zero; Timestamp := now (fst ix) |}.

(** ** Arithmetic expressions and their standard value *)

Inductive binop : Type := OpAdd | OpSub | OpMul | OpDiv.

Definition opToken (o : binop) : string :=
  match o with
  | OpAdd => "+"
  | OpSub => "-"
  | OpMul => "*"
  | OpDiv => "/"
  end.

(** Multiplication and division bind tighter than addition and
    subtraction. *)
Definition opLevel (o : binop) : Z :=
  match o with
  | OpAdd | OpSub => 1
  | OpMul | OpDiv => 2
  end.

(** The syntax tree of an expression: literals, binary operations and
    parenthesised expressions. *)
Inductive aexp : Type :=
| Num (lit : string)
| Bin (o : binop) (l r : aexp)
| Par (e : aexp).

(** The text of an expression, without spaces. *)
Fixpoint render (e : aexp) : string :=
  match e with
  | Num lit => lit
  | Bin o l r => render l ++ opToken o ++ render r
  | Par e' => "(" ++ render e' ++ ")"
  end.

Definition level (e : aexp) : Z :=
  match e with
  | Bin o _ _ => opLevel o
  | _ => 3
  end.

Fixpoint allb (f : ascii -> bool) (s : string) : bool :=
  match s with
  | EmptyString => true
  | String c r => (f c && allb f r)%bool
  end.

Definition isLitChar (c : ascii) : bool := (isDigitB c || Ascii.eqb c ".")%bool.

(** A decimal literal: digits and points that [strconv.ParseFloat]
    accepts, i.e. digits with at most one point whose value does not
    overflow. *)
Definition litOk (lit : string) : bool := (allb isLitChar lit && isNumber lit)%bool.

(** The text of [e] reads back as [e] under the standard rules: operators
    of one level associate to the left, and an operand of lower level is
    in parentheses. *)
Fixpoint wellFormed (e : aexp) : bool :=
  match e with
  | Num lit => litOk lit
  | Bin o l r =>
      (wellFormed l && wellFormed r
       && (opLevel o <=? level l) && (opLevel o <? level r))%bool
  | Par e' => wellFormed e'
  end.

Definition applyOp (o : binop) (a b : float64) : result float64 :=
  match o with
  | OpAdd => Ok (F64.add a b)
  | OpSub => Ok (F64.sub a b)
  | OpMul => Ok (F64.mul a b)
  | OpDiv => if F64.eqb b zero then Err "division by zero" else Ok (F64.div a b)
  end.

(** Standard float64 arithmetic on the tree, operands from left to
    right. *)
Fixpoint denote (e : aexp) : result float64 :=
  match e with
  | Num lit =>
      match ParseFloat lit with
      | Some v => Ok v
      | None => Err ("invalid number: " ++ lit)
      end
  | Bin o l r =>
      bind (denote l) (fun a => bind (denote r) (fun b => applyOp o a b))
  | Par e' => denote e'
  end.

(** The tokens and the postfix form of an expression. *)
Fixpoint tokensOf (e : aexp) : list string :=
  match e with
  | Num lit => [lit]
  | Bin o l r => tokensOf l ++ opToken o :: tokensOf r
  | Par e' => "(" :: tokensOf e' ++ [")"]
  end.

Fixpoint postfix (e : aexp) : list string :=
  match e with
  | Num lit => [lit]
  | Bin o l r => postfix l ++ postfix r ++ [opToken o]
  | Par e' => postfix e'
  end.

(** What shunting-yard has sent to the output, and which operators of [e]
    it still holds on its stack, once the tokens of [e] are read. *)
Fixpoint emitted (e : aexp) : list string :=
  match e with
  | Num lit => [lit]
  | Bin o l r => postfix l ++ emitted r
  | Par e' => postfix e'
  end.

Fixpoint pending (e : aexp) : list string :=
  match e with
  | Bin o l r => pending r ++ [opToken o]
  | _ => []
  end.

(** The names a parser substitutes start with a letter or an underscore:
    [NewParser] and [SetVariable] see to it. *)
Definition nameOk (name : string) : bool :=
  match name with
  | String c _ => (isLetterB c || Ascii.eqb c "_")%bool
  | EmptyString => false
  end.

Definition namesOk (m : fmap) : bool := forallb (fun kv => nameOk (fst kv)) m.

Definition parserOk (p : Parser) : bool :=
  (namesOk (constants p) && namesOk (variables p))%bool.

(** The text holds no ["/0"], or holds a ["/0."]: the textual check for a
    division by zero does not fire. *)
Definition passesZeroCheck (s : string) : bool :=
  negb (Contains s "/0" && negb (Contains s "/0."))%bool.

(** The characters of a well-formed text. *)
Definition isExprChar (c : ascii) : bool :=
  (isLitChar c || ContainsChar "+-*/()" c)%bool.

(** The text is empty or starts with an operator or a parenthesis. *)
Definition startsDelim (s : string) : bool :=
  match s with
  | EmptyString => true
  | String c _ => ContainsChar "+-*/()" c
  end.

(** The last token of an expression: a literal or a closing parenthesis. *)
Fixpoint lastToken (e : aexp) : string :=
  match e with
  | Num lit => lit
  | Bin _ _ r => lastToken r
  | Par _ => ")"
  end.

(** The operators on the stack above the nearest left parenthesis have a
    precedence below [n]. *)
Fixpoint lowStack (n : Z) (st : list string) : bool :=
  match st with
  | [] => true
  | top :: rest =>
      if String.eqb top "(" then true
      else ((precedence top <? n) && lowStack n rest)%bool
  end.

(** Tokens of operators of level [n] at least. *)
Definition opsFrom (n : Z) (l : list string) : Prop :=
  Forall (fun x => exists o, x = opToken o /\ n <= opLevel o) l.

(** Bytes other than [e] and [E]; other than parentheses. *)
Definition notE (c : ascii) : bool := negb (Ascii.eqb c "e" || Ascii.eqb c "E").
Definition notParen (c : ascii) : bool := negb (Ascii.eqb c "(" || Ascii.eqb c ")").

(** The characters of a well-formed text written with spaces. *)
Definition isTextChar (c : ascii) : bool := (isExprChar c || Ascii.eqb c " ")%bool.

(** [s] is empty or its first byte is not in the class [f]. *)
Definition headNot (f : ascii -> bool) (s : string) : Prop :=
  match s with
  | EmptyString => True
  | String c _ => f c = false
  end.

(** What the number pattern matches in a text without [e]: digits, or
    digits, a point and digits, after an optional minus sign. *)
Inductive plainNumber : string -> Prop :=
| plain_int (neg : bool) (d : string) :
    allb isDigitB d = true -> nonEmpty d = true ->
    plainNumber ((if neg then "-" else "") ++ d)
| plain_frac (neg : bool) (d1 d2 : string) :
    allb isDigitB d1 = true -> allb isDigitB d2 = true -> nonEmpty d2 = true ->
    plainNumber ((if neg then "-" else "") ++ d1 ++ "." ++ d2).

(** The state after a successful evaluation of [expr] to [res]. *)
Definition recorded (p : Parser) (expr : string) (res : float64) : Parser :=
  let p0 := set_constant p "ans" (GetLastResult (calc p)) in
  set_calc p0 (AddToHistory (SetLastResult (calc p0) res) expr res).

(** Bytes other than an opening parenthesis; other than a closing one. *)
Definition notLparen (c : ascii) : bool := negb (Ascii.eqb c "(").
Definition notRparen (c : ascii) : bool := negb (Ascii.eqb c ")").

(** [f] keeps the names of the parser well formed. *)
Definition keepsOk (f : Parser -> string -> result float64 * Parser) : Prop :=
  forall p a, parserOk p = true -> parserOk (snd (f p a)) = true.

(** The text in which [processFunctions] looks for calls. *)
Definition substituted (p : Parser) (expr : string) : string :=
  let p0 := set_constant p "ans" (GetLastResult (calc p)) in
  substitute (variables p0) (substitute (constants p0) (ToLower (removeSpaces expr))).

(** [f] takes every parser to one that [R] relates it to. *)
Definition keeps (R : Parser -> Parser -> Prop)
  (f : Parser -> string -> result float64 * Parser) : Prop :=
  forall p a, R p (snd (f p a)).

(** What an evaluation has no business with: the memory register, the
    angle mode, the variables and every constant but [ans]. *)
Definition sameSettings (p p' : Parser) : Prop :=
  memory (calc p') = memory (calc p)
  /\ angleMode p' = angleMode p
  /\ variables p' = variables p
  /\ forall k, k <> "ans" -> map_get (constants p') k = map_get (constants p) k.

(** The history of [p'] is within 100 lines if that of [p] is. *)
Definition historyBound (p p' : Parser) : Prop :=
  (List.length (history (calc p)) <= 100)%nat ->
  (List.length (history (calc p')) <= 100)%nat.

(** A session: the expressions are evaluated one after the other on the
    same parser. *)
Fixpoint evaluateAll (rt : GoMath) (p : Parser) (exprs : list string) : Parser :=
  match exprs with
  | [] => p
  | e :: r => evaluateAll rt (snd (EvaluateExpression rt p e)) r
  end.

(** The value a name stands for in an expression: [ans] is the last
    result, a constant comes before a variable of the same name. *)
Definition lookupName (p : Parser) (name : string) : option float64 :=
  if String.eqb name "ans" then Some (GetLastResult (calc p))
  else match map_get (constants p) name with
       | Some c => Some c
       | None => map_get (variables p) name
       end.

(** Bytes that are no operator. *)
Definition notOperator (c : ascii) : bool := negb (ContainsChar operators c).

(** Bytes of the ASCII range. *)
Definition isAsciiB (c : ascii) : bool := Nat.ltb (code c) 128.

(** The tokens written one after the other. *)
Fixpoint joinTokens (tokens : list string) : string :=
  match tokens with
  | [] => EmptyString
  | t :: r => t ++ joinTokens r
  end.

Definition isParenToken (t : string) : bool :=
  (String.eqb t "(" || String.eqb t ")")%bool.

(** The tokens shunting-yard has a case for. *)
Definition knownToken (t : string) : bool :=
  (isNumber t || isParenToken t || isOperator t)%bool.

(** The parentheses among the tokens are balanced, [balance] of them
    being open already. *)
Fixpoint balancedTokens_go (tokens : list string) (balance : nat) : bool :=
  match tokens with
  | [] => Nat.eqb balance 0
  | t :: r =>
      if isNumber t then balancedTokens_go r balance
      else if String.eqb t "(" then balancedTokens_go r (S balance)
      else if String.eqb t ")" then
             match balance with
             | O => false
             | S b => balancedTokens_go r b
             end
           else balancedTokens_go r balance
  end.

Definition balancedTokens (tokens : list string) : bool := balancedTokens_go tokens O.

(** The tokens other than parentheses. *)
Definition operandsAndOperators (tokens : list string) : list string :=
  filter (fun t => negb (isParenToken t)) tokens.

(** The number of opening parentheses on a stack. *)
Fixpoint openCount (stack : list string) : nat :=
  match stack with
  | [] => O
  | t :: r => ((if String.eqb t "(" then 1 else 0) + openCount r)%nat
  end.

(** A stack without closing parenthesis. *)
Definition noClosing (stack : list string) : Prop :=
  Forall (fun t => String.eqb t ")" = false) stack.

(** The bytes that are an operator or a parenthesis. *)
Definition isOpChar (c : ascii) : bool := ContainsChar "+-*/^%()" c.

(** The sign of an exponent as it is written. *)
Definition signOf (sg : bool) : string := if sg then "-" else "+".

(** The messages of the checks of [ValidateExpression] that say nothing
    of a part of the text. *)
Definition fixedMessages : list string :=
  ["empty expression"; "unbalanced parentheses"; "consecutive operators";
   "invalid characters in expression"; "potential division by zero"].

(** The integers from [lo] on, [n] of them. *)
Definition rangeZ (lo : Z) (n : nat) : list Z := map (fun k => lo + Z.of_nat k) (seq 0 n).

(** [Factorial] returns a finite value. *)
Definition finiteFactorial (x : float64) : bool :=
  match Factorial x with
  | Ok v => is_finite v
  | _ => false
  end.

(** The same float64, bit for bit. *)
Definition sameFloat (x y : float64) : bool :=
  match x, y with
  | S754_zero a, S754_zero b => Bool.eqb a b
  | S754_infinity a, S754_infinity b => Bool.eqb a b
  | S754_nan, S754_nan => true
  | S754_finite a m e, S754_finite b m' e' => (Bool.eqb a b && Pos.eqb m m' && Z.eqb e e')%bool
  | _, _ => false
  end.

(** Both return the same float64. *)
Definition sameValue (r1 r2 : result float64) : bool :=
  match r1, r2 with
  | Ok a, Ok b => sameFloat a b
  | _, _ => false
  end.

(** The largest [i] whose square does not wrap: 3037000499. *)
Definition maxRoot : Z := 3037000499.

(** The names of a parser are identifiers, as [NewParser] and
    [SetVariable] have them. *)
Definition identifiers (m : fmap) : bool :=
  forallb (fun kv => ValidIdentifierRegex_Match (fst kv)) m.

Definition parserIdent (p : Parser) : bool :=
  (identifiers (constants p) && identifiers (variables p))%bool.

(** Lower-case letters and digits. *)
Definition isNameChar (c : ascii) : bool := (isLowerB c || isDigitB c)%bool.

(** The bytes of a number as [tokenize] reads it. *)
Definition isNumChar (c : ascii) : bool :=
  (isDigitB c || Ascii.eqb c "." || Ascii.eqb c "e")%bool.

Definition notDigit (c : ascii) : bool := negb (isDigitB c).

(** The tokens that [tokenize] yields: a run of digits, points and [e]s,
    or a text without a digit (one rune, or the mark of a unary minus).
    On them [isNumber] is Go's: a hexadecimal literal or an underscore
    between digits, which [strconv.ParseFloat] would accept, has a digit
    and another byte. *)
Definition tokenizable (t : string) : bool := (allb isNumChar t || allb notDigit t)%bool.

(** Well-formedness, as [wellFormed], with the literals that [ok]
    accepts. *)
Fixpoint wellFormedBy (ok : string -> bool) (e : aexp) : bool :=
  match e with
  | Num lit => ok lit
  | Bin o l r =>
      (wellFormedBy ok l && wellFormedBy ok r
       && (opLevel o <=? level l) && (opLevel o <? level r))%bool
  | Par e' => wellFormedBy ok e'
  end.

Definition lastIsDigit (s : string) : bool :=
  match rev s with
  | String c _ => isDigitB c
  | EmptyString => false
  end.

(** A literal with an exponent: a decimal literal that ends with a digit,
    the letter [e] and the digits of the exponent, where
    [strconv.ParseFloat] accepts the literal and both of its parts. *)
Definition expOk (lit : string) : bool :=
  let '(m, r) := span isLitChar lit in
  match r with
  | String "e" d =>
      (litOk m && lastIsDigit m && allb isDigitB d && isNumber d && isNumber lit)%bool
  | _ => false
  end.

(** The numeric literals: decimal, with or without an exponent. *)
Definition numLit (lit : string) : bool := (litOk lit || expOk lit)%bool.

(** A text in pieces: the tokens and, between them, single spaces. *)
Definition isGap (t : string) : bool := String.eqb t " ".

Definition withoutGaps (chunks : list string) : list string :=
  filter (fun t => negb (isGap t)) chunks.

Definition isSymbol (t : string) : bool := inList t ["+"; "-"; "*"; "/"; "("; ")"].

(** What may follow a literal: nothing, a space, or an operator or
    parenthesis other than an opening one. *)
Definition afterLiteral (chunks : list string) : bool :=
  match chunks with
  | [] => true
  | u :: _ => ((isGap u || isSymbol u) && negb (String.eqb u "("))%bool
  end.

(** The pieces are spaces, operators, parentheses and numeric literals,
    and no literal is followed by a literal or an opening parenthesis. *)
Fixpoint chunksOk (chunks : list string) : bool :=
  match chunks with
  | [] => true
  | t :: r =>
      if (isGap t || isSymbol t)%bool then chunksOk r
      else (numLit t && afterLiteral r && chunksOk r)%bool
  end.

(** What follows a literal in a text: nothing, a space, an operator or a
    closing parenthesis. *)
Definition boundary (rest : string) : Prop :=
  rest = "" \/ exists c t, rest = String c t /\ In c (list_ascii_of_string " +-*/)").

(** The characters of a well-formed text whose literals may have an
    exponent. *)
Definition isSciChar (c : ascii) : bool := (isTextChar c || Ascii.eqb c "e")%bool.

(** ** Strings *)

Section StringFacts.

Lemma append_nil_r (s : string) : s ++ "" = s.
Proof. induction s; simpl; congruence. Qed.

Lemma append_assoc (a b c : string) : (a ++ b) ++ c = a ++ (b ++ c).
Proof. induction a; simpl; congruence. Qed.

Lemma length_append (s t : string) :
  String.length (s ++ t) = (String.length s + String.length t)%nat.
Proof. induction s; simpl; congruence. Qed.

Lemma take_append_length (s t : string) : take (String.length s) (s ++ t) = s.
Proof. induction s; simpl; [destruct t|]; congruence. Qed.

Lemma length_take (i : nat) (s : string) :
  (i <= String.length s)%nat -> String.length (take i s) = i.
Proof.
  revert i; induction s as [|c s IH]; intros [|i] H; simpl in *; try lia.
  rewrite IH; lia.
Qed.

Lemma LastIndexChar_snoc (s : string) (c : ascii) :
  LastIndexChar (s ++ String c "") c = Some (String.length s).
Proof.
  induction s as [|a s IH]; simpl.
  - now rewrite Ascii.eqb_refl.
  - now rewrite IH.
Qed.

Lemma LastIndexChar_lt (s : string) (c : ascii) (i : nat) :
  LastIndexChar s c = Some i -> (i < String.length s)%nat.
Proof.
  revert i; induction s as [|a s IH]; simpl; intros i H; [discriminate|].
  destruct (LastIndexChar s c) as [j|].
  - injection H as <-. specialize (IH j eq_refl). lia.
  - destruct (Ascii.eqb a c); [injection H as <-; lia | discriminate].
Qed.

Lemma Contains_snoc (s : string) (c : ascii) :
  Contains (s ++ String c "") (String c "") = true.
Proof.
  induction s as [|a s IH]; simpl.
  - now rewrite Ascii.eqb_refl.
  - rewrite IH. apply orb_true_r.
Qed.

Lemma repeatChar_snoc (c : ascii) (k : nat) :
  repeatChar c (S k) = repeatChar c k ++ String c "".
Proof. induction k; simpl in *; congruence. Qed.

End StringFacts.

(** ** Factorial and the whole left side (C8) *)

Section FactorialRule.

Variable rt : GoMath.

Lemma bind_Ok_r {A} (r : result A) : bind r Ok = r.
Proof. now destruct r. Qed.

Lemma bind_assoc {A B C} (r : result A) (f : A -> result B) (g : B -> result C) :
  bind (bind r f) g = bind r (fun a => bind (f a) g).
Proof. now destruct r. Qed.

Lemma bind_ext {A B} (r : result A) (f g : A -> result B) :
  (forall a, f a = g a) -> bind r f = bind r g.
Proof. intros H; destruct r; simpl; auto. Qed.

(** Fuel above the length of the text is never used up. *)
Lemma evaluate_fuel_stable (n m : nat) (expr : string) :
  (String.length expr < n)%nat -> (String.length expr < m)%nat ->
  evaluate_fuel rt n expr = evaluate_fuel rt m expr.
Proof.
  revert m expr; induction n as [|n IH]; intros m expr Hn Hm; [lia|].
  destruct m as [|m]; [lia|]. simpl.
  destruct (Contains expr "!"); [|reflexivity].
  unfold evaluateWithFactorial.
  destruct (LastIndexChar expr "!") as [i|] eqn:E; [|reflexivity].
  apply LastIndexChar_lt in E.
  rewrite (IH m (take i expr)); [reflexivity| |]; rewrite length_take; lia.
Qed.

Lemma evaluate_unfold (expr : string) :
  evaluate rt expr =
  if Contains expr "!" then evaluateWithFactorial (evaluate rt) expr
  else evaluatePlain rt expr.
Proof.
  unfold evaluate at 1. simpl.
  destruct (Contains expr "!"); [|reflexivity].
  unfold evaluateWithFactorial.
  destruct (LastIndexChar expr "!") as [i|] eqn:E; [|reflexivity].
  apply LastIndexChar_lt in E. unfold evaluate.
  rewrite (evaluate_fuel_stable (String.length expr) (S (String.length (take i expr))));
    [reflexivity| |]; rewrite length_take; lia.
Qed.

(** One more [!] at the end is one more factorial of the value of
    everything before it. *)
Lemma evaluate_snoc_bang (s : string) :
  evaluate rt (s ++ "!") = bind (evaluate rt s) Factorial.
Proof.
  rewrite evaluate_unfold, Contains_snoc.
  unfold evaluateWithFactorial.
  rewrite LastIndexChar_snoc, take_append_length, length_append. simpl.
  replace (String.length s + 1 - String.length s)%nat with 1%nat by lia.
  apply bind_ext. intros a. simpl. apply bind_Ok_r.
Qed.

Lemma evaluate_bangs (base : string) (k : nat) :
  evaluate rt (base ++ repeatChar "!" k) = bind (evaluate rt base) (iterFactorial k).
Proof.
  induction k as [|k IH].
  - simpl. now rewrite append_nil_r, bind_Ok_r.
  - rewrite repeatChar_snoc, <- append_assoc, evaluate_snoc_bang, IH.
    now rewrite bind_assoc.
Qed.

(** The loop of the source applies the factorials in the same order. *)
Lemma applyFactorial_iterFactorial (k : nat) (v : float64) :
  applyFactorial k v = iterFactorial k v.
Proof.
  revert v; induction k as [|k IH]; intros v; [reflexivity|].
  assert (H : forall j w, bind (Factorial w) (iterFactorial j)
                          = bind (iterFactorial j w) Factorial).
  { induction j as [|j IHj]; intros w; simpl.
    - now rewrite bind_Ok_r.
    - rewrite <- IHj, bind_assoc. reflexivity. }
  simpl. rewrite <- H. apply bind_ext. intros a. apply IH.
Qed.

End FactorialRule.

(** C8: factorial binds to the whole expression on its left.  For every
    text [base] and every run of [k + 1] trailing [!], [evaluate] first
    evaluates [base] as a whole and then applies [Factorial] once per [!];
    ["5!"] is 120, ["5!!"] is the factorial of 120, and ["2+3!"] is the
    factorial of 5. *)
Theorem C8_factorial_binds_whole_left_side :
  forall (rt : GoMath) (base : string) (k : nat),
    evaluate rt (base ++ repeatChar "!" (S k))
      = bind (evaluate rt base) (iterFactorial (S k))
    /\ fst (EvaluateExpression rt fresh "5!") = Ok (of_Z 120)
    /\ fst (EvaluateExpression rt fresh "5!!") = Factorial (of_Z 120)
    /\ is_Ok (Factorial (of_Z 120)) = true
    /\ fst (EvaluateExpression rt fresh "2+3!") = Ok (of_Z 120).
Proof.
  intros rt base k. split; [apply evaluate_bangs|].
  repeat split; vm_compute; reflexivity.
Qed.

(** ** History (C10) *)

Section History.

Lemma GetHistory_from_spec (now : nat -> Time) (h : list string) (i : nat) :
  GetHistory_from now i h
  = map (entryOf now) (combine (seq i (List.length h)) h).
Proof.
  revert i; induction h as [|e h IH]; intros i; simpl; [reflexivity|].
  now rewrite IH.
Qed.

Lemma GetHistory_from_Result (now : nat -> Time) (h : list string) (i : nat) :
  map Result (GetHistory_from now i h) = repeat zero (List.length h).
Proof. revert i; induction h; intros i; simpl; [|rewrite IHh]; reflexivity. Qed.

Lemma GetHistory_from_Expression (now : nat -> Time) (h : list string) (i : nat) :
  map Expression (GetHistory_from now i h) = h.
Proof. revert i; induction h; intros i; simpl; [|rewrite IHh]; reflexivity. Qed.

Lemma GetHistory_from_Timestamp (now : nat -> Time) (h : list string) (i : nat) :
  map Timestamp (GetHistory_from now i h) = map now (seq i (List.length h)).
Proof. revert i; induction h; intros i; simpl; [|rewrite IHh]; reflexivity. Qed.

Lemma tl_snoc_last {A} (l : list A) (x : A) :
  (1 <= List.length l)%nat -> exists l', List.tl (l ++ [x]) = (l' ++ [x])%list.
Proof. destruct l as [|a l]; simpl; intros H; [lia|]. now exists l. Qed.

Lemma AddToHistory_last (c : Calculator) (expression : string) (res : float64) :
  exists older,
    history (AddToHistory c expression res)
    = (older ++ [(expression ++ " = " ++ FormatG6 res)%string])%list.
Proof.
  unfold AddToHistory, historyLine; simpl.
  destruct (Nat.ltb 100 _) eqn:E.
  - apply Nat.ltb_lt in E. rewrite length_app in E; simpl in E.
    apply tl_snoc_last. lia.
  - now exists (history c).
Qed.

End History.

(** C10: whatever the calculator state, every entry [GetHistory] returns
    has [Result] 0 and as [Timestamp] the clock reading taken while
    [GetHistory] builds it; its [Expression] is the stored line, and the
    line [AddToHistory] stores is ["expr = result"], the only place where
    the numeric result is kept. *)
Theorem C10_history_entries :
  forall (now : nat -> Time) (c : Calculator),
    map Result (GetHistory now c) = repeat zero (List.length (history c))
    /\ map Timestamp (GetHistory now c) = map now (seq 0 (List.length (history c)))
    /\ map Expression (GetHistory now c) = history c
    /\ (forall expression res, exists older,
          history (AddToHistory c expression res)
          = (older ++ [(expression ++ " = " ++ FormatG6 res)%string])%list).
Proof.
  intros now c. unfold GetHistory.
  split; [apply GetHistory_from_Result|].
  split; [apply GetHistory_from_Timestamp|].
  split; [apply GetHistory_from_Expression|].
  intros. apply AddToHistory_last.
Qed.

(** ** Evaluations at concrete inputs *)

(** C1: on ["sin(cos(1))"] the leftmost match of [funcRegex] is the outer
    call with the argument text cut at the first closing parenthesis; the
    argument ["cos(1"] fails validation and the whole evaluation returns an
    error: nested calls are not resolved innermost-first. *)
Theorem C1_nested_call_fails :
  forall rt : GoMath,
    findFuncCall "sin(cos(1))" = Some ("sin", "cos(1")
    /\ EvaluateExpression rt fresh "sin(cos(1))"
       = (Err "error in function argument: invalid expression: unbalanced parentheses",
          fresh).
Proof. intros rt. split; vm_compute; reflexivity. Qed.

(** C3: ["asin(2)"] on a new calculator returns an error, yet the
    evaluation of its argument has set the last result to 2 and has added
    the line ["2 = 2"] to the history. *)
Theorem C3_failed_evaluation_changes_state :
  forall rt : GoMath,
    let '(r, p) := EvaluateExpression rt fresh "asin(2)" in
    r = Err "asin input must be between -1 and 1"
    /\ lastResult (calc fresh) = zero
    /\ history (calc fresh) = []
    /\ lastResult (calc p) = of_Z 2
    /\ history (calc p) = ["2 = 2"].
Proof. intros rt. vm_compute. repeat split; reflexivity. Qed.

(** C4: ["170!"] succeeds with a finite value, as every factorial up to
    it; ["171!"] also succeeds, with +Inf, although
    [ValidateFactorialArgument] rejects 171: [Factorial] never calls it. *)
Theorem C4_factorial_not_bounded :
  forall rt : GoMath,
    (exists v, fst (EvaluateExpression rt fresh "170!") = Ok v /\ is_finite v = true)
    /\ fst (EvaluateExpression rt fresh "171!") = Ok pInf
    /\ Factorial (of_Z 171) = Ok pInf
    /\ ValidateFactorialArgument (of_Z 171) = Some "factorial too large for calculation"
    /\ ValidateFactorialArgument (of_Z 170) = None
    /\ forallb (fun n => match Factorial (of_Z (Z.of_nat n)) with
                         | Ok v => is_finite v
                         | _ => false
                         end) (seq 0 171) = true.
Proof.
  intros rt. split.
  - eexists. split; vm_compute; reflexivity.
  - repeat split; vm_compute; reflexivity.
Qed.

(** C5: ["0^0"] evaluates to 1: [Power] is [math.Pow] and cannot fail,
    although [ValidatePower] calls the case undefined. *)
Theorem C5_zero_power_zero_succeeds :
  forall rt : GoMath,
    fst (EvaluateExpression rt fresh "0^0") = Ok one
    /\ Power rt zero zero = one
    /\ ValidatePower zero zero = Some "0^0 or 0^(negative) is undefined".
Proof. intros rt. repeat split; vm_compute; reflexivity. Qed.

(** C6: validation knows 15 function names only.  ["pow(2,3)"] fails on
    the comma, ["floor(2.5)"] and ["max(1)"] fail as unknown functions,
    while [dispatchFunction] implements [pow], [min], [max], [round],
    [floor] and [ceil]. *)
Theorem C6_registry_of_validation_is_smaller :
  forall rt : GoMath,
    fst (EvaluateExpression rt fresh "pow(2,3)")
      = Err "invalid expression: invalid characters in expression"
    /\ fst (EvaluateExpression rt fresh "floor(2.5)")
      = Err "invalid expression: unknown function: floor"
    /\ map ValidateFunctionCalls ["pow(2)"; "min(2)"; "max(2)"; "round(2)"; "floor(2)"; "ceil(2)"]
       = map (fun n => Some ("unknown function: " ++ n))
             ["pow"; "min"; "max"; "round"; "floor"; "ceil"]
    /\ (forall p a b, dispatchFunction rt p "pow" [a; b] = Ok (Power rt a b))
    /\ (forall p a, dispatchFunction rt p "max" [a] = Ok a)
    /\ (forall p a, dispatchFunction rt p "min" [a] = Ok a).
Proof. intros rt. repeat split; vm_compute; reflexivity. Qed.

(** ** Where NaN cannot arise *)

Section NoNaN.

Lemma shr_1_nonneg (mrs : shr_record) : 0 <= shr_m mrs -> 0 <= shr_m (shr_1 mrs).
Proof.
  destruct mrs as [m r s]. simpl.
  destruct m as [|[p|p|]|[p|p|]]; simpl; intros H; lia.
Qed.

Lemma iter_shr_1_nonneg (p : positive) :
  forall mrs, 0 <= shr_m mrs -> 0 <= shr_m (iter_pos shr_1 p mrs).
Proof.
  induction p as [p IH|p IH|]; intros mrs H; simpl.
  - apply IH, IH, shr_1_nonneg, H.
  - apply IH, IH, H.
  - apply shr_1_nonneg, H.
Qed.

Lemma shr_fexp_nonneg (m e : Z) (l : location) :
  0 <= m -> 0 <= shr_m (fst (shr_fexp prec emax m e l)).
Proof.
  intros H. unfold shr_fexp, shr.
  assert (H0 : 0 <= shr_m (shr_record_of_loc m l)) by (destruct l as [|[]]; exact H).
  destruct (fexp prec emax (Zdigits2 m + e) - e); simpl; try exact H0.
  now apply iter_shr_1_nonneg.
Qed.

Lemma round_nearest_even_nonneg (m : Z) (l : location) :
  0 <= m -> 0 <= round_nearest_even m l.
Proof.
  intros H. destruct l as [|[]]; simpl; try lia. destruct (Z.even m); lia.
Qed.

(** Rounding a non-negative mantissa never gives NaN. *)
Lemma binary_round_aux_not_NaN (sx : bool) (mx ex : Z) (lx : location) :
  0 <= mx -> IsNaN (binary_round_aux prec emax sx mx ex lx) = false.
Proof.
  intros H. unfold binary_round_aux.
  pose proof (shr_fexp_nonneg mx ex lx H) as H1.
  destruct (shr_fexp prec emax mx ex lx) as [mrs' e']. simpl in H1.
  pose proof (shr_fexp_nonneg _ e' loc_Exact
                (round_nearest_even_nonneg _ (loc_of_shr_record mrs') H1)) as H2.
  destruct (shr_fexp prec emax _ e' loc_Exact) as [mrs'' e'']. simpl in H2.
  destruct (shr_m mrs'') as [|m|m]; [reflexivity | | lia].
  now destruct (e'' <=? emax - prec).
Qed.

Lemma SFdiv_core_nonneg (m1 m2 : positive) (e1 e2 : Z) :
  0 <= fst (fst (SFdiv_core_binary prec emax (Zpos m1) e1 (Zpos m2) e2)).
Proof.
  unfold SFdiv_core_binary.
  set (s := _ - _ - Z.min _ _).
  set (m' := match s with Z.pos _ => Z.shiftl (Zpos m1) s | 0 => Zpos m1 | Z.neg _ => 0 end).
  assert (Hm : 0 <= m').
  { subst m'. destruct s; try lia. apply Z.shiftl_nonneg. lia. }
  pose proof (Z.div_pos m' (Zpos m2) Hm eq_refl) as Hq.
  unfold Z.div in Hq. now destruct (Z.div_eucl m' (Zpos m2)).
Qed.

(** A quotient of finite operands is not NaN, unless both are zero. *)
Lemma div_finite_not_NaN (a b : float64) :
  is_finite a = true -> is_finite b = true -> F64.eqb b zero = false ->
  IsNaN (F64.div a b) = false.
Proof.
  destruct a as [sa|sa| |sa ma ea], b as [sb|sb| |sb mb eb]; try discriminate;
    intros _ _ Hb; try reflexivity.
  unfold F64.div, SFdiv.
  pose proof (SFdiv_core_nonneg ma mb ea eb) as H.
  destruct (SFdiv_core_binary prec emax (Zpos ma) ea (Zpos mb) eb) as [[q e] l].
  now apply binary_round_aux_not_NaN.
Qed.

Lemma SFsqrt_core_nonneg (m : positive) (e : Z) :
  0 <= fst (fst (SFsqrt_core_binary prec emax (Zpos m) e)).
Proof.
  unfold SFsqrt_core_binary.
  set (m' := match _ with Z.pos _ => _ | 0 => _ | Z.neg _ => _ end).
  pose proof (Z.sqrtrem_sqrt m') as Hs. pose proof (Z.sqrt_nonneg m') as Hn.
  destruct (Z.sqrtrem m') as [q r]. simpl in *. lia.
Qed.

(** A square root that [Sqrt] returns is NaN only for the operand NaN. *)
Lemma Sqrt_not_NaN (x v : float64) :
  calculator.Sqrt x = Ok v -> IsNaN x = false -> IsNaN v = false.
Proof.
  unfold calculator.Sqrt. destruct (F64.ltb x zero) eqn:L; [discriminate|].
  intros E; inversion E; subst v. clear E.
  destruct x as [s|[]| |[] m e]; try reflexivity; try discriminate.
  intros _. unfold F64.Sqrt, SFsqrt.
  pose proof (SFsqrt_core_nonneg m e) as H.
  destruct (SFsqrt_core_binary prec emax (Zpos m) e) as [[q e'] l].
  now apply binary_round_aux_not_NaN.
Qed.

(** A quotient that [Divide] returns for finite operands is not NaN. *)
Lemma Divide_not_NaN (a b v : float64) :
  Divide a b = Ok v -> is_finite a = true -> is_finite b = true -> IsNaN v = false.
Proof.
  unfold Divide. destruct (F64.eqb b zero) eqn:E; [discriminate|].
  intros X; inversion X; subst v. intros Ha Hb. now apply div_finite_not_NaN.
Qed.

End NoNaN.

(** ** Results that are not finite (C2) *)

(** C2: the code delivers values that are not finite as successes.  The
    claim's own cases: ["171!"] succeeds with +Inf, and a negative base
    with a non-integer exponent, as in ["-8^0.5"], succeeds with whatever
    [math.Pow] returns (NaN in Go).  [ValidateFactorialArgument] and
    [ValidatePower] reject both and are never called.  The operators do
    not check their result either: ["1e308*10"] succeeds with +Inf, and
    the difference of two such products with NaN. *)
Theorem C2_non_finite_results_succeed :
  forall rt : GoMath,
    fst (EvaluateExpression rt fresh "171!") = Ok pInf
    /\ ValidateFactorialArgument (of_Z 171) = Some "factorial too large for calculation"
    /\ fst (EvaluateExpression rt fresh "-8^0.5")
       = Ok (Power rt (F64.neg (of_Z 8)) (of_decimal "0.5"))
    /\ ValidatePower (F64.neg (of_Z 8)) (of_decimal "0.5")
       = Some "negative base with non-integer exponent"
    /\ fst (EvaluateExpression rt fresh "1e308*10") = Ok pInf
    /\ fst (EvaluateExpression rt fresh "1e308*10-1e308*10") = Ok NaN
    /\ is_finite pInf = false
    /\ is_finite NaN = false.
Proof. intros rt. repeat split; vm_compute; reflexivity. Qed.

(** ** The textual division-by-zero check (C9) *)

Section DivisionByZeroCheck.

Variable rt : GoMath.

Lemma first_char_differs (a b : ascii) (s t : string) :
  a <> b -> String a s <> String b t.
Proof. congruence. Qed.

Lemma ValidateFunctionCalls_message (expr m : string) :
  ValidateFunctionCalls expr = Some m -> m <> "potential division by zero".
Proof.
  unfold ValidateFunctionCalls.
  destruct (firstUnknown _); [|destruct (Nat.eqb _ _)]; intros H; inversion H;
    apply first_char_differs; discriminate.
Qed.

Lemma validateNumber_message (numStr m : string) :
  validateNumber rt numStr = Some m -> m <> "potential division by zero".
Proof.
  unfold validateNumber.
  repeat match goal with
         | |- context [if ?c then _ else _] => destruct c
         | |- context [match ?c with Some _ => _ | None => _ end] => destruct c
         end; intros H; inversion H; apply first_char_differs; discriminate.
Qed.

Lemma ValidateNumbers_message (expr m : string) :
  ValidateNumbers rt expr = Some m -> m <> "potential division by zero".
Proof.
  unfold ValidateNumbers. induction (findNumbers expr) as [|n l IH]; simpl; [discriminate|].
  destruct (validateNumber rt n) eqn:E; [|exact IH].
  intros H; inversion H; subst. eapply validateNumber_message; eauto.
Qed.

Lemma EvaluateExpression_invalid (p : Parser) (expr msg : string) :
  ValidateExpression rt expr = Some msg ->
  EvaluateExpression rt p expr
  = (if String.eqb expr "" then Err "empty expression"
     else Err ("invalid expression: " ++ msg), p).
Proof.
  intros H. unfold EvaluateExpression. simpl. unfold EvaluateExpression_body.
  rewrite H. now destruct (String.eqb expr "").
Qed.

End DivisionByZeroCheck.

(** C9, as stated, fails: ["(8/0"] holds ["/0"] and no ["/0."], and is
    rejected for its parentheses, an earlier check. *)
Lemma C9_counterexample_earlier_check :
  ~ (forall (rt : GoMath) (p : Parser) (expr : string),
        Contains expr "/0" = true -> Contains expr "/0." = false ->
        fst (EvaluateExpression rt p expr)
        = Err "invalid expression: potential division by zero").
Proof.
  intros H. specialize (H anyMath fresh "(8/0" eq_refl eq_refl).
  vm_compute in H. discriminate H.
Qed.

(** C9, amended: an expression that holds ["/0"] and nowhere ["/0."] is
    rejected by validation, before any evaluation and with the state left
    as it is; the error is 'potential division by zero' when the earlier
    checks (balanced parentheses, no illegal pair of operators, legal
    characters) pass, and the error of the first of those checks that
    fails otherwise.  An occurrence of ["/0."] anywhere disables the check:
    validation then never reports 'potential division by zero'. *)
Theorem C9_division_by_zero_heuristic :
  forall (rt : GoMath) (p : Parser) (expr : string),
    Contains expr "/0" = true ->
    (Contains expr "/0." = false ->
       (exists msg, EvaluateExpression rt p expr = (Err ("invalid expression: " ++ msg), p))
       /\ (HasBalancedParentheses expr = true ->
           HasConsecutiveOperators expr = false ->
           ValidExpressionRegex_Match expr = true ->
           EvaluateExpression rt p expr
           = (Err "invalid expression: potential division by zero", p)))
    /\ (Contains expr "/0." = true ->
        ValidateExpression rt expr <> Some "potential division by zero").
Proof.
  intros rt p expr H0.
  assert (Hne : String.eqb expr "" = false).
  { destruct expr; [discriminate H0 | reflexivity]. }
  split.
  - intros Hdot.
    assert (Hv : exists msg, ValidateExpression rt expr = Some msg
               /\ (HasBalancedParentheses expr = true ->
                   HasConsecutiveOperators expr = false ->
                   ValidExpressionRegex_Match expr = true ->
                   msg = "potential division by zero")).
    { unfold ValidateExpression. rewrite Hne, H0, Hdot. simpl.
      destruct (HasBalancedParentheses expr); simpl;
        [|eexists; split; [reflexivity | discriminate]].
      destruct (HasConsecutiveOperators expr);
        [eexists; split; [reflexivity | discriminate]|].
      destruct (ValidExpressionRegex_Match expr); simpl;
        eexists; split; try reflexivity; auto; discriminate. }
    destruct Hv as (msg & Hv & Hmsg).
    pose proof (EvaluateExpression_invalid rt p expr msg Hv) as E.
    rewrite Hne in E. split; [now exists msg|].
    intros B C V. now rewrite E, (Hmsg B C V).
  - intros Hdot. unfold ValidateExpression. rewrite Hne, H0, Hdot. simpl.
    destruct (HasBalancedParentheses expr); simpl; [|discriminate].
    destruct (HasConsecutiveOperators expr); [discriminate|].
    destruct (ValidExpressionRegex_Match expr); simpl; [|discriminate].
    destruct (ValidateFunctionCalls expr) eqn:E.
    + intros H; inversion H; subst.
      now apply ValidateFunctionCalls_message in E.
    + intros H. now apply ValidateNumbers_message in H.
Qed.

(** ["8/02"], which is 4, is rejected by the check. *)
Lemma C9_witness_8_div_02 :
  Contains "8/02" "/0" = true /\ Contains "8/02" "/0." = false
  /\ EvaluateExpression anyMath fresh "8/02"
     = (Err "invalid expression: potential division by zero", fresh).
Proof.
  split; [reflexivity|]. split; [reflexivity|].
  exact (proj2 (proj1 (C9_division_by_zero_heuristic anyMath fresh "8/02" eq_refl) eq_refl)
           eq_refl eq_refl eq_refl).
Defined.

(** ** The characters of a well-formed text *)

Section Chars.

Lemma allb_app f s t : allb f (s ++ t) = (allb f s && allb f t)%bool.
Proof. induction s; simpl; [reflexivity|]. now rewrite IHs, andb_assoc. Qed.

Lemma allb_impl (f g : ascii -> bool) s :
  (forall c, f c = true -> g c = true) -> allb f s = true -> allb g s = true.
Proof.
  intros H. induction s; simpl; [reflexivity|].
  intros E. apply andb_true_iff in E as [E1 E2]. now rewrite (H _ E1), IHs.
Qed.

Lemma isLitChar_cases c : isLitChar c = true ->
  In c (list_ascii_of_string "0123456789.").
Proof.
  destruct c as [[] [] [] [] [] [] [] []]; vm_compute; intros H; try discriminate H; tauto.
Qed.

Lemma isExprChar_cases c : isExprChar c = true ->
  In c (list_ascii_of_string "0123456789.+-*/()").
Proof.
  destruct c as [[] [] [] [] [] [] [] []]; vm_compute; intros H; try discriminate H; tauto.
Qed.

Lemma delim_cases c : ContainsChar "+-*/()" c = true ->
  In c (list_ascii_of_string "+-*/()").
Proof.
  destruct c as [[] [] [] [] [] [] [] []]; vm_compute; intros H; try discriminate H; tauto.
Qed.

Lemma opToken_chars o : allb isExprChar (opToken o) = true.
Proof. now destruct o. Qed.

Lemma wellFormed_chars e : wellFormed e = true -> allb isExprChar (render e) = true.
Proof.
  induction e as [lit|o l IHl r IHr|e IH]; simpl; intros H.
  - unfold litOk in H. apply andb_true_iff in H as [H _].
    eapply allb_impl; [|exact H]. intros c Hc. unfold isExprChar. now rewrite Hc.
  - repeat (apply andb_true_iff in H as [H ?]).
    rewrite !allb_app, IHl, IHr, opToken_chars by assumption. reflexivity.
  - rewrite allb_app. simpl. now rewrite IH.
Qed.

End Chars.

(** ** Tokens of a well-formed text *)

Section Tokens.

Lemma rev_acc_rev_acc (s a b : string) : rev_acc (rev_acc s a) b = rev_acc a (s ++ b).
Proof.
  revert a b; induction s as [|c s IH]; intros a b; simpl; [reflexivity|].
  now rewrite IH.
Qed.

Lemma rev_rev_acc (s : string) : rev (rev_acc s "") = s.
Proof. unfold rev. rewrite rev_acc_rev_acc. simpl. apply append_nil_r. Qed.

Lemma nonEmpty_rev_acc (s a : string) :
  nonEmpty s = true -> nonEmpty (rev_acc s a) = true.
Proof.
  revert a; induction s as [|c s IH]; intros a H; [discriminate|]. simpl.
  destruct s; [reflexivity|]. now apply IH.
Qed.

(** A delimiter ends the number being built and is a token of its own. *)
Lemma tokenize_go_delim (c : ascii) (r : string) (prev : option ascii) (cur : string) :
  ContainsChar "+-*/()" c = true ->
  tokenize_go (String c r) prev cur
  = flush cur (String c "" :: tokenize_go r (Some c) "").
Proof.
  intros H. apply delim_cases in H. simpl in H.
  repeat (destruct H as [<-|H]; [reflexivity|]). contradiction.
Qed.

Lemma flush_nil (l : list string) : flush "" l = l.
Proof. reflexivity. Qed.

Lemma tokenize_go_prev (s : string) :
  allb isExprChar s = true ->
  forall prev prev' cur, tokenize_go s prev cur = tokenize_go s prev' cur.
Proof.
  induction s as [|c s IH]; intros H prev prev' cur; [reflexivity|].
  simpl in H. apply andb_true_iff in H as [Hc Hs].
  unfold isExprChar in Hc. apply orb_true_iff in Hc as [Hc|Hc].
  - apply isLitChar_cases in Hc. simpl in Hc.
    repeat (destruct Hc as [<-|Hc]; [simpl; now apply IH|]). contradiction.
  - now rewrite !tokenize_go_delim.
Qed.

Lemma tokenize_go_literal (s rest : string) (prev : option ascii) (cur : string) :
  allb isLitChar s = true -> allb isExprChar rest = true ->
  tokenize_go (s ++ rest) prev cur = tokenize_go rest None (rev_acc s cur).
Proof.
  revert prev cur; induction s as [|c s IH]; intros prev cur Hs Hr.
  - simpl. now apply tokenize_go_prev.
  - simpl in Hs. apply andb_true_iff in Hs as [Hc Hs].
    apply isLitChar_cases in Hc. simpl in Hc.
    repeat (destruct Hc as [<-|Hc]; [simpl; now apply IH|]). contradiction.
Qed.

Lemma tokenize_go_flush (rest : string) (prev : option ascii) (cur : string) :
  startsDelim rest = true ->
  tokenize_go rest prev cur = flush cur (tokenize_go rest prev "").
Proof.
  destruct rest as [|c r]; intros H.
  - simpl. unfold flush. simpl. now destruct (nonEmpty cur).
  - simpl in H. rewrite !tokenize_go_delim by assumption.
    unfold flush. simpl. reflexivity.
Qed.

Lemma litOk_nonEmpty (lit : string) : litOk lit = true -> nonEmpty lit = true.
Proof. destruct lit; [discriminate | reflexivity]. Qed.

Lemma opToken_delim (o : binop) :
  exists c, opToken o = String c "" /\ ContainsChar "+-*/()" c = true.
Proof. destruct o; eexists; split; reflexivity. Qed.

Lemma tokenize_render (e : aexp) :
  wellFormed e = true ->
  forall rest, allb isExprChar rest = true -> startsDelim rest = true ->
  tokenize_go (render e ++ rest) None "" = (tokensOf e ++ tokenize_go rest None "")%list.
Proof.
  induction e as [lit|o l IHl r IHr|e IH]; simpl; intros H rest Hr Hd.
  - pose proof (litOk_nonEmpty _ H) as Hn.
    unfold litOk in H. apply andb_true_iff in H as [H _].
    rewrite tokenize_go_literal, tokenize_go_flush by assumption.
    unfold flush. now rewrite nonEmpty_rev_acc, rev_rev_acc.
  - repeat (apply andb_true_iff in H as [H ?]).
    destruct (opToken_delim o) as (c & -> & Hc).
    assert (Hrr : allb isExprChar (render r ++ rest) = true).
    { rewrite allb_app, wellFormed_chars by assumption. exact Hr. }
    rewrite !append_assoc. simpl.
    rewrite IHl; [| assumption | | exact Hc].
    + rewrite tokenize_go_delim, flush_nil by assumption.
      rewrite <- app_assoc. simpl. f_equal. f_equal.
      rewrite (tokenize_go_prev _ Hrr (Some c) None).
      now apply IHr.
    + simpl. unfold isExprChar at 1. now rewrite Hc, orb_true_r.
  - assert (Hrr : allb isExprChar (render e ++ ")" ++ rest) = true).
    { rewrite allb_app, wellFormed_chars by assumption. exact Hr. }
    rewrite !append_assoc. simpl.
    rewrite (tokenize_go_prev _ Hrr (Some "("%char) None).
    rewrite IH; [| assumption | simpl; exact Hr | reflexivity].
    rewrite <- app_assoc. simpl. rewrite !flush_nil. do 3 f_equal.
    now apply tokenize_go_prev.
Qed.

Lemma tokenize_wellFormed (e : aexp) :
  wellFormed e = true -> tokenize (render e) = tokensOf e.
Proof.
  intros H. unfold tokenize.
  rewrite <- (append_nil_r (render e)), tokenize_render by (assumption || reflexivity).
  simpl. apply app_nil_r.
Qed.

End Tokens.

(** ** No sign is unary in a well-formed text *)

Section Unary.

Lemma litOk_not_sign (lit : string) :
  litOk lit = true -> String.eqb lit "-" = false /\ String.eqb lit "+" = false.
Proof.
  unfold litOk. intros H. apply andb_true_iff in H as [H _].
  destruct lit as [|c lit]; [split; reflexivity|].
  simpl in H. apply andb_true_iff in H as [Hc _].
  apply isLitChar_cases in Hc. simpl in Hc.
  repeat (destruct Hc as [<-|Hc]; [split; reflexivity|]). contradiction.
Qed.

Lemma lastToken_operand (e : aexp) :
  wellFormed e = true -> isUnaryAt (Some (lastToken e)) = false.
Proof.
  induction e as [lit|o l IHl r IHr|e IH]; simpl; intros H.
  - unfold litOk in H. apply andb_true_iff in H as [_ H]. now rewrite H.
  - repeat (apply andb_true_iff in H as [H ?]). now apply IHr.
  - reflexivity.
Qed.

Lemma processUnary_operator (o : binop) (q : string) (rest : list string) :
  isUnaryAt (Some q) = false ->
  processUnaryOperators_go (Some q) (opToken o :: rest)
  = opToken o :: processUnaryOperators_go (Some (opToken o)) rest.
Proof.
  intros H. cbn [processUnaryOperators_go]. unfold isUnaryMinus, isUnaryPlus.
  rewrite H, !andb_false_r. reflexivity.
Qed.

Lemma processUnary_tokens (e : aexp) :
  wellFormed e = true ->
  forall prev rest,
    processUnaryOperators_go prev (tokensOf e ++ rest)
    = (tokensOf e ++ processUnaryOperators_go (Some (lastToken e)) rest)%list.
Proof.
  induction e as [lit|o l IHl r IHr|e IH]; cbn [wellFormed tokensOf lastToken];
    intros H prev rest.
  - destruct (litOk_not_sign _ H) as [E1 E2]. simpl. now rewrite E1, E2.
  - repeat (apply andb_true_iff in H as [H ?]).
    rewrite <- !app_assoc, <- !app_comm_cons, IHl by assumption. f_equal.
    rewrite processUnary_operator by now apply lastToken_operand.
    f_equal. now apply IHr.
  - rewrite <- !app_comm_cons, <- !app_assoc.
    change (processUnaryOperators_go prev ("(" :: tokensOf e ++ [")"] ++ rest))
      with ("(" :: processUnaryOperators_go (Some "(") (tokensOf e ++ [")"] ++ rest)).
    rewrite IH by assumption. reflexivity.
Qed.

Lemma processUnary_wellFormed (e : aexp) :
  wellFormed e = true -> processUnaryOperators (tokensOf e) = tokensOf e.
Proof.
  intros H. unfold processUnaryOperators.
  rewrite <- (app_nil_r (tokensOf e)) at 1. rewrite processUnary_tokens by assumption.
  simpl. apply app_nil_r.
Qed.

End Unary.

(** ** Shunting-yard on a well-formed text *)

Section ShuntingYard.

Lemma precedence_opToken (o : binop) : precedence (opToken o) = opLevel o.
Proof. now destruct o. Qed.

Lemma opToken_facts (o : binop) :
  isNumber (opToken o) = false
  /\ String.eqb (opToken o) "(" = false
  /\ String.eqb (opToken o) ")" = false
  /\ isOperator (opToken o) = true.
Proof. destruct o; repeat split; reflexivity. Qed.

Lemma level_le_3 (e : aexp) : level e <= 3.
Proof. destruct e as [|[]|]; simpl; lia. Qed.

Lemma lowStack_mono (n m : Z) (st : list string) :
  n <= m -> lowStack n st = true -> lowStack m st = true.
Proof.
  intros Hnm. induction st as [|top st IH]; simpl; [reflexivity|].
  destruct (String.eqb top "("); [reflexivity|].
  intros H. apply andb_true_iff in H as [H1 H2].
  apply Z.ltb_lt in H1. rewrite IH by assumption.
  rewrite andb_true_r. apply Z.ltb_lt. lia.
Qed.

Lemma opsFrom_app (n : Z) (a b : list string) :
  opsFrom n a -> opsFrom n b -> opsFrom n (a ++ b).
Proof. unfold opsFrom. intros. apply Forall_app. now split. Qed.

Lemma opsFrom_mono (n m : Z) (l : list string) :
  m <= n -> opsFrom n l -> opsFrom m l.
Proof.
  unfold opsFrom. intros H F. eapply Forall_impl; [|exact F].
  intros x (o & -> & Ho). exists o. split; [reflexivity | lia].
Qed.

Lemma pending_opsFrom (e : aexp) : wellFormed e = true -> opsFrom (level e) (pending e).
Proof.
  induction e as [lit|o l IHl r IHr|e IH]; simpl; intros H; try constructor.
  repeat (apply andb_true_iff in H as [H ?]).
  apply opsFrom_app.
  - apply opsFrom_mono with (n := level r); [|now apply IHr].
    apply Z.ltb_lt in H0. lia.
  - constructor; [|constructor]. exists o. split; [reflexivity | lia].
Qed.

Lemma postfix_split (e : aexp) : postfix e = (emitted e ++ pending e)%list.
Proof.
  induction e as [lit|o l IHl r IHr|e IH]; simpl.
  - reflexivity.
  - now rewrite IHr, !app_assoc.
  - now rewrite app_nil_r.
Qed.

(** A right parenthesis sends the pending operators to the output. *)
Lemma popToParen_ops (n : Z) (ops st out : list string) :
  opsFrom n ops ->
  popToParen (ops ++ "(" :: st) out = ("(" :: st, (out ++ ops)%list).
Proof.
  intros F. revert out. induction F as [|x ops (o & -> & _) F IH]; intros out; simpl.
  - now rewrite app_nil_r.
  - destruct (opToken_facts o) as (_ & -> & _).
    rewrite IH, <- app_assoc. reflexivity.
Qed.

(** An operator sends the pending operators of its level or above to the
    output, and stops at a stack that is low for it. *)
Lemma popOperators_low (tok : string) (st out : list string) :
  lowStack (precedence tok) st = true -> popOperators tok st out = (st, out).
Proof.
  destruct st as [|top st]; simpl; [reflexivity|].
  destruct (String.eqb top "("); simpl; [reflexivity|].
  intros H. apply andb_true_iff in H as [H _].
  apply Z.ltb_lt in H.
  destruct (precedence tok <=? precedence top) eqn:E; [|reflexivity].
  apply Z.leb_le in E. lia.
Qed.

Lemma popOperators_ops (tok : string) (ops st out : list string) :
  opsFrom (precedence tok) ops ->
  lowStack (precedence tok) st = true ->
  popOperators tok (ops ++ st) out = (st, (out ++ ops)%list).
Proof.
  intros F L. revert out. induction F as [|x ops (o & -> & Ho) F IH]; intros out.
  - simpl. rewrite app_nil_r. now apply popOperators_low.
  - simpl. destruct (opToken_facts o) as (_ & -> & _). simpl.
    rewrite precedence_opToken.
    destruct (precedence tok <=? opLevel o) eqn:E.
    + rewrite IH, <- app_assoc. reflexivity.
    + apply Z.leb_gt in E. lia.
Qed.

Lemma drainStack_ops (n : Z) (ops out : list string) :
  opsFrom n ops -> drainStack ops out = Ok (out ++ ops)%list.
Proof.
  intros F. revert out. induction F as [|x ops (o & -> & _) F IH]; intros out; simpl.
  - now rewrite app_nil_r.
  - destruct (opToken_facts o) as (_ & -> & _).
    rewrite IH, <- app_assoc. reflexivity.
Qed.

Lemma litOk_isNumber (lit : string) : litOk lit = true -> isNumber lit = true.
Proof. unfold litOk. intros H. now apply andb_true_iff in H. Qed.

Lemma shuntingYard_go_tokens (e : aexp) :
  wellFormed e = true ->
  forall rest out st,
    lowStack (level e) st = true ->
    shuntingYard_go (tokensOf e ++ rest) out st
    = shuntingYard_go rest (out ++ emitted e) (pending e ++ st).
Proof.
  induction e as [lit|o l IHl r IHr|e IH]; cbn [wellFormed tokensOf emitted pending level];
    intros H rest out st L.
  - simpl. now rewrite (litOk_isNumber _ H).
  - repeat (apply andb_true_iff in H as [H ?]).
    apply Z.leb_le in H1. apply Z.ltb_lt in H0.
    rewrite <- !app_assoc, <- !app_comm_cons.
    rewrite IHl by (assumption || (eapply lowStack_mono; eassumption)).
    cbn [shuntingYard_go].
    destruct (opToken_facts o) as (-> & -> & -> & ->).
    rewrite popOperators_ops.
    + rewrite IHr; [|assumption|].
      * rewrite <- !app_assoc. simpl. rewrite postfix_split, <- !app_assoc. reflexivity.
      * cbn [lowStack]. destruct (opToken_facts o) as (_ & -> & _).
        rewrite precedence_opToken.
        apply andb_true_iff. split; [now apply Z.ltb_lt|].
        eapply lowStack_mono; [|eassumption]. lia.
    + rewrite precedence_opToken.
      eapply opsFrom_mono; [|now apply pending_opsFrom]. assumption.
    + now rewrite precedence_opToken.
  - rewrite <- !app_comm_cons, <- !app_assoc.
    change (shuntingYard_go ("(" :: tokensOf e ++ [")"] ++ rest) out st)
      with (shuntingYard_go (tokensOf e ++ [")"] ++ rest) out ("(" :: st)).
    rewrite IH by (assumption || reflexivity).
    change (shuntingYard_go ([")"] ++ rest) (out ++ emitted e) (pending e ++ "(" :: st))
      with (match popToParen (pending e ++ "(" :: st) (out ++ emitted e) with
            | ([], _) => Err "mismatched parentheses"
            | (_ :: stack', output') => shuntingYard_go rest output' stack'
            end).
    rewrite (popToParen_ops (level e)) by now apply pending_opsFrom.
    now rewrite postfix_split, <- app_assoc.
Qed.

Lemma shuntingYard_wellFormed (e : aexp) :
  wellFormed e = true -> shuntingYard (tokensOf e) = Ok (postfix e).
Proof.
  intros H. unfold shuntingYard.
  rewrite <- (app_nil_r (tokensOf e)), shuntingYard_go_tokens by (assumption || reflexivity).
  simpl. rewrite app_nil_r, (drainStack_ops (level e)) by now apply pending_opsFrom.
  now rewrite postfix_split.
Qed.

End ShuntingYard.

(** ** The postfix form has the standard value *)

Section Postfix.

Variable rt : GoMath.

Lemma applyOperator_opToken (o : binop) (a b : float64) :
  applyOperator rt (opToken o) a b = applyOp o a b.
Proof. now destruct o. Qed.

Lemma opToken_not_unaryMinus (o : binop) : String.eqb (opToken o) unaryMinus = false.
Proof. now destruct o. Qed.

Lemma evaluateRPN_go_postfix (e : aexp) :
  wellFormed e = true ->
  forall rest stack,
    evaluateRPN_go rt (postfix e ++ rest) stack
    = match denote e with
      | Ok v => evaluateRPN_go rt rest (v :: stack)
      | Err m => Err m
      | Diverge => Diverge
      end.
Proof.
  induction e as [lit|o l IHl r IHr|e IH]; cbn [wellFormed postfix denote];
    intros H rest stack.
  - apply litOk_isNumber in H. simpl. rewrite H.
    unfold isNumber in H. now destruct (ParseFloat lit).
  - repeat (apply andb_true_iff in H as [H ?]).
    rewrite <- !app_assoc, IHl by assumption.
    destruct (denote l) as [a| |]; simpl; try reflexivity.
    rewrite IHr by assumption.
    destruct (denote r) as [b| |]; simpl; try reflexivity.
    destruct (opToken_facts o) as (-> & _ & _ & ->).
    rewrite opToken_not_unaryMinus, applyOperator_opToken.
    now destruct (applyOp o a b).
  - now apply IH.
Qed.

Lemma denote_not_Diverge (e : aexp) : denote e <> Diverge.
Proof.
  induction e as [lit|o l IHl r IHr|e IH]; simpl.
  - now destruct (ParseFloat lit).
  - destruct (denote l); simpl; try congruence.
    destruct (denote r); simpl; try congruence.
    destruct o; simpl; try discriminate. now destruct (F64.eqb a0 zero).
  - exact IH.
Qed.

Lemma evaluateRPN_postfix (e : aexp) :
  wellFormed e = true -> evaluateRPN rt (postfix e) = denote e.
Proof.
  intros H. unfold evaluateRPN.
  rewrite <- (app_nil_r (postfix e)), evaluateRPN_go_postfix by assumption.
  now destruct (denote e).
Qed.

Lemma Contains_bang_false (s : string) :
  allb isExprChar s = true -> Contains s "!" = false.
Proof.
  induction s as [|c s IH]; [reflexivity|].
  cbn [allb]. intros H. apply andb_true_iff in H as [Hc Hs].
  cbn [Contains]. rewrite (IH Hs), orb_false_r.
  apply isExprChar_cases in Hc. simpl in Hc.
  repeat (destruct Hc as [<-|Hc]; [reflexivity|]). contradiction.
Qed.

(** [evaluate] on the text of a well-formed expression. *)
Lemma evaluate_render (e : aexp) :
  wellFormed e = true -> evaluate rt (render e) = denote e.
Proof.
  intros H. rewrite evaluate_unfold.
  rewrite Contains_bang_false by now apply wellFormed_chars.
  unfold evaluatePlain.
  rewrite tokenize_wellFormed, processUnary_wellFormed, shuntingYard_wellFormed
    by assumption.
  simpl. now apply evaluateRPN_postfix.
Qed.

End Postfix.

(** ** Validation of a well-formed text *)

Section NumberPattern.

Variable rt : GoMath.

Lemma rev_acc_app (s a : string) : rev_acc s a = rev s ++ a.
Proof.
  unfold rev. revert a; induction s as [|c s IH]; intros a; simpl; [reflexivity|].
  rewrite IH, (IH (String c "")), append_assoc. reflexivity.
Qed.

Lemma spanDigits_go_span (s acc : string) :
  spanDigits_go s acc
  = (rev acc ++ fst (span isDigitB s), snd (span isDigitB s)).
Proof.
  revert acc; induction s as [|c s IH]; intros acc; simpl.
  - now rewrite append_nil_r.
  - destruct (isDigitB c) eqn:E.
    + rewrite IH. destruct (span isDigitB s) as [a b]. simpl.
      unfold rev at 1. simpl. rewrite rev_acc_app, append_assoc. reflexivity.
    + simpl. now rewrite append_nil_r.
Qed.

Lemma spanDigits_span (s : string) : spanDigits s = span isDigitB s.
Proof.
  unfold spanDigits. rewrite spanDigits_go_span. simpl.
  now destruct (span isDigitB s).
Qed.

Lemma span_spec (f : ascii -> bool) (s a b : string) :
  span f s = (a, b) -> s = a ++ b /\ allb f a = true /\ headNot f b.
Proof.
  revert a b; induction s as [|c s IH]; intros a b; simpl.
  - intros E; inversion E; subst. repeat split.
  - destruct (f c) eqn:Fc.
    + destruct (span f s) as [a' b'] eqn:E'. intros E; inversion E; subst.
      destruct (IH a' b eq_refl) as (-> & Ha & Hb).
      repeat split; simpl; [now rewrite Fc | assumption].
    + intros E; inversion E; subst. repeat split. exact Fc.
Qed.

Lemma span_app (f : ascii -> bool) (a b : string) :
  allb f a = true -> headNot f b -> span f (a ++ b) = (a, b).
Proof.
  induction a as [|c a IH]; simpl; intros Ha Hb.
  - destruct b as [|c b]; [reflexivity|]. simpl in *. now rewrite Hb.
  - apply andb_true_iff in Ha as [Hc Ha]. now rewrite Hc, IH.
Qed.

Lemma span_all (f : ascii -> bool) (a : string) :
  allb f a = true -> span f a = (a, "").
Proof.
  intros H. pose proof (span_app f a "" H I) as S. now rewrite append_nil_r in S.
Qed.

Lemma notE_matchExponent (s : string) :
  allb notE s = true -> matchExponent s = ("", s).
Proof.
  destruct s as [|c s]; [reflexivity|]. simpl.
  intros H. apply andb_true_iff in H as [H _].
  unfold notE in H. apply negb_true_iff in H. now rewrite H.
Qed.

Lemma matchMantissa_plain (s m r : string) :
  matchMantissa s = Some (m, r) ->
  s = m ++ r
  /\ ((allb isDigitB m = true /\ nonEmpty m = true)
      \/ exists d1 d2, m = d1 ++ "." ++ d2 /\ allb isDigitB d1 = true
                        /\ allb isDigitB d2 = true /\ nonEmpty d2 = true).
Proof.
  unfold matchMantissa. rewrite spanDigits_span.
  destruct (span isDigitB s) as [d1 r1] eqn:E1.
  apply span_spec in E1 as (-> & Hd1 & _).
  assert (Short : (if nonEmpty d1 then Some (d1, r1) else None) = Some (m, r) ->
                  d1 ++ r1 = m ++ r
                  /\ ((allb isDigitB m = true /\ nonEmpty m = true)
                      \/ exists d1 d2, m = d1 ++ "." ++ d2 /\ allb isDigitB d1 = true
                           /\ allb isDigitB d2 = true /\ nonEmpty d2 = true)).
  { destruct (nonEmpty d1) eqn:N; [|discriminate].
    intros E; inversion E; subst. split; [reflexivity | now left]. }
  destruct r1 as [|c r1]; [exact Short|].
  destruct (Ascii.eqb_spec c "."); [subst c | destruct c as [[] [] [] [] [] [] [] []]; try exact Short; now elim n].
  rewrite spanDigits_span.
  destruct (span isDigitB r1) as [d2 r3] eqn:E2.
  apply span_spec in E2 as (-> & Hd2 & _).
  destruct (nonEmpty d2) eqn:N2; [|exact Short].
  intros E; inversion E; subst.
  split; [now rewrite !append_assoc|].
  right. now exists d1, d2.
Qed.

Lemma allb_drop_prefix (f : ascii -> bool) (a b : string) :
  allb f (a ++ b) = true -> allb f b = true.
Proof. rewrite allb_app. intros H. now apply andb_true_iff in H. Qed.

Lemma matchNumberAt_plain (s m r : string) :
  allb notE s = true -> matchNumberAt s = Some (m, r) -> plainNumber m.
Proof.
  intros Hs. unfold matchNumberAt.
  assert (G : forall (neg : bool) r0, allb notE r0 = true ->
            match matchMantissa r0 with
            | Some (m0, r1) =>
                let '(e, r2) := matchExponent r1 in
                Some ((if neg then "-" else "") ++ m0 ++ e, r2)
            | None => None
            end = Some (m, r) -> plainNumber m).
  { intros neg r0 H0. destruct (matchMantissa r0) as [[m0 r1]|] eqn:E; [|discriminate].
    apply matchMantissa_plain in E as (-> & Hm).
    rewrite notE_matchExponent by (eapply allb_drop_prefix; exact H0).
    intros X; inversion X; subst. rewrite append_nil_r.
    destruct Hm as [[Hd Hn]|(d1 & d2 & -> & H1 & H2 & Hn)].
    - now apply plain_int.
    - now apply plain_frac. }
  destruct s as [|c s]; [apply (G false ""); reflexivity|].
  destruct (Ascii.eqb_spec c "-").
  - subst c. apply (G true s). simpl in Hs. exact Hs.
  - assert (E : (let '(sg, r0) := match String c s with
                                  | String "-" r1 => ("-", r1)
                                  | _ => ("", String c s)
                                  end in
                 match matchMantissa r0 with
                 | Some (m0, r1) => let '(e, r2) := matchExponent r1 in Some (sg ++ m0 ++ e, r2)
                 | None => None
                 end)
                = match matchMantissa (String c s) with
                  | Some (m0, r1) => let '(e, r2) := matchExponent r1 in Some ("" ++ m0 ++ e, r2)
                  | None => None
                  end).
    { destruct c as [[] [] [] [] [] [] [] []]; try reflexivity. now elim n. }
    rewrite E. apply (G false (String c s)). exact Hs.
Qed.

Lemma digits_no_char (d : string) (c : ascii) :
  allb isDigitB d = true -> isDigitB c = false ->
  CountChar d c = O /\ ContainsChar d c = false.
Proof.
  intros Hd Hc. induction d as [|a d IH]; [split; reflexivity|].
  simpl in Hd. apply andb_true_iff in Hd as [Ha Hd].
  destruct (IH Hd) as [I1 I2]. simpl.
  destruct (Ascii.eqb_spec a c); [congruence|]. now rewrite I1, I2.
Qed.

Lemma CountChar_app (a b : string) (c : ascii) :
  CountChar (a ++ b) c = (CountChar a c + CountChar b c)%nat.
Proof. induction a; simpl; [reflexivity|]. rewrite IHa. lia. Qed.

Lemma ContainsChar_app (a b : string) (c : ascii) :
  ContainsChar (a ++ b) c = (ContainsChar a c || ContainsChar b c)%bool.
Proof. induction a; simpl; [reflexivity|]. now rewrite IHa, orb_assoc. Qed.

Lemma digits_head (d : string) :
  allb isDigitB d = true -> nonEmpty d = true ->
  exists c r, d = String c r /\ isDigitB c = true.
Proof.
  destruct d as [|c r]; [discriminate|]. simpl. intros H _.
  apply andb_true_iff in H as [H _]. now exists c, r.
Qed.

Lemma ValidNumberRegex_Match_body (s : string) :
  (forall r, s <> String "-" r) ->
  ValidNumberRegex_Match s
  = (let '(d1, r1) := spanDigits s in
     let tailOk (r : string) : bool :=
       match r with
       | EmptyString => true
       | _ => match matchExponent r with
              | (String _ _, EmptyString) => true
              | _ => false
              end
       end in
     match r1 with
     | String "." r2 => let '(d2, r3) := spanDigits r2 in (nonEmpty d2 && tailOk r3)%bool
     | _ => (nonEmpty d1 && tailOk r1)%bool
     end).
Proof.
  intros H. unfold ValidNumberRegex_Match.
  destruct s as [|c s]; [reflexivity|].
  destruct (Ascii.eqb_spec c "-"); [subst; now elim (H s)|].
  destruct c as [[] [] [] [] [] [] [] []]; try reflexivity. now elim n.
Qed.

Lemma ValidNumberRegex_Match_unsigned (m : string) :
  plainNumber m -> (forall r, m <> String "-" r) ->
  ValidNumberRegex_Match m = true.
Proof.
  intros P Hm. rewrite ValidNumberRegex_Match_body by assumption.
  rewrite spanDigits_span.
  inversion P as [neg d Hd Hn E|neg d1 d2 H1 H2 Hn E].
  - destruct neg; simpl in E; subst m; [now elim (Hm d)|].
    simpl. rewrite (span_all _ _ Hd). simpl. now rewrite Hn.
  - destruct neg; simpl in E; subst m; [now elim (Hm (d1 ++ "." ++ d2))|].
    simpl. rewrite (span_app isDigitB d1 (String "." d2) H1 eq_refl). simpl.
    rewrite spanDigits_span, (span_all _ _ H2). simpl. now rewrite Hn.
Qed.

Lemma plainNumber_valid (m : string) : plainNumber m -> validateNumber rt m = None.
Proof.
  intros P. unfold validateNumber.
  assert (V : ValidNumberRegex_Match m = true).
  { inversion P as [neg d Hd Hn E|neg d1 d2 H1 H2 Hn E]; destruct neg; simpl.
    - unfold ValidNumberRegex_Match.
      change (match String "-" d with String "-" r => r | _ => String "-" d end) with d.
      rewrite spanDigits_span, (span_all _ _ Hd). simpl. now rewrite Hn.
    - apply ValidNumberRegex_Match_unsigned; [now apply (plain_int false)|].
      intros r ->. simpl in Hd. discriminate.
    - unfold ValidNumberRegex_Match.
      change (match String "-" (d1 ++ "." ++ d2) with String "-" r => r | _ => "" end)
        with (d1 ++ "." ++ d2).
      simpl. rewrite spanDigits_span, (span_app isDigitB d1 (String "." d2) H1 eq_refl). simpl.
      rewrite spanDigits_span, (span_all _ _ H2). simpl. now rewrite Hn.
    - apply ValidNumberRegex_Match_unsigned; [now apply (plain_frac false)|].
      intros r E'. destruct d1 as [|c d1]; simpl in E'; [discriminate|].
      inversion E'; subst. simpl in H1. discriminate. }
  rewrite V. simpl.
  assert (C : (CountChar m "." <= 1)%nat /\ containsE m = false).
  { unfold containsE.
    inversion P as [neg d Hd Hn E|neg d1 d2 H1 H2 Hn E];
      rewrite ?CountChar_app, ?ContainsChar_app.
    - destruct (digits_no_char d "." Hd eq_refl) as [-> _].
      destruct (digits_no_char d "e" Hd eq_refl) as [_ ->].
      destruct (digits_no_char d "E" Hd eq_refl) as [_ ->].
      destruct neg; simpl; split; (lia || reflexivity).
    - destruct (digits_no_char d1 "." H1 eq_refl) as [-> _].
      destruct (digits_no_char d1 "e" H1 eq_refl) as [_ ->].
      destruct (digits_no_char d1 "E" H1 eq_refl) as [_ ->].
      destruct (digits_no_char d2 "." H2 eq_refl) as [-> _].
      destruct (digits_no_char d2 "e" H2 eq_refl) as [_ ->].
      destruct (digits_no_char d2 "E" H2 eq_refl) as [_ ->].
      destruct neg; simpl; split; (lia || reflexivity). }
  destruct C as [C1 C2]. rewrite C2.
  destruct (Nat.ltb_spec 1 (CountChar m ".")); [lia | reflexivity].
Qed.

Lemma findNumbers_go_valid (s : string) :
  allb notE s = true ->
  forall skip, validateNumbers_loop rt (findNumbers_go skip s) = None.
Proof.
  induction s as [|c s IH]; intros Hs skip; [reflexivity|].
  assert (Hs' : allb notE s = true) by (simpl in Hs; now apply andb_true_iff in Hs).
  cbn [findNumbers_go]. destruct skip as [|k]; [|now apply IH].
  destruct (matchNumberAt (String c s)) as [[m r]|] eqn:E; [|now apply IH].
  cbn [validateNumbers_loop].
  rewrite (plainNumber_valid m) by exact (matchNumberAt_plain _ _ _ Hs E).
  now apply IH.
Qed.

(** A text without [e] or [E] passes [ValidateNumbers]. *)
Lemma ValidateNumbers_notE (s : string) :
  allb notE s = true -> ValidateNumbers rt s = None.
Proof. intros H. now apply findNumbers_go_valid. Qed.

End NumberPattern.

Section TextValidation.

Variable rt : GoMath.

Lemma allb_removeSpaces (s : string) :
  allb isExprChar (removeSpaces s) = true -> allb isTextChar s = true.
Proof.
  induction s as [|c s IH]; [reflexivity|]. simpl.
  destruct (Ascii.eqb_spec c " ").
  - subst c. exact IH.
  - simpl. intros H. apply andb_true_iff in H as [Hc Hs].
    unfold isTextChar at 1. now rewrite Hc, IH.
Qed.

Lemma isTextChar_cases c : isTextChar c = true ->
  In c (list_ascii_of_string "0123456789.+-*/() ").
Proof.
  destruct c as [[] [] [] [] [] [] [] []]; vm_compute; intros H; try discriminate H; tauto.
Qed.

Lemma isExprChar_isTextChar (s : string) :
  allb isExprChar s = true -> allb isTextChar s = true.
Proof.
  apply allb_impl. intros c H. unfold isTextChar. now rewrite H.
Qed.

Lemma isTextChar_notE (s : string) : allb isTextChar s = true -> allb notE s = true.
Proof.
  apply allb_impl. intros c H. apply isTextChar_cases in H. simpl in H.
  repeat (destruct H as [<-|H]; [reflexivity|]). contradiction.
Qed.

Lemma removeSpaces_nonEmpty (s : string) :
  nonEmpty (removeSpaces s) = true -> String.eqb s "" = false.
Proof. now destruct s. Qed.

Lemma nonEmpty_app (a b : string) : nonEmpty a = true -> nonEmpty (a ++ b) = true.
Proof. now destruct a. Qed.

Lemma render_nonEmpty (e : aexp) : wellFormed e = true -> nonEmpty (render e) = true.
Proof.
  induction e as [lit|o l IHl r IHr|e IH]; simpl; intros H.
  - now apply litOk_nonEmpty.
  - repeat (apply andb_true_iff in H as [H ?]). apply nonEmpty_app. now apply IHl.
  - reflexivity.
Qed.

(** *** Parentheses *)

Lemma HasBalancedParentheses_go_spaces (s : string) (b : Z) :
  HasBalancedParentheses_go s b = HasBalancedParentheses_go (removeSpaces s) b.
Proof.
  revert b; induction s as [|c s IH]; intros b; [reflexivity|]. simpl.
  destruct (Ascii.eqb_spec c " ").
  - subst c. simpl. apply IH.
  - simpl. destruct (Ascii.eqb c "("); [apply IH|].
    destruct (Ascii.eqb c ")"); [|apply IH].
    destruct (b - 1 <? 0); [reflexivity | apply IH].
Qed.

Lemma HasBalancedParentheses_go_notParen (s rest : string) (b : Z) :
  allb notParen s = true ->
  HasBalancedParentheses_go (s ++ rest) b = HasBalancedParentheses_go rest b.
Proof.
  induction s as [|c s IH]; [reflexivity|]. simpl. intros H.
  apply andb_true_iff in H as [Hc Hs]. unfold notParen in Hc.
  apply negb_true_iff, orb_false_iff in Hc as [-> ->]. now apply IH.
Qed.

Lemma isLitChar_notParen (s : string) : allb isLitChar s = true -> allb notParen s = true.
Proof.
  apply allb_impl. intros c H. apply isLitChar_cases in H. simpl in H.
  repeat (destruct H as [<-|H]; [reflexivity|]). contradiction.
Qed.

Lemma opToken_notParen (o : binop) : allb notParen (opToken o) = true.
Proof. now destruct o. Qed.

Lemma litOk_chars (lit : string) : litOk lit = true -> allb isLitChar lit = true.
Proof. unfold litOk. intros H. now apply andb_true_iff in H. Qed.

Lemma HasBalancedParentheses_go_render (e : aexp) :
  wellFormed e = true ->
  forall rest b, 0 <= b ->
    HasBalancedParentheses_go (render e ++ rest) b = HasBalancedParentheses_go rest b.
Proof.
  induction e as [lit|o l IHl r IHr|e IH]; cbn [wellFormed render]; intros H rest b Hb.
  - apply HasBalancedParentheses_go_notParen, isLitChar_notParen. now apply litOk_chars.
  - repeat (apply andb_true_iff in H as [H ?]).
    rewrite !append_assoc, IHl, HasBalancedParentheses_go_notParen, IHr
      by (assumption || apply opToken_notParen). reflexivity.
  - rewrite !append_assoc. simpl. rewrite IH by (assumption || lia). simpl.
    replace (b + 1 - 1) with b by lia.
    destruct (Z.ltb_spec b 0); [lia | reflexivity].
Qed.

Lemma CountChar_spaces (s : string) (c : ascii) :
  Ascii.eqb " " c = false -> CountChar s c = CountChar (removeSpaces s) c.
Proof.
  intros Hc. induction s as [|a s IH]; [reflexivity|]. simpl.
  destruct (Ascii.eqb_spec a " ").
  - subst a. now rewrite Hc.
  - simpl. now rewrite IH.
Qed.

Lemma CountChar_notParen (s : string) :
  allb notParen s = true -> CountChar s "(" = O /\ CountChar s ")" = O.
Proof.
  induction s as [|c s IH]; [split; reflexivity|]. simpl. intros H.
  apply andb_true_iff in H as [Hc Hs]. unfold notParen in Hc.
  apply negb_true_iff, orb_false_iff in Hc as [-> ->]. now apply IH.
Qed.

Lemma CountChar_render (e : aexp) :
  wellFormed e = true -> CountChar (render e) "(" = CountChar (render e) ")".
Proof.
  induction e as [lit|o l IHl r IHr|e IH]; cbn [wellFormed render]; intros H.
  - destruct (CountChar_notParen lit) as [-> ->]; [|reflexivity].
    now apply isLitChar_notParen, litOk_chars.
  - repeat (apply andb_true_iff in H as [H ?]).
    rewrite !CountChar_app, IHl, IHr by assumption.
    destruct (CountChar_notParen _ (opToken_notParen o)) as [-> ->]. reflexivity.
  - rewrite !CountChar_app, IH by assumption. simpl. lia.
Qed.

(** *** Pairs of operators *)

Lemma HasConsecutiveOperators_go_spaces (s : string) :
  forall prev prev',
    prev = prev' \/ ContainsChar operators prev = false ->
    HasConsecutiveOperators_go (removeSpaces s) prev' = false ->
    HasConsecutiveOperators_go s prev = false.
Proof.
  induction s as [|c s IH]; intros prev prev' Hp; [reflexivity|].
  cbn [removeSpaces HasConsecutiveOperators_go].
  destruct (Ascii.eqb_spec c " ").
  - subst c. intros H.
    change (ContainsChar operators " ") with false. rewrite andb_false_r.
    cbn [andb]. apply (IH " "%char prev'); [now right | exact H].
  - cbn [HasConsecutiveOperators_go].
    destruct (ContainsChar operators prev' && ContainsChar operators c
              && negb (isSign prev' && isSign c))%bool eqn:E'; [discriminate|].
    intros H.
    assert (E : (ContainsChar operators prev && ContainsChar operators c
                 && negb (isSign prev && isSign c))%bool = false).
    { destruct Hp as [->| ->]; [exact E' | reflexivity]. }
    rewrite E. apply (IH c c); [now left | exact H].
Qed.

Lemma isLitChar_not_operator (c : ascii) :
  isLitChar c = true -> ContainsChar operators c = false.
Proof.
  intros H. apply isLitChar_cases in H. simpl in H.
  repeat (destruct H as [<-|H]; [reflexivity|]). contradiction.
Qed.

Lemma HasConsecutiveOperators_go_head (c : ascii) (s : string) (prev : ascii) :
  ContainsChar operators c = false ->
  HasConsecutiveOperators_go (String c s) prev = HasConsecutiveOperators_go s c.
Proof.
  intros H. cbn [HasConsecutiveOperators_go]. now rewrite H, andb_false_r.
Qed.

Lemma HasConsecutiveOperators_go_literal (lit : string) :
  allb isLitChar lit = true -> nonEmpty lit = true ->
  exists c, ContainsChar operators c = false
    /\ forall rest prev,
         HasConsecutiveOperators_go (lit ++ rest) prev = HasConsecutiveOperators_go rest c.
Proof.
  induction lit as [|a lit IH]; [discriminate|]. intros H _.
  simpl in H. apply andb_true_iff in H as [Ha Hl].
  pose proof (isLitChar_not_operator a Ha) as Na.
  destruct lit as [|b lit].
  - exists a. split; [exact Na|]. intros rest prev.
    now apply HasConsecutiveOperators_go_head.
  - destruct (IH Hl eq_refl) as (c & Hc & Hgo). exists c. split; [exact Hc|].
    intros rest prev.
    change ((String a (String b lit)) ++ rest) with (String a (String b lit ++ rest)).
    rewrite HasConsecutiveOperators_go_head by exact Na. apply Hgo.
Qed.

Lemma HasConsecutiveOperators_go_operator (o : binop) (s : string) (prev : ascii) :
  ContainsChar operators prev = false ->
  exists c, HasConsecutiveOperators_go (opToken o ++ s) prev
            = HasConsecutiveOperators_go s c.
Proof.
  intros H. destruct o; eexists; cbn [opToken append HasConsecutiveOperators_go];
    rewrite H; reflexivity.
Qed.

Lemma HasConsecutiveOperators_go_render (e : aexp) :
  wellFormed e = true ->
  exists c, ContainsChar operators c = false
    /\ forall rest prev,
         HasConsecutiveOperators_go (render e ++ rest) prev
         = HasConsecutiveOperators_go rest c.
Proof.
  induction e as [lit|o l IHl r IHr|e IH]; cbn [wellFormed render]; intros H.
  - apply HasConsecutiveOperators_go_literal; [now apply litOk_chars | now apply litOk_nonEmpty].
  - repeat (apply andb_true_iff in H as [H ?]).
    destruct (IHl H) as (cl & Hcl & Hl). destruct (IHr H2) as (cr & Hcr & Hr).
    exists cr. split; [exact Hcr|]. intros rest prev.
    rewrite !append_assoc, Hl.
    destruct (HasConsecutiveOperators_go_operator o (render r ++ rest) cl Hcl) as (c & ->).
    apply Hr.
  - destruct (IH H) as (c & Hc & He). exists ")"%char. split; [reflexivity|].
    intros rest prev. rewrite !append_assoc.
    change ("(" ++ render e ++ ")" ++ rest) with (String "(" (render e ++ ")" ++ rest)).
    rewrite HasConsecutiveOperators_go_head by reflexivity. rewrite He.
    now apply HasConsecutiveOperators_go_head.
Qed.

(** *** Characters and names *)

Lemma validExprChars_text (s : string) : allb isTextChar s = true -> validExprChars s = true.
Proof.
  induction s as [|c s IH]; [reflexivity|]. cbn [allb]. intros H.
  apply andb_true_iff in H as [Hc Hs]. cbn [validExprChars].
  assert (V : validExprChar c = true).
  { apply isTextChar_cases in Hc. simpl in Hc.
    repeat (destruct Hc as [<-|Hc]; [reflexivity|]). contradiction. }
  rewrite V. now apply IH.
Qed.

Lemma findFuncNames_go_text (s : string) :
  allb isTextChar s = true -> findFuncNames_go s "" = [].
Proof.
  induction s as [|c s IH]; [reflexivity|]. cbn [allb]. intros H.
  apply andb_true_iff in H as [Hc Hs]. cbn [findFuncNames_go].
  assert (L : isLowerB c = false).
  { apply isTextChar_cases in Hc. simpl in Hc.
    repeat (destruct Hc as [<-|Hc]; [reflexivity|]). contradiction. }
  rewrite L. simpl. rewrite andb_false_r. now apply IH.
Qed.

(** Validation accepts a well-formed text written with spaces, unless the
    check for a division by zero fires. *)
Lemma ValidateExpression_wellFormed (s : string) (e : aexp) :
  removeSpaces s = render e -> wellFormed e = true -> passesZeroCheck s = true ->
  ValidateExpression rt s = None.
Proof.
  intros Hs He Hz.
  assert (Ht : allb isTextChar s = true).
  { apply allb_removeSpaces. rewrite Hs. now apply wellFormed_chars. }
  assert (Hn : String.eqb s "" = false).
  { apply removeSpaces_nonEmpty. rewrite Hs. now apply render_nonEmpty. }
  unfold ValidateExpression. rewrite Hn.
  unfold HasBalancedParentheses.
  rewrite HasBalancedParentheses_go_spaces, Hs, <- (append_nil_r (render e)),
    HasBalancedParentheses_go_render by (assumption || lia).
  simpl.
  assert (Hc : HasConsecutiveOperators s = false).
  { apply (HasConsecutiveOperators_go_spaces s " "%char " "%char); [now left|].
    rewrite Hs. destruct (HasConsecutiveOperators_go_render e He) as (c & _ & Hgo).
    rewrite <- (append_nil_r (render e)), Hgo. reflexivity. }
  rewrite Hc.
  assert (Hv : ValidExpressionRegex_Match s = true).
  { unfold ValidExpressionRegex_Match. destruct s; [discriminate|].
    now apply validExprChars_text. }
  rewrite Hv. simpl.
  unfold passesZeroCheck in Hz. apply negb_true_iff in Hz.
  assert (Hz' : (Contains s "/0" && negb (Contains s "/0.") && negb (Contains s "/0."))%bool
                = false).
  { now rewrite Hz. }
  rewrite Hz'.
  unfold ValidateFunctionCalls, findFuncNames.
  rewrite findFuncNames_go_text by assumption. simpl.
  rewrite (CountChar_spaces s "(") , (CountChar_spaces s ")"), Hs, CountChar_render
    by (assumption || reflexivity).
  rewrite Nat.eqb_refl.
  apply ValidateNumbers_notE. now apply isTextChar_notE.
Qed.

End TextValidation.

(** ** Preprocessing leaves a well-formed text as it is *)

Section Preprocess.

Variable rt : GoMath.

Lemma ToLower_expr (s : string) : allb isExprChar s = true -> ToLower s = s.
Proof.
  induction s as [|c s IH]; [reflexivity|]. cbn [allb ToLower]. intros H.
  apply andb_true_iff in H as [Hc Hs]. rewrite (IH Hs). f_equal.
  apply isExprChar_cases in Hc. simpl in Hc.
  repeat (destruct Hc as [<-|Hc]; [reflexivity|]). contradiction.
Qed.

Lemma isExprChar_not_name_head (a c : ascii) :
  (isLetterB a || Ascii.eqb a "_")%bool = true -> isExprChar c = true ->
  Ascii.eqb a c = false.
Proof.
  intros Ha Hc. destruct (Ascii.eqb_spec a c) as [->|]; [|reflexivity].
  apply isExprChar_cases in Hc. simpl in Hc.
  repeat (destruct Hc as [<-|Hc]; [discriminate Ha|]). contradiction.
Qed.

Lemma wordMatchAt_expr (name : string) (prev : option ascii) (s : string) :
  nameOk name = true -> allb isExprChar s = true -> wordMatchAt name prev s = false.
Proof.
  intros Hn Hs. unfold wordMatchAt.
  destruct name as [|a name]; [discriminate|]. simpl in Hn.
  destruct s as [|c s]; [reflexivity|].
  cbn [allb] in Hs. apply andb_true_iff in Hs as [Hc _].
  cbn [HasPrefix]. now rewrite (isExprChar_not_name_head a c Hn Hc).
Qed.

Lemma replaceWord_go_expr (name repl : string) (s : string) :
  nameOk name = true -> allb isExprChar s = true ->
  forall prev, replaceWord_go name repl O prev s = s.
Proof.
  intros Hn. induction s as [|c s IH]; intros Hs prev; [reflexivity|].
  cbn [replaceWord_go]. rewrite wordMatchAt_expr by assumption.
  cbn [allb] in Hs. apply andb_true_iff in Hs as [_ Hs]. now rewrite IH.
Qed.

Lemma substitute_expr (m : fmap) (s : string) :
  namesOk m = true -> allb isExprChar s = true -> substitute m s = s.
Proof.
  induction m as [|[name value] m IH]; [reflexivity|].
  cbn [namesOk forallb fst substitute]. intros H Hs.
  apply andb_true_iff in H as [Hn Hm]. unfold replaceWord.
  rewrite replaceWord_go_expr by assumption. now apply IH.
Qed.

Lemma findFuncCall_expr (s : string) : allb isExprChar s = true -> findFuncCall s = None.
Proof.
  induction s as [|c s IH]; [reflexivity|]. cbn [allb]. intros H.
  apply andb_true_iff in H as [Hc Hs]. cbn [findFuncCall matchCallAt].
  assert (L : (isLetterB c || Ascii.eqb c "_")%bool = false).
  { apply isExprChar_cases in Hc. simpl in Hc.
    repeat (destruct Hc as [<-|Hc]; [reflexivity|]). contradiction. }
  rewrite L. now apply IH.
Qed.

Lemma namesOk_map_set (m : fmap) (k : string) (v : float64) :
  namesOk m = true -> nameOk k = true -> namesOk (map_set m k v) = true.
Proof.
  intros Hm Hk. induction m as [|[k' v'] m IH]; simpl.
  - now rewrite Hk.
  - simpl in Hm. apply andb_true_iff in Hm as [H1 H2].
    destruct (String.eqb k' k); simpl.
    + now rewrite Hk, H2.
    + now rewrite H1, IH.
Qed.

Lemma preprocess_expr (evalArg : Parser -> string -> result float64 * Parser)
  (p : Parser) (s : string) (e : aexp) :
  removeSpaces s = render e -> wellFormed e = true -> parserOk p = true ->
  preprocess rt evalArg p s = (Ok (render e), p).
Proof.
  intros Hs He Hp. pose proof (wellFormed_chars e He) as Hc.
  unfold parserOk in Hp. apply andb_true_iff in Hp as [Hk Hv].
  unfold preprocess. rewrite Hs, ToLower_expr by assumption.
  rewrite (substitute_expr (constants p) (render e) Hk Hc).
  rewrite (substitute_expr (variables p) (render e) Hv Hc).
  unfold processFunctions. cbn [processFunctions_loop].
  now rewrite findFuncCall_expr.
Qed.

Lemma EvaluateExpression_wellFormed (p : Parser) (s : string) (e : aexp) :
  removeSpaces s = render e -> wellFormed e = true ->
  passesZeroCheck s = true -> parserOk p = true ->
  EvaluateExpression rt p s
  = match denote e with
    | Ok v => (Ok v, recorded p s v)
    | Err m => (Err m, set_constant p "ans" (GetLastResult (calc p)))
    | Diverge => (Diverge, set_constant p "ans" (GetLastResult (calc p)))
    end.
Proof.
  intros Hs He Hz Hp.
  unfold EvaluateExpression. cbn [EvaluateExpression_at]. unfold EvaluateExpression_body.
  rewrite (removeSpaces_nonEmpty s) by (rewrite Hs; now apply render_nonEmpty).
  rewrite (ValidateExpression_wellFormed rt s e) by assumption.
  rewrite (preprocess_expr _ _ s e); [| assumption | assumption |].
  - rewrite evaluate_render by assumption. now destruct (denote e).
  - unfold parserOk in *. apply andb_true_iff in Hp as [Hk Hv].
    cbn [set_constant constants variables]. rewrite Hv, andb_true_r.
    now apply namesOk_map_set.
Qed.

End Preprocess.

(** ** Termination of the rewriting of calls *)

Section NoParenthesis.

Lemma allb_CountChar (s : string) (c : ascii) :
  allb (fun a => negb (Ascii.eqb a c)) s = true <-> CountChar s c = O.
Proof.
  induction s as [|a s IH]; simpl; [tauto|].
  destruct (Ascii.eqb a c); simpl; [split; [discriminate | lia]|]. exact IH.
Qed.

Lemma allb_drop (f : ascii -> bool) (n : nat) (s : string) :
  allb f s = true -> allb f (drop n s) = true.
Proof.
  revert s; induction n as [|n IH]; intros [|c s] H; simpl; try assumption.
  apply IH. simpl in H. now apply andb_true_iff in H.
Qed.

Lemma string_of_uint_digits (d : Decimal.uint) :
  allb isDigitB (NilEmpty.string_of_uint d) = true.
Proof. induction d; simpl; assumption || reflexivity. Qed.

Lemma string_of_Z_digits (n : Z) : allb isDigitB (string_of_Z n) = true.
Proof.
  unfold string_of_Z, NilZero.string_of_uint.
  destruct (N.to_uint (Z.to_N n)) eqn:E; try reflexivity;
    rewrite <- E; apply string_of_uint_digits.
Qed.

Lemma isDigitB_notLparen (s : string) : allb isDigitB s = true -> allb notLparen s = true.
Proof.
  apply allb_impl. intros c H. destruct (Ascii.eqb_spec c "("); [subst; discriminate|].
  unfold notLparen. now apply negb_true_iff, Ascii.eqb_neq.
Qed.

Lemma fixedStr_notLparen (p : nat) (n : Z) : allb notLparen (fixedStr p n) = true.
Proof.
  unfold fixedStr. rewrite allb_app.
  rewrite (isDigitB_notLparen _ (string_of_Z_digits _)).
  destruct p; [reflexivity|]. rewrite allb_app.
  change (allb notLparen ".") with true. cbn [andb].
  apply allb_drop, isDigitB_notLparen, string_of_Z_digits.
Qed.

(** A formatted value holds no opening parenthesis. *)
Lemma FormatF_notLparen (p : nat) (x : float64) : allb notLparen (FormatF p x) = true.
Proof.
  destruct x as [s|s| |s m e]; simpl.
  - rewrite allb_app, fixedStr_notLparen. now destruct s.
  - now destruct s.
  - reflexivity.
  - rewrite allb_app, fixedStr_notLparen. now destruct s.
Qed.

Lemma FormatF_count (p : nat) (x : float64) : CountChar (FormatF p x) "(" = O.
Proof. apply allb_CountChar. apply (FormatF_notLparen p x). Qed.

End NoParenthesis.

Section CallsTerminate.

Variable rt : GoMath.

Lemma HasPrefix_drop (s p : string) :
  HasPrefix s p = true -> s = p ++ drop (String.length p) s.
Proof.
  revert s; induction p as [|a p IH]; intros s H; [reflexivity|].
  destruct s as [|b s]; [discriminate|]. simpl in H.
  apply andb_true_iff in H as [E H]. apply Ascii.eqb_eq in E. subst b.
  simpl. f_equal. now apply IH.
Qed.



Lemma matchCallAt_spec (s name args : string) :
  matchCallAt s = Some (name, args) ->
  (exists post, s = callText name args ++ post) /\ allb notRparen args = true.
Proof.
  unfold matchCallAt. destruct s as [|c r]; [discriminate|].
  destruct (isLetterB c || Ascii.eqb c "_")%bool; [|discriminate].
  destruct (span isWordB r) as [nm r1] eqn:E1.
  apply span_spec in E1 as (-> & _ & _).
  destruct r1 as [|c1 r2]; [discriminate|].
  destruct (Ascii.eqb_spec c1 "(");
    [subst c1 | destruct c1 as [[] [] [] [] [] [] [] []]; try (simpl; discriminate); now elim n].
  destruct (span (fun a => negb (Ascii.eqb a ")")) r2) as [a0 r3] eqn:E2.
  apply span_spec in E2 as (-> & Ha & _).
  destruct r3 as [|c3 post]; [discriminate|].
  destruct (Ascii.eqb_spec c3 ")");
    [subst c3 | destruct c3 as [[] [] [] [] [] [] [] []]; try (intros X; discriminate X); now elim n].
  intros E; inversion E; subst. split; [|exact Ha].
  exists post. unfold callText. simpl. repeat (rewrite append_assoc; simpl). reflexivity.
Qed.

Lemma findFuncCall_spec (s name args : string) :
  findFuncCall s = Some (name, args) ->
  (exists pre post, s = pre ++ callText name args ++ post)
  /\ allb notRparen args = true.
Proof.
  induction s as [|c s IH]; cbn [findFuncCall].
  - discriminate.
  - destruct (matchCallAt (String c s)) as [[n a]|] eqn:E.
    + intros X; inversion X; subst.
      destruct (matchCallAt_spec _ _ _ E) as ((post & ->) & Ha).
      split; [|exact Ha]. now exists "", post.
    + intros X. destruct (IH X) as ((pre & post & ->) & Ha).
      split; [|exact Ha]. now exists (String c pre), post.
Qed.

Lemma callText_count (name args : string) : (1 <= CountChar (callText name args) "(")%nat.
Proof. unfold callText. rewrite !CountChar_app. simpl. lia. Qed.



End CallsTerminate.

(** ** Two levels of [EvaluateExpression] are all there is *)

Section Depth.

Variable rt : GoMath.

Lemma HasBalancedParentheses_go_notRparen (s : string) (b : Z) :
  allb notRparen s = true ->
  HasBalancedParentheses_go s b = (b + Z.of_nat (CountChar s "(") =? 0).
Proof.
  revert b; induction s as [|c s IH]; intros b H.
  - simpl. now rewrite Z.add_0_r.
  - cbn [allb] in H. apply andb_true_iff in H as [Hc Hs].
    unfold notRparen in Hc. apply negb_true_iff in Hc.
    cbn [HasBalancedParentheses_go CountChar]. rewrite Hc.
    destruct (Ascii.eqb c "("); rewrite IH by assumption; f_equal; lia.
Qed.

(** Text without a closing parenthesis that has balanced parentheses has
    no parenthesis. *)
Lemma balanced_notRparen (s : string) :
  allb notRparen s = true -> HasBalancedParentheses s = true -> CountChar s "(" = O.
Proof.
  intros H B. unfold HasBalancedParentheses in B.
  rewrite HasBalancedParentheses_go_notRparen in B by assumption.
  apply Z.eqb_eq in B. lia.
Qed.

Lemma lowerChar_paren (c : ascii) : Ascii.eqb (lowerChar c) "(" = Ascii.eqb c "(".
Proof. destruct c as [[] [] [] [] [] [] [] []]; reflexivity. Qed.

Lemma CountChar_ToLower (s : string) : CountChar (ToLower s) "(" = CountChar s "(".
Proof.
  induction s as [|c s IH]; [reflexivity|]. cbn [ToLower CountChar].
  now rewrite lowerChar_paren, IH.
Qed.

Lemma CountChar_replaceWord_go (name repl : string) (s : string) :
  CountChar repl "(" = O ->
  forall skip prev,
    (CountChar (replaceWord_go name repl skip prev s) "(" <= CountChar s "(")%nat.
Proof.
  intros Hr. induction s as [|c s IH]; intros skip prev; [simpl; lia|].
  cbn [replaceWord_go]. destruct skip as [|k].
  - destruct (wordMatchAt name prev (String c s)).
    + rewrite CountChar_app, Hr. cbn [CountChar].
      specialize (IH (Nat.pred (String.length name)) (Some c)). lia.
    + cbn [CountChar]. specialize (IH O (Some c)). lia.
  - cbn [CountChar]. specialize (IH k (Some c)). lia.
Qed.

Lemma CountChar_substitute (m : fmap) (s : string) :
  (CountChar (substitute m s) "(" <= CountChar s "(")%nat.
Proof.
  revert s; induction m as [|[name value] m IH]; intros s; cbn [substitute]; [lia|].
  etransitivity; [apply IH|]. apply CountChar_replaceWord_go, FormatF_count.
Qed.

Lemma findFuncCall_count (s : string) : CountChar s "(" = O -> findFuncCall s = None.
Proof.
  intros H. destruct (findFuncCall s) as [[name args]|] eqn:E; [|reflexivity].
  apply findFuncCall_spec in E as ((pre & post & ->) & _).
  rewrite !CountChar_app in H. pose proof (callText_count name args). lia.
Qed.

(** Without an opening parenthesis in the text, [preprocess] evaluates no
    argument. *)
Lemma preprocess_no_call (f g : Parser -> string -> result float64 * Parser)
  (p : Parser) (s : string) :
  CountChar s "(" = O -> preprocess rt f p s = preprocess rt g p s.
Proof.
  intros H. unfold preprocess, processFunctions.
  set (t := substitute (variables p) (substitute (constants p) (ToLower (removeSpaces s)))).
  assert (Ht : CountChar t "(" = O).
  { pose proof (CountChar_substitute (variables p)
                  (substitute (constants p) (ToLower (removeSpaces s)))).
    pose proof (CountChar_substitute (constants p) (ToLower (removeSpaces s))).
    rewrite CountChar_ToLower, <- CountChar_spaces in * by reflexivity.
    subst t. lia. }
  rewrite Ht. cbn [processFunctions_loop]. now rewrite findFuncCall_count.
Qed.

Lemma ValidateExpression_balanced (s : string) :
  ValidateExpression rt s = None -> HasBalancedParentheses s = true.
Proof.
  unfold ValidateExpression. destruct (String.eqb s ""); [discriminate|].
  now destruct (HasBalancedParentheses s).
Qed.

(** The evaluation of an argument calls for no further evaluation. *)
Lemma EvaluateExpression_body_argument
  (f g : Parser -> string -> result float64 * Parser) (p : Parser) (a : string) :
  allb notRparen a = true ->
  EvaluateExpression_body rt f p a = EvaluateExpression_body rt g p a.
Proof.
  intros Ha. unfold EvaluateExpression_body.
  destruct (String.eqb a ""); [reflexivity|].
  destruct (ValidateExpression rt a) eqn:V; [reflexivity|].
  apply ValidateExpression_balanced in V.
  now rewrite (preprocess_no_call f g) by now apply balanced_notRparen.
Qed.

Lemma allb_rev_acc (f : ascii -> bool) (s a : string) :
  allb f (rev_acc s a) = (allb f s && allb f a)%bool.
Proof.
  revert a; induction s as [|c s IH]; intros a; [reflexivity|]. simpl.
  rewrite IH. simpl. destruct (f c), (allb f s); reflexivity.
Qed.

Lemma allb_rev (f : ascii -> bool) (s : string) : allb f (rev s) = allb f s.
Proof. unfold rev. rewrite allb_rev_acc. simpl. apply andb_true_r. Qed.

Lemma allb_trimLeft (f : ascii -> bool) (s : string) :
  allb f s = true -> allb f (trimLeft s) = true.
Proof.
  induction s as [|c s IH]; [reflexivity|]. intros H. cbn [trimLeft].
  destruct (isSpaceB c); [|exact H].
  apply IH. simpl in H. now apply andb_true_iff in H.
Qed.

Lemma allb_TrimSpace (f : ascii -> bool) (s : string) :
  allb f s = true -> allb f (TrimSpace s) = true.
Proof.
  intros H. unfold TrimSpace.
  rewrite allb_rev. apply allb_trimLeft. rewrite allb_rev. now apply allb_trimLeft.
Qed.

Lemma parseArguments_go_allb (f : ascii -> bool) (s cur : string) (depth : Z) :
  allb f s = true -> allb f cur = true ->
  Forall (fun a => allb f a = true) (parseArguments_go s cur depth).
Proof.
  revert cur depth; induction s as [|c s IH]; intros cur depth Hs Hc.
  - simpl. destruct (nonEmpty cur); constructor; [|constructor].
    apply allb_TrimSpace. now rewrite allb_rev.
  - cbn [allb] in Hs. apply andb_true_iff in Hs as [Hch Hs].
    assert (Hcur : allb f (String c cur) = true) by (simpl; now rewrite Hch, Hc).
    cbn [parseArguments_go].
    destruct (Ascii.eqb c "("); [now apply IH|].
    destruct (Ascii.eqb c ")"); [now apply IH|].
    destruct (Ascii.eqb c ","); [|now apply IH].
    destruct (depth =? 0); [|now apply IH].
    constructor; [|now apply IH].
    apply allb_TrimSpace. now rewrite allb_rev.
Qed.

Lemma evaluateArguments_ext (f g : Parser -> string -> result float64 * Parser)
  (args : list string) :
  (forall p a, In a args -> f p a = g p a) ->
  forall p, evaluateArguments f p args = evaluateArguments g p args.
Proof.
  induction args as [|a args IH]; intros H p; [reflexivity|].
  cbn [evaluateArguments]. rewrite (H p a) by now left.
  destruct (g p a) as [[v| |] p1]; try reflexivity.
  rewrite IH; [reflexivity|]. intros q b Hb. apply H. now right.
Qed.

Lemma processFunctions_loop_ext (f g : Parser -> string -> result float64 * Parser) :
  (forall p a, allb notRparen a = true -> f p a = g p a) ->
  forall fuel p s,
    processFunctions_loop rt f fuel p s = processFunctions_loop rt g fuel p s.
Proof.
  intros H. induction fuel as [|fuel IH]; intros p s; cbn [processFunctions_loop].
  - reflexivity.
  - destruct (findFuncCall s) as [[name args]|] eqn:E; [|reflexivity].
    apply findFuncCall_spec in E as (_ & Ha).
    unfold evaluateFunction.
    rewrite (evaluateArguments_ext f g).
    + destruct (evaluateArguments g p (parseArguments args)) as [[vs| |] p1];
        try reflexivity.
      destruct (dispatchFunction rt p1 name vs); try reflexivity. apply IH.
    + intros q a Hin. apply H.
      pose proof (parseArguments_go_allb notRparen args "" 0 Ha eq_refl) as F.
      rewrite Forall_forall in F. now apply F.
Qed.

Lemma EvaluateExpression_body_ext (f g : Parser -> string -> result float64 * Parser) :
  (forall p a, allb notRparen a = true -> f p a = g p a) ->
  forall p s, EvaluateExpression_body rt f p s = EvaluateExpression_body rt g p s.
Proof.
  intros H p s. unfold EvaluateExpression_body, preprocess, processFunctions.
  destruct (String.eqb s ""); [reflexivity|].
  destruct (ValidateExpression rt s); [reflexivity|].
  now rewrite (processFunctions_loop_ext f g H).
Qed.

End Depth.

(** X1: the evaluation of function arguments nests one level deep at
    most.  An argument is matched by [funcRegex] and holds no closing
    parenthesis; if it passes validation it holds no parenthesis at all and
    its evaluation meets no call.  So [EvaluateExpression], which allows two
    levels, gives the result of any greater depth. *)
Theorem EvaluateExpression_depth :
  forall (rt : GoMath) (d : nat) (p : Parser) (expr : string),
    EvaluateExpression_at rt (S (S d)) p expr = EvaluateExpression rt p expr.
Proof.
  intros rt d p expr. unfold EvaluateExpression.
  cbn [EvaluateExpression_at].
  apply EvaluateExpression_body_ext. intros q a Ha.
  destruct d as [|d]; [reflexivity|]. cbn [EvaluateExpression_at].
  now apply EvaluateExpression_body_argument.
Qed.

Section LoopEnds.

Variable rt : GoMath.




End LoopEnds.


(** ** Invariants of the parser and of the calculator *)

Section Invariants.

Variable rt : GoMath.

Lemma parserOk_fresh : parserOk fresh = true.
Proof. reflexivity. Qed.

Lemma IsValidVariableName_nameOk (name : string) :
  IsValidVariableName name = true -> nameOk name = true.
Proof.
  unfold IsValidVariableName. intros H. apply andb_true_iff in H as [H _].
  destruct name as [|c name]; [discriminate|]. simpl in H.
  apply andb_true_iff in H as [H _]. exact H.
Qed.

Lemma SetVariable_parserOk (p : Parser) (name : string) (value : float64) :
  parserOk p = true -> parserOk (snd (SetVariable p name value)) = true.
Proof.
  intros H. unfold SetVariable.
  destruct (IsValidVariableName name) eqn:E; [|exact H].
  simpl. unfold parserOk in *. apply andb_true_iff in H as [Hc Hv].
  cbn [constants variables]. rewrite Hc. simpl.
  apply namesOk_map_set; [assumption | now apply IsValidVariableName_nameOk].
Qed.

Lemma evaluateArguments_parserOk (f : Parser -> string -> result float64 * Parser) :
  keepsOk f ->
  forall args p, parserOk p = true ->
    parserOk (snd (evaluateArguments f p args)) = true.
Proof.
  intros K. induction args as [|a args IH]; intros p H; [exact H|].
  cbn [evaluateArguments]. pose proof (K p a H) as H1.
  destruct (f p a) as [[v| |] p1]; simpl in *; try assumption.
  pose proof (IH p1 H1) as H2.
  destruct (evaluateArguments f p1 args) as [[vs| |] p2]; simpl in *; assumption.
Qed.

Lemma processFunctions_loop_parserOk (f : Parser -> string -> result float64 * Parser) :
  keepsOk f ->
  forall fuel p s, parserOk p = true ->
    parserOk (snd (processFunctions_loop rt f fuel p s)) = true.
Proof.
  intros K. induction fuel as [|fuel IH]; intros p s H; cbn [processFunctions_loop].
  - now destruct (findFuncCall s) as [[? ?]|].
  - destruct (findFuncCall s) as [[name args]|]; [|exact H].
    unfold evaluateFunction.
    pose proof (evaluateArguments_parserOk f K (parseArguments args) p H) as H1.
    destruct (evaluateArguments f p (parseArguments args)) as [[vs| |] p1];
      simpl in *; try assumption.
    destruct (dispatchFunction rt p1 name vs); simpl; try assumption. now apply IH.
Qed.

Lemma EvaluateExpression_body_parserOk (f : Parser -> string -> result float64 * Parser) :
  keepsOk f -> keepsOk (EvaluateExpression_body rt f).
Proof.
  intros K p s H. unfold EvaluateExpression_body.
  destruct (String.eqb s ""); [exact H|].
  destruct (ValidateExpression rt s); [exact H|].
  assert (H0 : parserOk (set_constant p "ans" (GetLastResult (calc p))) = true).
  { unfold parserOk in *. apply andb_true_iff in H as [Hc Hv].
    cbn [set_constant constants variables]. rewrite Hv, andb_true_r.
    now apply namesOk_map_set. }
  unfold preprocess, processFunctions.
  pose proof (processFunctions_loop_parserOk f K
                (S (CountChar (substitute (variables (set_constant p "ans" (GetLastResult (calc p))))
                                 (substitute (constants (set_constant p "ans" (GetLastResult (calc p))))
                                    (ToLower (removeSpaces s)))) "("))
                _ (substitute (variables (set_constant p "ans" (GetLastResult (calc p))))
                     (substitute (constants (set_constant p "ans" (GetLastResult (calc p))))
                        (ToLower (removeSpaces s)))) H0) as H1.
  destruct (processFunctions_loop rt f _ _ _) as [[t| |] p1]; simpl in *; try assumption.
  destruct (evaluate rt t); simpl; assumption.
Qed.

(** The names stay well formed through [EvaluateExpression]. *)
Lemma EvaluateExpression_parserOk (p : Parser) (expr : string) :
  parserOk p = true -> parserOk (snd (EvaluateExpression rt p expr)) = true.
Proof.
  unfold EvaluateExpression.
  assert (K : forall d, keepsOk (EvaluateExpression_at rt d)).
  { induction d as [|d IH]; [intros q a H; exact H|].
    cbn [EvaluateExpression_at]. now apply EvaluateExpression_body_parserOk. }
  apply K.
Qed.

(** X3: a failed evaluation of a text without an opening parenthesis,
    hence without a function call, leaves the calculator (memory, last
    result and history) as it was. *)
Lemma EvaluateExpression_failure_no_call (p : Parser) (expr : string) :
  CountChar expr "(" = O ->
  is_Ok (fst (EvaluateExpression rt p expr)) = false ->
  calc (snd (EvaluateExpression rt p expr)) = calc p.
Proof.
  intros Hc. unfold EvaluateExpression. cbn [EvaluateExpression_at].
  unfold EvaluateExpression_body.
  destruct (String.eqb expr ""); [reflexivity|].
  destruct (ValidateExpression rt expr); [reflexivity|].
  unfold preprocess, processFunctions.
  set (p0 := set_constant p "ans" (GetLastResult (calc p))).
  set (t := substitute (variables p0) (substitute (constants p0) (ToLower (removeSpaces expr)))).
  assert (Ht : CountChar t "(" = O).
  { pose proof (CountChar_substitute (variables p0)
                  (substitute (constants p0) (ToLower (removeSpaces expr)))).
    pose proof (CountChar_substitute (constants p0) (ToLower (removeSpaces expr))).
    rewrite CountChar_ToLower, <- CountChar_spaces in * by reflexivity.
    subst t. lia. }
  rewrite Ht. cbn [processFunctions_loop]. rewrite findFuncCall_count by assumption.
  destruct (evaluate rt t); simpl; [discriminate | reflexivity | reflexivity].
Qed.

(** From 2^53 on the counter of [Factorial] is stuck and its loop goes on
    for ever. *)
Lemma Factorial_loop_stuck (fuel : nat) (res n : float64) :
  F64.leb two53 n = true -> Factorial_loop fuel two53 res n = None.
Proof.
  intros H. revert res; induction fuel as [|fuel IH]; intros res; [reflexivity|].
  cbn [Factorial_loop]. rewrite H.
  change (F64.add two53 one) with two53. apply IH.
Qed.

End Invariants.

(** The failure of ["1/0.5+2/0"], a division by zero, leaves the
    calculator as it was. *)
Lemma failure_no_call_witness :
  CountChar "1/0.5+2/0" "(" = O
  /\ fst (EvaluateExpression anyMath fresh "1/0.5+2/0") = Err "division by zero"
  /\ calc (snd (EvaluateExpression anyMath fresh "1/0.5+2/0")) = calc fresh.
Proof.
  split; [reflexivity|]. split; [vm_compute; reflexivity|].
  apply (EvaluateExpression_failure_no_call anyMath fresh "1/0.5+2/0");
    vm_compute; reflexivity.
Defined.

(** ** A call with a parenthesis in its argument text never succeeds *)

Section NestedCalls.

Variable rt : GoMath.

Lemma CountChar_rev_acc (s a : string) (c : ascii) :
  CountChar (rev_acc s a) c = (CountChar s c + CountChar a c)%nat.
Proof.
  revert a; induction s as [|b s IH]; intros a; [reflexivity|]. simpl.
  rewrite IH. simpl. lia.
Qed.

Lemma CountChar_rev (s : string) (c : ascii) : CountChar (rev s) c = CountChar s c.
Proof. unfold rev. rewrite CountChar_rev_acc. simpl. lia. Qed.

Lemma CountChar_trimLeft (s : string) (c : ascii) :
  isSpaceB c = false -> CountChar (trimLeft s) c = CountChar s c.
Proof.
  intros Hc. induction s as [|a s IH]; [reflexivity|]. cbn [trimLeft].
  destruct (isSpaceB a) eqn:E; [|reflexivity].
  rewrite IH. cbn [CountChar].
  destruct (Ascii.eqb_spec a c); [congruence | reflexivity].
Qed.

Lemma CountChar_TrimSpace (s : string) (c : ascii) :
  isSpaceB c = false -> CountChar (TrimSpace s) c = CountChar s c.
Proof.
  intros Hc. unfold TrimSpace.
  now rewrite CountChar_rev, CountChar_trimLeft, CountChar_rev, CountChar_trimLeft.
Qed.

Lemma CountChar_nonEmpty (s : string) (c : ascii) :
  (1 <= CountChar s c)%nat -> nonEmpty s = true.
Proof. destruct s; simpl; [lia | reflexivity]. Qed.

(** An opening parenthesis of the argument text ends up in an argument. *)
Lemma parseArguments_go_lparen (s : string) :
  forall cur depth,
    (1 <= CountChar s "(" + CountChar cur "(")%nat ->
    Exists (fun a => (1 <= CountChar a "(")%nat) (parseArguments_go s cur depth).
Proof.
  induction s as [|c s IH]; intros cur depth H.
  - cbn [parseArguments_go]. simpl in H.
    rewrite (CountChar_nonEmpty cur "(" H). constructor.
    now rewrite CountChar_TrimSpace, CountChar_rev.
  - cbn [parseArguments_go]. cbn [CountChar] in H.
    destruct (Ascii.eqb c "(") eqn:P.
    { apply IH. simpl. rewrite P. lia. }
    assert (Hcur : CountChar (String c cur) "(" = CountChar cur "(").
    { simpl. now rewrite P. }
    destruct (Ascii.eqb c ")"); [apply IH; rewrite Hcur; lia|].
    destruct (Ascii.eqb c ","); [|apply IH; rewrite Hcur; lia].
    destruct (depth =? 0); [|apply IH; rewrite Hcur; lia].
    destruct (CountChar cur "(") as [|k] eqn:E.
    + apply Exists_cons_tl. apply IH. simpl. lia.
    + apply Exists_cons_hd. rewrite CountChar_TrimSpace, CountChar_rev by reflexivity. lia.
Qed.

(** An argument with an opening parenthesis is rejected by validation. *)
Lemma EvaluateExpression_body_lparen
  (f : Parser -> string -> result float64 * Parser) (p : Parser) (a : string) :
  allb notRparen a = true -> (1 <= CountChar a "(")%nat ->
  EvaluateExpression_body rt f p a
  = (Err "invalid expression: unbalanced parentheses", p).
Proof.
  intros Ha Hc. unfold EvaluateExpression_body, ValidateExpression.
  assert (Hn : String.eqb a "" = false) by (destruct a; [simpl in Hc; lia | reflexivity]).
  rewrite Hn. unfold HasBalancedParentheses.
  rewrite HasBalancedParentheses_go_notRparen by assumption.
  destruct (Z.eqb_spec (0 + Z.of_nat (CountChar a "(")) 0); [lia | reflexivity].
Qed.

Lemma evaluateArguments_lparen (d : nat) (args : list string) :
  Forall (fun a => allb notRparen a = true) args ->
  Exists (fun a => (1 <= CountChar a "(")%nat) args ->
  forall p, is_Ok (fst (evaluateArguments (EvaluateExpression_at rt (S d)) p args)) = false.
Proof.
  induction args as [|a args IH]; intros F E p; [inversion E|].
  inversion F as [|? ? Fa Fr]; subst. cbn [evaluateArguments].
  destruct (CountChar a "(") as [|k] eqn:C.
  - assert (Er : Exists (fun a => (1 <= CountChar a "(")%nat) args).
    { inversion E; subst; [lia | assumption]. }
    destruct (EvaluateExpression_at rt (S d) p a) as [[v| |] p1]; try reflexivity.
    specialize (IH Fr Er p1).
    now destruct (evaluateArguments (EvaluateExpression_at rt (S d)) p1 args) as [[vs| |] p2].
  - cbn [EvaluateExpression_at].
    rewrite EvaluateExpression_body_lparen by (assumption || lia). reflexivity.
Qed.

Lemma processFunctions_loop_lparen (d fuel : nat) (p : Parser) (text name args : string) :
  findFuncCall text = Some (name, args) -> (1 <= CountChar args "(")%nat ->
  is_Ok (fst (processFunctions_loop rt (EvaluateExpression_at rt (S d)) fuel p text)) = false.
Proof.
  intros E C. destruct fuel as [|fuel]; cbn [processFunctions_loop]; rewrite E;
    [reflexivity|].
  apply findFuncCall_spec in E as (_ & Ha).
  unfold evaluateFunction.
  pose proof (evaluateArguments_lparen d (parseArguments args)
                (parseArguments_go_allb notRparen args "" 0 Ha eq_refl)
                (parseArguments_go_lparen args "" 0 ltac:(simpl; lia)) p) as H.
  now destruct (evaluateArguments (EvaluateExpression_at rt (S d)) p (parseArguments args))
    as [[vs| |] p1].
Qed.

(** X4: when the first call that [processFunctions] meets has an opening
    parenthesis in its argument text (a nested call, or just a
    parenthesised argument), the evaluation does not succeed. *)
Theorem nested_call_never_succeeds (p : Parser) (expr name args : string) :
  findFuncCall (substituted p expr) = Some (name, args) ->
  (1 <= CountChar args "(")%nat ->
  is_Ok (fst (EvaluateExpression rt p expr)) = false.
Proof.
  intros E C. unfold EvaluateExpression. cbn [EvaluateExpression_at].
  unfold EvaluateExpression_body.
  destruct (String.eqb expr ""); [reflexivity|].
  destruct (ValidateExpression rt expr); [reflexivity|].
  unfold preprocess, processFunctions. fold (substituted p expr).
  pose proof (processFunctions_loop_lparen 0 (S (CountChar (substituted p expr) "("))
                (set_constant p "ans" (GetLastResult (calc p))) _ name args E C) as H.
  now destruct (processFunctions_loop rt _ _ _ _) as [[t| |] p1].
Qed.

End NestedCalls.

(** The theorem at ["sqrt((1+3))"]: a parenthesised argument. *)
Lemma nested_call_witness :
  findFuncCall (substituted fresh "sqrt((1+3))") = Some ("sqrt", "(1+3")
  /\ is_Ok (fst (EvaluateExpression anyMath fresh "sqrt((1+3))")) = false.
Proof.
  split; [reflexivity|].
  apply (nested_call_never_succeeds anyMath fresh "sqrt((1+3))" "sqrt" "(1+3");
    [reflexivity | simpl; lia].
Defined.

(** ** What every evaluation keeps *)

Section Preserved.

Variable rt : GoMath.
Variable R : Parser -> Parser -> Prop.

Hypothesis R_refl : forall p, R p p.
Hypothesis R_trans : forall a b c, R a b -> R b c -> R a c.
Hypothesis R_ans : forall p v, R p (set_constant p "ans" v).
Hypothesis R_record :
  forall p e v, R p (set_calc p (AddToHistory (SetLastResult (calc p) v) e v)).

Lemma evaluateArguments_keeps (f : Parser -> string -> result float64 * Parser) :
  keeps R f -> forall args p, R p (snd (evaluateArguments f p args)).
Proof.
  intros K. induction args as [|a args IH]; intros p; [apply R_refl|].
  cbn [evaluateArguments]. pose proof (K p a) as H1.
  destruct (f p a) as [[v| |] p1]; simpl in *; try assumption.
  pose proof (IH p1) as H2.
  destruct (evaluateArguments f p1 args) as [[vs| |] p2]; simpl in *;
    eapply R_trans; eassumption.
Qed.

Lemma processFunctions_loop_keeps (f : Parser -> string -> result float64 * Parser) :
  keeps R f -> forall fuel p s, R p (snd (processFunctions_loop rt f fuel p s)).
Proof.
  intros K. induction fuel as [|fuel IH]; intros p s; cbn [processFunctions_loop].
  - destruct (findFuncCall s) as [[? ?]|]; apply R_refl.
  - destruct (findFuncCall s) as [[name args]|]; [|apply R_refl].
    unfold evaluateFunction.
    pose proof (evaluateArguments_keeps f K (parseArguments args) p) as H1.
    destruct (evaluateArguments f p (parseArguments args)) as [[vs| |] p1];
      simpl in *; try assumption.
    destruct (dispatchFunction rt p1 name vs); simpl; try assumption.
    eapply R_trans; [exact H1 | apply IH].
Qed.

Lemma EvaluateExpression_body_keeps (f : Parser -> string -> result float64 * Parser) :
  keeps R f -> keeps R (EvaluateExpression_body rt f).
Proof.
  intros K p s. unfold EvaluateExpression_body.
  destruct (String.eqb s ""); [apply R_refl|].
  destruct (ValidateExpression rt s); [apply R_refl|].
  unfold preprocess, processFunctions.
  set (p0 := set_constant p "ans" (GetLastResult (calc p))).
  set (t := substitute (variables p0) (substitute (constants p0) (ToLower (removeSpaces s)))).
  pose proof (processFunctions_loop_keeps f K (S (CountChar t "(")) p0 t) as H1.
  assert (H0 : R p p0) by apply R_ans.
  destruct (processFunctions_loop rt f _ _ _) as [[t'| |] p1]; simpl in *;
    try (eapply R_trans; eassumption).
  destruct (evaluate rt t'); simpl; try (eapply R_trans; eassumption).
  eapply R_trans; [exact H0|]. eapply R_trans; [exact H1 | apply R_record].
Qed.

Lemma EvaluateExpression_at_keeps (d : nat) : keeps R (EvaluateExpression_at rt d).
Proof.
  induction d as [|d IH]; [intros p a; apply R_refl|].
  cbn [EvaluateExpression_at]. now apply EvaluateExpression_body_keeps.
Qed.

Lemma EvaluateExpression_keeps : keeps R (EvaluateExpression rt).
Proof. apply EvaluateExpression_at_keeps. Qed.

End Preserved.

Section Settings.

Variable rt : GoMath.

Lemma map_get_map_set_same (m : fmap) (k : string) (v : float64) :
  map_get (map_set m k v) k = Some v.
Proof.
  induction m as [|[k' v'] m IH]; simpl.
  - now rewrite String.eqb_refl.
  - destruct (String.eqb k' k) eqn:E; simpl.
    + now rewrite String.eqb_refl.
    + now rewrite E.
Qed.

Lemma map_get_map_set_other (m : fmap) (k k0 : string) (v : float64) :
  k0 <> k -> map_get (map_set m k v) k0 = map_get m k0.
Proof.
  intros N. induction m as [|[k' v'] m IH]; simpl.
  - destruct (String.eqb_spec k k0); [congruence | reflexivity].
  - destruct (String.eqb_spec k' k) as [->|N']; simpl.
    + destruct (String.eqb_spec k k0); [congruence | reflexivity].
    + destruct (String.eqb k' k0); [reflexivity | exact IH].
Qed.

Lemma sameSettings_refl (p : Parser) : sameSettings p p.
Proof. repeat split. Qed.

Lemma sameSettings_trans (a b c : Parser) :
  sameSettings a b -> sameSettings b c -> sameSettings a c.
Proof.
  intros (M1 & A1 & V1 & C1) (M2 & A2 & V2 & C2).
  repeat split; try congruence. intros k N. now rewrite C2, C1.
Qed.

Lemma AddToHistory_length (c : Calculator) (e : string) (v : float64) :
  (List.length (history c) <= 100)%nat ->
  (List.length (history (AddToHistory c e v)) <= 100)%nat.
Proof.
  intros H. unfold AddToHistory. cbn [history].
  destruct (Nat.ltb_spec 100 (List.length (history c ++ [historyLine e v]))) as [L|L];
    [|exact L].
  rewrite length_app in L. simpl in L.
  destruct (history c) as [|x h]; simpl in *; [lia|].
  rewrite length_app. simpl. lia.
Qed.

Lemma evaluateAll_app (p : Parser) (a b : list string) :
  evaluateAll rt p (a ++ b) = evaluateAll rt (evaluateAll rt p a) b.
Proof. revert p; induction a as [|e a IH]; intros p; simpl; [reflexivity | apply IH]. Qed.

End Settings.

(** X5: the history never holds more than 100 lines.  An evaluation, with
    the evaluations of the arguments of its calls, takes a history of at
    most 100 lines to one of at most 100 lines, so does a whole session;
    when 100 lines are held, the line of the next success replaces the
    oldest one. *)
Theorem history_never_exceeds_100 :
  forall (rt : GoMath) (p : Parser) (exprs : list string),
    (List.length (history (calc p)) <= 100)%nat ->
    (List.length (history (calc (evaluateAll rt p exprs))) <= 100)%nat
    /\ (forall c e v, List.length (history c) = 100%nat ->
          history (AddToHistory c e v) = (List.tl (history c) ++ [historyLine e v])%list).
Proof.
  intros rt p exprs H. split.
  - revert p H. induction exprs as [|e r IH]; intros p H; [exact H|].
    cbn [evaluateAll]. apply IH.
    refine (EvaluateExpression_keeps rt historyBound _ _ _ _ p e H).
    + intros q Hq; exact Hq.
    + intros a b c Hab Hbc Ha. apply Hbc, Hab, Ha.
    + intros q v Hq. exact Hq.
    + intros q e0 v Hq. cbn [set_calc calc]. apply AddToHistory_length. exact Hq.
  - intros c e v L. unfold AddToHistory. cbn [history].
    rewrite length_app, L. simpl.
    destruct (history c); [discriminate L | reflexivity].
Qed.

(** A session of 150 evaluations on a new parser: 100 lines are kept. *)
Lemma history_never_exceeds_100_witness :
  (List.length (history (calc fresh)) <= 100)%nat
  /\ List.length (history (calc (evaluateAll anyMath fresh (repeat "1" 150)))) = 100%nat.
Proof.
  split; [simpl; lia|].
  pose proof (proj1 (history_never_exceeds_100 anyMath fresh (repeat "1" 150)
                       ltac:(simpl; lia))) as H.
  assert (L : (100 <= List.length (history (calc (evaluateAll anyMath fresh (repeat "1" 150)))))%nat).
  { vm_compute. lia. }
  lia.
Defined.

(** X6: an evaluation, whatever its outcome, leaves the memory register,
    the angle mode and the variables as they were, and changes no constant
    but [ans]. *)
Theorem EvaluateExpression_settings :
  forall (rt : GoMath) (p : Parser) (expr : string),
    sameSettings p (snd (EvaluateExpression rt p expr)).
Proof.
  intros rt p expr.
  refine (EvaluateExpression_keeps rt sameSettings sameSettings_refl sameSettings_trans
            _ _ p expr).
  - intros q v. repeat split. intros k N. cbn [set_constant constants].
    now apply map_get_map_set_other.
  - intros q e v. repeat split.
Qed.

(** ** What a success records *)

(** X7: after a success the last result is the value returned and the
    last line of the history is the text evaluated with that value; when
    the text holds no call, nothing else changes but the constant [ans]. *)
Theorem EvaluateExpression_success_recorded :
  forall (rt : GoMath) (p p' : Parser) (expr : string) (v : float64),
    EvaluateExpression rt p expr = (Ok v, p') ->
    GetLastResult (calc p') = v
    /\ (exists older, history (calc p') = (older ++ [historyLine expr v])%list)
    /\ (CountChar expr "(" = O -> p' = recorded p expr v).
Proof.
  intros rt p p' expr v. unfold EvaluateExpression. cbn [EvaluateExpression_at].
  unfold EvaluateExpression_body.
  destruct (String.eqb expr ""); [discriminate|].
  destruct (ValidateExpression rt expr); [discriminate|].
  unfold preprocess, processFunctions.
  set (p0 := set_constant p "ans" (GetLastResult (calc p))).
  set (t := substitute (variables p0) (substitute (constants p0) (ToLower (removeSpaces expr)))).
  intros H. split; [|split].
  - destruct (processFunctions_loop rt _ _ p0 t) as [[t'| |] p1]; try discriminate.
    destruct (evaluate rt t'); try discriminate. inversion H; subst. reflexivity.
  - destruct (processFunctions_loop rt _ _ p0 t) as [[t'| |] p1]; try discriminate.
    destruct (evaluate rt t'); try discriminate. inversion H; subst.
    cbn [set_calc calc]. apply AddToHistory_last.
  - intros Hc.
    assert (Ht : CountChar t "(" = O).
    { pose proof (CountChar_substitute (variables p0)
                    (substitute (constants p0) (ToLower (removeSpaces expr)))).
      pose proof (CountChar_substitute (constants p0) (ToLower (removeSpaces expr))).
      rewrite CountChar_ToLower, <- CountChar_spaces in * by reflexivity.
      subst t. lia. }
    rewrite Ht in H. cbn [processFunctions_loop] in H.
    rewrite findFuncCall_count in H by assumption.
    destruct (evaluate rt t); try discriminate. inversion H; subst. reflexivity.
Qed.

(** The theorem at ["2 + 3 * 4"] on a new parser. *)
Lemma success_recorded_witness :
  GetLastResult (calc (snd (EvaluateExpression anyMath fresh "2 + 3 * 4"))) = of_Z 14
  /\ history (calc (snd (EvaluateExpression anyMath fresh "2 + 3 * 4"))) = ["2 + 3 * 4 = 14"].
Proof.
  pose proof (EvaluateExpression_success_recorded anyMath fresh
                (snd (EvaluateExpression anyMath fresh "2 + 3 * 4"))
                "2 + 3 * 4" (of_Z 14) ltac:(vm_compute; reflexivity)) as (H1 & _ & H3).
  split; [exact H1|]. rewrite (H3 eq_refl). vm_compute. reflexivity.
Defined.

(** ** Variables *)

(** X8: a variable set under a valid name is read back, and no other
    variable nor anything else of the parser changes; under an invalid
    name, among them the reserved words in any letter case, nothing is
    set; after [ClearVariables] no variable is left. *)
Theorem SetVariable_GetVariable :
  forall (p : Parser) (name : string) (v : float64),
    (IsValidVariableName name = true ->
       fst (SetVariable p name v) = None
       /\ GetVariable (snd (SetVariable p name v)) name = Some v
       /\ (forall other, other <> name ->
             GetVariable (snd (SetVariable p name v)) other = GetVariable p other)
       /\ calc (snd (SetVariable p name v)) = calc p
       /\ constants (snd (SetVariable p name v)) = constants p
       /\ angleMode (snd (SetVariable p name v)) = angleMode p)
    /\ (IsValidVariableName name = false ->
          SetVariable p name v = (Some ("invalid variable name: " ++ name), p))
    /\ (In (ToLower name) reservedKeywords -> IsValidVariableName name = false)
    /\ (forall other, GetVariable (ClearVariables p) other = None).
Proof.
  intros p name v. split; [|split; [|split]].
  - intros H. unfold SetVariable, GetVariable. rewrite H. cbn.
    split; [reflexivity|]. split; [apply map_get_map_set_same|].
    split; [|repeat split]. intros other N. now apply map_get_map_set_other.
  - intros H. unfold SetVariable. now rewrite H.
  - intros H. unfold IsValidVariableName, IsReservedKeyword, inList.
    assert (E : existsb (String.eqb (ToLower name)) reservedKeywords = true).
    { apply existsb_exists. exists (ToLower name). split; [exact H | apply String.eqb_refl]. }
    rewrite E. apply andb_false_r.
  - reflexivity.
Qed.

(** The theorem at the names [radius] and [PI]. *)
Lemma SetVariable_GetVariable_witness :
  GetVariable (snd (SetVariable fresh "radius" (of_Z 5))) "radius" = Some (of_Z 5)
  /\ SetVariable fresh "PI" (of_Z 3) = (Some "invalid variable name: PI", fresh).
Proof.
  pose proof (SetVariable_GetVariable fresh "radius" (of_Z 5)) as (H1 & _).
  pose proof (SetVariable_GetVariable fresh "PI" (of_Z 3)) as (_ & H2 & H3 & _).
  split.
  - exact (proj1 (proj2 (H1 eq_refl))).
  - apply H2, H3. simpl. tauto.
Defined.

(** ** A name alone *)

Section Names.

Variable rt : GoMath.

Lemma replaceWord_go_skip (name repl : string) (s : string) :
  forall k prev, (String.length s <= k)%nat -> replaceWord_go name repl k prev s = "".
Proof.
  induction s as [|c s IH]; intros k prev H; [reflexivity|].
  destruct k as [|k]; simpl in H; [lia|]. cbn [replaceWord_go]. apply IH. lia.
Qed.

Lemma wordMatchAt_inside (name : string) (prev : option ascii) (c : ascii) (s : string) :
  isWordOpt prev = true -> isWordB c = true -> wordMatchAt name prev (String c s) = false.
Proof.
  intros P C. unfold wordMatchAt, wordBoundary. cbn [headChar isWordOpt].
  rewrite P, C. cbn. now rewrite andb_false_r.
Qed.

Lemma replaceWord_go_inside (name repl : string) (s : string) :
  allb isWordB s = true ->
  forall prev, isWordOpt prev = true -> replaceWord_go name repl O prev s = s.
Proof.
  induction s as [|c s IH]; intros A prev P; [reflexivity|].
  simpl in A. apply andb_true_iff in A as [C A].
  cbn [replaceWord_go]. rewrite wordMatchAt_inside by assumption.
  now rewrite IH.
Qed.

Lemma HasPrefix_length (s p : string) :
  HasPrefix s p = true -> (String.length p <= String.length s)%nat.
Proof.
  revert s; induction p as [|a p IH]; intros [|b s] H; simpl in *; try lia; try discriminate.
  apply andb_true_iff in H as [_ H]. specialize (IH _ H). lia.
Qed.

Lemma drop_length_nil (n : nat) (s : string) :
  drop n s = "" -> (String.length s <= n)%nat.
Proof.
  revert s; induction n as [|n IH]; intros [|c s] H; simpl in *; try lia; try discriminate.
  specialize (IH _ H). lia.
Qed.

Lemma headChar_word (s : string) :
  allb isWordB s = true -> isWordOpt (headChar s) = nonEmpty s.
Proof. destruct s as [|c s]; simpl; [reflexivity|]. intros H. now apply andb_true_iff in H as [-> _]. Qed.

Lemma allb_HasPrefix (f : ascii -> bool) (s p : string) :
  HasPrefix s p = true -> allb f s = true -> allb f p = true.
Proof.
  revert s; induction p as [|a p IH]; intros [|b s] H A; simpl in *; try reflexivity;
    try discriminate.
  apply andb_true_iff in H as [E H]. apply andb_true_iff in A as [B A].
  apply Ascii.eqb_eq in E. subst b. rewrite B. simpl. eauto.
Qed.

Lemma headChar_rev_acc (s a : string) :
  nonEmpty s = true -> allb isWordB s = true -> isWordOpt (headChar (rev_acc s a)) = true.
Proof.
  revert a; induction s as [|c s IH]; intros a N A; [discriminate|].
  simpl in A. apply andb_true_iff in A as [C A]. cbn [rev_acc].
  destruct s as [|d s]; [simpl; exact C|]. now apply IH.
Qed.

Lemma HasPrefix_refl (s : string) : HasPrefix s s = true.
Proof. induction s as [|c s IH]; simpl; [reflexivity|]. now rewrite Ascii.eqb_refl. Qed.

Lemma drop_length_self (s : string) : drop (String.length s) s = "".
Proof. induction s; simpl; auto. Qed.

(** In a text that is one word, only the word itself is replaced. *)
Lemma replaceWord_word (name repl text : string) :
  nameOk name = true -> allb isWordB text = true -> nonEmpty text = true ->
  replaceWord name repl text = if String.eqb name text then repl else text.
Proof.
  intros N A T. unfold replaceWord.
  destruct text as [|c r]; [discriminate|]. cbn [replaceWord_go].
  pose proof A as A'. simpl in A'. apply andb_true_iff in A' as [C Ar].
  destruct (wordMatchAt name None (String c r)) eqn:M.
  - unfold wordMatchAt in M. apply andb_true_iff in M as [M B2].
    apply andb_true_iff in M as [P _].
    assert (Hn : nonEmpty name = true) by (destruct name; [discriminate N | reflexivity]).
    pose proof (allb_HasPrefix isWordB _ _ P A) as An.
    unfold wordBoundary, rev in B2. rewrite headChar_rev_acc in B2 by assumption.
    pose proof (HasPrefix_drop _ _ P) as D.
    assert (Ad : allb isWordB (drop (String.length name) (String c r)) = true)
      by now apply allb_drop.
    rewrite (headChar_word _ Ad) in B2.
    destruct (drop (String.length name) (String c r)) eqn:E; [|discriminate B2].
    rewrite append_nil_r in D. rewrite <- D, String.eqb_refl.
    rewrite replaceWord_go_skip; [apply append_nil_r|].
    simpl. lia.
  - rewrite replaceWord_go_inside by (assumption || (simpl; assumption)).
    destruct (String.eqb_spec name (String c r)) as [->|]; [|reflexivity].
    exfalso. unfold wordMatchAt, wordBoundary, rev in M.
    rewrite HasPrefix_refl, drop_length_self, headChar_rev_acc in M by assumption.
    cbn [headChar isWordOpt] in M. rewrite C in M. discriminate M.
Qed.

Lemma FormatF_expr (p : nat) (x : float64) :
  is_finite x = true -> allb isExprChar (FormatF p x) = true.
Proof.
  assert (D : forall s, allb isDigitB s = true -> allb isExprChar s = true).
  { intros s. apply allb_impl. intros c H. unfold isExprChar, isLitChar. now rewrite H. }
  assert (Fx : forall n, allb isExprChar (fixedStr p n) = true).
  { intros n. unfold fixedStr. rewrite allb_app, D by apply string_of_Z_digits.
    destruct p; [reflexivity|]. cbn [append allb]. rewrite D; [reflexivity|].
    apply allb_drop, string_of_Z_digits. }
  assert (Sg : forall s, allb isExprChar (signStr s) = true) by (intros []; reflexivity).
  destruct x as [s|s| |s m e]; try discriminate; intros _; cbn [FormatF];
    now rewrite allb_app, Sg, Fx.
Qed.

(** A text that is one word is replaced by the value of the first entry
    of that name, when there is one. *)
Lemma substitute_word (m : fmap) (text : string) :
  namesOk m = true -> allb isWordB text = true -> nonEmpty text = true ->
  (forall v, map_get m text = Some v -> is_finite v = true) ->
  substitute m text
  = match map_get m text with
    | Some v => FormatF 10 v
    | None => text
    end.
Proof.
  intros N A T. induction m as [|[k v] m IH]; intros F; [reflexivity|].
  simpl in N. apply andb_true_iff in N as [Nk N].
  cbn [substitute map_get]. rewrite replaceWord_word by assumption.
  destruct (String.eqb k text) eqn:E.
  - apply substitute_expr; [assumption|]. apply FormatF_expr, F.
    cbn [map_get]. now rewrite E.
  - apply IH; [assumption|]. intros v0 H. apply F. cbn [map_get]. now rewrite E.
Qed.

Lemma nonOperators_no_pair (s : string) :
  allb notOperator s = true ->
  forall prev, HasConsecutiveOperators_go s prev = false.
Proof.
  induction s as [|c s IH]; intros A prev; [reflexivity|].
  simpl in A. apply andb_true_iff in A as [C A]. unfold notOperator in C.
  apply negb_true_iff in C. cbn [HasConsecutiveOperators_go].
  rewrite C, andb_false_r. simpl. now apply IH.
Qed.

Lemma Contains_head (s sub : string) (c : ascii) :
  ContainsChar s c = false -> Contains s (String c sub) = false.
Proof.
  induction s as [|a s IH]; intros H; [reflexivity|].
  simpl in H. apply orb_false_iff in H as [E H]. cbn [Contains HasPrefix].
  rewrite Ascii.eqb_sym, E. simpl. now apply IH.
Qed.

Lemma allb_ContainsChar (f : ascii -> bool) (s : string) (c : ascii) :
  allb f s = true -> f c = false -> ContainsChar s c = false.
Proof.
  intros A F. induction s as [|a s IH]; [reflexivity|].
  simpl in A. apply andb_true_iff in A as [Fa A]. simpl.
  destruct (Ascii.eqb_spec a c); [congruence|]. now apply IH.
Qed.

Lemma lower_findFuncNames (s : string) :
  allb isLowerB s = true -> forall cur, findFuncNames_go s cur = [].
Proof.
  induction s as [|c s IH]; intros A cur; [reflexivity|].
  simpl in A. apply andb_true_iff in A as [C A]. cbn [findFuncNames_go].
  rewrite C. now apply IH.
Qed.

Lemma lower_matchNumberAt (c : ascii) (s : string) :
  isLowerB c = true -> matchNumberAt (String c s) = None.
Proof.
  intros C. unfold matchNumberAt.
  assert (Hm : c <> "-"%char) by (intros ->; discriminate C).
  assert (Hp : c <> "."%char) by (intros ->; discriminate C).
  assert (Hd : isDigitB c = false).
  { unfold isLowerB, isDigitB, in_range in *. apply andb_true_iff in C as [C _].
    apply Nat.leb_le in C. apply andb_false_iff. right. apply Nat.leb_gt. lia. }
  assert (E : matchMantissa (String c s) = None).
  { unfold matchMantissa, spanDigits. cbn [spanDigits_go]. rewrite Hd. cbn.
    destruct c as [[] [] [] [] [] [] [] []]; try reflexivity; congruence. }
  destruct c as [[] [] [] [] [] [] [] []]; try (rewrite E; reflexivity); congruence.
Qed.

Lemma lower_findNumbers (s : string) :
  allb isLowerB s = true -> findNumbers_go O s = [].
Proof.
  induction s as [|c s IH]; intros A; [reflexivity|].
  simpl in A. apply andb_true_iff in A as [C A]. cbn [findNumbers_go].
  rewrite lower_matchNumberAt by assumption. now apply IH.
Qed.

Lemma lower_validExprChars (s : string) : allb isLowerB s = true -> validExprChars s = true.
Proof.
  induction s as [|c s IH]; intros A; [reflexivity|].
  simpl in A. apply andb_true_iff in A as [C A]. cbn [validExprChars].
  unfold validExprChar. rewrite C, orb_true_r. simpl. now apply IH.
Qed.

(** A text of lower-case letters passes validation. *)
Lemma ValidateExpression_lower (s : string) :
  allb isLowerB s = true -> nonEmpty s = true -> ValidateExpression rt s = None.
Proof.
  intros A T. unfold ValidateExpression.
  assert (L : forall c, isLowerB c = true -> notParen c = true /\ notOperator c = true).
  { intros c H. destruct c as [[] [] [] [] [] [] [] []]; try discriminate H; split; reflexivity. }
  destruct s as [|c r] eqn:Es; [discriminate|]. rewrite <- Es in *. clear T.
  assert (E0 : String.eqb s "" = false) by now rewrite Es.
  rewrite E0. unfold HasBalancedParentheses.
  rewrite <- (append_nil_r s) at 1.
  rewrite HasBalancedParentheses_go_notParen
    by (eapply allb_impl; [|exact A]; intros a H; now apply L).
  cbn [HasBalancedParentheses_go Z.eqb negb]. unfold HasConsecutiveOperators.
  rewrite nonOperators_no_pair
    by (eapply allb_impl; [|exact A]; intros a H; now apply L).
  unfold ValidExpressionRegex_Match. rewrite lower_validExprChars by assumption.
  replace (match s with "" => false | String _ _ => true end) with true by now rewrite Es.
  cbn [negb]. rewrite (Contains_head s "0" "/") by now apply (allb_ContainsChar isLowerB).
  cbn [andb]. unfold ValidateFunctionCalls, findFuncNames.
  rewrite lower_findFuncNames by assumption. cbn [firstUnknown].
  assert (Cn : forall a, isLowerB a = false -> CountChar s a = O).
  { intros a Ha. apply allb_CountChar. eapply allb_impl; [|exact A].
    intros b Hb. destruct (Ascii.eqb_spec b a); [congruence | reflexivity]. }
  rewrite !Cn by reflexivity. cbn [Nat.eqb].
  unfold ValidateNumbers, findNumbers. now rewrite lower_findNumbers.
Qed.

Lemma lower_word (s : string) : allb isLowerB s = true -> allb isWordB s = true.
Proof.
  apply allb_impl. intros c H. unfold isWordB, isLetterB. now rewrite H.
Qed.

Lemma lower_ToLower (s : string) : allb isLowerB s = true -> ToLower s = s.
Proof.
  induction s as [|c s IH]; intros A; [reflexivity|].
  simpl in A. apply andb_true_iff in A as [C A]. simpl. rewrite IH by assumption.
  f_equal. unfold lowerChar.
  replace (isUpperB c) with false; [reflexivity|].
  destruct c as [[] [] [] [] [] [] [] []]; try discriminate C; reflexivity.
Qed.

Lemma lower_removeSpaces (s : string) : allb isLowerB s = true -> removeSpaces s = s.
Proof.
  induction s as [|c s IH]; intros A; [reflexivity|].
  simpl in A. apply andb_true_iff in A as [C A]. simpl. rewrite IH by assumption.
  destruct (Ascii.eqb_spec c " "); [subst; discriminate C | reflexivity].
Qed.

Lemma preprocess_name (f : Parser -> string -> result float64 * Parser)
  (p : Parser) (name : string) (v : float64) :
  parserOk p = true ->
  allb isLowerB name = true -> nonEmpty name = true ->
  lookupName p name = Some v -> is_finite v = true ->
  let p0 := set_constant p "ans" (GetLastResult (calc p)) in
  preprocess rt f p0 name = (Ok (FormatF 10 v), p0).
Proof.
  intros Hp A T L F p0. unfold preprocess.
  rewrite lower_removeSpaces, lower_ToLower by assumption.
  unfold parserOk in Hp. apply andb_true_iff in Hp as [Hc Hv].
  assert (Hc0 : namesOk (constants p0) = true).
  { subst p0. cbn [set_constant constants]. now apply namesOk_map_set. }
  assert (W : allb isWordB name = true) by now apply lower_word.
  assert (G : map_get (constants p0) name
              = if String.eqb name "ans" then Some (GetLastResult (calc p))
                else map_get (constants p) name).
  { subst p0. cbn [set_constant constants].
    destruct (String.eqb_spec name "ans") as [->|N].
    - apply map_get_map_set_same.
    - now apply map_get_map_set_other. }
  assert (S : substitute (variables p0) (substitute (constants p0) name) = FormatF 10 v).
  { unfold lookupName in L. rewrite (substitute_word (constants p0) name); try assumption.
    - rewrite G. destruct (String.eqb name "ans").
      + injection L as <-. apply substitute_expr; [exact Hv | now apply FormatF_expr].
      + destruct (map_get (constants p) name) as [c|].
        * injection L as <-. apply substitute_expr; [exact Hv | now apply FormatF_expr].
        * subst p0. cbn [set_constant variables].
          rewrite substitute_word; try assumption; [now rewrite L|].
          intros v0 E. congruence.
    - intros v0 E. rewrite G in E. destruct (String.eqb name "ans"); [congruence|].
      rewrite E in L. congruence. }
  rewrite S. unfold processFunctions. cbn [processFunctions_loop].
  now rewrite findFuncCall_expr by now apply FormatF_expr.
Qed.

End Names.

(** X9: a name alone (lower-case letters) that stands for a finite value
    is evaluated as the text of that value with ten decimals, not as the
    value itself: [ans] after ["1/3"] is 0.3333333333, and a variable set
    to 1e-11 reads as 0. *)
Theorem name_evaluates_to_its_text :
  forall (rt : GoMath) (p : Parser) (name : string) (v : float64),
    parserOk p = true ->
    allb isLowerB name = true -> nonEmpty name = true ->
    lookupName p name = Some v -> is_finite v = true ->
    fst (EvaluateExpression rt p name) = evaluate rt (FormatF 10 v).
Proof.
  intros rt p name v Hp A T L F.
  unfold EvaluateExpression. cbn [EvaluateExpression_at]. unfold EvaluateExpression_body.
  assert (E0 : String.eqb name "" = false) by (destruct name; [discriminate T | reflexivity]).
  rewrite E0, ValidateExpression_lower by assumption.
  rewrite (preprocess_name rt _ p name v) by assumption.
  now destruct (evaluate rt (FormatF 10 v)).
Qed.

(** The theorem at [ans] after ["1/3"], and at a variable set to 1e-11. *)
Lemma name_evaluates_to_its_text_witness :
  GetLastResult (calc (snd (EvaluateExpression anyMath fresh "1/3")))
  = F64.div (of_Z 1) (of_Z 3)
  /\ fst (EvaluateExpression anyMath (snd (EvaluateExpression anyMath fresh "1/3")) "ans")
     = Ok (of_decimal "0.3333333333")
  /\ F64.eqb (of_decimal "0.3333333333") (F64.div (of_Z 1) (of_Z 3)) = false
  /\ GetVariable (snd (SetVariable fresh "x" (of_decimal "1e-11"))) "x"
     = Some (of_decimal "1e-11")
  /\ fst (EvaluateExpression anyMath (snd (SetVariable fresh "x" (of_decimal "1e-11"))) "x")
     = Ok zero.
Proof.
  split; [vm_compute; reflexivity|]. split.
  { rewrite (name_evaluates_to_its_text anyMath
               (snd (EvaluateExpression anyMath fresh "1/3")) "ans"
               (F64.div (of_Z 1) (of_Z 3)));
      vm_compute; reflexivity. }
  split; [vm_compute; reflexivity|]. split; [vm_compute; reflexivity|].
  rewrite (name_evaluates_to_its_text anyMath
             (snd (SetVariable fresh "x" (of_decimal "1e-11"))) "x" (of_decimal "1e-11"));
    vm_compute; reflexivity.
Defined.

(** ** Names that validation does not let through *)

Section Capitals.

Variable rt : GoMath.

Lemma validExprChars_bad (c : ascii) :
  validExprChar c = false -> c <> byte_CF -> c <> byte_80 ->
  forall n s, (String.length s <= n)%nat -> ContainsChar s c = true ->
    validExprChars s = false.
Proof.
  intros V N1 N2. induction n as [|n IH]; intros s L H.
  - destruct s; [discriminate H | simpl in L; lia].
  - destruct s as [|a s]; [discriminate H|]. cbn [validExprChars].
    cbn [ContainsChar String.length] in H, L.
    destruct (Ascii.eqb_spec a c) as [->|Na].
    + rewrite V. destruct s as [|b s]; [reflexivity|].
      destruct (Ascii.eqb_spec c byte_CF); [contradiction | reflexivity].
    + cbn [orb] in H. destruct (validExprChar a); [apply IH; [lia | exact H]|].
      destruct s as [|b s]; [reflexivity|].
      destruct (Ascii.eqb a byte_CF && Ascii.eqb b byte_80)%bool eqn:E; [|reflexivity].
      apply andb_true_iff in E as [_ E]. apply Ascii.eqb_eq in E. subst b.
      cbn [ContainsChar String.length] in H, L.
      destruct (Ascii.eqb_spec byte_80 c) as [|Nb]; [congruence|]. cbn [orb] in H.
      apply IH; [lia | exact H].
Qed.

Lemma HasPrefix_ContainsChar (s p : string) (c : ascii) :
  HasPrefix s p = true -> ContainsChar p c = true -> ContainsChar s c = true.
Proof.
  revert s; induction p as [|a p IH]; intros [|b s] P H; simpl in *; try discriminate.
  apply andb_true_iff in P as [E P]. apply Ascii.eqb_eq in E. subst b.
  destruct (Ascii.eqb a c); [reflexivity|]. simpl in *. eauto.
Qed.

Lemma Contains_ContainsChar (s sub : string) (c : ascii) :
  Contains s sub = true -> ContainsChar sub c = true -> ContainsChar s c = true.
Proof.
  intros H C. induction s as [|a s IH].
  - simpl in H. rewrite orb_false_r in H. destruct sub; [discriminate C | discriminate H].
  - cbn [Contains] in H. apply orb_true_iff in H as [H|H].
    + eapply HasPrefix_ContainsChar; eassumption.
    + simpl. rewrite (IH H). apply orb_true_r.
Qed.

Lemma ValidateExpression_bad_char (expr : string) (c : ascii) :
  validExprChar c = false -> c <> byte_CF -> c <> byte_80 ->
  ContainsChar expr c = true ->
  exists msg, ValidateExpression rt expr = Some msg.
Proof.
  intros V N1 N2 H. unfold ValidateExpression.
  destruct (String.eqb expr ""); [eauto|].
  destruct (HasBalancedParentheses expr); [|simpl; eauto].
  destruct (HasConsecutiveOperators expr); [simpl; eauto|].
  unfold ValidExpressionRegex_Match.
  rewrite (validExprChars_bad c V N1 N2 _ expr (Nat.le_refl _) H).
  destruct expr; simpl; eauto.
Qed.

End Capitals.

(** X10: validation lets no upper-case letter and no underscore through.
    An expression that mentions a name with one of them is rejected and
    the state stays as it is, although [SetVariable] accepts such names:
    a variable so named can be set, not used. *)
Theorem capital_names_cannot_be_used :
  forall (rt : GoMath) (p : Parser) (name expr : string) (c : ascii),
    ContainsChar name c = true -> (isUpperB c || Ascii.eqb c "_")%bool = true ->
    Contains expr name = true ->
    exists msg, EvaluateExpression rt p expr = (Err ("invalid expression: " ++ msg), p).
Proof.
  intros rt p name expr c Hc Hu Hn.
  pose proof (Contains_ContainsChar _ _ _ Hn Hc) as He.
  assert (V : validExprChar c = false /\ c <> byte_CF /\ c <> byte_80).
  { destruct c as [[] [] [] [] [] [] [] []]; try discriminate Hu;
      repeat split; discriminate. }
  destruct V as (V & N1 & N2).
  destruct (ValidateExpression_bad_char rt expr c V N1 N2 He) as [msg Hm].
  exists msg. rewrite (EvaluateExpression_invalid rt p expr msg Hm).
  destruct expr; [discriminate He | reflexivity].
Qed.

(** The variable [Rate] is set, and ["2*Rate"] is rejected. *)
Lemma capital_names_witness :
  fst (SetVariable fresh "Rate" (of_Z 5)) = None
  /\ fst (SetVariable fresh "tax_rate" (of_Z 5)) = None
  /\ exists msg,
       EvaluateExpression anyMath (snd (SetVariable fresh "Rate" (of_Z 5))) "2*Rate"
       = (Err ("invalid expression: " ++ msg), snd (SetVariable fresh "Rate" (of_Z 5))).
Proof.
  split; [reflexivity|]. split; [reflexivity|].
  exact (capital_names_cannot_be_used anyMath (snd (SetVariable fresh "Rate" (of_Z 5)))
           "Rate" "2*Rate" "R" eq_refl eq_refl eq_refl).
Defined.

(** ** Tokens lose nothing *)

Section TokensJoin.

Lemma joinTokens_flush (cur : string) (l : list string) :
  joinTokens (flush cur l) = rev cur ++ joinTokens l.
Proof. unfold flush. destruct cur; reflexivity. Qed.

Lemma rev_String (c : ascii) (s : string) : rev (String c s) = rev s ++ String c "".
Proof. unfold rev. cbn [rev_acc]. now rewrite (rev_acc_app s (String c "")). Qed.

Lemma tokenize_go_join (s : string) :
  allb isAsciiB s = true ->
  forall prev cur, joinTokens (tokenize_go s prev cur) = rev cur ++ removeSpaces s.
Proof.
  induction s as [|ch r IH]; intros A prev cur.
  - cbn [tokenize_go removeSpaces]. now rewrite joinTokens_flush.
  - simpl in A. apply andb_true_iff in A as [C A]. cbn [tokenize_go removeSpaces].
    destruct (isDigit ch || Ascii.eqb ch "." || _)%bool eqn:E.
    + rewrite IH by assumption. rewrite rev_String, append_assoc.
      destruct (Ascii.eqb_spec ch " ") as [->|]; [discriminate E | reflexivity].
    + rewrite joinTokens_flush. f_equal.
      destruct (Ascii.eqb ch " "); [now rewrite IH|].
      assert (H1 : isContByte ch = false /\ isLeadByte ch = false).
      { unfold isAsciiB in C. apply Nat.ltb_lt in C.
        unfold isContByte, isLeadByte, in_range. split; apply andb_false_iff; left;
          apply Nat.leb_gt; lia. }
      destruct H1 as [-> ->]. cbn [andb joinTokens]. now rewrite IH.
Qed.

End TokensJoin.

(** X11: the tokens of an ASCII text, written one after the other, are
    the text without its spaces: [tokenize] drops the spaces and nothing
    else, whatever the text. *)
Theorem tokenize_loses_nothing :
  forall s : string,
    allb isAsciiB s = true -> joinTokens (tokenize s) = removeSpaces s.
Proof. intros s A. unfold tokenize. now rewrite tokenize_go_join. Qed.

(** The theorem at ["2e3 + x1*(4.5-1)"]. *)
Lemma tokenize_loses_nothing_witness :
  tokenize "2e3 + x1*(4.5-1)" = ["2e3"; "+"; "x"; "1"; "*"; "("; "4.5"; "-"; "1"; ")"]
  /\ joinTokens (tokenize "2e3 + x1*(4.5-1)") = "2e3+x1*(4.5-1)".
Proof.
  split; [reflexivity|].
  exact (tokenize_loses_nothing "2e3 + x1*(4.5-1)" eq_refl).
Defined.

(** ** Shunting-yard and the parentheses *)

Section Parentheses.


Lemma others_app (a b : list string) : operandsAndOperators (a ++ b) = (operandsAndOperators a ++ operandsAndOperators b)%list.
Proof. apply filter_app. Qed.

Lemma others_keep (t : string) (l : list string) :
  String.eqb t "(" = false -> String.eqb t ")" = false -> operandsAndOperators (t :: l) = t :: operandsAndOperators l.
Proof. intros A B. unfold operandsAndOperators, operandsAndOperators, isParenToken. simpl. now rewrite A, B. Qed.

Lemma others_lparen (l : list string) : operandsAndOperators ("(" :: l) = operandsAndOperators l.
Proof. reflexivity. Qed.

Lemma others_rparen (l : list string) : operandsAndOperators (")" :: l) = operandsAndOperators l.
Proof. reflexivity. Qed.

Lemma drainStack_spec (st : list string) :
  noClosing st ->
  forall out,
    match openCount st with
    | O => drainStack st out = Ok (out ++ st)%list /\ operandsAndOperators st = st
    | S _ => drainStack st out = Err "mismatched parentheses"
    end.
Proof.
  induction st as [|top rest IH]; intros F out.
  - simpl. now rewrite app_nil_r.
  - inversion F as [|? ? Ft Fr]; subst. cbn [openCount drainStack].
    destruct (String.eqb top "(") eqn:E; [reflexivity|].
    specialize (IH Fr (out ++ [top])%list). cbn [Nat.add].
    destruct (openCount rest); [|exact IH].
    destruct IH as [IH1 IH2]. rewrite IH1, <- app_assoc.
    split; [reflexivity|]. rewrite others_keep by assumption. now rewrite IH2.
Qed.

Lemma popToParen_spec (st : list string) :
  noClosing st ->
  forall out,
    match openCount st with
    | O => fst (popToParen st out) = []
    | S b =>
        exists ops rest,
          popToParen st out = ("(" :: rest, (out ++ ops)%list)
          /\ operandsAndOperators st = (ops ++ operandsAndOperators rest)%list
          /\ openCount rest = b /\ noClosing rest
    end.
Proof.
  induction st as [|top rest IH]; intros F out; [reflexivity|].
  inversion F as [|? ? Ft Fr]; subst. cbn [openCount popToParen].
  destruct (String.eqb_spec top "(") as [->|N].
  - cbn [String.eqb Ascii.eqb Bool.eqb Nat.add]. exists [], rest. rewrite app_nil_r.
    rewrite others_lparen. repeat split; assumption.
  - apply String.eqb_neq in N. specialize (IH Fr (out ++ [top])%list).
    cbn [Nat.add].
    destruct (openCount rest) as [|b]; [exact IH|].
    destruct IH as (ops & rest' & E & O & C & F').
    exists (top :: ops), rest'. rewrite E, <- app_assoc.
    repeat split; try assumption.
    rewrite others_keep by assumption. now rewrite O.
Qed.

Lemma popOperators_spec (tok : string) (st : list string) :
  noClosing st ->
  forall out,
    exists ops rest,
      popOperators tok st out = (rest, (out ++ ops)%list)
      /\ operandsAndOperators st = (ops ++ operandsAndOperators rest)%list
      /\ openCount rest = openCount st /\ noClosing rest.
Proof.
  induction st as [|top rest IH]; intros F out.
  - exists [], []. cbn [popOperators]. rewrite app_nil_r. repeat split. constructor.
  - inversion F as [|? ? Ft Fr]; subst. cbn [popOperators].
    destruct (String.eqb top "(") eqn:E; cbn [negb andb].
    + exists [], (top :: rest). rewrite app_nil_r. repeat split. exact F.
    + destruct (precedence tok <=? precedence top).
      * destruct (IH Fr (out ++ [top])%list) as (ops & rest' & P & O & C & F').
        exists (top :: ops), rest'. rewrite P, <- app_assoc. cbn [openCount].
        rewrite E. repeat split; try assumption.
        rewrite others_keep by assumption. now rewrite O.
      * exists [], (top :: rest). rewrite app_nil_r. repeat split. exact F.
Qed.

Lemma number_not_paren (t : string) :
  isNumber t = true -> String.eqb t "(" = false /\ String.eqb t ")" = false.
Proof.
  intros H. split.
  - destruct (String.eqb_spec t "("); [subst; discriminate H | reflexivity].
  - destruct (String.eqb_spec t ")"); [subst; discriminate H | reflexivity].
Qed.

Lemma shuntingYard_go_spec (tokens : list string) :
  forallb knownToken tokens = true ->
  forall out st, noClosing st ->
    if balancedTokens_go tokens (openCount st)
    then exists out', shuntingYard_go tokens out st = Ok out'
                      /\ Permutation out' (out ++ operandsAndOperators st ++ operandsAndOperators tokens)
    else shuntingYard_go tokens out st = Err "mismatched parentheses".
Proof.
  induction tokens as [|t r IH]; intros K out st F.
  - cbn [balancedTokens_go shuntingYard_go].
    pose proof (drainStack_spec st F out) as D.
    destruct (openCount st); cbn [Nat.eqb]; [|exact D].
    destruct D as [D1 D2]. exists (out ++ st)%list. split; [exact D1|].
    rewrite D2. change (operandsAndOperators []) with (@nil string). now rewrite app_nil_r.
  - cbn [forallb] in K. apply andb_true_iff in K as [Kt K].
    cbn [balancedTokens_go shuntingYard_go].
    destruct (isNumber t) eqn:N.
    { destruct (number_not_paren t N) as [N1 N2].
      specialize (IH K (out ++ [t])%list st F).
      destruct (balancedTokens_go r (openCount st)); [|exact IH].
      destruct IH as (out' & E & P). exists out'. split; [exact E|].
      eapply perm_trans; [exact P|]. rewrite others_keep by assumption.
      rewrite <- !app_assoc. apply Permutation_app_head. cbn [app].
      apply Permutation_middle. }
    destruct (String.eqb_spec t "(") as [->|N1].
    { specialize (IH K out ("(" :: st)).
      assert (F' : noClosing ("(" :: st)) by (constructor; [reflexivity | exact F]).
      specialize (IH F'). cbn [openCount String.eqb Ascii.eqb Bool.eqb Nat.add] in IH.
      rewrite !others_lparen. exact IH. }
    destruct (String.eqb_spec t ")") as [->|N2].
    { pose proof (popToParen_spec st F out) as P.
      destruct (openCount st) as [|b].
      - destruct (popToParen st out) as [[|x st'] out']; [reflexivity | discriminate P].
      - destruct P as (ops & rest & E & O & C & F'). rewrite E.
        specialize (IH K (out ++ ops)%list rest F'). rewrite C in IH.
        destruct (balancedTokens_go r b); [|exact IH].
        destruct IH as (out' & E' & P'). exists out'. split; [exact E'|].
        eapply perm_trans; [exact P'|]. rewrite others_rparen, O.
        rewrite <- !app_assoc. apply Permutation_refl. }
    assert (Op : isOperator t = true).
    { unfold knownToken, isParenToken in Kt. rewrite N in Kt.
      apply String.eqb_neq in N1, N2. now rewrite N1, N2 in Kt. }
    rewrite Op.
    destruct (popOperators_spec t st F out) as (ops & rest & E & O & C & F').
    rewrite E.
    assert (F2 : noClosing (t :: rest)).
    { constructor; [now apply String.eqb_neq | exact F']. }
    specialize (IH K (out ++ ops)%list (t :: rest) F2).
    cbn [openCount] in IH.
    replace (String.eqb t "(") with false in IH by (symmetry; now apply String.eqb_neq).
    cbn [Nat.add] in IH. rewrite C in IH.
    destruct (balancedTokens_go r (openCount st)); [|exact IH].
    destruct IH as (out' & E' & P'). exists out'. split; [exact E'|].
    eapply perm_trans; [exact P'|].
    rewrite !others_keep by now apply String.eqb_neq.
    rewrite O, <- !app_assoc. do 2 apply Permutation_app_head. cbn [app].
    apply Permutation_middle.
Qed.

Lemma shuntingYard_go_unknown (tokens : list string) :
  forallb knownToken tokens = false ->
  forall out st, is_Ok (shuntingYard_go tokens out st) = false.
Proof.
  induction tokens as [|t r IH]; intros K out st; [discriminate K|].
  cbn [forallb] in K. cbn [shuntingYard_go].
  destruct (isNumber t) eqn:N.
  { unfold knownToken in K. rewrite N in K. simpl in K. now apply IH. }
  destruct (String.eqb t "(") eqn:E1.
  { unfold knownToken, isParenToken in K. rewrite N, E1 in K. simpl in K. now apply IH. }
  destruct (String.eqb t ")") eqn:E2.
  { unfold knownToken, isParenToken in K. rewrite N, E1, E2 in K. simpl in K.
    destruct (popToParen st out) as [[|x st'] out']; [reflexivity | now apply IH]. }
  destruct (isOperator t) eqn:Op; [|reflexivity].
  unfold knownToken, isParenToken in K. rewrite N, E1, E2, Op in K. simpl in K.
  destruct (popOperators t st out). now apply IH.
Qed.

End Parentheses.

Section Tokenizable.

Lemma tokenizable_flush (cur : string) (tokens : list string) :
  allb isNumChar cur = true -> forallb tokenizable tokens = true ->
  forallb tokenizable (flush cur tokens) = true.
Proof.
  intros C T. unfold flush. destruct (nonEmpty cur); [|exact T].
  cbn [forallb]. rewrite T, andb_true_r. unfold tokenizable.
  now rewrite allb_rev, C.
Qed.

Lemma tokenize_go_tokenizable (s : string) :
  forall prev cur, allb isNumChar cur = true ->
    forallb tokenizable (tokenize_go s prev cur) = true.
Proof.
  induction s as [|ch r IH]; intros prev cur C.
  - cbn [tokenize_go]. now apply tokenizable_flush.
  - cbn [tokenize_go].
    destruct (isDigit ch || Ascii.eqb ch "."
              || (Ascii.eqb ch "e" && match prev with Some q => isDigit q | None => false end))%bool
      eqn:N.
    + apply IH. cbn [allb]. rewrite C, andb_true_r. unfold isNumChar, isDigit in *.
      destruct (isDigitB ch); [reflexivity|]. destruct (Ascii.eqb ch "."); [reflexivity|].
      cbn [orb] in *. apply andb_true_iff in N as [N _]. now rewrite N.
    + apply tokenizable_flush; [exact C|].
      destruct (Ascii.eqb ch " "); [now apply IH|].
      destruct (isContByte ch && isHighOpt prev)%bool; [now apply IH|].
      cbn [forallb]. rewrite IH by reflexivity. rewrite andb_true_r.
      apply orb_false_iff in N as [N _]. apply orb_false_iff in N as [N _].
      unfold isDigit in N. unfold tokenizable. apply orb_true_iff. right.
      destruct (isLeadByte ch) eqn:L; cbn [allb]; unfold notDigit at 1; rewrite N; cbn [negb andb];
        [|reflexivity].
      destruct (span isContByte r) as [a b] eqn:E. apply span_spec in E as (_ & A & _).
      cbn [fst]. eapply allb_impl; [|exact A]. intros c Hc.
      destruct c as [[] [] [] [] [] [] [] []]; try discriminate Hc; reflexivity.
Qed.

Lemma processUnaryOperators_go_tokenizable (tokens : list string) :
  forallb tokenizable tokens = true ->
  forall prev, forallb tokenizable (processUnaryOperators_go prev tokens) = true.
Proof.
  induction tokens as [|t r IH]; intros T prev; [reflexivity|].
  cbn [forallb] in T. apply andb_true_iff in T as [Tt Tr].
  cbn [processUnaryOperators_go].
  destruct (String.eqb t "-" && isUnaryMinus prev)%bool.
  - cbn [forallb]. now rewrite IH.
  - destruct (String.eqb t "+" && isUnaryPlus prev)%bool; [now apply IH|].
    cbn [forallb]. now rewrite Tt, IH.
Qed.

End Tokenizable.

(** X12: on the tokens that [tokenize] yields (runs of digits, points and
    [e]s, and texts without a digit), shunting-yard succeeds exactly on the
    lists of known tokens (numbers, operators, parentheses) whose
    parentheses are balanced.  Its output then holds every token that is
    not a parenthesis exactly once and no parenthesis; with unbalanced
    parentheses the error is 'mismatched parentheses'. *)
Theorem shuntingYard_succeeds_iff_balanced :
  (forall s : string, forallb tokenizable (processUnaryOperators (tokenize s)) = true)
  /\ (forall tokens : list string,
        forallb tokenizable tokens = true ->
        (forallb knownToken tokens = true -> balancedTokens tokens = true ->
           exists out, shuntingYard tokens = Ok out
                       /\ Permutation out (operandsAndOperators tokens))
        /\ (forallb knownToken tokens = true -> balancedTokens tokens = false ->
              shuntingYard tokens = Err "mismatched parentheses")
        /\ (forallb knownToken tokens = false -> is_Ok (shuntingYard tokens) = false)).
Proof.
  split.
  { intros s. apply processUnaryOperators_go_tokenizable.
    now apply tokenize_go_tokenizable. }
  intros tokens _. split; [|split].
  - intros K B. pose proof (shuntingYard_go_spec tokens K [] [] (Forall_nil _)) as H.
    cbn [openCount] in H. unfold balancedTokens in B. rewrite B in H. exact H.
  - intros K B. pose proof (shuntingYard_go_spec tokens K [] [] (Forall_nil _)) as H.
    cbn [openCount] in H. unfold balancedTokens in B. rewrite B in H. exact H.
  - intros K. now apply shuntingYard_go_unknown.
Qed.

(** The theorem at the tokens of ["(2+3)*4"] and of ["(2+3"]. *)
Lemma shuntingYard_balanced_witness :
  forallb tokenizable ["("; "2"; "+"; "3"; ")"; "*"; "4"] = true
  /\ shuntingYard ["("; "2"; "+"; "3"; ")"; "*"; "4"] = Ok ["2"; "3"; "+"; "4"; "*"]
  /\ (exists out, shuntingYard ["("; "2"; "+"; "3"; ")"; "*"; "4"] = Ok out
                  /\ Permutation out ["2"; "+"; "3"; "*"; "4"])
  /\ shuntingYard ["("; "2"; "+"; "3"] = Err "mismatched parentheses".
Proof.
  split; [reflexivity|]. split; [reflexivity|]. split.
  - exact (proj1 (proj2 shuntingYard_succeeds_iff_balanced
                    ["("; "2"; "+"; "3"; ")"; "*"; "4"] eq_refl)
             eq_refl eq_refl).
  - exact (proj1 (proj2 (proj2 shuntingYard_succeeds_iff_balanced
                           ["("; "2"; "+"; "3"] eq_refl))
             eq_refl eq_refl).
Defined.

(** ** Literals between operators *)

Section Literals.

Variable rt : GoMath.

Lemma tokenize_go_op (c : ascii) (r : string) (prev : option ascii) (cur : string) :
  isOpChar c = true ->
  tokenize_go (String c r) prev cur = flush cur (String c "" :: tokenize_go r (Some c) "").
Proof.
  intros H. unfold isOpChar in H. cbn [ContainsChar] in H.
  repeat (apply orb_true_iff in H as [H|H]; [apply Ascii.eqb_eq in H; subst c; reflexivity|]).
  discriminate H.
Qed.

Lemma tokenize_go_lit (lit : string) :
  allb isLitChar lit = true ->
  forall rest prev cur,
    exists prev', tokenize_go (lit ++ rest) prev cur = tokenize_go rest prev' (rev_acc lit cur).
Proof.
  induction lit as [|c l IH]; intros A rest prev cur; [now exists prev|].
  simpl in A. apply andb_true_iff in A as [C A]. cbn [append tokenize_go rev_acc].
  unfold isLitChar in C. unfold isDigit. rewrite C. cbn [orb]. now apply IH.
Qed.

(** A literal before an operator or a parenthesis is one token. *)
Lemma tokenize_go_lit_op (lit : string) (c : ascii) (r : string) (prev : option ascii) :
  allb isLitChar lit = true -> nonEmpty lit = true -> isOpChar c = true ->
  tokenize_go (lit ++ String c r) prev "" = lit :: String c "" :: tokenize_go r (Some c) "".
Proof.
  intros A N C. destruct (tokenize_go_lit lit A (String c r) prev "") as [prev' ->].
  rewrite tokenize_go_op by assumption. unfold flush.
  rewrite nonEmpty_rev_acc by assumption. now rewrite rev_rev_acc.
Qed.

(** A literal at the end is one token. *)
Lemma tokenize_go_lit_end (lit : string) (prev : option ascii) :
  allb isLitChar lit = true -> nonEmpty lit = true ->
  tokenize_go lit prev "" = [lit].
Proof.
  intros A N. rewrite <- (append_nil_r lit) at 1.
  destruct (tokenize_go_lit lit A "" prev "") as [prev' ->].
  cbn [tokenize_go]. unfold flush.
  rewrite nonEmpty_rev_acc by assumption. now rewrite rev_rev_acc.
Qed.

Lemma shuntingYard_go_number (t : string) (r out st : list string) :
  isNumber t = true ->
  shuntingYard_go (t :: r) out st = shuntingYard_go r (out ++ [t]) st.
Proof. intros H. cbn [shuntingYard_go]. now rewrite H. Qed.

Lemma shuntingYard_go_operator (t : string) (r out st : list string) :
  isNumber t = false -> String.eqb t "(" = false -> String.eqb t ")" = false ->
  isOperator t = true ->
  shuntingYard_go (t :: r) out st
  = shuntingYard_go r (snd (popOperators t st out)) (t :: fst (popOperators t st out)).
Proof.
  intros N A B O. cbn [shuntingYard_go]. rewrite N, A, B, O.
  now destruct (popOperators t st out).
Qed.

Lemma evaluateRPN_go_number (t : string) (v : float64) (r : list string)
  (stack : list float64) :
  ParseFloat t = Some v ->
  evaluateRPN_go rt (t :: r) stack = evaluateRPN_go rt r (v :: stack).
Proof. intros H. cbn [evaluateRPN_go]. unfold isNumber. now rewrite H. Qed.

Lemma evaluateRPN_go_binary (t : string) (a b : float64) (r : list string)
  (stack : list float64) :
  isNumber t = false -> String.eqb t unaryMinus = false -> isOperator t = true ->
  evaluateRPN_go rt (t :: r) (b :: a :: stack)
  = bind (applyOperator rt t a b) (fun v => evaluateRPN_go rt r (v :: stack)).
Proof.
  intros N U O. cbn [evaluateRPN_go]. rewrite N, U, O.
  now destruct (applyOperator rt t a b).
Qed.

Lemma evaluateRPN_go_negate (a : float64) (r : list string) (stack : list float64) :
  evaluateRPN_go rt ("~" :: r) (a :: stack) = evaluateRPN_go rt r (F64.neg a :: stack).
Proof. reflexivity. Qed.

Lemma litOk_ParseFloat (lit : string) :
  litOk lit = true -> exists v, ParseFloat lit = Some v.
Proof.
  intros H. apply litOk_isNumber in H. unfold isNumber in H.
  destruct (ParseFloat lit) as [v|]; [now exists v | discriminate].
Qed.

Lemma ParseFloat_isNumber (t : string) (v : float64) :
  ParseFloat t = Some v -> isNumber t = true.
Proof. intros H. unfold isNumber. now rewrite H. Qed.

Lemma lit_no_char (lit : string) (c : ascii) :
  allb isLitChar lit = true -> isLitChar c = false -> ContainsChar lit c = false.
Proof. intros A F. now apply (allb_ContainsChar isLitChar). Qed.

Lemma Contains_app_char (a b sub : string) (c : ascii) :
  ContainsChar a c = false -> Contains (a ++ b) (String c sub) = Contains b (String c sub).
Proof.
  induction a as [|x a IH]; intros H; [reflexivity|].
  simpl in H. apply orb_false_iff in H as [E H]. cbn [append Contains HasPrefix].
  rewrite Ascii.eqb_sym, E. cbn [andb orb]. now apply IH.
Qed.

End Literals.

(** ** Exponents and signs *)

Section Operators.

Variable rt : GoMath.

Lemma Contains_char (s : string) (c : ascii) : Contains s (String c "") = ContainsChar s c.
Proof.
  induction s as [|a s IH]; [reflexivity|]. cbn [Contains HasPrefix ContainsChar].
  rewrite IH, Ascii.eqb_sym. replace (HasPrefix s "") with true by now destruct s.
  now rewrite andb_true_r.
Qed.

Lemma processUnary_keep (t : string) (prev : option string) (r : list string) :
  String.eqb t "-" = false -> String.eqb t "+" = false ->
  processUnaryOperators_go prev (t :: r) = t :: processUnaryOperators_go (Some t) r.
Proof. intros A B. cbn [processUnaryOperators_go]. now rewrite A, B. Qed.

Lemma processUnary_lit (lit : string) (prev : option string) (r : list string) :
  litOk lit = true ->
  processUnaryOperators_go prev (lit :: r) = lit :: processUnaryOperators_go (Some lit) r.
Proof. intros H. destruct (litOk_not_sign lit H). now apply processUnary_keep. Qed.

Lemma processUnary_minus (prev : option string) (r : list string) :
  processUnaryOperators_go prev ("-" :: r)
  = (if isUnaryAt prev then "~" else "-") :: processUnaryOperators_go (Some "-") r.
Proof.
  cbn [processUnaryOperators_go]. unfold isUnaryMinus, isUnaryPlus.
  now destruct (isUnaryAt prev).
Qed.

Lemma processUnary_plus (prev : option string) (r : list string) :
  processUnaryOperators_go prev ("+" :: r)
  = if isUnaryAt prev then processUnaryOperators_go (Some "+") r
    else "+" :: processUnaryOperators_go (Some "+") r.
Proof.
  cbn [processUnaryOperators_go]. unfold isUnaryMinus, isUnaryPlus.
  now destruct (isUnaryAt prev).
Qed.

Lemma isUnaryAt_lit (lit : string) : litOk lit = true -> isUnaryAt (Some lit) = false.
Proof. intros H. unfold isUnaryAt. now rewrite litOk_isNumber. Qed.

Lemma noBang_lit (lit : string) : litOk lit = true -> ContainsChar lit "!" = false.
Proof. intros H. apply lit_no_char; [now apply litOk_chars | reflexivity]. Qed.

Lemma tokenize_go_end (prev : option ascii) : tokenize_go "" prev "" = [].
Proof. reflexivity. Qed.

Lemma shuntingYard_go_lparen (r out st : list string) :
  shuntingYard_go ("(" :: r) out st = shuntingYard_go r out ("(" :: st).
Proof. reflexivity. Qed.

Lemma shuntingYard_go_rparen (r out st : list string) :
  shuntingYard_go (")" :: r) out st
  = match popToParen st out with
    | ([], _) => Err "mismatched parentheses"
    | (_ :: stack', output') => shuntingYard_go r output' stack'
    end.
Proof. reflexivity. Qed.

Lemma exprChars_removeSpaces (s : string) : allb isExprChar s = true -> removeSpaces s = s.
Proof.
  induction s as [|c s IH]; intros A; [reflexivity|].
  simpl in A. apply andb_true_iff in A as [C A]. simpl. rewrite IH by assumption.
  destruct (Ascii.eqb_spec c " "); [subst; discriminate C | reflexivity].
Qed.

Lemma balanced_counts (s : string) :
  forall b, HasBalancedParentheses_go s b = true ->
    b + Z.of_nat (CountChar s "(") = Z.of_nat (CountChar s ")").
Proof.
  induction s as [|c s IH]; intros b H.
  - simpl in *. apply Z.eqb_eq in H. lia.
  - cbn [HasBalancedParentheses_go] in H. cbn [CountChar].
    destruct (Ascii.eqb_spec c "(") as [->|N1].
    + apply IH in H. cbn [Ascii.eqb Bool.eqb]. cbn [Nat.add]. lia.
    + destruct (Ascii.eqb_spec c ")") as [->|N2].
      * destruct (b - 1 <? 0); [discriminate|]. apply IH in H. cbn [Nat.add]. lia.
      * apply IH in H. cbn [Nat.add]. lia.
Qed.

(** Validation of a text of digits, points, the four operators and
    parentheses. *)
Lemma ValidateExpression_plain (s : string) :
  allb isExprChar s = true -> nonEmpty s = true ->
  HasBalancedParentheses s = true -> HasConsecutiveOperators s = false ->
  passesZeroCheck s = true ->
  ValidateExpression rt s = None.
Proof.
  intros A N B C Z. unfold ValidateExpression.
  assert (E0 : String.eqb s "" = false) by (destruct s; [discriminate N | reflexivity]).
  pose proof (isExprChar_isTextChar s A) as T.
  rewrite E0, B, C. cbn [negb]. unfold ValidExpressionRegex_Match.
  rewrite validExprChars_text by assumption.
  replace (match s with "" => false | String _ _ => true end) with true
    by (destruct s; [discriminate N | reflexivity]).
  cbn [negb]. unfold passesZeroCheck in Z.
  replace (Contains s "/0" && negb (Contains s "/0.") && negb (Contains s "/0."))%bool
    with false by (destruct (Contains s "/0"), (Contains s "/0."); try reflexivity; discriminate Z).
  unfold ValidateFunctionCalls, findFuncNames. rewrite findFuncNames_go_text by assumption.
  cbn [firstUnknown]. unfold HasBalancedParentheses in B. apply balanced_counts in B.
  replace (Nat.eqb (CountChar s "(") (CountChar s ")")) with true
    by (symmetry; apply Nat.eqb_eq; lia).
  apply ValidateNumbers_notE. now apply isTextChar_notE.
Qed.

Lemma preprocess_plain (f : Parser -> string -> result float64 * Parser)
  (p : Parser) (s : string) :
  allb isExprChar s = true -> parserOk p = true -> preprocess rt f p s = (Ok s, p).
Proof.
  intros A Hp. unfold preprocess. unfold parserOk in Hp. apply andb_true_iff in Hp as [Hc Hv].
  rewrite exprChars_removeSpaces, ToLower_expr by assumption.
  rewrite (substitute_expr (constants p)) by assumption.
  rewrite substitute_expr by assumption.
  unfold processFunctions. cbn [processFunctions_loop].
  now rewrite findFuncCall_expr.
Qed.

(** The evaluation of such a text is that of [evaluate] on it. *)
Lemma EvaluateExpression_plain (p : Parser) (s : string) :
  allb isExprChar s = true -> ValidateExpression rt s = None -> parserOk p = true ->
  fst (EvaluateExpression rt p s) = evaluate rt s.
Proof.
  intros A V Hp. unfold EvaluateExpression. cbn [EvaluateExpression_at].
  unfold EvaluateExpression_body. rewrite V.
  destruct (String.eqb s "") eqn:E0.
  { apply String.eqb_eq in E0. subst s. discriminate V. }
  rewrite preprocess_plain; [now destruct (evaluate rt s) | assumption|].
  unfold parserOk in *. apply andb_true_iff in Hp as [Hc Hv].
  cbn [set_constant constants variables]. rewrite Hv, andb_true_r.
  now apply namesOk_map_set.
Qed.

End Operators.

Ltac pop_now :=
  match goal with
  | |- context [popOperators ?t ?st ?out] =>
      let r := eval cbn in (popOperators t st out) in
      change (popOperators t st out) with r; cbn [fst snd]
  end.

Ltac yard :=
  repeat first
    [ rewrite shuntingYard_go_number by (assumption || (eapply ParseFloat_isNumber; eassumption))
    | rewrite shuntingYard_go_lparen
    | rewrite shuntingYard_go_rparen;
      match goal with
      | |- context [popToParen ?st ?out] =>
          let r := eval cbn in (popToParen st out) in
          change (popToParen st out) with r; cbv iota beta
      end
    | rewrite shuntingYard_go_operator by reflexivity; pop_now ].

Ltac rpn rt :=
  unfold evaluateRPN;
  repeat first
    [ erewrite (evaluateRPN_go_number rt) by eassumption
    | rewrite (evaluateRPN_go_negate rt)
    | rewrite (evaluateRPN_go_binary rt) by reflexivity;
      cbn [applyOperator String.eqb Ascii.eqb Bool.eqb bind] ].

Ltac no_bang :=
  rewrite Contains_char; cbn [append];
  repeat first [ rewrite ContainsChar_app
               | rewrite noBang_lit by assumption
               | progress cbn [ContainsChar Ascii.eqb Bool.eqb orb] ];
  reflexivity.

Ltac tokens :=
  unfold tokenize;
  repeat first
    [ rewrite tokenize_go_lit_op by (reflexivity || (apply litOk_chars; assumption)
                                      || (apply litOk_nonEmpty; assumption))
    | rewrite tokenize_go_lit_end by ((apply litOk_chars; assumption)
                                      || (apply litOk_nonEmpty; assumption))
    | rewrite tokenize_go_op by reflexivity; rewrite flush_nil
    | rewrite tokenize_go_end ].

Ltac unary :=
  unfold processUnaryOperators;
  repeat first
    [ rewrite processUnary_lit by assumption
    | rewrite processUnary_minus
    | rewrite processUnary_plus
    | rewrite processUnary_keep by reflexivity
    | rewrite isUnaryAt_lit by assumption
    | match goal with
      | |- context [isUnaryAt ?x] =>
          let r := eval vm_compute in (isUnaryAt x) in
          change (isUnaryAt x) with r; cbv iota
      end ];
  cbn [processUnaryOperators_go].

Ltac evaluate_plain rt :=
  rewrite (evaluate_unfold rt);
  replace (Contains _ "!") with false by (symmetry; no_bang);
  unfold evaluatePlain; cbn [append]; tokens; unary; unfold shuntingYard; yard;
  cbn [shuntingYard_go drainStack String.eqb Ascii.eqb Bool.eqb app bind];
  rpn rt.

(** X13: exponentiation associates to the left and binds less tightly
    than a sign before its base, more tightly than multiplication:
    [a^b^c] is [(a^b)^c], [-a^b] is [(-a)^b] and [a*b^c] is [a*(b^c)],
    for all literals [a], [b] and [c]. *)
Theorem exponent_associates_to_the_left :
  forall (rt : GoMath) (a b c : string) (va vb vc : float64),
    litOk a = true -> litOk b = true -> litOk c = true ->
    ParseFloat a = Some va -> ParseFloat b = Some vb -> ParseFloat c = Some vc ->
    evaluate rt (a ++ "^" ++ b ++ "^" ++ c) = Ok (Power rt (Power rt va vb) vc)
    /\ evaluate rt ("-" ++ a ++ "^" ++ b) = Ok (Power rt (F64.neg va) vb)
    /\ evaluate rt (a ++ "*" ++ b ++ "^" ++ c) = Ok (Multiply va (Power rt vb vc)).
Proof.
  intros rt a b c va vb vc La Lb Lc Pa Pb Pc.
  split; [|split].
  - evaluate_plain rt. reflexivity.
  - evaluate_plain rt. reflexivity.
  - evaluate_plain rt. reflexivity.
Qed.

(** X14: two minus signs in a row pass validation, which allows them 'for
    signed numbers', and fail in evaluation: the second sign pops the
    first from the operator stack before its operand is read.  One sign
    negates, a plus sign is dropped, and the double negation written with
    parentheses works. *)
Theorem double_minus_fails :
  forall (rt : GoMath) (p : Parser) (lit : string) (v : float64),
    litOk lit = true -> ParseFloat lit = Some v -> parserOk p = true ->
    ValidateExpression rt ("--" ++ lit) = None
    /\ fst (EvaluateExpression rt p ("--" ++ lit))
       = Err "insufficient operands for unary minus"
    /\ fst (EvaluateExpression rt p ("-" ++ lit)) = Ok (F64.neg v)
    /\ fst (EvaluateExpression rt p ("+" ++ lit)) = Ok v
    /\ fst (EvaluateExpression rt p ("-(-" ++ lit ++ ")")) = Ok (F64.neg (F64.neg v)).
Proof.
  intros rt p lit v L P Hp.
  pose proof (litOk_chars lit L) as Lc. pose proof (litOk_nonEmpty lit L) as Ln.
  assert (Le : allb isExprChar lit = true).
  { eapply allb_impl; [|exact Lc]. intros c H. unfold isExprChar. now rewrite H. }
  assert (Lp : allb notParen lit = true) by now apply isLitChar_notParen.
  destruct (HasConsecutiveOperators_go_literal lit Lc Ln) as (c0 & Hc0 & Hlit).
  assert (Sl : forall b, Contains lit (String "/" b) = false).
  { intros b. apply Contains_head. now apply lit_no_char. }
  assert (V : forall pre, In pre ["--"; "-"; "+"] -> ValidateExpression rt (pre ++ lit) = None).
  { intros pre Hin. apply ValidateExpression_plain.
    - rewrite allb_app, Le. destruct Hin as [<-|[<-|[<-|[]]]]; reflexivity.
    - destruct Hin as [<-|[<-|[<-|[]]]]; reflexivity.
    - unfold HasBalancedParentheses.
      rewrite HasBalancedParentheses_go_notParen
        by (destruct Hin as [<-|[<-|[<-|[]]]]; reflexivity).
      rewrite <- (append_nil_r lit). now rewrite HasBalancedParentheses_go_notParen.
    - unfold HasConsecutiveOperators.
      destruct Hin as [<-|[<-|[<-|[]]]]; cbn [append HasConsecutiveOperators_go];
        cbn -[HasConsecutiveOperators_go];
        rewrite <- (append_nil_r lit), Hlit; reflexivity.
    - unfold passesZeroCheck.
      destruct Hin as [<-|[<-|[<-|[]]]]; cbn [append Contains HasPrefix];
        cbn -[Contains]; rewrite ?Sl; reflexivity. }
  split; [apply V; simpl; tauto|].
  split.
  { rewrite EvaluateExpression_plain; try assumption; [|apply V; simpl; tauto].
    evaluate_plain rt. reflexivity. }
  split.
  { rewrite EvaluateExpression_plain; try assumption; [|apply V; simpl; tauto].
    evaluate_plain rt. reflexivity. }
  split.
  { rewrite EvaluateExpression_plain; try assumption; [|apply V; simpl; tauto].
    evaluate_plain rt. reflexivity. }
  assert (A : allb isExprChar ("-(-" ++ lit ++ ")") = true).
  { cbn [append allb]. rewrite allb_app, Le. reflexivity. }
  rewrite EvaluateExpression_plain; try assumption.
  - evaluate_plain rt. reflexivity.
  - apply ValidateExpression_plain; try assumption; try reflexivity.
    + unfold HasBalancedParentheses. cbn [append HasBalancedParentheses_go].
      cbn -[HasBalancedParentheses_go]. now rewrite HasBalancedParentheses_go_notParen.
    + unfold HasConsecutiveOperators. cbn [append HasConsecutiveOperators_go].
      cbn -[HasConsecutiveOperators_go]. rewrite Hlit.
      cbn [HasConsecutiveOperators_go]. rewrite Hc0. reflexivity.
    + unfold passesZeroCheck. cbn [append Contains HasPrefix]. cbn -[Contains].
      rewrite Contains_app_char by now apply lit_no_char. reflexivity.
Qed.

(** The theorems at ["2^3^2"] and at ["--5"]. *)
Lemma exponent_associates_witness :
  evaluate anyMath "2^3^2" = Ok (Power anyMath (Power anyMath (of_Z 2) (of_Z 3)) (of_Z 2))
  /\ evaluate anyMath "-2^2" = Ok (Power anyMath (F64.neg (of_Z 2)) (of_Z 2)).
Proof.
  pose proof (exponent_associates_to_the_left anyMath "2" "3" "2" (of_Z 2) (of_Z 3) (of_Z 2)
                eq_refl eq_refl eq_refl eq_refl eq_refl eq_refl) as (H1 & _).
  pose proof (exponent_associates_to_the_left anyMath "2" "2" "2" (of_Z 2) (of_Z 2) (of_Z 2)
                eq_refl eq_refl eq_refl eq_refl eq_refl eq_refl) as (_ & H2 & _).
  split; [exact H1 | exact H2].
Defined.

Lemma double_minus_witness :
  fst (EvaluateExpression anyMath fresh "--5") = Err "insufficient operands for unary minus"
  /\ fst (EvaluateExpression anyMath fresh "-(-5)") = Ok (of_Z 5).
Proof.
  pose proof (double_minus_fails anyMath fresh "5" (of_Z 5) eq_refl eq_refl eq_refl)
    as (_ & H1 & _ & _ & H2).
  split; [exact H1 | exact H2].
Defined.

(** ** An exponent with a sign *)


Section SignedExponent.

Variable rt : GoMath.

Lemma readDigits_app (d rest : string) :
  allb isDigitB d = true -> headNot isDigitB rest ->
  forall acc n, exists m, readDigits (d ++ rest) acc n = (m, (n + String.length d)%nat, rest).
Proof.
  induction d as [|c d IH]; intros A H acc n.
  - exists acc. cbn [append String.length]. rewrite Nat.add_0_r.
    destruct rest as [|c r]; [reflexivity|]. cbn [readDigits]. simpl in H. now rewrite H.
  - simpl in A. apply andb_true_iff in A as [C A]. cbn [append readDigits]. rewrite C.
    destruct (IH A H (10 * acc + digitVal c) (S n)) as [m E]. exists m. rewrite E.
    cbn [String.length]. f_equal. f_equal. lia.
Qed.

Lemma ParseFloat_digit_head (c : ascii) (r : string) :
  isDigitB c = true ->
  ParseFloat (String c r)
  = match readDecimal (String c r) with
    | None => None
    | Some (m, nfrac, e) =>
        if m =? 0 then Some (S754_zero false)
        else
          let k := e - Z.of_nat nfrac in
          let v := round_ratio false (m * 10 ^ Z.max k 0) (10 ^ Z.max (- k) 0) in
          if IsInf v then None else Some v
    end.
Proof.
  intros H. destruct c as [[] [] [] [] [] [] [] []]; try discriminate H; reflexivity.
Qed.

Lemma ParseFloat_signed_digit (sg : bool) (c : ascii) (r : string) :
  isDigitB c = true ->
  ParseFloat ((if sg then "-" else "+") ++ String c r)
  = match readDecimal (String c r) with
    | None => None
    | Some (m, nfrac, e) =>
        if m =? 0 then Some (S754_zero sg)
        else
          let k := e - Z.of_nat nfrac in
          let v := round_ratio sg (m * 10 ^ Z.max k 0) (10 ^ Z.max (- k) 0) in
          if IsInf v then None else Some v
    end.
Proof.
  intros H. destruct sg; destruct c as [[] [] [] [] [] [] [] []]; try discriminate H;
    reflexivity.
Qed.

Lemma binary_round_aux_IsInf (s1 s2 : bool) (m e : Z) (l : location) :
  IsInf (binary_round_aux prec emax s1 m e l) = IsInf (binary_round_aux prec emax s2 m e l).
Proof.
  unfold binary_round_aux.
  destruct (shr_fexp prec emax m e l) as [mrs' e'].
  destruct (shr_fexp prec emax _ e' loc_Exact) as [mrs'' e''].
  destruct (shr_m mrs''); try reflexivity.
  now destruct (e'' <=? emax - prec).
Qed.

Lemma round_ratio_IsInf (s1 s2 : bool) (num den : Z) :
  IsInf (round_ratio s1 num den) = IsInf (round_ratio s2 num den).
Proof.
  unfold round_ratio.
  destruct (SFdiv_core_binary prec emax num 0 den 0) as [[q e] l].
  apply binary_round_aux_IsInf.
Qed.

(** A literal of digits that is a number stays one under a sign. *)
Lemma isNumber_signed (sg : bool) (d : string) :
  allb isDigitB d = true -> isNumber d = true ->
  isNumber ((if sg then "-" else "+") ++ d) = true.
Proof.
  intros A N. destruct d as [|c r]; [discriminate N|].
  simpl in A. apply andb_true_iff in A as [C _].
  unfold isNumber in *. rewrite ParseFloat_signed_digit by assumption.
  rewrite ParseFloat_digit_head in N by assumption.
  destruct (readDecimal (String c r)) as [[[m nf] e]|]; [|discriminate N].
  destruct (m =? 0); [reflexivity|]. cbv zeta in *.
  rewrite (round_ratio_IsInf sg false).
  now destruct (IsInf (round_ratio false _ _)).
Qed.

(** Digits followed by a bare [e] are no number. *)
Lemma isNumber_digits_e (d : string) :
  allb isDigitB d = true -> nonEmpty d = true -> isNumber (d ++ "e") = false.
Proof.
  intros A N. destruct d as [|c r] eqn:Ed; [discriminate N|]. rewrite <- Ed in *.
  assert (C : isDigitB c = true).
  { rewrite Ed in A. simpl in A. now apply andb_true_iff in A as [C _]. }
  unfold isNumber. rewrite Ed at 1. cbn [append]. rewrite ParseFloat_digit_head by assumption.
  change (String c (r ++ "e")) with (String c r ++ "e"). rewrite <- Ed.
  unfold readDecimal.
  destruct (readDigits_app d "e" A eq_refl 0 0) as [m ->].
  cbn [Nat.add]. rewrite Ed. reflexivity.
Qed.

Lemma validExprChars_all (s : string) : allb validExprChar s = true -> validExprChars s = true.
Proof.
  induction s as [|c s IH]; intros A; [reflexivity|].
  simpl in A. apply andb_true_iff in A as [C A]. cbn [validExprChars]. rewrite C. now apply IH.
Qed.

Lemma findFuncNames_go_no_call (s : string) :
  CountChar s "(" = O -> forall cur, findFuncNames_go s cur = [].
Proof.
  induction s as [|c s IH]; intros H cur; [reflexivity|].
  cbn [CountChar] in H. cbn [findFuncNames_go].
  destruct (Ascii.eqb c "(") eqn:E; [simpl in H; lia|]. simpl in H.
  destruct (isLowerB c); cbn [andb]; now apply IH.
Qed.

Lemma findNumbers_go_skip (s : string) :
  forall k, (String.length s <= k)%nat -> findNumbers_go k s = [].
Proof.
  induction s as [|c s IH]; intros k H; [reflexivity|].
  destruct k as [|k]; simpl in H; [lia|]. cbn [findNumbers_go]. apply IH. lia.
Qed.

Lemma matchNumberAt_digit (c : ascii) (r : string) :
  isDigitB c = true ->
  matchNumberAt (String c r)
  = match matchMantissa (String c r) with
    | None => None
    | Some (m, r1) => let '(e, r2) := matchExponent r1 in Some (m ++ e, r2)
    end.
Proof. intros H. destruct c as [[] [] [] [] [] [] [] []]; try discriminate H; reflexivity. Qed.

Lemma matchExponent_signed (sg : bool) (d : string) :
  allb isDigitB d = true -> nonEmpty d = true ->
  matchExponent ("e" ++ signOf sg ++ d) = ("e" ++ signOf sg ++ d, "").
Proof.
  intros A N. unfold matchExponent. cbn [append Ascii.eqb Bool.eqb orb].
  destruct sg; cbn [signOf append]; rewrite spanDigits_span, span_all by assumption;
    rewrite N; reflexivity.
Qed.

Lemma matchNumberAt_scientific (sg : bool) (d1 d2 : string) :
  allb isDigitB d1 = true -> nonEmpty d1 = true ->
  allb isDigitB d2 = true -> nonEmpty d2 = true ->
  matchNumberAt (d1 ++ "e" ++ signOf sg ++ d2) = Some (d1 ++ "e" ++ signOf sg ++ d2, "").
Proof.
  intros A1 N1 A2 N2.
  destruct d1 as [|c r] eqn:Ed; [discriminate N1|].
  assert (C : isDigitB c = true) by (simpl in A1; now apply andb_true_iff in A1 as [C _]).
  cbn [append]. rewrite matchNumberAt_digit by assumption.
  change (String c (r ++ String "e" (signOf sg ++ d2)))
    with (String c r ++ "e" ++ signOf sg ++ d2).
  rewrite <- Ed in *. unfold matchMantissa.
  rewrite spanDigits_span, (span_app isDigitB d1 ("e" ++ signOf sg ++ d2)) by
      (assumption || reflexivity).
  rewrite N1. cbn [append]. change (String "e" (signOf sg ++ d2)) with ("e" ++ signOf sg ++ d2).
  rewrite matchExponent_signed by assumption. reflexivity.
Qed.

Lemma digits_facts (d : string) :
  allb isDigitB d = true ->
  allb isLitChar d = true /\ allb notParen d = true /\ allb validExprChar d = true
  /\ ToLower d = d /\ removeSpaces d = d
  /\ (forall c, isDigitB c = false -> CountChar d c = O /\ ContainsChar d c = false).
Proof.
  intros A.
  assert (L : allb isLitChar d = true).
  { eapply allb_impl; [|exact A]. intros c H. unfold isLitChar. now rewrite H. }
  assert (E : allb isExprChar d = true).
  { eapply allb_impl; [|exact L]. intros c H. unfold isExprChar. now rewrite H. }
  split; [exact L|]. split; [now apply isLitChar_notParen|]. split.
  { eapply allb_impl; [|exact A]. intros c H. unfold validExprChar. now rewrite H. }
  split; [now apply ToLower_expr|]. split; [now apply exprChars_removeSpaces|].
  intros c H. now apply digits_no_char.
Qed.

Lemma signOf_cases (sg : bool) : exists c, signOf sg = String c "" /\ (c = "-" \/ c = "+")%char.
Proof. destruct sg; eexists; split; try reflexivity; tauto. Qed.

Lemma SplitChar_go_no_sep (s : string) (sep : ascii) :
  ContainsChar s sep = false ->
  forall cur, SplitChar_go s sep cur = [rev (rev_acc s cur)].
Proof.
  induction s as [|c s IH]; intros H cur; [reflexivity|].
  simpl in H. apply orb_false_iff in H as [E H]. cbn [SplitChar_go rev_acc].
  rewrite E. now apply IH.
Qed.

Lemma SplitChar_scientific (sg : bool) (d1 d2 : string) :
  allb isDigitB d1 = true -> allb isDigitB d2 = true ->
  SplitChar (d1 ++ "e" ++ signOf sg ++ d2) "e" = [d1; signOf sg ++ d2].
Proof.
  intros A1 A2. unfold SplitChar.
  assert (G : forall cur, SplitChar_go (d1 ++ "e" ++ signOf sg ++ d2) "e" cur
                          = [rev (rev_acc d1 cur); signOf sg ++ d2]).
  { induction d1 as [|c d IH]; intros cur.
    - cbn [append SplitChar_go Ascii.eqb Bool.eqb rev_acc]. f_equal.
      rewrite SplitChar_go_no_sep; [now rewrite rev_rev_acc|].
      rewrite ContainsChar_app.
      destruct (digits_facts d2 ltac:(assumption)) as (_ & _ & _ & _ & _ & F).
      rewrite (proj2 (F "e"%char eq_refl)). now destruct sg.
    - simpl in A1. apply andb_true_iff in A1 as [C A1]. cbn [append SplitChar_go].
      replace (Ascii.eqb c "e") with false
        by (destruct c as [[] [] [] [] [] [] [] []]; try discriminate C; reflexivity).
      cbn [rev_acc]. now apply IH. }
  rewrite G. now rewrite rev_rev_acc.
Qed.

Lemma nonEmpty_eqb (s : string) : nonEmpty s = true -> String.eqb s "" = false.
Proof. destruct s; [discriminate | reflexivity]. Qed.

Lemma findNumbers_whole (s : string) :
  matchNumberAt s = Some (s, "") -> findNumbers s = [s].
Proof.
  intros M. unfold findNumbers. destruct s as [|c r]; [discriminate M|].
  cbn [findNumbers_go]. rewrite M. f_equal. apply findNumbers_go_skip. simpl. lia.
Qed.

(** Validation lets an exponent with a sign through. *)
Lemma ValidateExpression_scientific (sg : bool) (d1 d2 : string) :
  allb isDigitB d1 = true -> nonEmpty d1 = true ->
  allb isDigitB d2 = true -> nonEmpty d2 = true ->
  isNumber d1 = true -> isNumber d2 = true ->
  ValidateExpression rt (d1 ++ "e" ++ signOf sg ++ d2) = None.
Proof.
  intros A1 N1 A2 N2 P1 P2.
  destruct (digits_facts d1 A1) as (L1 & Q1 & V1 & T1 & R1 & F1).
  destruct (digits_facts d2 A2) as (L2 & Q2 & V2 & T2 & R2 & F2).
  assert (Hne : nonEmpty (d1 ++ "e" ++ signOf sg ++ d2) = true) by now apply nonEmpty_app.
  assert (Hp : allb notParen (d1 ++ "e" ++ signOf sg ++ d2) = true).
  { rewrite !allb_app, Q1, Q2. now destruct sg. }
  assert (Hv : allb validExprChar (d1 ++ "e" ++ signOf sg ++ d2) = true).
  { rewrite !allb_app, V1, V2. now destruct sg. }
  assert (Hl : ToLower (d1 ++ "e" ++ signOf sg ++ d2) = d1 ++ "e" ++ signOf sg ++ d2).
  { clear -T1 T2. induction d1 as [|c d IH].
    - cbn [append ToLower]. f_equal. destruct sg; cbn [signOf append ToLower]; now rewrite T2.
    - cbn [append ToLower] in *. injection T1 as Hc Hd. rewrite Hc. f_equal. now apply IH. }
  assert (Hcons : HasConsecutiveOperators (d1 ++ "e" ++ signOf sg ++ d2) = false).
  { unfold HasConsecutiveOperators.
    destruct (HasConsecutiveOperators_go_literal d1 L1 N1) as (c1 & _ & H1).
    destruct (HasConsecutiveOperators_go_literal d2 L2 N2) as (c2 & _ & H2).
    rewrite H1. cbn [append]. rewrite HasConsecutiveOperators_go_head by reflexivity.
    destruct sg; cbn [signOf append HasConsecutiveOperators_go];
      cbn -[HasConsecutiveOperators_go]; rewrite <- (append_nil_r d2), H2; reflexivity. }
  assert (Hz : Contains (d1 ++ "e" ++ signOf sg ++ d2) "/0" = false).
  { apply Contains_head. rewrite !ContainsChar_app.
    rewrite (proj2 (F1 "/"%char eq_refl)), (proj2 (F2 "/"%char eq_refl)).
    now destruct sg. }
  assert (Hc : forall c, isDigitB c = false -> c <> "e"%char -> c <> "-"%char ->
                         c <> "+"%char -> CountChar (d1 ++ "e" ++ signOf sg ++ d2) c = O).
  { intros c Hd He Hm Hpl. rewrite !CountChar_app.
    rewrite (proj1 (F1 c Hd)), (proj1 (F2 c Hd)).
    destruct sg; cbn [signOf CountChar];
      repeat match goal with
             | |- context [Ascii.eqb ?a c] =>
                 destruct (Ascii.eqb_spec a c); [congruence|]
             end; reflexivity. }
  assert (M : matchNumberAt (d1 ++ "e" ++ signOf sg ++ d2)
              = Some (d1 ++ "e" ++ signOf sg ++ d2, ""))
    by now apply matchNumberAt_scientific.
  assert (VM : ValidNumberRegex_Match (d1 ++ "e" ++ signOf sg ++ d2) = true).
  { rewrite ValidNumberRegex_Match_body.
    - rewrite spanDigits_span, (span_app isDigitB d1) by (assumption || reflexivity).
      cbn [append]. rewrite N1.
      change (String "e" (signOf sg ++ d2)) with ("e" ++ signOf sg ++ d2).
      rewrite matchExponent_signed by assumption. reflexivity.
    - intros r E. destruct d1 as [|c d]; [discriminate N1|].
      cbn [append] in E. simpl in A1. apply andb_true_iff in A1 as [C _].
      injection E as -> _. discriminate C. }
  assert (CE : containsE (d1 ++ "e" ++ signOf sg ++ d2) = true).
  { unfold containsE. rewrite !ContainsChar_app. cbn [ContainsChar].
    rewrite Ascii.eqb_refl. cbn. now rewrite orb_true_r. }
  assert (PS : exists v, ParseScientificNotation rt (d1 ++ "e" ++ signOf sg ++ d2) = Some v).
  { unfold ParseScientificNotation. rewrite Hl, SplitChar_scientific by assumption.
    unfold isNumber in P1. destruct (ParseFloat d1); [|discriminate P1].
    pose proof (isNumber_signed sg d2 A2 P2) as P3. fold (signOf sg) in P3.
    unfold isNumber in P3.
    destruct (ParseFloat (signOf sg ++ d2)); [eauto | discriminate P3]. }
  destruct PS as [v PS].
  unfold ValidateExpression.
  rewrite (nonEmpty_eqb _ Hne).
  unfold HasBalancedParentheses.
  rewrite <- (append_nil_r (d1 ++ "e" ++ signOf sg ++ d2)) at 1.
  rewrite HasBalancedParentheses_go_notParen by assumption.
  cbn [HasBalancedParentheses_go Z.eqb negb]. rewrite Hcons.
  unfold ValidExpressionRegex_Match. rewrite validExprChars_all by assumption.
  change (match d1 ++ "e" ++ signOf sg ++ d2 with "" => false | String _ _ => true end)
    with (nonEmpty (d1 ++ "e" ++ signOf sg ++ d2)). rewrite Hne.
  cbn [negb]. rewrite Hz. cbn [andb].
  unfold ValidateFunctionCalls, findFuncNames.
  rewrite findFuncNames_go_no_call by (apply Hc; (reflexivity || discriminate)).
  cbn [firstUnknown]. rewrite !Hc by (reflexivity || discriminate). cbn [Nat.eqb].
  unfold ValidateNumbers. rewrite findNumbers_whole by assumption.
  cbn [validateNumbers_loop]. unfold validateNumber.
  rewrite VM. cbn [negb]. rewrite Hc by (reflexivity || discriminate). cbn [Nat.ltb Nat.leb].
  rewrite CE, Hl, SplitChar_scientific by assumption. cbn [List.length Nat.eqb negb].
  now rewrite PS.
Qed.

Lemma wordMatchAt_head (name : string) (prev : option ascii) (c : ascii) (r : string) :
  nameOk name = true -> isExprChar c = true -> wordMatchAt name prev (String c r) = false.
Proof.
  intros N C. unfold wordMatchAt. destruct name as [|a name]; [discriminate N|].
  cbn [HasPrefix]. simpl in N. now rewrite (isExprChar_not_name_head a c N C).
Qed.

Lemma replaceWord_go_scientific (name repl : string) (d tail : string) :
  nameOk name = true ->
  allb isDigitB d = true -> nonEmpty d = true -> allb isExprChar tail = true ->
  forall prev, replaceWord_go name repl O prev (d ++ "e" ++ tail) = d ++ "e" ++ tail.
Proof.
  intros N A Ne T. induction d as [|c d IH]; intros prev; [discriminate Ne|].
  simpl in A. apply andb_true_iff in A as [C A].
  assert (Ce : isExprChar c = true) by (unfold isExprChar, isLitChar; now rewrite C).
  cbn [append replaceWord_go]. rewrite wordMatchAt_head by assumption. f_equal.
  destruct d as [|c' d'].
  - cbn [append replaceWord_go].
    rewrite wordMatchAt_inside;
      [|cbn [isWordOpt]; unfold isWordB; now rewrite C, orb_true_r | reflexivity].
    f_equal. now apply replaceWord_go_expr.
  - now apply IH.
Qed.

Lemma substitute_scientific (m : fmap) (d tail : string) :
  namesOk m = true ->
  allb isDigitB d = true -> nonEmpty d = true -> allb isExprChar tail = true ->
  substitute m (d ++ "e" ++ tail) = d ++ "e" ++ tail.
Proof.
  intros N A Ne T. induction m as [|[k v] m IH]; [reflexivity|].
  simpl in N. apply andb_true_iff in N as [Nk N]. cbn [substitute]. unfold replaceWord.
  rewrite replaceWord_go_scientific by assumption. now apply IH.
Qed.

Lemma tokenize_go_digits_e (d : string) (r : string) :
  allb isDigitB d = true -> nonEmpty d = true ->
  forall prev cur,
    tokenize_go (d ++ String "e" r) prev cur
    = tokenize_go r (Some "e"%char) (String "e" (rev_acc d cur)).
Proof.
  intros A Ne. induction d as [|c d IH]; intros prev cur; [discriminate Ne|].
  simpl in A. apply andb_true_iff in A as [C A]. cbn [append tokenize_go rev_acc].
  unfold isDigit at 1. rewrite C. cbn [orb].
  destruct d as [|c' d'].
  - cbn [append tokenize_go rev_acc]. unfold isDigit. rewrite C. reflexivity.
  - now apply IH.
Qed.

Lemma shuntingYard_go_bad_head (c : ascii) (r : string) (rest out st : list string) :
  isDigitB c = true -> isNumber (String c r) = false ->
  shuntingYard_go (String c r :: rest) out st = Err ("invalid token: " ++ String c r).
Proof.
  intros C N. cbn [shuntingYard_go]. rewrite N.
  destruct c as [[] [] [] [] [] [] [] []]; try discriminate C; reflexivity.
Qed.

Lemma digit_head_not_sign (c : ascii) (r : string) :
  isDigitB c = true ->
  String.eqb (String c r) "-" = false /\ String.eqb (String c r) "+" = false
  /\ String.eqb (String c r) ")" = false /\ String.eqb (String c r) unaryMinus = false.
Proof.
  intros C. destruct c as [[] [] [] [] [] [] [] []]; try discriminate C; repeat split.
Qed.

Lemma evaluate_scientific (sg : bool) (d1 d2 : string) :
  allb isDigitB d1 = true -> nonEmpty d1 = true ->
  allb isDigitB d2 = true -> nonEmpty d2 = true ->
  evaluate rt (d1 ++ "e" ++ signOf sg ++ d2) = Err ("invalid token: " ++ d1 ++ "e").
Proof.
  intros A1 N1 A2 N2.
  destruct (digits_facts d1 A1) as (L1 & Q1 & V1 & T1 & R1 & F1).
  destruct (digits_facts d2 A2) as (L2 & Q2 & V2 & T2 & R2 & F2).
  rewrite evaluate_unfold.
  replace (Contains (d1 ++ "e" ++ signOf sg ++ d2) "!") with false.
  2:{ symmetry. rewrite Contains_char, !ContainsChar_app.
      rewrite (proj2 (F1 "!"%char eq_refl)), (proj2 (F2 "!"%char eq_refl)).
      now destruct sg. }
  unfold evaluatePlain, tokenize. cbn [append].
  rewrite tokenize_go_digits_e by assumption.
  destruct (signOf_cases sg) as (c & -> & Hc). cbn [append].
  rewrite tokenize_go_op by (destruct Hc; subst c; reflexivity).
  rewrite tokenize_go_lit_end by assumption.
  unfold flush. cbn [nonEmpty]. rewrite rev_String, rev_rev_acc.
  pose proof (isNumber_digits_e d1 A1 N1) as Nn.
  destruct d1 as [|c1 r1]; [discriminate N1|].
  simpl in A1. apply andb_true_iff in A1 as [C1 _].
  cbn [append] in *.
  destruct (digit_head_not_sign c1 (r1 ++ "e") C1) as (E1 & E2 & E3 & E4).
  unfold processUnaryOperators. cbn [processUnaryOperators_go]. rewrite E1, E2. cbn [andb].
  unfold shuntingYard. rewrite shuntingYard_go_bad_head by assumption. reflexivity.
Qed.

End SignedExponent.

(** X15: a number written with a signed exponent, as ["1e-5"], passes
    validation, which even parses it, and then fails in evaluation: the
    tokens are the digits with the bare [e], the sign and the digits of
    the exponent, and shunting-yard rejects the first as an invalid token. *)
Theorem signed_exponent_fails_after_validation :
  forall (rt : GoMath) (p : Parser) (sg : bool) (d1 d2 : string),
    allb isDigitB d1 = true -> nonEmpty d1 = true ->
    allb isDigitB d2 = true -> nonEmpty d2 = true ->
    isNumber d1 = true -> isNumber d2 = true -> parserOk p = true ->
    ValidateExpression rt (d1 ++ "e" ++ signOf sg ++ d2) = None
    /\ fst (EvaluateExpression rt p (d1 ++ "e" ++ signOf sg ++ d2))
       = Err ("invalid token: " ++ d1 ++ "e").
Proof.
  intros rt p sg d1 d2 A1 N1 A2 N2 P1 P2 Hp.
  pose proof (ValidateExpression_scientific rt sg d1 d2 A1 N1 A2 N2 P1 P2) as V.
  split; [exact V|].
  destruct (digits_facts d1 A1) as (L1 & Q1 & V1 & T1 & R1 & F1).
  destruct (digits_facts d2 A2) as (L2 & Q2 & V2 & T2 & R2 & F2).
  assert (Ht : allb isExprChar (signOf sg ++ d2) = true).
  { rewrite allb_app. replace (allb isExprChar d2) with true.
    - now destruct sg.
    - symmetry. eapply allb_impl; [|exact L2]. intros c H. unfold isExprChar. now rewrite H. }
  unfold EvaluateExpression. cbn [EvaluateExpression_at]. unfold EvaluateExpression_body.
  rewrite V, nonEmpty_eqb by now apply nonEmpty_app.
  unfold preprocess.
  assert (Hs : removeSpaces (d1 ++ "e" ++ signOf sg ++ d2) = d1 ++ "e" ++ signOf sg ++ d2).
  { clear -R1 R2. induction d1 as [|c d IH].
    - cbn [append removeSpaces Ascii.eqb Bool.eqb]. f_equal.
      destruct sg; cbn [signOf append removeSpaces Ascii.eqb Bool.eqb]; now rewrite R2.
    - cbn [append removeSpaces] in *. destruct (Ascii.eqb c " ").
      + exfalso. assert (L : String.length (removeSpaces d) = S (String.length d))
          by now rewrite R1.
        clear -L. assert (G : forall s, (String.length (removeSpaces s) <= String.length s)%nat).
        { induction s as [|a s IHs]; simpl; [lia|]. destruct (Ascii.eqb a " "); simpl; lia. }
        specialize (G d). lia.
      + injection R1 as R1. f_equal. now apply IH. }
  assert (Hl : ToLower (d1 ++ "e" ++ signOf sg ++ d2) = d1 ++ "e" ++ signOf sg ++ d2).
  { clear -T1 T2. induction d1 as [|c d IH].
    - cbn [append ToLower]. f_equal. destruct sg; cbn [signOf append ToLower]; now rewrite T2.
    - cbn [append ToLower] in *. injection T1 as Hc Hd. rewrite Hc. f_equal. now apply IH. }
  rewrite Hs, Hl.
  unfold parserOk in Hp. apply andb_true_iff in Hp as [Hc Hv].
  rewrite (substitute_scientific (constants _))
    by (assumption || (cbn [set_constant constants]; now apply namesOk_map_set)).
  rewrite substitute_scientific by assumption.
  unfold processFunctions. cbn [processFunctions_loop].
  rewrite findFuncCall_count.
  - now rewrite evaluate_scientific.
  - rewrite !CountChar_app, (proj1 (F1 "("%char eq_refl)), (proj1 (F2 "("%char eq_refl)).
    now destruct sg.
Qed.

(** The theorem at ["1e-5"]; without the sign, ["1e5"] is 100000. *)
Lemma signed_exponent_witness :
  ValidateExpression anyMath "1e-5" = None
  /\ fst (EvaluateExpression anyMath fresh "1e-5") = Err "invalid token: 1e"
  /\ fst (EvaluateExpression anyMath fresh "1e5") = Ok (of_Z 100000).
Proof.
  pose proof (signed_exponent_fails_after_validation anyMath fresh true "1" "5"
                eq_refl eq_refl eq_refl eq_refl eq_refl eq_refl eq_refl) as (H1 & H2).
  split; [exact H1|]. split; [exact H2|]. vm_compute. reflexivity.
Defined.

(** ** The errors of validation *)

Section ValidationErrors.

Variable rt : GoMath.

(** What the exponent group matches: nothing, or [e] or [E], an optional
    sign and digits. *)
Lemma matchExponent_spec (s e r : string) :
  matchExponent s = (e, r) ->
  s = e ++ r
  /\ (e = ""
      \/ exists c sg d,
           e = String c (sg ++ d) /\ (c = "e" \/ c = "E")%char
           /\ (sg = "" \/ sg = "+" \/ sg = "-")
           /\ allb isDigitB d = true /\ nonEmpty d = true).
Proof.
  unfold matchExponent. destruct s as [|c s'].
  { intros H; inversion H; subst. split; [reflexivity | now left]. }
  destruct (Ascii.eqb c "e" || Ascii.eqb c "E")%bool eqn:Ec.
  2:{ intros H; inversion H; subst. split; [reflexivity | now left]. }
  assert (Hc : (c = "e" \/ c = "E")%char).
  { apply orb_true_iff in Ec as [Ec|Ec]; apply Ascii.eqb_eq in Ec; tauto. }
  set (sr := match s' with
             | String "+" r' => ("+", r')
             | String "-" r' => ("-", r')
             | _ => ("", s')
             end).
  assert (Hsr : s' = fst sr ++ snd sr /\ (fst sr = "" \/ fst sr = "+" \/ fst sr = "-")).
  { subst sr. destruct s' as [|a t]; [simpl; tauto|].
    destruct a as [[] [] [] [] [] [] [] []]; simpl; tauto. }
  destruct sr as [sg r1]. cbn [fst snd] in Hsr. destruct Hsr as [Hs Hsg].
  rewrite spanDigits_span. destruct (span isDigitB r1) as [d r2] eqn:Sp.
  destruct (span_spec _ _ _ _ Sp) as (Hr & Hd & _).
  destruct (nonEmpty d) eqn:Nd.
  - intros H; inversion H; subst e r. split.
    + cbn [append]. f_equal. rewrite Hs, Hr. now rewrite append_assoc.
    + right. exists c, sg, d. tauto.
  - intros H; inversion H; subst. split; [reflexivity | now left].
Qed.

Lemma matchExponent_self (c : ascii) (sg d : string) :
  (c = "e" \/ c = "E")%char -> (sg = "" \/ sg = "+" \/ sg = "-") ->
  allb isDigitB d = true -> nonEmpty d = true ->
  matchExponent (String c (sg ++ d)) = (String c (sg ++ d), "").
Proof.
  intros Hc Hsg A N. unfold matchExponent.
  replace (Ascii.eqb c "e" || Ascii.eqb c "E")%bool with true
    by (destruct Hc; subst c; reflexivity).
  destruct d as [|a d'] eqn:Ed; [discriminate N|].
  assert (Ha : isDigitB a = true) by (simpl in A; now apply andb_true_iff in A as [Ha _]).
  rewrite <- Ed in *.
  destruct Hsg as [-> | [-> | ->]]; cbn [append].
  - replace (match d with String "+" r' => ("+", r') | String "-" r' => ("-", r')
                     | _ => ("", d) end) with ("", d).
    + rewrite spanDigits_span, span_all by assumption. now rewrite N.
    + rewrite Ed. destruct a as [[] [] [] [] [] [] [] []]; try discriminate Ha; reflexivity.
  - rewrite spanDigits_span, span_all by assumption. now rewrite N.
  - rewrite spanDigits_span, span_all by assumption. now rewrite N.
Qed.

Lemma exponent_head (c : ascii) (t : string) :
  (c = "e" \/ c = "E")%char -> headNot isDigitB (String c t) /\ (forall r, String c t <> String "." r).
Proof. intros [-> | ->]; split; try reflexivity; discriminate. Qed.

Lemma exponent_no_point (c : ascii) (sg d : string) :
  (c = "e" \/ c = "E")%char -> (sg = "" \/ sg = "+" \/ sg = "-") ->
  allb isDigitB d = true -> CountChar (String c (sg ++ d)) "." = O.
Proof.
  intros Hc Hsg A. cbn [CountChar]. rewrite CountChar_app.
  rewrite (proj1 (digits_no_char d "." A eq_refl)).
  destruct Hc; subst c; destruct Hsg as [-> | [-> | ->]]; reflexivity.
Qed.

(** Whatever the number pattern matches is a number for the anchored
    pattern, with one decimal point at most. *)
Lemma matchNumberAt_valid (s m r : string) :
  matchNumberAt s = Some (m, r) ->
  ValidNumberRegex_Match m = true /\ (CountChar m "." <= 1)%nat.
Proof.
  unfold matchNumberAt.
  set (sr := match s with String "-" r' => ("-", r') | _ => ("", s) end).
  assert (Hsg : fst sr = "" \/ fst sr = "-").
  { subst sr. destruct s as [|a t]; [simpl; tauto|].
    destruct a as [[] [] [] [] [] [] [] []]; simpl; tauto. }
  destruct sr as [sg r0]. cbn [fst] in Hsg.
  destruct (matchMantissa r0) as [[mant r1]|] eqn:Mm; [|discriminate].
  destruct (matchExponent r1) as [e r2] eqn:Me.
  intros H; inversion H; subst m r. clear H.
  destruct (matchMantissa_plain _ _ _ Mm) as (_ & Hm).
  destruct (matchExponent_spec _ _ _ Me) as (_ & He).
  assert (Body : ValidNumberRegex_Match (mant ++ e) = true /\ (CountChar (mant ++ e) "." <= 1)%nat
                 /\ forall r', mant ++ e <> String "-" r').
  { assert (Hneg : forall r', mant ++ e <> String "-" r').
    { intros r' E.
      destruct Hm as [[A N]|(d1 & d2 & -> & A1 & A2 & N2)].
      - destruct mant as [|a mt]; [discriminate N|]. simpl in A.
        apply andb_true_iff in A as [Ha _]. cbn [append] in E. injection E as -> _.
        discriminate Ha.
      - destruct d1 as [|a dt]; cbn [append] in E; [discriminate E|].
        simpl in A1. apply andb_true_iff in A1 as [Ha _]. injection E as -> _.
        discriminate Ha. }
    split; [|split; [|exact Hneg]].
    - rewrite ValidNumberRegex_Match_body by exact Hneg.
      destruct Hm as [[A N]|(d1 & d2 & -> & A1 & A2 & N2)].
      + destruct He as [->|(c & sg' & d & -> & Hc & Hs & Ad & Nd)].
        * rewrite append_nil_r, spanDigits_span, span_all by assumption. now rewrite N.
        * destruct (exponent_head c (sg' ++ d) Hc) as [Hh Hp].
          rewrite spanDigits_span, span_app by assumption.
          rewrite N. pose proof (matchExponent_self c sg' d Hc Hs Ad Nd) as ME.
          destruct Hc; subst c; cbv iota beta zeta; rewrite ME; reflexivity.
      + rewrite !append_assoc. rewrite spanDigits_span.
        rewrite (span_app isDigitB d1 ("." ++ d2 ++ e)) by (assumption || reflexivity).
        cbn [append].
        destruct He as [->|(c & sg' & d & -> & Hc & Hs & Ad & Nd)].
        * rewrite append_nil_r, spanDigits_span, span_all by assumption. now rewrite N2.
        * destruct (exponent_head c (sg' ++ d) Hc) as [Hh Hp].
          rewrite spanDigits_span, span_app by assumption.
          rewrite N2. pose proof (matchExponent_self c sg' d Hc Hs Ad Nd) as ME.
          destruct Hc; subst c; cbv iota beta zeta; rewrite ME; reflexivity.
    - rewrite CountChar_app.
      assert (Ce : CountChar e "." = O).
      { destruct He as [->|(c & sg' & d & -> & Hc & Hs & Ad & Nd)]; [reflexivity|].
        now apply exponent_no_point. }
      rewrite Ce.
      destruct Hm as [[A N]|(d1 & d2 & -> & A1 & A2 & N2)].
      + rewrite (proj1 (digits_no_char mant "." A eq_refl)). lia.
      + rewrite !CountChar_app.
        rewrite (proj1 (digits_no_char d1 "." A1 eq_refl)),
                (proj1 (digits_no_char d2 "." A2 eq_refl)). simpl. lia. }
  destruct Body as (B1 & B2 & B3).
  destruct Hsg as [-> | ->]; cbn [append]; [tauto|].
  split; [|cbn [CountChar Ascii.eqb Bool.eqb]; lia].
  unfold ValidNumberRegex_Match in *.
  destruct (mant ++ e) as [|a t] eqn:E; [exact B1|].
  destruct a as [[] [] [] [] [] [] [] []]; try exact B1.
  exfalso. exact (B3 t eq_refl).
Qed.

Lemma findNumbers_go_In (s : string) :
  forall skip n, In n (findNumbers_go skip s) ->
    ValidNumberRegex_Match n = true /\ (CountChar n "." <= 1)%nat.
Proof.
  induction s as [|c s IH]; intros skip n H; [destruct H|].
  cbn [findNumbers_go] in H. destruct skip as [|k]; [|now apply IH in H].
  destruct (matchNumberAt (String c s)) as [[m r]|] eqn:M; [|now apply IH in H].
  destruct H as [<-|H]; [now apply matchNumberAt_valid in M | now apply IH in H].
Qed.

Lemma validateNumbers_loop_message (numbers : list string) (msg : string) :
  (forall n, In n numbers -> ValidNumberRegex_Match n = true /\ (CountChar n "." <= 1)%nat) ->
  validateNumbers_loop rt numbers = Some msg ->
  exists n, In n numbers /\ containsE n = true
            /\ msg = "invalid scientific notation: " ++ n.
Proof.
  induction numbers as [|n l IH]; intros H E; [discriminate E|].
  cbn [validateNumbers_loop] in E.
  destruct (validateNumber rt n) as [m|] eqn:V.
  - injection E as <-. exists n. split; [now left|].
    destruct (H n (or_introl eq_refl)) as [Hv Hc].
    unfold validateNumber in V. rewrite Hv in V. cbn [negb] in V.
    replace (Nat.ltb 1 (CountChar n ".")) with false in V
      by (symmetry; apply Nat.ltb_ge; exact Hc).
    destruct (containsE n); [|discriminate V]. split; [reflexivity|].
    destruct (negb _); [now injection V as <-|].
    destruct (ParseScientificNotation rt n); [discriminate V | now injection V as <-].
  - destruct (IH (fun k Hk => H k (or_intror Hk)) E) as (k & Hk & Hr).
    exists k. split; [now right | exact Hr].
Qed.

Lemma firstUnknown_In (l : list string) (f : string) : firstUnknown l = Some f -> In f l.
Proof.
  induction l as [|n l IH]; intros U; [discriminate U|].
  cbn [firstUnknown] in U. destruct (inList n validFunctions).
  - right. now apply IH.
  - injection U as ->. now left.
Qed.

End ValidationErrors.

(** X16: the errors of [ValidateExpression] are the five fixed messages,
    'unknown function' for a name followed by an opening parenthesis, and
    'invalid scientific notation' for a number with an exponent.  Its
    other three messages are never returned: 'mismatched parentheses'
    (the parentheses are balanced by then), 'invalid number format' and
    'invalid number with multiple decimal points' (a number found by the
    pattern matches the pattern, with one point at most). *)
Theorem ValidateExpression_errors :
  forall (rt : GoMath) (expr msg : string),
    ValidateExpression rt expr = Some msg ->
    In msg fixedMessages
    \/ (exists f, In f (findFuncNames expr) /\ msg = "unknown function: " ++ f)
    \/ (exists n, In n (findNumbers expr) /\ containsE n = true
                  /\ msg = "invalid scientific notation: " ++ n).
Proof.
  intros rt expr msg. unfold ValidateExpression, fixedMessages.
  destruct (String.eqb expr ""); [intros H; injection H as <-; simpl; tauto|].
  destruct (HasBalancedParentheses expr) eqn:B; cbn [negb];
    [|intros H; injection H as <-; simpl; tauto].
  destruct (HasConsecutiveOperators expr); [intros H; injection H as <-; simpl; tauto|].
  destruct (ValidExpressionRegex_Match expr); cbn [negb];
    [|intros H; injection H as <-; simpl; tauto].
  destruct (Contains expr "/0" && _ && _)%bool; [intros H; injection H as <-; simpl; tauto|].
  unfold ValidateFunctionCalls.
  destruct (firstUnknown (findFuncNames expr)) as [f|] eqn:U.
  - intros H; injection H as <-. right. left. exists f. split; [|reflexivity].
    now apply firstUnknown_In.
  - unfold HasBalancedParentheses in B. apply balanced_counts in B.
    replace (Nat.eqb (CountChar expr "(") (CountChar expr ")")) with true
      by (symmetry; apply Nat.eqb_eq; lia).
    intros H. right. right. unfold ValidateNumbers in H.
    apply (validateNumbers_loop_message rt (findNumbers expr) msg); [|exact H].
    intros n Hn. now apply (findNumbers_go_In expr O).
Qed.

(** The theorem at ["2 +* 3"] and at ["max(1)"]. *)
Lemma ValidateExpression_errors_witness :
  ValidateExpression anyMath "2 +* 3" = Some "consecutive operators"
  /\ ValidateExpression anyMath "max(1)" = Some "unknown function: max"
  /\ (In "unknown function: max" fixedMessages
      \/ (exists f, In f (findFuncNames "max(1)") /\ "unknown function: max" = "unknown function: " ++ f)
      \/ (exists n, In n (findNumbers "max(1)") /\ containsE n = true
                    /\ "unknown function: max" = "invalid scientific notation: " ++ n)).
Proof.
  split; [reflexivity|]. split; [reflexivity|].
  exact (ValidateExpression_errors anyMath "max(1)" "unknown function: max" eq_refl).
Defined.

(** ** The validators and the functions they are written for *)

Section Validators.

Variable rt : GoMath.

Lemma compare_cont_antisym (m1 m2 : positive) :
  Pos.compare_cont Eq m2 m1 = CompOpp (Pos.compare_cont Eq m1 m2).
Proof. apply Pos.compare_antisym. Qed.

(** Comparing the other way round gives the opposite answer. *)
Lemma SFcompare_antisym (x y : float64) :
  SFcompare y x = option_map CompOpp (SFcompare x y).
Proof.
  destruct x as [s1|s1| |s1 m1 e1], y as [s2|s2| |s2 m2 e2]; try reflexivity;
    try (destruct s1; reflexivity); try (destruct s2; reflexivity);
    try (destruct s1, s2; reflexivity).
  destruct s1, s2; try reflexivity; cbn [SFcompare option_map];
    rewrite (Z.compare_antisym e1 e2), compare_cont_antisym;
    destruct (e1 ?= e2); cbn [CompOpp]; try reflexivity;
    now rewrite CompOpp_involutive.
Qed.

Lemma ltb_false_leb (x y : float64) :
  IsNaN x = false -> IsNaN y = false -> F64.ltb x y = false -> F64.leb y x = true.
Proof.
  unfold F64.ltb, F64.leb, SFltb, SFleb. rewrite (SFcompare_antisym x y).
  intros Nx Ny. destruct (SFcompare x y) as [[]|] eqn:E; try reflexivity; try discriminate.
  destruct x, y; try discriminate; simpl in E; try discriminate.
  all: repeat match goal with s : bool |- _ => destruct s end; discriminate.
Qed.

Lemma leb_true_ltb (x y : float64) : F64.leb y x = true -> F64.ltb x y = false.
Proof.
  unfold F64.ltb, F64.leb, SFltb, SFleb. rewrite (SFcompare_antisym x y).
  destruct (SFcompare x y) as [[]|]; simpl; congruence.
Qed.

Lemma leb_not_NaN (x y : float64) : F64.leb x y = true -> IsNaN x = false /\ IsNaN y = false.
Proof.
  unfold F64.leb, SFleb. destruct x, y; try discriminate; split; reflexivity.
Qed.

End Validators.

(** X17: where a validator of [utils] accepts, the function of
    [calculator] it is written for succeeds, with a value that is not NaN
    for the square root and the quotient.  The functions do not call the
    validators and accept more: infinite and NaN operands.  A probability
    is accepted exactly when it lies between 0 and 1, and an angle in any
    mode other than [deg] and [rad] is accepted whatever it is. *)
Theorem validators_imply_success :
  forall rt : GoMath,
    (forall x, ValidateSqrtArgument x = None ->
               exists v, calculator.Sqrt x = Ok v /\ IsNaN v = false)
    /\ (forall x, ValidateLogArgument x = None ->
                  Log rt x = Ok (math_Log rt x) /\ Log10 rt x = Ok (math_Log10 rt x))
    /\ (forall a b, ValidateDivision a b = None ->
                    exists v, Divide a b = Ok v /\ IsNaN v = false)
    /\ (calculator.Sqrt pInf = Ok pInf /\ ValidateSqrtArgument pInf <> None)
    /\ (calculator.Sqrt NaN = Ok NaN /\ ValidateSqrtArgument NaN <> None)
    /\ (Divide pInf one = Ok pInf /\ ValidateDivision pInf one <> None)
    /\ (forall p, ValidateProbability p = None
                  <-> (F64.leb zero p && F64.leb p one)%bool = true)
    /\ (forall x mode, String.eqb mode "deg" = false -> String.eqb mode "rad" = false ->
                       ValidateAngle x mode = None).
Proof.
  intros rt.
  split.
  { intros x. unfold ValidateSqrtArgument.
    destruct (F64.ltb x zero) eqn:L; [discriminate|].
    destruct (IsInf x || IsNaN x)%bool eqn:I; [discriminate|]. intros _.
    apply orb_false_iff in I as [_ I].
    exists (F64.Sqrt x). assert (E : calculator.Sqrt x = Ok (F64.Sqrt x)).
    { unfold calculator.Sqrt. now rewrite L. }
    split; [exact E|]. exact (Sqrt_not_NaN x _ E I). }
  split.
  { intros x. unfold ValidateLogArgument, Log, Log10.
    destruct (F64.leb x zero); [discriminate | split; reflexivity]. }
  split.
  { intros a b. unfold ValidateDivision.
    destruct (F64.eqb b zero) eqn:Z; [discriminate|].
    destruct (IsInf a || IsInf b)%bool eqn:I; [discriminate|].
    destruct (IsNaN a || IsNaN b)%bool eqn:N; [discriminate|]. intros _.
    apply orb_false_iff in I as [Ia Ib]. apply orb_false_iff in N as [Na Nb].
    exists (F64.div a b). assert (E : Divide a b = Ok (F64.div a b)).
    { unfold Divide. now rewrite Z. }
    split; [exact E|]. apply (Divide_not_NaN a b _ E).
    - destruct a; try discriminate; reflexivity.
    - destruct b; try discriminate; reflexivity. }
  split; [split; [reflexivity | discriminate]|].
  split; [split; [reflexivity | discriminate]|].
  split; [split; [reflexivity | discriminate]|].
  split.
  { intros p. unfold ValidateProbability, F64.gtb. fold (F64.ltb one p). split.
    - destruct (F64.ltb p zero) eqn:L0; [discriminate|].
      destruct (F64.ltb one p) eqn:L1; [discriminate|]. cbn [orb].
      destruct (IsInf p || IsNaN p)%bool eqn:I; [discriminate|]. intros _.
      apply orb_false_iff in I as [_ N].
      rewrite (ltb_false_leb p zero N eq_refl L0), (ltb_false_leb one p eq_refl N L1).
      reflexivity.
    - intros H. apply andb_true_iff in H as [H0 H1].
      rewrite (leb_true_ltb p zero H0), (leb_true_ltb one p H1). cbn [orb].
      destruct (leb_not_NaN _ _ H1) as [N _]. rewrite N, orb_false_r.
      destruct p as [|[]| |]; try reflexivity; discriminate. }
  intros x mode D R. unfold ValidateAngle. now rewrite D, R.
Qed.

(** The theorem at the square root of 16 and at the probability 1/2. *)
Lemma validators_imply_success_witness :
  (exists v, calculator.Sqrt (of_Z 16) = Ok v /\ IsNaN v = false)
  /\ ValidateProbability (F64.div (of_Z 1) (of_Z 2)) = None.
Proof.
  pose proof (validators_imply_success anyMath) as (H1 & _ & _ & _ & _ & _ & H2 & _).
  split; [exact (H1 (of_Z 16) eq_refl) | exact (proj2 (H2 (F64.div (of_Z 1) (of_Z 2))) eq_refl)].
Defined.

(** ** The bound of the factorial validator *)

Section FactorialBound.

Lemma digits2_pos_bound (m : positive) : Zpos m < 2 ^ Zpos (digits2_pos m).
Proof.
  induction m as [m IH|m IH|]; cbn [digits2_pos];
    rewrite ?Pos2Z.inj_succ, ?Z.pow_succ_r by lia; lia.
Qed.

(** Equal finite numbers are the same number. *)
Lemma SFeqb_finite (s : bool) (m : positive) (e : Z) (y : float64) :
  SFeqb (S754_finite s m e) y = true -> y = S754_finite s m e.
Proof.
  unfold SFeqb. destruct y as [s2|s2| |s2 m2 e2]; cbn [SFcompare];
    try discriminate; try (destruct s; discriminate); try (destruct s2; discriminate).
  destruct s, s2; try discriminate; destruct (Z.compare_spec e e2) as [->| |];
    try discriminate; destruct (Pos.compare_cont Eq m m2) eqn:E; try discriminate;
    apply Pos.compare_eq in E; now subst.
Qed.

Lemma rangeZ_forallb (P : Z -> bool) (lo : Z) (n : nat) :
  forallb P (rangeZ lo n) = true ->
  forall q, lo <= q < lo + Z.of_nat n -> P q = true.
Proof.
  intros H q Hq. rewrite forallb_forall in H. apply H. unfold rangeZ.
  apply in_map_iff. exists (Z.to_nat (q - lo)). split; [lia|].
  apply in_seq. lia.
Qed.

Lemma small_factorials :
  forallb (fun q => (F64.gtb (of_Z q) (of_Z 170) || finiteFactorial (of_Z q))%bool)
          (rangeZ 1 255) = true.
Proof. vm_compute. reflexivity. Qed.

End FactorialBound.

(** X18: the bound of [ValidateFactorialArgument] is safe: for every
    float64 it accepts, [Factorial] returns, and returns a finite value.
    (The validator is not called by [Factorial]; at 171, which it rejects,
    the factorial is +Inf.) *)
Theorem ValidateFactorialArgument_bound_is_safe :
  forall x : float64,
    valid_binary prec emax x = true ->
    ValidateFactorialArgument x = None ->
    exists v, Factorial x = Ok v /\ is_finite v = true.
Proof.
  intros x Hv. unfold ValidateFactorialArgument.
  destruct (F64.ltb x zero || F64.neqb x (Trunc x))%bool eqn:C1; [discriminate|].
  destruct (F64.gtb x (of_Z 170)) eqn:C2; [discriminate|]. intros _.
  apply orb_false_iff in C1 as [L Nq]. unfold F64.neqb in Nq. apply negb_false_iff in Nq.
  assert (G : finiteFactorial x = true).
  2:{ unfold finiteFactorial in G. destruct (Factorial x) as [v| |]; try discriminate.
      now exists v. }
  destruct x as [s|s| |s m e].
  - destruct s; vm_compute; reflexivity.
  - destruct s; [discriminate L | vm_compute in C2; discriminate C2].
  - discriminate Nq.
  - destruct s; [discriminate L|].
    assert (E170 : of_Z 170 = S754_finite false 5981343255101440 (-45))
      by (vm_compute; reflexivity).
    assert (He : e <= -45).
    { rewrite E170 in C2. unfold F64.gtb, SFltb in C2. cbn [SFcompare] in C2.
      destruct (Z.compare_spec (-45) e); try lia; discriminate C2. }
    assert (Hm : Zpos m < 2 ^ 53).
    { cbn [valid_binary] in Hv. unfold bounded, canonical_mantissa, fexp, emin in Hv.
      apply andb_true_iff in Hv as [Hc _]. apply Z.eqb_eq in Hc.
      unfold prec, emax in Hc.
      pose proof (digits2_pos_bound m) as B.
      assert (D : Zpos (digits2_pos m) <= 53) by lia.
      eapply Z.lt_le_trans; [exact B|]. apply Z.pow_le_mono_r; lia. }
    unfold F64.eqb, Trunc in Nq.
    replace (0 <=? e) with false in Nq by (symmetry; apply Z.leb_gt; lia).
    cbv zeta in Nq.
    assert (Hq : 0 <= Z.shiftr (Zpos m) (- e) < 256).
    { rewrite Z.shiftr_div_pow2 by lia. split; [apply Z.div_pos; lia|].
      apply Z.div_lt_upper_bound; [lia|].
      assert (2 ^ 45 <= 2 ^ (- e)) by (apply Z.pow_le_mono_r; lia).
      change (2 ^ 53) with (2 ^ 45 * 256) in Hm. nia. }
    destruct (Z.shiftr (Zpos m) (- e) =? 0) eqn:Q0; [discriminate Nq|].
    apply Z.eqb_neq in Q0. apply SFeqb_finite in Nq.
    fold (of_Z (Z.shiftr (Zpos m) (- e))) in Nq. rewrite <- Nq in C2 |- *.
    pose proof (rangeZ_forallb _ 1 255 small_factorials (Z.shiftr (Zpos m) (- e))
                  ltac:(lia)) as P.
    cbv beta in P. rewrite C2 in P. exact P.
Qed.

(** The theorem at 170. *)
Lemma ValidateFactorialArgument_witness :
  exists v, Factorial (of_Z 170) = Ok v /\ is_finite v = true.
Proof.
  apply ValidateFactorialArgument_bound_is_safe; vm_compute; reflexivity.
Defined.

(** ** Integers: [GCD] and [LCM] *)

Section Integers.

Lemma wrap64_small (n : Z) : - 2 ^ 63 <= n < 2 ^ 63 -> wrap64 n = n.
Proof. intros H. unfold wrap64. rewrite Z.mod_small; lia. Qed.

Lemma GCD_loop_spec (fuel : nat) :
  forall a b, (Z.abs_nat b <= fuel)%nat ->
    exists g, GCD_loop fuel a b = Some g
              /\ Z.abs g = Z.gcd a b
              /\ (0 <= a -> 0 <= b -> 0 <= g).
Proof.
  induction fuel as [|fuel IH]; intros a b H.
  - assert (b = 0) by lia. subst b. exists a. cbn. rewrite Z.gcd_0_r. repeat split; lia.
  - cbn [GCD_loop]. destruct (Z.eqb_spec b 0) as [->|N].
    + exists a. rewrite Z.gcd_0_r. repeat split; lia.
    + pose proof (Z.rem_bound_abs a b N) as B.
      destruct (IH b (Z.rem a b) ltac:(lia)) as (g & E & G & P).
      exists g. split; [exact E|]. split.
      * rewrite G, Z.gcd_comm, Z.gcd_rem by assumption. apply Z.gcd_comm.
      * intros Ha Hb. apply P; [exact Hb|]. apply Z.rem_nonneg; lia.
Qed.

End Integers.

(** X19: [GCD] returns for all integers, and what it returns is the
    greatest common divisor up to its sign: the result is negative for
    some operands of opposite signs, never for operands that are not
    negative. *)
Theorem GCD_is_gcd_up_to_sign :
  forall a b : Z,
    exists g, GCD a b = Some g
              /\ Z.abs g = Z.gcd a b
              /\ (0 <= a -> 0 <= b -> g = Z.gcd a b).
Proof.
  intros a b. destruct (GCD_loop_spec (Z.abs_nat b) a b (Nat.le_refl _)) as (g & E & G & P).
  exists g. split; [exact E|]. split; [exact G|].
  intros Ha Hb. specialize (P Ha Hb). lia.
Qed.

(** The greatest common divisor of 12 and 18, and a negative result. *)
Lemma GCD_witness :
  GCD 12 18 = Some 6 /\ GCD 4 (-6) = Some (-2) /\ GCD (-4) 6 = Some 2 /\ GCD 0 0 = Some 0.
Proof.
  destruct (GCD_is_gcd_up_to_sign 12 18) as (g & E & _ & P).
  split; [|repeat split]. rewrite E. f_equal. apply P; lia.
Defined.

(** X20: [LCM] panics, dividing by zero, exactly when both operands are
    0; for positive operands whose product is below 2^63 it is the least
    common multiple, and beyond that the product wraps: the result for
    2^32 and 2^32 is 0. *)
Theorem LCM_is_lcm_without_overflow :
  forall a b : Z,
    (LCM a b = panic "runtime error: integer divide by zero" <-> a = 0 /\ b = 0)
    /\ (0 < a -> 0 < b -> a * b < 2 ^ 63 -> LCM a b = Ok (Z.lcm a b))
    /\ LCM (2 ^ 32) (2 ^ 32) = Ok 0.
Proof.
  intros a b. unfold LCM, GCD.
  destruct (GCD_loop_spec (Z.abs_nat b) a b (Nat.le_refl _)) as (g & E & G & P0).
  rewrite E.
  assert (P : 0 <= a -> 0 <= b -> g = Z.gcd a b) by (intros Ha Hb; specialize (P0 Ha Hb); lia).
  split; [|split; [|reflexivity]].
  - destruct (Z.eqb_spec g 0) as [->|N].
    + split; [intros _|reflexivity]. apply Z.gcd_eq_0. now rewrite <- G.
    + split; [discriminate|]. intros [-> ->]. rewrite Z.gcd_0_r in G. lia.
  - intros Ha Hb Hab. rewrite (P ltac:(lia) ltac:(lia)).
    assert (Hg : 0 < Z.gcd a b).
    { pose proof (Z.gcd_nonneg a b). destruct (Z.eq_dec (Z.gcd a b) 0) as [Z0|]; [|lia].
      apply Z.gcd_eq_0 in Z0. lia. }
    replace (Z.gcd a b =? 0) with false by (symmetry; apply Z.eqb_neq; lia).
    rewrite (wrap64_small (a * b)) by nia.
    rewrite Z.quot_div_nonneg by nia.
    rewrite Z.divide_div_mul_exact by (try lia; apply Z.gcd_divide_r).
    unfold Z.lcm.
    assert (0 <= b / Z.gcd a b) by (apply Z.div_pos; lia).
    assert (b / Z.gcd a b <= b) by (apply Z.div_le_upper_bound; nia).
    rewrite Z.abs_eq by nia. apply f_equal, wrap64_small. nia.
Qed.

(** The theorem at 4 and 6. *)
Lemma LCM_witness : LCM 4 6 = Ok 12 /\ LCM 0 0 = panic "runtime error: integer divide by zero".
Proof.
  destruct (LCM_is_lcm_without_overflow 4 6) as (_ & H & _).
  destruct (LCM_is_lcm_without_overflow 0 0) as (H0 & _).
  split; [apply H; lia | apply H0; split; reflexivity].
Defined.

(** ** [TruncateString] *)

(** X21: a string that fits is returned as it is; a longer one is cut to
    [maxLen] bytes, the last three being dots, when [maxLen] is 3 at
    least; for a smaller [maxLen] the function panics on its slice
    bound ([maxLen - 3] not wrapping). *)
Theorem TruncateString_length :
  forall (s : string) (maxLen : Z),
    - 2 ^ 63 + 3 <= maxLen < 2 ^ 63 ->
    (Z.of_nat (String.length s) <= maxLen -> TruncateString s maxLen = Ok s)
    /\ (3 <= maxLen < Z.of_nat (String.length s) ->
        exists t, TruncateString s maxLen = Ok (t ++ "...")
                  /\ HasPrefix s t = true
                  /\ Z.of_nat (String.length (t ++ "...")) = maxLen)
    /\ (maxLen < 3 -> maxLen < Z.of_nat (String.length s) ->
        TruncateString s maxLen = panic "runtime error: slice bounds out of range").
Proof.
  intros s maxLen R. unfold TruncateString. split; [|split].
  - intros H. now rewrite (proj2 (Z.leb_le _ _) H).
  - intros H. rewrite (proj2 (Z.leb_gt _ _)) by lia. cbv zeta.
    rewrite wrap64_small by lia.
    replace ((maxLen - 3 <? 0) || (Z.of_nat (String.length s) <? maxLen - 3))%bool with false
      by (symmetry; apply orb_false_iff; split; apply Z.ltb_ge; lia).
    exists (take (Z.to_nat (maxLen - 3)) s). split; [reflexivity|]. split.
    + clear. generalize (Z.to_nat (maxLen - 3)) as n. intros n. revert s.
      induction n as [|n IH]; intros [|c s]; simpl; try reflexivity.
      now rewrite Ascii.eqb_refl, IH.
    + rewrite length_append, length_take by lia. simpl. lia.
  - intros H3 H. rewrite (proj2 (Z.leb_gt _ _)) by lia. cbv zeta.
    rewrite wrap64_small by lia.
    now replace (maxLen - 3 <? 0) with true by (symmetry; apply Z.ltb_lt; lia).
Qed.

(** The theorem at a string of 11 bytes cut to 8, and to 2. *)
Lemma TruncateString_witness :
  TruncateString "hello world" 8 = Ok "hello..."
  /\ TruncateString "hello world" 2 = panic "runtime error: slice bounds out of range".
Proof.
  destruct (TruncateString_length "hello world" 2 ltac:(lia)) as (_ & _ & H).
  split; [reflexivity | apply H; simpl; lia].
Defined.

(** ** [GetFactorial] and [Factorial] *)

Section Factorials.

Lemma sameFloat_eq (x y : float64) : sameFloat x y = true -> x = y.
Proof.
  destruct x as [a|a| |a m e], y as [b|b| |b m' e']; simpl; try discriminate;
    try reflexivity.
  - intros H. apply Bool.eqb_prop in H. now subst.
  - intros H. apply Bool.eqb_prop in H. now subst.
  - intros H. apply andb_true_iff in H as [H He]. apply andb_true_iff in H as [Hs Hm].
    apply Bool.eqb_prop in Hs. apply Pos.eqb_eq in Hm. apply Z.eqb_eq in He. now subst.
Qed.

Lemma sameValue_eq (r1 r2 : result float64) :
  sameValue r1 r2 = true -> r1 = r2 /\ is_Ok r1 = true.
Proof.
  destruct r1 as [a| |], r2 as [b| |]; simpl; try discriminate.
  intros H. apply sameFloat_eq in H. now subst.
Qed.

Lemma factorials_agree :
  forallb (fun n => sameValue (GetFactorial n) (Factorial (of_Z n))) (rangeZ 0 171) = true.
Proof. vm_compute. reflexivity. Qed.

End Factorials.

(** X22: [GetFactorial], with its table and its integer counter, and
    [Factorial], with its float64 counter, return the same float64 for
    every argument from 0 to 170.  For a negative argument [GetFactorial]
    returns NaN where [Factorial] returns an error. *)
Theorem GetFactorial_agrees_with_Factorial :
  forall n : Z,
    (0 <= n <= 170 ->
       GetFactorial n = Factorial (of_Z n) /\ is_Ok (GetFactorial n) = true)
    /\ (n < 0 -> GetFactorial n = Ok NaN)
    /\ is_Err (Factorial (of_Z (-1))) = true.
Proof.
  intros n. split; [|split; [|reflexivity]].
  - intros H. apply sameValue_eq.
    exact (rangeZ_forallb _ 0 171 factorials_agree n ltac:(lia)).
  - intros H. unfold GetFactorial. now rewrite (proj2 (Z.ltb_lt _ _) H).
Qed.

(** The theorem at 20. *)
Lemma GetFactorial_witness :
  GetFactorial 20 = Factorial (of_Z 20) /\ GetFactorial 20 = Ok (of_Z 2432902008176640000).
Proof.
  split; [|vm_compute; reflexivity].
  exact (proj1 (proj1 (GetFactorial_agrees_with_Factorial 20) ltac:(lia))).
Defined.

(** ** [IsPrime] *)

Section Primes.

Lemma rem_zero_divide (n d : Z) : d <> 0 -> (Z.rem n d = 0 <-> (d | n)).
Proof. intros H. apply Z.rem_divide. exact H. Qed.

Lemma rem_eqb_false (n d : Z) : 0 <= n -> 0 < d -> (Z.rem n d =? 0) = false <-> n mod d <> 0.
Proof.
  intros Hn Hd. rewrite Z.rem_mod_nonneg by lia. split.
  - intros H. now apply Z.eqb_neq.
  - intros H. now apply Z.eqb_neq.
Qed.

(** The loop returns for every [n] that 2 and 3 do not divide: [i] or
    [i + 2] meets [n] at the latest, and the counter never wraps. *)
Lemma IsPrime_loop_returns (fuel : nat) :
  forall n i,
    n < 2 ^ 63 -> 5 <= i -> i mod 6 = 5 ->
    (n mod 6 = 5 /\ i <= n) \/ (n mod 6 = 1 /\ i + 2 <= n) ->
    n - i < 6 * Z.of_nat fuel ->
    exists b, IsPrime_loop fuel n i = Ok b.
Proof.
  induction fuel as [|fuel IH]; intros n i Hn Hi Hm Hc Hf; [lia|].
  cbn [IsPrime_loop]. destruct (wrap64 (i * i) <=? n); [|now exists true].
  replace (i =? 0) with false by (symmetry; apply Z.eqb_neq; lia).
  destruct (Z.rem n i =? 0) eqn:R1; [now exists false|].
  apply rem_eqb_false in R1; [|lia|lia].
  assert (Hi2 : i + 2 <= n).
  { destruct Hc as [[Hc1 Hc2]|[Hc1 Hc2]]; [|exact Hc2].
    destruct (Z.eq_dec i n) as [->|]; [rewrite Z.mod_same in R1 by lia; lia|].
    Z.div_mod_to_equations. lia. }
  rewrite (wrap64_small (i + 2)) by lia.
  replace (i + 2 =? 0) with false by (symmetry; apply Z.eqb_neq; lia).
  destruct (Z.rem n (i + 2) =? 0) eqn:R2; [now exists false|].
  apply rem_eqb_false in R2; [|lia|lia].
  assert (Hi6 : (n mod 6 = 5 /\ i + 6 <= n) \/ (n mod 6 = 1 /\ i + 6 + 2 <= n)).
  { destruct Hc as [[Hc1 Hc2]|[Hc1 Hc2]].
    - left. split; [exact Hc1|].
      destruct (Z.eq_dec i n) as [->|]; [rewrite Z.mod_same in R1 by lia; lia|].
      Z.div_mod_to_equations. lia.
    - right. split; [exact Hc1|].
      destruct (Z.eq_dec (i + 2) n) as [E|]; [rewrite E, Z.mod_same in R2 by lia; lia|].
      Z.div_mod_to_equations. lia. }
  rewrite (wrap64_small (i + 6)) by lia.
  apply IH; try lia. Z.div_mod_to_equations. lia.
Qed.

(** Below the square of [maxRoot] no square wraps, and the loop is trial
    division by the numbers 6k - 1 and 6k + 1. *)
Lemma IsPrime_loop_trial (fuel : nat) :
  forall n i b,
    n < maxRoot * maxRoot -> 5 <= i -> i mod 6 = 5 ->
    i = 5 \/ (i - 6) * (i - 6) <= n ->
    IsPrime_loop fuel n i = Ok b ->
    (b = true <->
     forall j, i <= j -> j mod 6 = 5 -> j * j <= n -> n mod j <> 0 /\ n mod (j + 2) <> 0).
Proof.
  unfold maxRoot.
  induction fuel as [|fuel IH]; intros n i b Hn Hi Hm Hp E.
  - cbn [IsPrime_loop] in E.
    assert (Hr : i <= 3037000499).
    { destruct Hp as [->|Hp]; [lia|]. assert (i - 6 < 3037000499) by nia.
      Z.div_mod_to_equations. lia. }
    rewrite wrap64_small in E by nia.
    destruct (Z.leb_spec (i * i) n); [discriminate E|]. injection E as <-.
    split; [|reflexivity]. intros _ j Hj _ Hjn. nia.
  - cbn [IsPrime_loop] in E.
    assert (Hr : i <= 3037000499).
    { destruct Hp as [->|Hp]; [lia|]. assert (i - 6 < 3037000499) by nia.
      Z.div_mod_to_equations. lia. }
    rewrite wrap64_small in E by nia.
    destruct (Z.leb_spec (i * i) n) as [Hsq|Hsq].
    2:{ injection E as <-. split; [|reflexivity]. intros _ j Hj _ Hjn. nia. }
    replace (i =? 0) with false in E by (symmetry; apply Z.eqb_neq; lia).
    assert (Hn0 : 0 <= n) by nia.
    destruct (Z.rem n i =? 0) eqn:R1.
    { injection E as <-. split; [discriminate|]. intros H.
      destruct (H i (Z.le_refl _) Hm Hsq) as [H1 _].
      rewrite Z.rem_mod_nonneg in R1 by lia. apply Z.eqb_eq in R1. contradiction. }
    apply rem_eqb_false in R1; [|lia|lia].
    rewrite (wrap64_small (i + 2)) in E by lia.
    replace (i + 2 =? 0) with false in E by (symmetry; apply Z.eqb_neq; lia).
    destruct (Z.rem n (i + 2) =? 0) eqn:R2.
    { injection E as <-. split; [discriminate|]. intros H.
      destruct (H i (Z.le_refl _) Hm Hsq) as [_ H2].
      rewrite Z.rem_mod_nonneg in R2 by lia. apply Z.eqb_eq in R2. contradiction. }
    apply rem_eqb_false in R2; [|lia|lia].
    rewrite (wrap64_small (i + 6)) in E by lia.
    apply IH in E; try lia; [|Z.div_mod_to_equations; lia].
    rewrite E. split.
    + intros H j Hj Hjm Hjn. destruct (Z.eq_dec j i) as [->|Nj]; [tauto|].
      apply H; try assumption. Z.div_mod_to_equations. lia.
    + intros H j Hj. apply H. lia.
Qed.

(** Trial division by 2, 3 and the numbers 6k - 1 and 6k + 1 up to the
    square root decides primality. *)
Lemma trial_division (n : Z) :
  5 <= n -> n mod 2 <> 0 -> n mod 3 <> 0 ->
  ((forall j, 5 <= j -> j mod 6 = 5 -> j * j <= n -> n mod j <> 0 /\ n mod (j + 2) <> 0)
   <-> Z.prime n).
Proof.
  intros Hn H2 H3. split.
  - intros H. split; [lia|]. intros d Hd [q Hq].
    assert (Hq1 : 1 < q) by nia.
    assert (Hex : exists m, 1 < m /\ m * m <= n /\ (m | n)).
    { destruct (Z_le_gt_dec d q).
      - exists d. repeat split; try lia; try nia. now exists q.
      - exists q. repeat split; try lia; try nia. exists d. lia. }
    destruct Hex as (m & Hm1 & Hmm & Hmn).
    assert (Hnm : n mod m = 0).
    { apply Z.mod_divide; [lia | exact Hmn]. }
    assert (Hk : forall k, 0 < k -> (k | m) -> n mod k = 0).
    { intros k Hk Hkm. apply Z.mod_divide; [lia|]. eapply Z.divide_trans; eassumption. }
    assert (Hr : 0 <= m mod 6 < 6) by (apply Z.mod_pos_bound; lia).
    pose proof (Z.div_mod m 6 ltac:(lia)) as Dm.
    destruct (Z.eq_dec (m mod 6) 5) as [R5|N5].
    { destruct (H m ltac:(Z.div_mod_to_equations; lia) R5 Hmm) as [X _]. contradiction. }
    destruct (Z.eq_dec (m mod 6) 1) as [R1|N1].
    { destruct (H (m - 2) ltac:(Z.div_mod_to_equations; lia)
                  ltac:(Z.div_mod_to_equations; lia) ltac:(nia)) as [_ X].
      replace (m - 2 + 2) with m in X by lia. contradiction. }
    destruct (Z.eq_dec (m mod 6) 3) as [R3|N3].
    { apply H3, Hk; [lia|]. exists (2 * (m / 6) + 1). lia. }
    apply H2, Hk; [lia|].
    assert (m mod 6 = 0 \/ m mod 6 = 2 \/ m mod 6 = 4) as [R|[R|R]] by lia.
    + exists (3 * (m / 6)). lia.
    + exists (3 * (m / 6) + 1). lia.
    + exists (3 * (m / 6) + 2). lia.
  - intros P j Hj Hjm Hjn. destruct P as [_ P].
    split; intros X; apply Z.mod_divide in X; try lia.
    + apply (P j); [nia | exact X].
    + apply (P (j + 2)); [nia | exact X].
Qed.

End Primes.

(** X23: [IsPrime] returns for every [int], without a division by zero;
    and for every [n] below the square of 3037000499, where no square
    [i*i] wraps, it returns true exactly for the prime numbers. *)
Theorem IsPrime_is_primality :
  forall n : Z,
    (n < 2 ^ 63 -> exists b, IsPrime n = Ok b)
    /\ (n < maxRoot * maxRoot -> (IsPrime n = Ok true <-> Z.prime n)).
Proof.
  intros n.
  assert (Small : n < 5 -> (exists b, IsPrime n = Ok b) /\ (IsPrime n = Ok true <-> Z.prime n)).
  { intros H. destruct (Z_lt_le_dec n 2) as [L|L].
    - unfold IsPrime. rewrite (proj2 (Z.ltb_lt _ _) L). split; [now exists false|].
      split; [discriminate|]. intros [P _]. lia.
    - assert (n = 2 \/ n = 3 \/ n = 4) as [-> | [-> | ->]] by lia.
      + split; [now exists true|]. split; [intros _; exact Z.prime_2 | reflexivity].
      + split; [now exists true|]. split; [intros _; exact Z.prime_3 | reflexivity].
      + split; [now exists false|]. split; [discriminate|].
        intros [_ P]. exfalso. apply (P 2); [lia|]. now exists 2. }
  assert (Large : 5 <= n ->
                  IsPrime n = (if ((n mod 2 =? 0) || (n mod 3 =? 0))%bool then Ok false
                               else IsPrime_loop (S (Z.to_nat (n / 6))) n 5)).
  { intros H. unfold IsPrime.
    replace (n <? 2) with false by (symmetry; apply Z.ltb_ge; lia).
    replace (n =? 2) with false by (symmetry; apply Z.eqb_neq; lia).
    replace (n =? 3) with false by (symmetry; apply Z.eqb_neq; lia).
    now rewrite !Z.rem_mod_nonneg by lia. }
  split.
  - intros Hn. destruct (Z_lt_le_dec n 5) as [L|L]; [now apply Small|].
    rewrite Large by assumption.
    destruct (Z.eqb_spec (n mod 2) 0) as [|N2]; [now exists false|].
    destruct (Z.eqb_spec (n mod 3) 0) as [|N3]; [now exists false|]. cbn [orb].
    apply IsPrime_loop_returns; try lia; try reflexivity.
    + Z.div_mod_to_equations. lia.
    + rewrite Nat2Z.inj_succ, Z2Nat.id by (apply Z.div_pos; lia).
      Z.div_mod_to_equations. lia.
  - intros Hn. destruct (Z_lt_le_dec n 5) as [L|L]; [now apply Small|].
    rewrite Large by assumption.
    destruct (Z.eqb_spec (n mod 2) 0) as [E2|N2].
    { split; [discriminate|]. intros [_ P]. exfalso.
      apply (P 2); [lia|]. apply Z.mod_divide; lia. }
    destruct (Z.eqb_spec (n mod 3) 0) as [E3|N3].
    { split; [discriminate|]. intros [_ P]. exfalso.
      apply (P 3); [lia|]. apply Z.mod_divide; lia. }
    cbn [orb].
    destruct (IsPrime_loop_returns (S (Z.to_nat (n / 6))) n 5) as [b Eb];
      try lia; try reflexivity.
    { unfold maxRoot in Hn. lia. }
    { Z.div_mod_to_equations. lia. }
    { rewrite Nat2Z.inj_succ, Z2Nat.id by (apply Z.div_pos; lia).
      Z.div_mod_to_equations. lia. }
    rewrite Eb.
    pose proof (IsPrime_loop_trial _ n 5 b Hn ltac:(lia) eq_refl (or_introl eq_refl) Eb) as T.
    rewrite <- (trial_division n L N2 N3). split.
    + intros X. injection X as ->. now apply T.
    + intros X. f_equal. now apply T.
Qed.

(** The theorem at 97 and at 91 = 7 * 13. *)
Lemma IsPrime_witness : IsPrime 97 = Ok true /\ Z.prime 97 /\ IsPrime 91 = Ok false.
Proof.
  pose proof (proj2 (IsPrime_is_primality 97) ltac:(unfold maxRoot; lia)) as H.
  split; [reflexivity|]. split; [apply H; reflexivity | reflexivity].
Defined.

(** ** The value of a call *)

Section CallValue.

Variable rt : GoMath.

Lemma ident_word (k : string) :
  ValidIdentifierRegex_Match k = true -> nameOk k = true /\ allb isWordB k = true.
Proof.
  destruct k as [|c k]; [discriminate|]. cbn [ValidIdentifierRegex_Match nameOk].
  intros H. apply andb_true_iff in H as [H1 H2]. split; [exact H1|].
  cbn [allb]. apply andb_true_iff. split.
  - unfold isWordB. apply orb_true_iff in H1 as [H1|H1].
    + now rewrite H1.
    + rewrite H1. apply orb_true_r.
  - clear -H2. induction k as [|a k IH]; [reflexivity|].
    apply andb_true_iff in H2 as [Ha H2]. cbn [allb]. now rewrite Ha, IH.
Qed.

Lemma identifiers_namesOk (m : fmap) : identifiers m = true -> namesOk m = true.
Proof.
  induction m as [|[k v] m IH]; [reflexivity|]. cbn [identifiers namesOk forallb fst].
  intros H. apply andb_true_iff in H as [H1 H2].
  destruct (ident_word k H1) as [N _]. rewrite N. now apply IH.
Qed.

Lemma parserIdent_parserOk (p : Parser) : parserIdent p = true -> parserOk p = true.
Proof.
  unfold parserIdent, parserOk. intros H. apply andb_true_iff in H as [H1 H2].
  now rewrite !identifiers_namesOk.
Qed.

Lemma drop_append_length (a b : string) : drop (String.length a) (a ++ b) = b.
Proof. induction a as [|c a IH]; [now destruct b | exact IH]. Qed.

(** A prefix made of word characters ends within the first word. *)
Lemma HasPrefix_word (name tail k : string) :
  allb isWordB k = true -> headNot isWordB tail ->
  HasPrefix (name ++ tail) k = true -> HasPrefix name k = true.
Proof.
  revert name. induction k as [|a k IH]; intros name A T H; [now destruct name|].
  simpl in A. apply andb_true_iff in A as [Wa A].
  destruct name as [|b name].
  - cbn [append] in H. destruct tail as [|t tail]; [discriminate H|].
    cbn [HasPrefix] in H. apply andb_true_iff in H as [E _].
    apply Ascii.eqb_eq in E. subst t. simpl in T. congruence.
  - cbn [append HasPrefix] in *. apply andb_true_iff in H as [E H]. rewrite E. cbn [andb].
    now apply (IH name).
Qed.

Lemma wordMatchAt_first_word (k name tail : string) (prev : option ascii) :
  allb isWordB k = true -> nonEmpty k = true -> allb isWordB name = true ->
  headNot isWordB tail ->
  wordMatchAt k prev (name ++ tail) = true -> k = name.
Proof.
  intros A N W T M. unfold wordMatchAt in M.
  apply andb_true_iff in M as [M B2]. apply andb_true_iff in M as [P _].
  pose proof (HasPrefix_word name tail k A T P) as Pn.
  pose proof (HasPrefix_drop _ _ Pn) as D.
  pose proof (HasPrefix_drop _ _ P) as D2.
  unfold wordBoundary, rev in B2. rewrite headChar_rev_acc in B2 by assumption.
  assert (E : drop (String.length k) (name ++ tail) = drop (String.length k) name ++ tail).
  { rewrite D at 1. rewrite append_assoc. apply drop_append_length. }
  rewrite E in B2.
  destruct (drop (String.length k) name) as [|c r] eqn:Dr.
  - rewrite append_nil_r in D. now symmetry.
  - exfalso. cbn [append headChar isWordOpt] in B2.
    assert (Wc : isWordB c = true).
    { pose proof (allb_drop isWordB (String.length k) name W) as X. rewrite Dr in X.
      simpl in X. now apply andb_true_iff in X as [X _]. }
    rewrite Wc in B2. discriminate B2.
Qed.

(** In the text of a call on a literal no name is replaced but the name
    of the function. *)
Lemma replaceWord_call (k repl name tail : string) :
  ValidIdentifierRegex_Match k = true -> k <> name ->
  allb isWordB name = true -> nonEmpty name = true ->
  allb isExprChar tail = true -> headNot isWordB tail ->
  replaceWord k repl (name ++ tail) = name ++ tail.
Proof.
  intros I Nk W Ne T Th. destruct (ident_word k I) as [Ok Wk]. unfold replaceWord.
  assert (Hk : nonEmpty k = true) by (destruct k; [discriminate Ok | reflexivity]).
  assert (G : forall s prev, allb isWordB s = true -> isWordOpt prev = true ->
                             replaceWord_go k repl 0 prev (s ++ tail) = s ++ tail).
  { induction s as [|a s IH]; intros prev Ws Wp.
    - cbn [append]. now apply replaceWord_go_expr.
    - simpl in Ws. apply andb_true_iff in Ws as [Wa Ws]. cbn [append replaceWord_go].
      rewrite wordMatchAt_inside by assumption. f_equal. now apply IH. }
  destruct (wordMatchAt k None (name ++ tail)) eqn:M.
  { exfalso. apply Nk. eapply wordMatchAt_first_word; eassumption. }
  destruct name as [|c nm]; [discriminate Ne|].
  simpl in W. apply andb_true_iff in W as [Wc W].
  cbn [append replaceWord_go] in *. rewrite M. f_equal. now apply G.
Qed.

Lemma map_get_None_keys (m : fmap) (name : string) :
  map_get m name = None -> Forall (fun kv => fst kv <> name) m.
Proof.
  induction m as [|[k v] m IH]; intros H; [constructor|].
  cbn [map_get] in H. destruct (String.eqb_spec k name) as [|N]; [discriminate H|].
  constructor; [exact N | now apply IH].
Qed.

Lemma substitute_call (m : fmap) (name tail : string) :
  identifiers m = true -> map_get m name = None ->
  allb isWordB name = true -> nonEmpty name = true ->
  allb isExprChar tail = true -> headNot isWordB tail ->
  substitute m (name ++ tail) = name ++ tail.
Proof.
  intros I G W Ne T Th. apply map_get_None_keys in G.
  induction m as [|[k v] m IH]; [reflexivity|].
  cbn [identifiers forallb fst] in I. apply andb_true_iff in I as [Ik I].
  inversion G as [|? ? Gk Gm]; subst. cbn [substitute].
  rewrite replaceWord_call by assumption. now apply IH.
Qed.

Lemma validFunctions_shape (name : string) :
  In name validFunctions ->
  exists alpha num,
    name = alpha ++ num /\ allb isLowerB alpha = true /\ nonEmpty alpha = true
    /\ allb isDigitB num = true
    /\ (num = "" -> inList alpha validFunctions = true).
Proof.
  intros H. unfold validFunctions in H.
  repeat (destruct H as [<-|H];
          [first [ exists "log", "10"; repeat split; (reflexivity || discriminate)
                 | eexists _, ""; rewrite append_nil_r; repeat split; reflexivity ]|]).
  destruct H.
Qed.

Lemma removeSpaces_app (a b : string) :
  removeSpaces (a ++ b) = removeSpaces a ++ removeSpaces b.
Proof.
  induction a as [|c a IH]; [reflexivity|]. cbn [append removeSpaces].
  destruct (Ascii.eqb c " "); [exact IH | cbn [append]; now rewrite IH].
Qed.

Lemma ToLower_app (a b : string) : ToLower (a ++ b) = ToLower a ++ ToLower b.
Proof. induction a as [|c a IH]; [reflexivity|]. cbn [append ToLower]. now rewrite IH. Qed.

Lemma findFuncNames_go_lower (alpha rest : string) :
  allb isLowerB alpha = true ->
  forall cur, findFuncNames_go (alpha ++ rest) cur = findFuncNames_go rest (rev_acc alpha cur).
Proof.
  induction alpha as [|c a IH]; intros A cur; [reflexivity|].
  simpl in A. apply andb_true_iff in A as [C A]. cbn [append findFuncNames_go rev_acc].
  rewrite C. now apply IH.
Qed.

Lemma findNumbers_go_lower (alpha rest : string) :
  allb isLowerB alpha = true ->
  findNumbers_go O (alpha ++ rest) = findNumbers_go O rest.
Proof.
  induction alpha as [|c a IH]; intros A; [reflexivity|].
  simpl in A. apply andb_true_iff in A as [C A]. cbn [append findNumbers_go].
  rewrite lower_matchNumberAt by assumption. now apply IH.
Qed.

Lemma findFuncCall_head (s : string) (m : string * string) :
  matchCallAt s = Some m -> findFuncCall s = Some m.
Proof. intros H. destruct s; cbn [findFuncCall]; now rewrite H. Qed.

Lemma lit_facts (lit : string) :
  litOk lit = true ->
  allb isExprChar lit = true /\ allb notParen lit = true /\ allb notOperator lit = true
  /\ allb validExprChar lit = true /\ allb notRparen lit = true
  /\ (forall c, isLitChar c = false -> CountChar lit c = O /\ ContainsChar lit c = false).
Proof.
  intros L. pose proof (litOk_chars lit L) as A.
  split; [eapply allb_impl; [|exact A]; intros c H; unfold isExprChar; now rewrite H|].
  split; [now apply isLitChar_notParen|].
  split; [eapply allb_impl; [|exact A]; intros c H; unfold notOperator;
          now rewrite isLitChar_not_operator|].
  split.
  { eapply allb_impl; [|exact A]. intros c H. unfold isLitChar in H. unfold validExprChar.
    apply orb_true_iff in H as [H|H]; [now rewrite H|].
    apply Ascii.eqb_eq in H. now subst c. }
  split.
  { eapply allb_impl; [|exact A]. intros c H.
    destruct (Ascii.eqb_spec c ")") as [->|]; [discriminate H|].
    unfold notRparen. now apply negb_true_iff, Ascii.eqb_neq. }
  intros c H. split.
  - apply allb_CountChar. eapply allb_impl; [|exact A]. intros a Ha.
    destruct (Ascii.eqb_spec a c); [congruence | reflexivity].
  - now apply (allb_ContainsChar isLitChar).
Qed.

Lemma trimLeft_id (s : string) :
  allb (fun c => negb (isSpaceB c)) s = true -> trimLeft s = s.
Proof.
  destruct s as [|c s]; [reflexivity|]. simpl. intros H.
  apply andb_true_iff in H as [H _]. apply negb_true_iff in H. now rewrite H.
Qed.

Lemma TrimSpace_id (s : string) :
  allb (fun c => negb (isSpaceB c)) s = true -> TrimSpace s = s.
Proof.
  intros H. unfold TrimSpace. rewrite (trimLeft_id s H).
  rewrite trimLeft_id by now rewrite allb_rev.
  unfold rev at 2. apply rev_rev_acc.
Qed.

Lemma parseArguments_lit (lit : string) :
  litOk lit = true -> parseArguments lit = [lit].
Proof.
  intros L. pose proof (litOk_chars lit L) as A. pose proof (litOk_nonEmpty lit L) as N.
  unfold parseArguments.
  assert (G : forall s cur, allb isLitChar s = true ->
                            parseArguments_go s cur 0
                            = if nonEmpty (rev_acc s cur) then [TrimSpace (rev (rev_acc s cur))]
                              else []).
  { induction s as [|c s IH]; intros cur As; [reflexivity|].
    simpl in As. apply andb_true_iff in As as [C As]. cbn [parseArguments_go rev_acc].
    replace (Ascii.eqb c "(") with false
      by (destruct (Ascii.eqb_spec c "("); [subst; discriminate C | reflexivity]).
    replace (Ascii.eqb c ")") with false
      by (destruct (Ascii.eqb_spec c ")"); [subst; discriminate C | reflexivity]).
    replace (Ascii.eqb c ",") with false
      by (destruct (Ascii.eqb_spec c ","); [subst; discriminate C | reflexivity]).
    now apply IH. }
  rewrite G by assumption. rewrite nonEmpty_rev_acc by assumption.
  rewrite rev_rev_acc. f_equal. apply TrimSpace_id.
  eapply allb_impl; [|exact A]. intros c H.
  destruct c as [[] [] [] [] [] [] [] []]; try discriminate H; reflexivity.
Qed.

Lemma dispatchFunction_mode (p q : Parser) (name : string) (args : list float64) :
  angleMode p = angleMode q ->
  dispatchFunction rt p name args = dispatchFunction rt q name args.
Proof.
  intros H. unfold dispatchFunction, evaluateTrigFunction. now rewrite H.
Qed.

End CallValue.

Section CallText.

Variable rt : GoMath.

Lemma Replace1_self (s new : string) : Replace1 s s new = new.
Proof.
  destruct s; cbn [Replace1]; rewrite HasPrefix_refl, drop_length_self; apply append_nil_r.
Qed.

Lemma digits_facts_call (num : string) :
  allb isDigitB num = true ->
  allb isLitChar num = true.
Proof. apply allb_impl. intros c H. unfold isLitChar. now rewrite H. Qed.

Lemma ValidateExpression_call (name lit : string) :
  In name validFunctions -> litOk lit = true ->
  ValidateExpression rt (name ++ "(" ++ lit ++ ")") = None.
Proof.
  intros Hn L. destruct (validFunctions_shape name Hn) as (alpha & num & -> & A & NA & D & U).
  destruct (lit_facts lit L) as (LE & LP & LO & LV & LR & LC).
  pose proof (digits_facts_call num D) as DL.
  assert (DC : forall c, isLitChar c = false -> CountChar num c = O /\ ContainsChar num c = false).
  { intros c H. split.
    - apply allb_CountChar. eapply allb_impl; [|exact DL]. intros a Ha.
      destruct (Ascii.eqb_spec a c); [congruence | reflexivity].
    - now apply (allb_ContainsChar isLitChar). }
  assert (AC : forall c, isLowerB c = false -> CountChar alpha c = O /\ ContainsChar alpha c = false).
  { intros c H. split.
    - apply allb_CountChar. eapply allb_impl; [|exact A]. intros a Ha.
      destruct (Ascii.eqb_spec a c); [congruence | reflexivity].
    - now apply (allb_ContainsChar isLowerB). }
  rewrite append_assoc. set (tail := num ++ "(" ++ lit ++ ")").
  assert (TE : allb isExprChar tail = true).
  { unfold tail. rewrite !allb_app, LE. cbn.
    rewrite andb_true_r. eapply allb_impl; [|exact DL]. intros c H. unfold isExprChar. now rewrite H. }
  unfold ValidateExpression.
  replace (String.eqb (alpha ++ tail) "") with false by (destruct alpha; [discriminate NA | reflexivity]).
  (* parentheses *)
  assert (B : HasBalancedParentheses (alpha ++ tail) = true).
  { unfold HasBalancedParentheses, tail.
    rewrite HasBalancedParentheses_go_notParen.
    2:{ eapply allb_impl; [|exact A]. intros c H.
        destruct c as [[] [] [] [] [] [] [] []]; try discriminate H; reflexivity. }
    rewrite HasBalancedParentheses_go_notParen by now apply isLitChar_notParen.
    cbn [append HasBalancedParentheses_go Ascii.eqb Bool.eqb]. cbn.
    rewrite HasBalancedParentheses_go_notParen by assumption. reflexivity. }
  rewrite B. cbn [negb].
  (* operators *)
  assert (C : HasConsecutiveOperators (alpha ++ tail) = false).
  { unfold HasConsecutiveOperators. apply nonOperators_no_pair. unfold tail.
    rewrite !allb_app, LO. cbn. rewrite andb_true_r. apply andb_true_iff. split.
    - eapply allb_impl; [|exact A]. intros c H.
      destruct c as [[] [] [] [] [] [] [] []]; try discriminate H; reflexivity.
    - eapply allb_impl; [|exact DL]. intros c H. unfold notOperator.
      now rewrite isLitChar_not_operator. }
  rewrite C.
  (* characters *)
  assert (V : ValidExpressionRegex_Match (alpha ++ tail) = true).
  { unfold ValidExpressionRegex_Match.
    replace (match alpha ++ tail with "" => false | String _ _ => validExprChars (alpha ++ tail) end)
      with (validExprChars (alpha ++ tail)) by (destruct alpha; [discriminate NA | reflexivity]).
    apply validExprChars_all. unfold tail. rewrite !allb_app, LV. cbn. rewrite andb_true_r.
    apply andb_true_iff. split.
    - eapply allb_impl; [|exact A]. intros c H. unfold validExprChar. rewrite H.
      now rewrite orb_true_r.
    - eapply allb_impl; [|exact D]. intros c H. unfold validExprChar. now rewrite H. }
  rewrite V. cbn [negb].
  (* division *)
  assert (Z0 : Contains (alpha ++ tail) "/0" = false).
  { apply Contains_head. unfold tail. rewrite !ContainsChar_app.
    rewrite (proj2 (AC "/"%char eq_refl)), (proj2 (DC "/"%char eq_refl)),
      (proj2 (LC "/"%char eq_refl)). reflexivity. }
  rewrite Z0. cbn [andb].
  (* names *)
  assert (F : ValidateFunctionCalls (alpha ++ tail) = None).
  { unfold ValidateFunctionCalls, findFuncNames.
    rewrite findFuncNames_go_lower by assumption.
    assert (N : firstUnknown (findFuncNames_go tail (rev_acc alpha "")) = None).
    { unfold tail. destruct num as [|d num].
      - cbn [append findFuncNames_go]. rewrite nonEmpty_rev_acc by assumption.
        cbn. change (isLowerB "(") with false. cbv iota. rewrite rev_rev_acc.
        rewrite findFuncNames_go_text.
        + cbn [firstUnknown]. now rewrite U.
        + apply isExprChar_isTextChar. rewrite allb_app, LE. reflexivity.
      - simpl in D. apply andb_true_iff in D as [Dd D].
        cbn [append findFuncNames_go].
        replace (isLowerB d) with false
          by (destruct d as [[] [] [] [] [] [] [] []]; try discriminate Dd; reflexivity).
        replace (Ascii.eqb d "(") with false
          by (destruct d as [[] [] [] [] [] [] [] []]; try discriminate Dd; reflexivity).
        cbn [andb]. rewrite findFuncNames_go_text; [reflexivity|].
        apply isExprChar_isTextChar.
        simpl in TE. apply andb_true_iff in TE as [_ TE]. exact TE. }
    rewrite N. unfold tail. rewrite !CountChar_app.
    rewrite (proj1 (AC "("%char eq_refl)), (proj1 (DC "("%char eq_refl)),
      (proj1 (LC "("%char eq_refl)), (proj1 (AC ")"%char eq_refl)),
      (proj1 (DC ")"%char eq_refl)), (proj1 (LC ")"%char eq_refl)).
    reflexivity. }
  rewrite F.
  unfold ValidateNumbers, findNumbers. rewrite findNumbers_go_lower by assumption.
  apply findNumbers_go_valid. now apply isTextChar_notE, isExprChar_isTextChar.
Qed.

Lemma identifiers_map_set (m : fmap) (k : string) (v : float64) :
  identifiers m = true -> ValidIdentifierRegex_Match k = true ->
  identifiers (map_set m k v) = true.
Proof.
  intros Hm Hk. induction m as [|[k' v'] m IH].
  - cbn [map_set identifiers forallb fst]. now rewrite Hk.
  - cbn [identifiers forallb fst] in Hm. apply andb_true_iff in Hm as [H1 H2].
    cbn [map_set]. destruct (String.eqb k' k); cbn [identifiers forallb fst].
    + now rewrite Hk.
    + rewrite H1. now apply IH.
Qed.

Lemma processFunctions_loop_none (f : Parser -> string -> result float64 * Parser)
  (fuel : nat) (p : Parser) (e : string) :
  findFuncCall e = None -> processFunctions_loop rt f fuel p e = (Ok e, p).
Proof. intros H. destruct fuel; cbn [processFunctions_loop]; now rewrite H. Qed.

Lemma findFuncCall_FormatF (k : nat) (r : float64) : findFuncCall (FormatF k r) = None.
Proof.
  destruct (is_finite r) eqn:F.
  - now apply findFuncCall_expr, FormatF_expr.
  - destruct r as [s|[]| |s m e]; try discriminate F; reflexivity.
Qed.

Lemma matchCallAt_call (name lit tail : string) :
  nameOk name = true -> allb isWordB name = true -> allb notRparen lit = true ->
  matchCallAt (name ++ "(" ++ lit ++ String ")" tail) = Some (name, lit).
Proof.
  intros N W L. destruct name as [|c nm]; [discriminate N|].
  cbn [nameOk] in N. cbn [allb] in W. apply andb_true_iff in W as [_ W].
  cbn [append matchCallAt]. rewrite N.
  rewrite (span_app isWordB nm (String "(" (lit ++ String ")" tail))) by (assumption || reflexivity).
  rewrite (span_app (fun a => negb (Ascii.eqb a ")")) lit (String ")" tail));
    [reflexivity | exact L | reflexivity].
Qed.

(** The evaluation of a call of one literal argument, given the evaluation
    of the argument. *)
Lemma EvaluateExpression_body_call
  (f : Parser -> string -> result float64 * Parser)
  (p : Parser) (name lit : string) (v : float64) :
  parserIdent p = true -> In name validFunctions -> lookupName p name = None ->
  litOk lit = true ->
  (forall q, parserOk q = true -> f q lit = (Ok v, recorded q lit v)) ->
  fst (EvaluateExpression_body rt f p (name ++ "(" ++ lit ++ ")"))
  = bind (dispatchFunction rt p name [v]) (fun r => evaluate rt (FormatF 10 r)).
Proof.
  intros Hp Hn Hl L Hf.
  pose proof (ValidateExpression_call name lit Hn L) as V.
  destruct (validFunctions_shape name Hn) as (alpha & num & E & A & NA & D & _).
  destruct (lit_facts lit L) as (LE & _ & _ & _ & LR & _).
  assert (W : allb isWordB name = true).
  { subst name. rewrite allb_app, lower_word by assumption.
    eapply allb_impl; [|exact D]. intros c H. unfold isWordB. rewrite H. now rewrite orb_true_r. }
  assert (Ne : nonEmpty name = true) by (subst name; destruct alpha; [discriminate NA | reflexivity]).
  assert (Nk : nameOk name = true).
  { subst name. destruct alpha as [|c a]; [discriminate NA|]. cbn [append nameOk].
    cbn [allb] in A. apply andb_true_iff in A as [A _]. unfold isLetterB. now rewrite A. }
  assert (Na : name <> "ans").
  { intros ->. unfold validFunctions in Hn. simpl in Hn.
    repeat (destruct Hn as [Hn|Hn]; [discriminate Hn|]). exact Hn. }
  unfold lookupName in Hl.
  replace (String.eqb name "ans") with false in Hl
    by (symmetry; now apply String.eqb_neq).
  destruct (map_get (constants p) name) eqn:Gc; [discriminate Hl|].
  assert (TE : allb isExprChar ("(" ++ lit ++ ")") = true).
  { cbn [append allb]. rewrite allb_app, LE. reflexivity. }
  unfold parserIdent in Hp. apply andb_true_iff in Hp as [Ic Iv].
  set (p0 := set_constant p "ans" (GetLastResult (calc p))).
  assert (Ic0 : identifiers (constants p0) = true)
    by (apply identifiers_map_set; [assumption | reflexivity]).
  assert (Gc0 : map_get (constants p0) name = None).
  { unfold p0. cbn [set_constant constants]. now rewrite map_get_map_set_other. }
  assert (Ok0 : parserOk p0 = true).
  { apply parserIdent_parserOk. unfold parserIdent. now rewrite Ic0. }
  unfold EvaluateExpression_body. rewrite V.
  replace (String.eqb (name ++ "(" ++ lit ++ ")") "") with false
    by (destruct name; [discriminate Ne | reflexivity]).
  fold p0.
  assert (P : preprocess rt f p0 (name ++ "(" ++ lit ++ ")")
              = match dispatchFunction rt p name [v] with
                | Ok r => (Ok (FormatF 10 r), recorded p0 lit v)
                | Err m => (Err m, recorded p0 lit v)
                | Diverge => (Diverge, recorded p0 lit v)
                end).
  { unfold preprocess.
    assert (S1 : ToLower (removeSpaces (name ++ "(" ++ lit ++ ")")) = name ++ "(" ++ lit ++ ")").
    { subst name. rewrite append_assoc.
      assert (T2 : allb isExprChar (num ++ "(" ++ lit ++ ")") = true).
      { rewrite allb_app, TE, andb_true_r. eapply allb_impl; [|exact D].
        intros c H. unfold isExprChar, isLitChar. now rewrite H. }
      rewrite removeSpaces_app, lower_removeSpaces, exprChars_removeSpaces by assumption.
      now rewrite ToLower_app, lower_ToLower, ToLower_expr by assumption. }
    rewrite S1.
    rewrite (substitute_call (constants p0)) by (assumption || reflexivity).
    rewrite (substitute_call (variables p0)) by (assumption || reflexivity).
    unfold processFunctions. cbn [processFunctions_loop].
    rewrite (findFuncCall_head _ (name, lit))
      by (apply (matchCallAt_call name lit ""); assumption).
    unfold evaluateFunction. rewrite parseArguments_lit by assumption.
    cbn [evaluateArguments]. rewrite (Hf p0 Ok0).
    rewrite (dispatchFunction_mode rt (recorded p0 lit v) p) by reflexivity.
    destruct (dispatchFunction rt p name [v]) as [r|m|]; try reflexivity.
    unfold callText. rewrite Replace1_self.
    now rewrite processFunctions_loop_none by apply findFuncCall_FormatF. }
  rewrite P.
  destruct (dispatchFunction rt p name [v]) as [r|m|]; cbn [bind]; try reflexivity.
  now destruct (evaluate rt (FormatF 10 r)).
Qed.

End CallText.

(** X24: a call of a known function on a decimal literal is evaluated as
    the text, with ten decimals, of what the function returns, or fails as
    the function fails: the value of [sqrt(2)] is 1.4142135624, not the
    square root of 2. *)
Theorem call_value_is_rounded :
  forall (rt : GoMath) (p : Parser) (name lit : string) (v : float64),
    parserIdent p = true -> In name validFunctions -> lookupName p name = None ->
    litOk lit = true -> ParseFloat lit = Some v ->
    fst (EvaluateExpression rt p (name ++ "(" ++ lit ++ ")"))
    = bind (dispatchFunction rt p name [v]) (fun r => evaluate rt (FormatF 10 r)).
Proof.
  intros rt p name lit v Hp Hn Hl L Pv.
  destruct (lit_facts lit L) as (LE & _ & _ & _ & LR & LC).
  unfold EvaluateExpression. cbn [EvaluateExpression_at].
  apply EvaluateExpression_body_call; try assumption.
  intros q Hq.
  rewrite (EvaluateExpression_body_argument rt _ (EvaluateExpression_at rt 1)) by assumption.
  change (EvaluateExpression rt q lit = (Ok v, recorded q lit v)).
  rewrite (EvaluateExpression_wellFormed rt q lit (Num lit)); try assumption; try reflexivity.
  - cbn [denote]. now rewrite Pv.
  - apply exprChars_removeSpaces. exact LE.
  - unfold passesZeroCheck. rewrite Contains_head; [reflexivity|]. now apply LC.
Qed.

Lemma call_value_is_rounded_witness :
  fst (EvaluateExpression anyMath fresh "sqrt(2)") = Ok (of_decimal "1.4142135624")
  /\ F64.eqb (of_decimal "1.4142135624") (F64.Sqrt (of_Z 2)) = false.
Proof.
  split.
  - change (fst (EvaluateExpression anyMath fresh ("sqrt" ++ "(" ++ "2" ++ ")"))
            = Ok (of_decimal "1.4142135624")).
    rewrite (call_value_is_rounded anyMath fresh "sqrt" "2" (of_Z 2));
      [vm_compute; reflexivity | reflexivity | simpl; tauto | reflexivity
      | reflexivity | reflexivity].
  - vm_compute. reflexivity.
Defined.

(** ** Numeric literals with an exponent (C7) *)

Section NumericLiterals.

Lemma expOk_parts (lit : string) :
  expOk lit = true ->
  exists m d, lit = m ++ "e" ++ d
              /\ litOk m = true /\ lastIsDigit m = true
              /\ allb isDigitB d = true /\ nonEmpty d = true
              /\ isNumber d = true /\ isNumber lit = true.
Proof.
  unfold expOk. destruct (span isLitChar lit) as [m r] eqn:E.
  apply span_spec in E as (-> & _ & _).
  destruct r as [|c d]; [discriminate|].
  destruct (Ascii.eqb_spec c "e") as [->|N];
    [|destruct c as [[] [] [] [] [] [] [] []]; try discriminate; now elim N].
  intros H. repeat (apply andb_true_iff in H as [H ?]).
  exists m, d. repeat split; try assumption.
  - unfold litOk. apply andb_true_iff. now split.
  - destruct d; [discriminate | reflexivity].
Qed.

Lemma numLit_isNumber (lit : string) : numLit lit = true -> isNumber lit = true.
Proof.
  unfold numLit. intros H. apply orb_true_iff in H as [H|H].
  - now apply litOk_isNumber.
  - now destruct (expOk_parts lit H) as (m & d & _ & _ & _ & _ & _ & _ & N).
Qed.

End NumericLiterals.

(** ** Tokens of an expression whose literals are numbers

    The token stages only ask of a literal that [isNumber] accepts it. *)

Section NumberTokens.

Variable rt : GoMath.

Lemma wellFormedBy_impl (ok ok' : string -> bool) (e : aexp) :
  (forall lit, ok lit = true -> ok' lit = true) ->
  wellFormedBy ok e = true -> wellFormedBy ok' e = true.
Proof.
  intros I. induction e as [lit|o l IHl r IHr|e IH]; cbn [wellFormedBy]; intros H.
  - now apply I.
  - repeat (apply andb_true_iff in H as [H ?]).
    now rewrite IHl, IHr, H0, H1.
  - now apply IH.
Qed.

Lemma isNumber_not_sign (lit : string) :
  isNumber lit = true -> String.eqb lit "-" = false /\ String.eqb lit "+" = false.
Proof.
  intros H. split.
  - destruct (String.eqb_spec lit "-") as [->|]; [discriminate H | reflexivity].
  - destruct (String.eqb_spec lit "+") as [->|]; [discriminate H | reflexivity].
Qed.

Lemma lastToken_number (e : aexp) :
  wellFormedBy isNumber e = true -> isUnaryAt (Some (lastToken e)) = false.
Proof.
  induction e as [lit|o l IHl r IHr|e IH]; simpl; intros H.
  - now rewrite H.
  - repeat (apply andb_true_iff in H as [H ?]). now apply IHr.
  - reflexivity.
Qed.

Lemma processUnary_numbers (e : aexp) :
  wellFormedBy isNumber e = true ->
  forall prev rest,
    processUnaryOperators_go prev (tokensOf e ++ rest)
    = (tokensOf e ++ processUnaryOperators_go (Some (lastToken e)) rest)%list.
Proof.
  induction e as [lit|o l IHl r IHr|e IH]; cbn [wellFormedBy tokensOf lastToken];
    intros H prev rest.
  - destruct (isNumber_not_sign _ H) as [E1 E2]. simpl. now rewrite E1, E2.
  - repeat (apply andb_true_iff in H as [H ?]).
    rewrite <- !app_assoc, <- !app_comm_cons, IHl by assumption. f_equal.
    rewrite processUnary_operator by now apply lastToken_number.
    f_equal. now apply IHr.
  - rewrite <- !app_comm_cons, <- !app_assoc.
    change (processUnaryOperators_go prev ("(" :: tokensOf e ++ [")"] ++ rest))
      with ("(" :: processUnaryOperators_go (Some "(") (tokensOf e ++ [")"] ++ rest)).
    rewrite IH by assumption. reflexivity.
Qed.

Lemma processUnaryOperators_numbers (e : aexp) :
  wellFormedBy isNumber e = true -> processUnaryOperators (tokensOf e) = tokensOf e.
Proof.
  intros H. unfold processUnaryOperators.
  rewrite <- (app_nil_r (tokensOf e)) at 1. rewrite processUnary_numbers by assumption.
  simpl. apply app_nil_r.
Qed.

Lemma pending_numbers (e : aexp) :
  wellFormedBy isNumber e = true -> opsFrom (level e) (pending e).
Proof.
  induction e as [lit|o l IHl r IHr|e IH]; simpl; intros H; try constructor.
  repeat (apply andb_true_iff in H as [H ?]).
  apply opsFrom_app.
  - apply opsFrom_mono with (n := level r); [|now apply IHr].
    apply Z.ltb_lt in H0. lia.
  - constructor; [|constructor]. exists o. split; [reflexivity | lia].
Qed.

Lemma shuntingYard_go_numbers (e : aexp) :
  wellFormedBy isNumber e = true ->
  forall rest out st,
    lowStack (level e) st = true ->
    shuntingYard_go (tokensOf e ++ rest) out st
    = shuntingYard_go rest (out ++ emitted e) (pending e ++ st).
Proof.
  induction e as [lit|o l IHl r IHr|e IH]; cbn [wellFormedBy tokensOf emitted pending level];
    intros H rest out st L.
  - simpl. now rewrite H.
  - repeat (apply andb_true_iff in H as [H ?]).
    apply Z.leb_le in H1. apply Z.ltb_lt in H0.
    rewrite <- !app_assoc, <- !app_comm_cons.
    rewrite IHl by (assumption || (eapply lowStack_mono; eassumption)).
    cbn [shuntingYard_go].
    destruct (opToken_facts o) as (-> & -> & -> & ->).
    rewrite popOperators_ops.
    + rewrite IHr; [|assumption|].
      * rewrite <- !app_assoc. simpl. rewrite postfix_split, <- !app_assoc. reflexivity.
      * cbn [lowStack]. destruct (opToken_facts o) as (_ & -> & _).
        rewrite precedence_opToken.
        apply andb_true_iff. split; [now apply Z.ltb_lt|].
        eapply lowStack_mono; [|eassumption]. lia.
    + rewrite precedence_opToken.
      eapply opsFrom_mono; [|now apply pending_numbers]. assumption.
    + now rewrite precedence_opToken.
  - rewrite <- !app_comm_cons, <- !app_assoc.
    change (shuntingYard_go ("(" :: tokensOf e ++ [")"] ++ rest) out st)
      with (shuntingYard_go (tokensOf e ++ [")"] ++ rest) out ("(" :: st)).
    rewrite IH by (assumption || reflexivity).
    change (shuntingYard_go ([")"] ++ rest) (out ++ emitted e) (pending e ++ "(" :: st))
      with (match popToParen (pending e ++ "(" :: st) (out ++ emitted e) with
            | ([], _) => Err "mismatched parentheses"
            | (_ :: stack', output') => shuntingYard_go rest output' stack'
            end).
    rewrite (popToParen_ops (level e)) by now apply pending_numbers.
    now rewrite postfix_split, <- app_assoc.
Qed.

Lemma shuntingYard_numbers (e : aexp) :
  wellFormedBy isNumber e = true -> shuntingYard (tokensOf e) = Ok (postfix e).
Proof.
  intros H. unfold shuntingYard.
  rewrite <- (app_nil_r (tokensOf e)), shuntingYard_go_numbers by (assumption || reflexivity).
  simpl. rewrite app_nil_r, (drainStack_ops (level e)) by now apply pending_numbers.
  now rewrite postfix_split.
Qed.

Lemma evaluateRPN_go_numbers (e : aexp) :
  wellFormedBy isNumber e = true ->
  forall rest stack,
    evaluateRPN_go rt (postfix e ++ rest) stack
    = match denote e with
      | Ok v => evaluateRPN_go rt rest (v :: stack)
      | Err m => Err m
      | Diverge => Diverge
      end.
Proof.
  induction e as [lit|o l IHl r IHr|e IH]; cbn [wellFormedBy postfix denote];
    intros H rest stack.
  - simpl. rewrite H. unfold isNumber in H. now destruct (ParseFloat lit).
  - repeat (apply andb_true_iff in H as [H ?]).
    rewrite <- !app_assoc, IHl by assumption.
    destruct (denote l) as [a| |]; simpl; try reflexivity.
    rewrite IHr by assumption.
    destruct (denote r) as [b| |]; simpl; try reflexivity.
    destruct (opToken_facts o) as (-> & _ & _ & ->).
    rewrite opToken_not_unaryMinus, applyOperator_opToken.
    now destruct (applyOp o a b).
  - now apply IH.
Qed.

Lemma evaluateRPN_numbers (e : aexp) :
  wellFormedBy isNumber e = true -> evaluateRPN rt (postfix e) = denote e.
Proof.
  intros H. unfold evaluateRPN.
  rewrite <- (app_nil_r (postfix e)), evaluateRPN_go_numbers by assumption.
  now destruct (denote e).
Qed.

End NumberTokens.

(** ** A text in pieces *)

Section Chunks.

(** The bytes of a numeric literal. *)
Lemma numLit_chars (lit : string) :
  numLit lit = true ->
  allb isNumChar lit = true /\ nonEmpty lit = true.
Proof.
  unfold numLit. intros H. apply orb_true_iff in H as [H|H].
  - split; [|now apply litOk_nonEmpty].
    eapply allb_impl; [|now apply litOk_chars]. intros c Hc.
    unfold isNumChar. unfold isLitChar in Hc. now rewrite Hc.
  - destruct (expOk_parts lit H) as (m & d & -> & Lm & _ & Dd & _).
    split; [|apply nonEmpty_app; now apply litOk_nonEmpty].
    rewrite !allb_app. cbn [allb]. apply andb_true_iff. split.
    + eapply allb_impl; [|now apply litOk_chars]. intros c Hc.
      unfold isNumChar. unfold isLitChar in Hc. now rewrite Hc.
    + cbn. eapply allb_impl; [|exact Dd]. intros c Hc. unfold isNumChar. now rewrite Hc.
Qed.

Lemma isNumChar_cases (c : ascii) :
  isNumChar c = true -> In c (list_ascii_of_string "0123456789.e").
Proof.
  destruct c as [[] [] [] [] [] [] [] []]; vm_compute; intros H; try discriminate H; tauto.
Qed.

Lemma numLit_head (lit : string) :
  numLit lit = true -> exists c r, lit = String c r /\ isNumChar c = true.
Proof.
  intros H. destruct (numLit_chars lit H) as [A N].
  destruct lit as [|c r]; [discriminate N|]. exists c, r. split; [reflexivity|].
  cbn [allb] in A. now apply andb_true_iff in A.
Qed.

Lemma numLit_not_gap (lit : string) :
  numLit lit = true -> (isGap lit || isSymbol lit)%bool = false.
Proof.
  intros H. destruct (numLit_head lit H) as (c & r & -> & Hc).
  apply isNumChar_cases in Hc. simpl in Hc.
  repeat (destruct Hc as [<-|Hc]; [now destruct r|]). contradiction.
Qed.

Lemma isSymbol_cases (t : string) :
  isSymbol t = true -> In t ["+"; "-"; "*"; "/"; "("; ")"].
Proof.
  unfold isSymbol, inList. cbn [existsb]. intros H.
  repeat (apply orb_true_iff in H as [H|H]; [apply String.eqb_eq in H; subst; simpl; tauto|]).
  discriminate H.
Qed.

Lemma isGap_eq (t : string) : isGap t = true -> t = " ".
Proof. apply String.eqb_eq. Qed.

Lemma joinTokens_app (a b : list string) :
  joinTokens (a ++ b) = joinTokens a ++ joinTokens b.
Proof.
  induction a as [|t a IH]; [reflexivity|]. cbn [app joinTokens].
  now rewrite IH, append_assoc.
Qed.

Lemma joinTokens_tokensOf (e : aexp) : joinTokens (tokensOf e) = render e.
Proof.
  induction e as [lit|o l IHl r IHr|e IH]; cbn [tokensOf render joinTokens].
  - apply append_nil_r.
  - rewrite joinTokens_app. cbn [joinTokens]. now rewrite IHl, IHr.
  - rewrite joinTokens_app. cbn [joinTokens]. rewrite IH.
    now rewrite append_nil_r.
Qed.

Lemma opToken_symbol (o : binop) :
  (isGap (opToken o) || isSymbol (opToken o))%bool = true
  /\ String.eqb (opToken o) "(" = false.
Proof. now destruct o. Qed.

(** The tokens of a well-formed expression, before more pieces. *)
Lemma chunksOk_tokensOf (e : aexp) :
  wellFormedBy numLit e = true ->
  forall rest, chunksOk rest = true -> afterLiteral rest = true ->
               chunksOk (tokensOf e ++ rest) = true.
Proof.
  induction e as [lit|o l IHl r IHr|e IH]; cbn [wellFormedBy tokensOf];
    intros H rest R A.
  - cbn [app chunksOk]. rewrite numLit_not_gap by assumption. now rewrite H, A, R.
  - repeat (apply andb_true_iff in H as [H ?]).
    destruct (opToken_symbol o) as [S1 S2].
    rewrite <- app_assoc. apply IHl; [assumption| |].
    + cbn [app chunksOk]. rewrite S1. now apply IHr.
    + cbn [app afterLiteral]. now rewrite S1, S2.
  - cbn [app chunksOk]. change (isGap "(" || isSymbol "(")%bool with true. cbv iota.
    rewrite <- app_assoc. apply IH; [assumption| |reflexivity].
    cbn [app chunksOk]. exact R.
Qed.

(** Spaces between the pieces do no harm. *)
Lemma chunksOk_withGaps (chunks : list string) :
  chunksOk (withoutGaps chunks) = true -> chunksOk chunks = true.
Proof.
  induction chunks as [|t r IH]; [reflexivity|].
  cbn [withoutGaps filter chunksOk]. fold (withoutGaps r).
  destruct (isGap t) eqn:G; cbn [negb orb].
  - exact IH.
  - cbn [chunksOk]. rewrite G. cbn [orb].
    destruct (isSymbol t); [exact IH|].
    intros H. repeat (apply andb_true_iff in H as [H ?]).
    rewrite H, IH by assumption. rewrite andb_true_r. cbn [andb].
    destruct r as [|u r']; [reflexivity|]. cbn [afterLiteral].
    cbn [withoutGaps filter] in H1. destruct (isGap u) eqn:Gu; cbn [negb] in H1.
    + apply isGap_eq in Gu. now subst u.
    + cbn [afterLiteral] in H1. now rewrite Gu in *.
Qed.

Lemma withoutGaps_app (a b : list string) :
  withoutGaps (a ++ b) = (withoutGaps a ++ withoutGaps b)%list.
Proof. apply filter_app. Qed.

(** The tokens of an expression hold no space. *)
Lemma withoutGaps_tokensOf (e : aexp) :
  wellFormedBy numLit e = true -> withoutGaps (tokensOf e) = tokensOf e.
Proof.
  induction e as [lit|o l IHl r IHr|e IH]; cbn [wellFormedBy tokensOf]; intros H.
  - cbn [withoutGaps filter]. pose proof (numLit_not_gap lit H) as G.
    apply orb_false_iff in G as [-> _]. reflexivity.
  - repeat (apply andb_true_iff in H as [H ?]).
    rewrite withoutGaps_app. cbn [withoutGaps filter]. fold (withoutGaps (tokensOf r)).
    rewrite IHl, IHr by assumption. now destruct o.
  - cbn [withoutGaps filter]. change (negb (isGap "(")) with true. cbv iota.
    fold (withoutGaps (tokensOf e ++ [")"])). rewrite withoutGaps_app, IH by assumption.
    reflexivity.
Qed.

Lemma noSpace_removeSpaces (s : string) :
  ContainsChar s " " = false -> removeSpaces s = s.
Proof.
  induction s as [|c s IH]; [reflexivity|]. cbn [ContainsChar removeSpaces].
  intros H. apply orb_false_iff in H as [H1 H2].
  rewrite H1. now rewrite IH.
Qed.

Lemma numLit_no_space (lit : string) : numLit lit = true -> ContainsChar lit " " = false.
Proof.
  intros H. destruct (numLit_chars lit H) as [A _].
  now apply (allb_ContainsChar isNumChar).
Qed.

Lemma removeSpaces_joinTokens (chunks : list string) :
  chunksOk chunks = true ->
  removeSpaces (joinTokens chunks) = joinTokens (withoutGaps chunks).
Proof.
  induction chunks as [|t r IH]; [reflexivity|].
  cbn [chunksOk withoutGaps filter joinTokens]. fold (withoutGaps r).
  rewrite removeSpaces_app.
  destruct (isGap t) eqn:G; cbn [negb orb].
  - intros H. apply isGap_eq in G. subst t. now rewrite IH.
  - destruct (isSymbol t) eqn:S.
    + intros H. cbn [joinTokens]. rewrite IH by assumption. f_equal.
      apply isSymbol_cases in S. simpl in S.
      repeat (destruct S as [<-|S]; [reflexivity|]). contradiction.
    + intros H. repeat (apply andb_true_iff in H as [H ?]).
      cbn [joinTokens]. rewrite IH by assumption. f_equal.
      now apply noSpace_removeSpaces, numLit_no_space.
Qed.

End Chunks.

(** ** A numeric literal in a text *)

Section LiteralInText.

Lemma rev_acc_append (a b acc : string) :
  rev_acc (a ++ b) acc = rev_acc b (rev_acc a acc).
Proof. revert acc; induction a as [|c a IH]; intros acc; [reflexivity|]. apply IH. Qed.

Lemma rev_rev (s : string) : rev (rev s) = s.
Proof. unfold rev at 2. apply rev_rev_acc. Qed.

Lemma lastIsDigit_split (m : string) :
  lastIsDigit m = true -> exists m' c, m = m' ++ String c "" /\ isDigitB c = true.
Proof.
  unfold lastIsDigit. destruct (rev m) as [|c r] eqn:E; [discriminate|]. intros H.
  exists (rev r), c. split; [|exact H].
  now rewrite <- (rev_rev m), E, rev_String.
Qed.

(** A numeric literal is a decimal literal, or a decimal literal that
    ends with a digit, [e], and digits. *)
Lemma numLit_shape (lit : string) :
  numLit lit = true ->
  (allb isLitChar lit = true /\ nonEmpty lit = true)
  \/ (exists m c d,
        lit = m ++ String c ("e" ++ d)
        /\ allb isLitChar m = true /\ isDigitB c = true
        /\ allb isDigitB d = true /\ nonEmpty d = true
        /\ isNumber (m ++ String c "") = true /\ isNumber d = true).
Proof.
  unfold numLit. intros H. apply orb_true_iff in H as [H|H].
  - left. split; [now apply litOk_chars | now apply litOk_nonEmpty].
  - right. destruct (expOk_parts lit H) as (m & d & -> & Lm & Dm & Dd & Nd & Id & _).
    destruct (lastIsDigit_split m Dm) as (m' & c & -> & Hc).
    exists m', c, d. rewrite append_assoc. cbn [append].
    repeat split; try assumption.
    + apply litOk_chars in Lm. rewrite allb_app in Lm. now apply andb_true_iff in Lm.
    + now apply litOk_isNumber.
Qed.

Lemma digits_isLitChar (d : string) : allb isDigitB d = true -> allb isLitChar d = true.
Proof. apply allb_impl. intros c H. unfold isLitChar. now rewrite H. Qed.

(** *** Tokens *)

Lemma tokenize_go_boundary (rest : string) (prev : option ascii) (cur : string) :
  boundary rest -> tokenize_go rest prev cur = flush cur (tokenize_go rest None "").
Proof.
  intros [->|(c & t & -> & Hc)].
  - cbn [tokenize_go]. unfold flush. cbn [nonEmpty]. now destruct (nonEmpty cur).
  - simpl in Hc.
    repeat (destruct Hc as [<-|Hc]; [reflexivity|]). contradiction.
Qed.

Lemma tokenize_go_numLit (lit rest : string) (prev : option ascii) :
  numLit lit = true -> boundary rest ->
  tokenize_go (lit ++ rest) prev "" = lit :: tokenize_go rest None "".
Proof.
  intros H B.
  assert (G : exists prev', tokenize_go (lit ++ rest) prev ""
                            = tokenize_go rest prev' (rev_acc lit "")).
  { destruct (numLit_shape lit H) as [[A _]|(m & c & d & -> & Am & Hc & Ad & Nd & _)].
    - apply tokenize_go_lit. exact A.
    - rewrite append_assoc. cbn [append].
      destruct (tokenize_go_lit m Am (String c (String "e" (d ++ rest))) prev "")
        as (p1 & ->).
      rewrite (tokenize_go_digits_e (String c "") (d ++ rest))
        by (cbn [allb]; now rewrite ?Hc).
      destruct (tokenize_go_lit d (digits_isLitChar d Ad) rest (Some "e"%char)
                  (String "e" (rev_acc (String c "") (rev_acc m ""))))
        as (p2 & ->).
      exists p2. f_equal. rewrite rev_acc_append. reflexivity. }
  destruct G as (p' & ->).
  rewrite tokenize_go_boundary by assumption. unfold flush.
  destruct (numLit_chars lit H) as [_ N].
  now rewrite nonEmpty_rev_acc, rev_rev_acc by assumption.
Qed.

End LiteralInText.

(** ** The tokens of a text in pieces *)

Section ChunkTokens.

Lemma afterLiteral_boundary (chunks : list string) :
  afterLiteral chunks = true -> boundary (joinTokens chunks).
Proof.
  destruct chunks as [|u r]; [now left|]. cbn [afterLiteral joinTokens]. intros H.
  apply andb_true_iff in H as [H N]. right.
  apply orb_true_iff in H as [H|H].
  - apply isGap_eq in H. subst u. eexists _, _. split; [reflexivity|]. simpl. tauto.
  - apply isSymbol_cases in H. simpl in H.
    repeat (destruct H as [<-|H];
            [first [discriminate N | eexists _, _; split; [reflexivity|]; simpl; tauto]|]).
    contradiction.
Qed.

Lemma tokenize_go_chunks (chunks : list string) :
  chunksOk chunks = true ->
  forall prev, tokenize_go (joinTokens chunks) prev "" = withoutGaps chunks.
Proof.
  induction chunks as [|t r IH]; intros H prev; [reflexivity|].
  cbn [chunksOk] in H. cbn [joinTokens withoutGaps filter]. fold (withoutGaps r).
  destruct (isGap t) eqn:G; cbn [orb negb] in *.
  - apply isGap_eq in G. subst t. cbn [append tokenize_go].
    change (isDigit " " || Ascii.eqb " " "." || _)%bool with false. cbv iota.
    change (Ascii.eqb " " " ") with true. cbv iota. rewrite flush_nil. now apply IH.
  - destruct (isSymbol t) eqn:S.
    + apply isSymbol_cases in S. simpl in S.
      repeat (destruct S as [<-|S];
              [cbn [append]; rewrite tokenize_go_delim by reflexivity;
               rewrite flush_nil; f_equal; now apply IH|]).
      contradiction.
    + repeat (apply andb_true_iff in H as [H ?]).
      rewrite tokenize_go_numLit by (assumption || now apply afterLiteral_boundary).
      f_equal. now apply IH.
Qed.

Lemma tokenize_numeric (e : aexp) :
  wellFormedBy numLit e = true -> tokenize (render e) = tokensOf e.
Proof.
  intros H. pose proof (chunksOk_tokensOf e H [] eq_refl eq_refl) as C.
  rewrite app_nil_r in C. unfold tokenize.
  rewrite <- joinTokens_tokensOf, tokenize_go_chunks by assumption.
  now apply withoutGaps_tokensOf.
Qed.

End ChunkTokens.

(** ** Evaluation of the text without spaces *)

Section NumericEvaluate.

Variable rt : GoMath.

Lemma isNumChar_isSciChar (s : string) : allb isNumChar s = true -> allb isSciChar s = true.
Proof.
  apply allb_impl. intros c H. apply isNumChar_cases in H. simpl in H.
  repeat (destruct H as [<-|H]; [reflexivity|]). contradiction.
Qed.

Lemma chunks_chars (chunks : list string) :
  chunksOk chunks = true -> allb isSciChar (joinTokens chunks) = true.
Proof.
  induction chunks as [|t r IH]; [reflexivity|]. cbn [chunksOk joinTokens].
  rewrite allb_app.
  destruct (isGap t) eqn:G; cbn [orb].
  - intros H. apply isGap_eq in G. subst t. now rewrite IH.
  - destruct (isSymbol t) eqn:S.
    + intros H. rewrite IH by assumption. rewrite andb_true_r.
      apply isSymbol_cases in S. simpl in S.
      repeat (destruct S as [<-|S]; [reflexivity|]). contradiction.
    + intros H. repeat (apply andb_true_iff in H as [H ?]).
      rewrite IH by assumption. rewrite andb_true_r.
      apply isNumChar_isSciChar. now apply numLit_chars.
Qed.

Lemma render_chars (e : aexp) :
  wellFormedBy numLit e = true -> allb isSciChar (render e) = true.
Proof.
  intros H. pose proof (chunksOk_tokensOf e H [] eq_refl eq_refl) as C.
  rewrite app_nil_r in C. rewrite <- joinTokens_tokensOf. now apply chunks_chars.
Qed.

(** [evaluate] on the text of a well-formed expression. *)
Lemma evaluate_numeric (e : aexp) :
  wellFormedBy numLit e = true -> evaluate rt (render e) = denote e.
Proof.
  intros H.
  assert (N : wellFormedBy isNumber e = true)
    by (eapply wellFormedBy_impl; [apply numLit_isNumber | exact H]).
  rewrite evaluate_unfold.
  replace (Contains (render e) "!") with false.
  2:{ symmetry. rewrite Contains_char.
      apply (allb_ContainsChar isSciChar); [now apply render_chars | reflexivity]. }
  unfold evaluatePlain.
  rewrite tokenize_numeric, processUnaryOperators_numbers, shuntingYard_numbers
    by assumption.
  simpl. now apply evaluateRPN_numbers.
Qed.

End NumericEvaluate.

(** ** Preprocessing leaves the text as it is *)

Section NumericPreprocess.

Variable rt : GoMath.

Lemma ToLower_sci (s : string) : allb isSciChar s = true -> ToLower s = s.
Proof.
  induction s as [|c s IH]; [reflexivity|]. cbn [allb ToLower]. intros H.
  apply andb_true_iff in H as [Hc Hs]. rewrite (IH Hs). f_equal.
  destruct c as [[] [] [] [] [] [] [] []]; try discriminate Hc; reflexivity.
Qed.

(** No name starts at a byte that is no letter and no underscore. *)
Lemma wordMatchAt_no_letter (name : string) (prev : option ascii) (c : ascii) (r : string) :
  nameOk name = true -> (isLetterB c || Ascii.eqb c "_")%bool = false ->
  wordMatchAt name prev (String c r) = false.
Proof.
  intros N C. unfold wordMatchAt. destruct name as [|a name]; [discriminate N|].
  cbn [HasPrefix]. cbn [nameOk] in N.
  destruct (Ascii.eqb_spec a c) as [->|]; [congruence | reflexivity].
Qed.

(** No name starts at a letter that follows a digit. *)
Lemma wordMatchAt_after_digit (name : string) (q c : ascii) (r : string) :
  isDigitB q = true -> isWordB c = true ->
  wordMatchAt name (Some q) (String c r) = false.
Proof.
  intros Q C. unfold wordMatchAt, wordBoundary. cbn [headChar isWordOpt].
  unfold isWordB at 1. rewrite Q, C, orb_true_r. cbn [orb xorb].
  now rewrite andb_false_r.
Qed.

Lemma isLitChar_no_letter (c : ascii) :
  isLitChar c = true -> (isLetterB c || Ascii.eqb c "_")%bool = false.
Proof.
  intros H. apply isLitChar_cases in H. simpl in H.
  repeat (destruct H as [<-|H]; [reflexivity|]). contradiction.
Qed.

Lemma replaceWord_go_run (name repl a : string) :
  nameOk name = true -> allb isLitChar a = true ->
  forall prev rest,
    exists prev', replaceWord_go name repl O prev (a ++ rest)
                  = a ++ replaceWord_go name repl O prev' rest.
Proof.
  intros N. induction a as [|c a IH]; intros A prev rest; [now exists prev|].
  cbn [allb] in A. apply andb_true_iff in A as [C A].
  cbn [append replaceWord_go].
  rewrite wordMatchAt_no_letter by (assumption || now apply isLitChar_no_letter).
  destruct (IH A (Some c) rest) as (p' & ->). now exists p'.
Qed.

Lemma replaceWord_go_numLit (name repl lit : string) :
  nameOk name = true -> numLit lit = true ->
  forall prev rest,
    exists prev', replaceWord_go name repl O prev (lit ++ rest)
                  = lit ++ replaceWord_go name repl O prev' rest.
Proof.
  intros N H prev rest.
  destruct (numLit_shape lit H) as [[A _]|(m & c & d & -> & Am & Hc & Ad & Nd & _)].
  - now apply replaceWord_go_run.
  - rewrite !append_assoc. cbn [append].
    destruct (replaceWord_go_run name repl m N Am prev (String c (String "e" (d ++ rest))))
      as (p1 & ->).
    cbn [replaceWord_go].
    rewrite wordMatchAt_no_letter
      by (assumption || (apply isLitChar_no_letter; unfold isLitChar; now rewrite Hc)).
    rewrite wordMatchAt_after_digit by (assumption || reflexivity).
    destruct (replaceWord_go_run name repl d N (digits_isLitChar d Ad) (Some "e"%char) rest)
      as (p2 & E2).
    exists p2. rewrite E2, !append_assoc. reflexivity.
Qed.

Lemma replaceWord_go_chunks (name repl : string) (chunks : list string) :
  nameOk name = true -> chunksOk chunks = true ->
  forall prev, replaceWord_go name repl O prev (joinTokens chunks) = joinTokens chunks.
Proof.
  intros N. induction chunks as [|t r IH]; intros H prev; [reflexivity|].
  cbn [chunksOk] in H. cbn [joinTokens].
  destruct (isGap t) eqn:G; cbn [orb] in H.
  - apply isGap_eq in G. subst t. cbn [append replaceWord_go].
    rewrite wordMatchAt_no_letter by (assumption || reflexivity). now rewrite IH.
  - destruct (isSymbol t) eqn:S.
    + apply isSymbol_cases in S. simpl in S.
      repeat (destruct S as [<-|S];
              [cbn [append replaceWord_go];
               rewrite wordMatchAt_no_letter by (assumption || reflexivity);
               now rewrite IH|]).
      contradiction.
    + repeat (apply andb_true_iff in H as [H ?]).
      destruct (replaceWord_go_numLit name repl t N H prev (joinTokens r)) as (p' & ->).
      now rewrite IH.
Qed.

Lemma substitute_chunks (m : fmap) (chunks : list string) :
  namesOk m = true -> chunksOk chunks = true ->
  substitute m (joinTokens chunks) = joinTokens chunks.
Proof.
  intros Hm C. induction m as [|[k v] m IH]; [reflexivity|].
  cbn [namesOk forallb fst] in Hm. apply andb_true_iff in Hm as [Hk Hm].
  cbn [substitute]. unfold replaceWord.
  rewrite replaceWord_go_chunks by assumption. now apply IH.
Qed.

(** *** No call *)

Lemma findFuncCall_step (c : ascii) (r : string) :
  (isLetterB c || Ascii.eqb c "_")%bool = false ->
  findFuncCall (String c r) = findFuncCall r.
Proof. intros H. cbn [findFuncCall matchCallAt]. now rewrite H. Qed.

Lemma findFuncCall_run (a rest : string) :
  allb isLitChar a = true -> findFuncCall (a ++ rest) = findFuncCall rest.
Proof.
  induction a as [|c a IH]; intros A; [reflexivity|].
  cbn [allb] in A. apply andb_true_iff in A as [C A]. cbn [append].
  rewrite findFuncCall_step by now apply isLitChar_no_letter. now apply IH.
Qed.

Lemma boundary_head (rest : string) :
  boundary rest -> headNot isWordB rest /\ (forall r, rest <> String "(" r).
Proof.
  intros [->|(c & t & -> & Hc)]; [split; [exact I | discriminate]|].
  simpl in Hc.
  repeat (destruct Hc as [<-|Hc]; [split; [reflexivity | discriminate]|]).
  contradiction.
Qed.

Lemma findFuncCall_numLit (lit rest : string) :
  numLit lit = true -> boundary rest -> findFuncCall (lit ++ rest) = findFuncCall rest.
Proof.
  intros H B.
  destruct (numLit_shape lit H) as [[A _]|(m & c & d & -> & Am & Hc & Ad & Nd & _)].
  - now apply findFuncCall_run.
  - rewrite !append_assoc. cbn [append]. rewrite findFuncCall_run by assumption.
    rewrite findFuncCall_step
      by (apply isLitChar_no_letter; unfold isLitChar; now rewrite Hc).
    destruct (boundary_head rest B) as [Hw Hp].
    assert (M : matchCallAt (String "e" (d ++ rest)) = None).
    { cbn [matchCallAt]. change (isLetterB "e" || Ascii.eqb "e" "_")%bool with true.
      cbv iota. rewrite (span_app isWordB d rest); [|  | exact Hw].
      - destruct rest as [|c0 r0]; [reflexivity|].
        destruct (Ascii.eqb_spec c0 "(") as [->|N]; [now elim (Hp r0)|].
        destruct c0 as [[] [] [] [] [] [] [] []]; try reflexivity. now elim N.
      - eapply allb_impl; [|exact Ad]. intros a Ha. unfold isWordB. rewrite Ha.
        now rewrite orb_true_r. }
    change (findFuncCall (String "e" (d ++ rest)))
      with (match matchCallAt (String "e" (d ++ rest)) with
            | Some m0 => Some m0
            | None => findFuncCall (d ++ rest)
            end).
    rewrite M. apply findFuncCall_run. now apply digits_isLitChar.
Qed.

Lemma findFuncCall_chunks (chunks : list string) :
  chunksOk chunks = true -> findFuncCall (joinTokens chunks) = None.
Proof.
  induction chunks as [|t r IH]; intros H; [reflexivity|].
  cbn [chunksOk] in H. cbn [joinTokens].
  destruct (isGap t) eqn:G; cbn [orb] in H.
  - apply isGap_eq in G. subst t. cbn [append].
    rewrite findFuncCall_step by reflexivity. now apply IH.
  - destruct (isSymbol t) eqn:S.
    + apply isSymbol_cases in S. simpl in S.
      repeat (destruct S as [<-|S];
              [cbn [append]; rewrite findFuncCall_step by reflexivity; now apply IH|]).
      contradiction.
    + repeat (apply andb_true_iff in H as [H ?]).
      rewrite findFuncCall_numLit by (assumption || now apply afterLiteral_boundary).
      now apply IH.
Qed.

Lemma preprocess_numeric (evalArg : Parser -> string -> result float64 * Parser)
  (p : Parser) (chunks : list string) (e : aexp) :
  withoutGaps chunks = tokensOf e -> wellFormedBy numLit e = true -> parserOk p = true ->
  preprocess rt evalArg p (joinTokens chunks) = (Ok (render e), p).
Proof.
  intros Hs He Hp.
  pose proof (chunksOk_tokensOf e He [] eq_refl eq_refl) as C. rewrite app_nil_r in C.
  assert (Cs : chunksOk chunks = true) by (apply chunksOk_withGaps; now rewrite Hs).
  unfold parserOk in Hp. apply andb_true_iff in Hp as [Hk Hv].
  unfold preprocess. rewrite removeSpaces_joinTokens, Hs by assumption.
  rewrite ToLower_sci by now apply chunks_chars.
  rewrite !substitute_chunks by assumption.
  unfold processFunctions. cbn [processFunctions_loop].
  now rewrite findFuncCall_chunks, joinTokens_tokensOf.
Qed.

End NumericPreprocess.

(** ** Validation of the text in pieces *)

Section NumericValidation.

Variable rt : GoMath.

Lemma isNumChar_notParen (s : string) : allb isNumChar s = true -> allb notParen s = true.
Proof.
  apply allb_impl. intros c H. apply isNumChar_cases in H. simpl in H.
  repeat (destruct H as [<-|H]; [reflexivity|]). contradiction.
Qed.

Lemma isNumChar_notOperator (s : string) :
  allb isNumChar s = true -> allb notOperator s = true.
Proof.
  apply allb_impl. intros c H. apply isNumChar_cases in H. simpl in H.
  repeat (destruct H as [<-|H]; [reflexivity|]). contradiction.
Qed.

Lemma render_nonEmpty_numeric (e : aexp) :
  wellFormedBy numLit e = true -> nonEmpty (render e) = true.
Proof.
  induction e as [lit|o l IHl r IHr|e IH]; simpl; intros H.
  - now apply numLit_chars.
  - repeat (apply andb_true_iff in H as [H ?]). apply nonEmpty_app. now apply IHl.
  - reflexivity.
Qed.

(** *** Parentheses *)

Lemma HasBalancedParentheses_go_numeric (e : aexp) :
  wellFormedBy numLit e = true ->
  forall rest b, 0 <= b ->
    HasBalancedParentheses_go (render e ++ rest) b = HasBalancedParentheses_go rest b.
Proof.
  induction e as [lit|o l IHl r IHr|e IH]; cbn [wellFormedBy render]; intros H rest b Hb.
  - apply HasBalancedParentheses_go_notParen, isNumChar_notParen. now apply numLit_chars.
  - repeat (apply andb_true_iff in H as [H ?]).
    rewrite !append_assoc, IHl, HasBalancedParentheses_go_notParen, IHr
      by (assumption || apply opToken_notParen). reflexivity.
  - rewrite !append_assoc. simpl. rewrite IH by (assumption || lia). simpl.
    replace (b + 1 - 1) with b by lia.
    destruct (Z.ltb_spec b 0); [lia | reflexivity].
Qed.

Lemma CountChar_numeric (e : aexp) :
  wellFormedBy numLit e = true -> CountChar (render e) "(" = CountChar (render e) ")".
Proof.
  induction e as [lit|o l IHl r IHr|e IH]; cbn [wellFormedBy render]; intros H.
  - destruct (CountChar_notParen lit) as [-> ->]; [|reflexivity].
    now apply isNumChar_notParen, numLit_chars.
  - repeat (apply andb_true_iff in H as [H ?]).
    rewrite !CountChar_app, IHl, IHr by assumption.
    destruct (CountChar_notParen _ (opToken_notParen o)) as [-> ->]. reflexivity.
  - rewrite !CountChar_app, IH by assumption. simpl. lia.
Qed.

(** *** Pairs of operators *)

Lemma HasConsecutiveOperators_go_run (lit : string) :
  allb notOperator lit = true -> nonEmpty lit = true ->
  exists c, ContainsChar operators c = false
    /\ forall rest prev,
         HasConsecutiveOperators_go (lit ++ rest) prev = HasConsecutiveOperators_go rest c.
Proof.
  induction lit as [|a lit IH]; [discriminate|]. intros H _.
  simpl in H. apply andb_true_iff in H as [Ha Hl].
  assert (Na : ContainsChar operators a = false) by now apply negb_true_iff in Ha.
  destruct lit as [|b lit].
  - exists a. split; [exact Na|]. intros rest prev.
    now apply HasConsecutiveOperators_go_head.
  - destruct (IH Hl eq_refl) as (c & Hc & Hgo). exists c. split; [exact Hc|].
    intros rest prev.
    change ((String a (String b lit)) ++ rest) with (String a (String b lit ++ rest)).
    rewrite HasConsecutiveOperators_go_head by exact Na. apply Hgo.
Qed.

Lemma HasConsecutiveOperators_go_numeric (e : aexp) :
  wellFormedBy numLit e = true ->
  exists c, ContainsChar operators c = false
    /\ forall rest prev,
         HasConsecutiveOperators_go (render e ++ rest) prev
         = HasConsecutiveOperators_go rest c.
Proof.
  induction e as [lit|o l IHl r IHr|e IH]; cbn [wellFormedBy render]; intros H.
  - destruct (numLit_chars lit H) as [A N].
    apply HasConsecutiveOperators_go_run; [now apply isNumChar_notOperator | exact N].
  - repeat (apply andb_true_iff in H as [H ?]).
    destruct (IHl H) as (cl & Hcl & Hl). destruct (IHr H2) as (cr & Hcr & Hr).
    exists cr. split; [exact Hcr|]. intros rest prev.
    rewrite !append_assoc, Hl.
    destruct (HasConsecutiveOperators_go_operator o (render r ++ rest) cl Hcl) as (c & ->).
    apply Hr.
  - destruct (IH H) as (c & Hc & He). exists ")"%char. split; [reflexivity|].
    intros rest prev. rewrite !append_assoc.
    change ("(" ++ render e ++ ")" ++ rest) with (String "(" (render e ++ ")" ++ rest)).
    rewrite HasConsecutiveOperators_go_head by reflexivity. rewrite He.
    now apply HasConsecutiveOperators_go_head.
Qed.

(** *** Characters and names *)

Lemma validExprChars_sci (s : string) : allb isSciChar s = true -> validExprChars s = true.
Proof.
  intros H. apply validExprChars_all. eapply allb_impl; [|exact H].
  intros c Hc. destruct c as [[] [] [] [] [] [] [] []]; try discriminate Hc; reflexivity.
Qed.

Lemma findFuncNames_go_run (a rest : string) :
  allb isLitChar a = true -> nonEmpty a = true ->
  forall cur, findFuncNames_go (a ++ rest) cur = findFuncNames_go rest "".
Proof.
  induction a as [|c a IH]; [discriminate|]. intros A _ cur.
  cbn [allb] in A. apply andb_true_iff in A as [C A].
  cbn [append findFuncNames_go].
  assert (L : isLowerB c = false /\ Ascii.eqb c "(" = false).
  { apply isLitChar_cases in C. simpl in C.
    repeat (destruct C as [<-|C]; [split; reflexivity|]). contradiction. }
  destruct L as [-> ->]. cbn [andb].
  destruct a as [|b a]; [reflexivity|]. now apply IH.
Qed.

Lemma findFuncNames_go_numLit (lit rest : string) :
  numLit lit = true -> findFuncNames_go (lit ++ rest) "" = findFuncNames_go rest "".
Proof.
  intros H.
  destruct (numLit_shape lit H) as [[A N]|(m & c & d & -> & Am & Hc & Ad & Nd & _)].
  - now apply findFuncNames_go_run.
  - replace ((m ++ String c ("e" ++ d)) ++ rest)
      with ((m ++ String c "") ++ String "e" (d ++ rest))
      by (rewrite !append_assoc; reflexivity).
    rewrite findFuncNames_go_run.
    + cbn [findFuncNames_go]. change (isLowerB "e") with true. cbv iota.
      apply findFuncNames_go_run; [now apply digits_isLitChar | exact Nd].
    + rewrite allb_app, Am. cbn [allb]. unfold isLitChar. now rewrite Hc.
    + now destruct m.
Qed.

Lemma findFuncNames_go_chunks (chunks : list string) :
  chunksOk chunks = true -> findFuncNames_go (joinTokens chunks) "" = [].
Proof.
  induction chunks as [|t r IH]; intros H; [reflexivity|].
  cbn [chunksOk] in H. cbn [joinTokens].
  destruct (isGap t) eqn:G; cbn [orb] in H.
  - apply isGap_eq in G. subst t. cbn [append findFuncNames_go].
    change (isLowerB " ") with false. cbv iota. cbn [andb]. now apply IH.
  - destruct (isSymbol t) eqn:S.
    + apply isSymbol_cases in S. simpl in S.
      repeat (destruct S as [<-|S]; [cbn; now apply IH|]).
      contradiction.
    + repeat (apply andb_true_iff in H as [H ?]).
      rewrite findFuncNames_go_numLit by assumption. now apply IH.
Qed.

End NumericValidation.

(** ** The numbers that validation finds in the text *)

Section NumericNumbers.

Variable rt : GoMath.

(** *** The shape of a decimal literal *)

Lemma ParseFloat_lit_head (c : ascii) (r : string) :
  isLitChar c = true ->
  ParseFloat (String c r)
  = match readDecimal (String c r) with
    | None => None
    | Some (m, nfrac, e) =>
        if m =? 0 then Some (S754_zero false)
        else
          let k := e - Z.of_nat nfrac in
          let v := round_ratio false (m * 10 ^ Z.max k 0) (10 ^ Z.max (- k) 0) in
          if IsInf v then None else Some v
    end.
Proof.
  intros H. destruct c as [[] [] [] [] [] [] [] []]; try discriminate H; reflexivity.
Qed.

Lemma ParseFloat_minus_lit (c : ascii) (r : string) :
  isLitChar c = true ->
  ParseFloat (String "-" (String c r))
  = match readDecimal (String c r) with
    | None => None
    | Some (m, nfrac, e) =>
        if m =? 0 then Some (S754_zero true)
        else
          let k := e - Z.of_nat nfrac in
          let v := round_ratio true (m * 10 ^ Z.max k 0) (10 ^ Z.max (- k) 0) in
          if IsInf v then None else Some v
    end.
Proof.
  intros H. destruct c as [[] [] [] [] [] [] [] []]; try discriminate H; reflexivity.
Qed.

(** A decimal literal that is a number stays one under a minus sign. *)
Lemma isNumber_minus (lit : string) :
  allb isLitChar lit = true -> isNumber lit = true -> isNumber ("-" ++ lit) = true.
Proof.
  intros A N. destruct lit as [|c r]; [discriminate N|].
  cbn [allb] in A. apply andb_true_iff in A as [C _].
  unfold isNumber in *. cbn [append].
  rewrite ParseFloat_minus_lit by assumption.
  rewrite ParseFloat_lit_head in N by assumption.
  destruct (readDecimal (String c r)) as [[[m nf] e]|]; [|discriminate N].
  destruct (m =? 0); [reflexivity|]. cbv zeta in *.
  rewrite (round_ratio_IsInf true false).
  now destruct (IsInf (round_ratio false _ _)).
Qed.

Lemma span_lit_digits (s : string) :
  allb isLitChar s = true ->
  exists d r, s = d ++ r /\ allb isDigitB d = true
              /\ (r = "" \/ exists r', r = String "." r' /\ allb isLitChar r' = true).
Proof.
  intros A. destruct (span isDigitB s) as [d r] eqn:E.
  apply span_spec in E as (-> & D & Hr). exists d, r. split; [reflexivity|].
  split; [exact D|]. rewrite allb_app in A. apply andb_true_iff in A as [_ A].
  destruct r as [|c r']; [now left|]. right.
  cbn [allb] in A. apply andb_true_iff in A as [C A]. cbn [headNot] in Hr.
  unfold isLitChar in C. rewrite Hr in C. cbn [orb] in C. apply Ascii.eqb_eq in C.
  subst c. now exists r'.
Qed.

(** Digits, or digits, a point and digits. *)
Lemma litOk_forms (lit : string) :
  litOk lit = true ->
  exists d1 d2 pt,
    lit = d1 ++ pt ++ d2 /\ allb isDigitB d1 = true /\ allb isDigitB d2 = true
    /\ ((pt = "" /\ d2 = "" /\ nonEmpty d1 = true)
        \/ (pt = "." /\ (nonEmpty d1 || nonEmpty d2)%bool = true)).
Proof.
  intros L. pose proof (litOk_chars lit L) as A. pose proof (litOk_isNumber lit L) as N.
  pose proof (litOk_nonEmpty lit L) as Ne.
  destruct (span_lit_digits lit A) as (d1 & r & -> & D1 & [->|(r' & -> & A')]).
  - exists d1, "", "". rewrite !append_nil_r in *. repeat split; try assumption. now left.
  - destruct (span_lit_digits r' A') as (d2 & r2 & -> & D2 & R2).
    assert (r2 = "") as ->.
    { destruct R2 as [->|(r3 & -> & _)]; [reflexivity|]. exfalso.
      assert (F : readDecimal (d1 ++ String "." (d2 ++ String "." r3)) = None).
      { unfold readDecimal.
        destruct (readDigits_app d1 (String "." (d2 ++ String "." r3)) D1 eq_refl 0 0)
          as [m1 ->].
        destruct (readDigits_app d2 (String "." r3) D2 eq_refl m1 0) as [m2 ->].
        now destruct (0 + String.length d1 + (0 + String.length d2))%nat. }
      unfold isNumber in N.
      destruct d1 as [|c d1'].
      - cbn [append] in N, F. rewrite ParseFloat_lit_head in N by reflexivity.
        now rewrite F in N.
      - cbn [allb] in D1. apply andb_true_iff in D1 as [C _].
        cbn [append] in N, F.
        rewrite ParseFloat_lit_head in N by (unfold isLitChar; now rewrite C).
        now rewrite F in N. }
    exists d1, d2, ".". rewrite append_nil_r in *. repeat split; try assumption. right.
    split; [reflexivity|].
    destruct d1 as [|c d1']; [|reflexivity]. destruct d2 as [|c d2']; [|reflexivity].
    discriminate N.
Qed.

Lemma rev_append (a b : string) : rev (a ++ b) = rev b ++ rev a.
Proof.
  unfold rev at 1. rewrite rev_acc_append, rev_acc_app. reflexivity.
Qed.

(** A mantissa: a decimal literal that ends with a digit. *)
Lemma mantissa_forms (m : string) :
  litOk m = true -> lastIsDigit m = true ->
  exists d1 d2 pt,
    m = d1 ++ pt ++ d2 /\ allb isDigitB d1 = true /\ allb isDigitB d2 = true
    /\ ((pt = "" /\ d2 = "" /\ nonEmpty d1 = true) \/ (pt = "." /\ nonEmpty d2 = true)).
Proof.
  intros L D. destruct (litOk_forms m L) as (d1 & d2 & pt & -> & D1 & D2 & F).
  exists d1, d2, pt. repeat split; try assumption.
  destruct F as [F|[-> F]]; [now left|]. right. split; [reflexivity|].
  destruct d2 as [|c d2']; [|reflexivity]. exfalso.
  unfold lastIsDigit in D. rewrite append_nil_r, rev_append in D. discriminate D.
Qed.

(** *** The number pattern at a literal *)

Lemma spanDigits_app (d R : string) :
  allb isDigitB d = true -> headNot isDigitB R -> spanDigits (d ++ R) = (d, R).
Proof. intros A H. rewrite spanDigits_span. now apply span_app. Qed.

Lemma matchMantissa_form (d1 d2 pt R : string) :
  allb isDigitB d1 = true -> allb isDigitB d2 = true ->
  (pt = "" /\ d2 = "" /\ nonEmpty d1 = true) \/ (pt = "." /\ nonEmpty d2 = true) ->
  headNot isDigitB R -> (forall r, R <> String "." r) ->
  matchMantissa ((d1 ++ pt ++ d2) ++ R) = Some (d1 ++ pt ++ d2, R).
Proof.
  intros D1 D2 F H P. unfold matchMantissa.
  destruct F as [(-> & -> & N)|(-> & N)].
  - cbn [append]. rewrite append_nil_r, spanDigits_app by assumption. rewrite N.
    destruct R as [|c r]; [reflexivity|].
    destruct (Ascii.eqb_spec c ".") as [->|Nc]; [now elim (P r)|].
    destruct c as [[] [] [] [] [] [] [] []]; try reflexivity. now elim Nc.
  - rewrite !append_assoc. cbn [append].
    rewrite spanDigits_app by (assumption || reflexivity).
    rewrite spanDigits_app by assumption. now rewrite N.
Qed.

Lemma matchMantissa_point (d1 R : string) :
  allb isDigitB d1 = true -> nonEmpty d1 = true -> headNot isDigitB R ->
  matchMantissa (d1 ++ String "." R) = Some (d1, String "." R).
Proof.
  intros D1 N H. pose proof (spanDigits_app "" R eq_refl H) as E. cbn [append] in E.
  unfold matchMantissa.
  rewrite spanDigits_app by (assumption || reflexivity).
  rewrite E. cbn [nonEmpty]. now rewrite N.
Qed.

Lemma matchMantissa_none (c : ascii) (R : string) :
  isDigitB c = false -> c <> "."%char -> matchMantissa (String c R) = None.
Proof.
  intros C N. unfold matchMantissa, spanDigits. cbn [spanDigits_go]. rewrite C.
  cbn [rev rev_acc nonEmpty].
  destruct c as [[] [] [] [] [] [] [] []]; try reflexivity. now elim N.
Qed.

Lemma matchMantissa_bare_point (R : string) :
  headNot isDigitB R -> matchMantissa (String "." R) = None.
Proof.
  intros H. pose proof (spanDigits_app "" R eq_refl H) as E. cbn [append] in E.
  unfold matchMantissa.
  change (spanDigits (String "." R)) with ("", String "." R). cbv iota beta.
  now rewrite E.
Qed.

Lemma matchExponent_digits (d R : string) :
  allb isDigitB d = true -> nonEmpty d = true -> headNot isDigitB R ->
  matchExponent (String "e" (d ++ R)) = (String "e" d, R).
Proof.
  intros D N H. cbn [matchExponent]. change (Ascii.eqb "e" "e" || Ascii.eqb "e" "E")%bool with true.
  cbv iota.
  destruct d as [|c d']; [discriminate N|]. cbn [allb] in D.
  apply andb_true_iff in D as [C D].
  replace (match String c d' ++ R with
           | String "+" r' => ("+", r')
           | String "-" r' => ("-", r')
           | _ => ("", String c d' ++ R)
           end) with ("", String c d' ++ R)
    by (cbn [append]; destruct c as [[] [] [] [] [] [] [] []]; try discriminate C; reflexivity).
  rewrite spanDigits_app by (assumption || (cbn [allb]; now rewrite C)).
  reflexivity.
Qed.

Lemma boundary_facts (R : string) :
  boundary R ->
  headNot isDigitB R /\ (forall r, R <> String "." r)
  /\ matchExponent R = ("", R) /\ matchNumberAt (String "." R) = None.
Proof.
  intros [->|(c & t & -> & Hc)]; [repeat split; discriminate|].
  simpl in Hc.
  repeat (destruct Hc as [<-|Hc]; [repeat split; discriminate|]). contradiction.
Qed.

Lemma matchNumberAt_lit (sgn : string) (c : ascii) (r : string) :
  sgn = "" \/ sgn = "-" -> isLitChar c = true ->
  matchNumberAt (sgn ++ String c r)
  = match matchMantissa (String c r) with
    | None => None
    | Some (m, r1) => let '(e, r2) := matchExponent r1 in Some (sgn ++ m ++ e, r2)
    end.
Proof.
  intros [->| ->] C; [|reflexivity].
  cbn [append]. unfold matchNumberAt.
  destruct c as [[] [] [] [] [] [] [] []]; try discriminate C; reflexivity.
Qed.

(** *** The numbers found *)

Lemma findNumbers_go_pass (a r : string) (k : nat) :
  findNumbers_go (String.length a + k) (a ++ r) = findNumbers_go k r.
Proof. induction a as [|c a IH]; [reflexivity|]. exact IH. Qed.

Lemma findNumbers_go_match (n R R' : string) :
  nonEmpty n = true -> matchNumberAt (n ++ R) = Some (n, R') ->
  findNumbers_go O (n ++ R) = n :: findNumbers_go O R.
Proof.
  intros N M. destruct n as [|c n']; [discriminate N|].
  cbn [append] in *. cbn [findNumbers_go]. rewrite M. f_equal.
  cbn [String.length Nat.pred]. rewrite <- (Nat.add_0_r (String.length n')).
  apply findNumbers_go_pass.
Qed.

Lemma findNumbers_go_no_match (c : ascii) (R : string) :
  matchNumberAt (String c R) = None -> findNumbers_go O (String c R) = findNumbers_go O R.
Proof. intros M. cbn [findNumbers_go]. now rewrite M. Qed.

(** A number without exponent that the pattern has matched is valid. *)
Lemma validateNumber_plain (s n r : string) :
  matchNumberAt s = Some (n, r) -> containsE n = false -> validateNumber rt n = None.
Proof.
  intros M E. destruct (matchNumberAt_valid s n r M) as [V P].
  unfold validateNumber. rewrite V, E. cbn [negb].
  destruct (Nat.ltb_spec 1 (CountChar n ".")); [lia | reflexivity].
Qed.

End NumericNumbers.

Section NumericNumbersFound.

Variable rt : GoMath.

Lemma SplitChar_once (a b : string) (sep : ascii) :
  ContainsChar a sep = false -> ContainsChar b sep = false ->
  SplitChar (a ++ String sep b) sep = [a; b].
Proof.
  intros A B. unfold SplitChar.
  assert (G : forall cur, SplitChar_go (a ++ String sep b) sep cur
                          = [rev (rev_acc a cur); b]).
  { induction a as [|c a IH]; intros cur.
    - cbn [append SplitChar_go rev_acc]. rewrite Ascii.eqb_refl. f_equal.
      rewrite SplitChar_go_no_sep by assumption. now rewrite rev_rev_acc.
    - cbn [ContainsChar] in A. apply orb_false_iff in A as [E A].
      cbn [append SplitChar_go rev_acc]. rewrite E. now apply IH. }
  rewrite G. now rewrite rev_rev_acc.
Qed.

Lemma sign_cases (sgn : string) :
  sgn = "" \/ sgn = "-" ->
  ToLower sgn = sgn /\ ContainsChar sgn "e" = false /\ ContainsChar sgn "E" = false.
Proof. intros [->| ->]; repeat split. Qed.

Lemma isLitChar_facts (s : string) :
  allb isLitChar s = true ->
  ToLower s = s /\ ContainsChar s "e" = false /\ ContainsChar s "E" = false.
Proof.
  intros A. repeat split.
  - apply ToLower_sci. eapply allb_impl; [|exact A]. intros c H.
    apply isLitChar_cases in H. simpl in H.
    repeat (destruct H as [<-|H]; [reflexivity|]). contradiction.
  - now apply (allb_ContainsChar isLitChar).
  - now apply (allb_ContainsChar isLitChar).
Qed.

(** A number with an exponent is valid when both of its parts are numbers. *)
Lemma validateNumber_exponent (s r sgn m d : string) :
  matchNumberAt s = Some (sgn ++ m ++ String "e" d, r) ->
  sgn = "" \/ sgn = "-" ->
  allb isLitChar m = true -> isNumber m = true ->
  allb isDigitB d = true -> isNumber d = true ->
  validateNumber rt (sgn ++ m ++ String "e" d) = None.
Proof.
  intros M S Am Nm Ad Nd.
  destruct (matchNumberAt_valid s _ r M) as [V P].
  destruct (sign_cases sgn S) as (L1 & E1 & E1').
  destruct (isLitChar_facts m Am) as (L2 & E2 & E2').
  destruct (isLitChar_facts d (digits_isLitChar d Ad)) as (L3 & E3 & E3').
  assert (Sp : SplitChar (ToLower (sgn ++ m ++ String "e" d)) "e" = [sgn ++ m; d]).
  { rewrite !ToLower_app, L1, L2. cbn [ToLower]. rewrite L3.
    change (lowerChar "e") with "e"%char.
    rewrite <- append_assoc. apply SplitChar_once; [|exact E3].
    now rewrite ContainsChar_app, E1, E2. }
  assert (Pm : isNumber (sgn ++ m) = true).
  { destruct S as [->| ->]; [exact Nm | now apply isNumber_minus]. }
  unfold validateNumber. rewrite V. cbn [negb].
  destruct (Nat.ltb_spec 1 (CountChar (sgn ++ m ++ String "e" d) ".")); [lia|].
  replace (containsE (sgn ++ m ++ String "e" d)) with true
    by (unfold containsE; rewrite !ContainsChar_app; cbn [ContainsChar];
        rewrite Ascii.eqb_refl; now rewrite !orb_true_r).
  rewrite Sp. cbn [List.length Nat.eqb negb].
  unfold ParseScientificNotation. rewrite Sp.
  unfold isNumber in Pm, Nd.
  destruct (ParseFloat (sgn ++ m)); [|discriminate Pm].
  now destruct (ParseFloat d).
Qed.

(** The numbers found at a literal, after a minus sign or not, are
    valid, and the search goes on after the literal. *)
Lemma validateNumbers_numLit (sgn lit rest : string) :
  sgn = "" \/ sgn = "-" -> numLit lit = true -> boundary rest ->
  validateNumbers_loop rt (findNumbers_go O (sgn ++ lit ++ rest))
  = validateNumbers_loop rt (findNumbers_go O rest).
Proof.
  intros S H B. destruct (boundary_facts rest B) as (Hd & Hp & He & Hn).
  assert (Ns : forall x, nonEmpty x = true -> nonEmpty (sgn ++ x) = true).
  { intros x Hx. destruct S as [->| ->]; [exact Hx | reflexivity]. }
  unfold numLit in H. apply orb_true_iff in H as [H|H].
  - (* a decimal literal *)
    destruct (litOk_forms lit H) as (d1 & d2 & pt & -> & D1 & D2 & F).
    assert (Hc : exists c r, d1 ++ pt ++ d2 = String c r /\ isLitChar c = true).
    { pose proof (litOk_chars _ H) as A. pose proof (litOk_nonEmpty _ H) as N.
      destruct (d1 ++ pt ++ d2) as [|c r]; [discriminate N|]. exists c, r.
      split; [reflexivity|]. cbn [allb] in A. now apply andb_true_iff in A. }
    assert (El : containsE (sgn ++ d1 ++ pt ++ d2) = false).
    { unfold containsE. destruct (sign_cases sgn S) as (_ & E1 & E1').
      destruct (isLitChar_facts _ (litOk_chars _ H)) as (_ & E2 & E2').
      now rewrite !(ContainsChar_app sgn), E1, E1', E2, E2'. }
    destruct F as [(-> & -> & N1)|(-> & N)].
    + (* digits *)
      rewrite !append_nil_r in *. cbn [append] in *.
      assert (M : matchNumberAt ((sgn ++ d1) ++ rest) = Some (sgn ++ d1, rest)).
      { destruct Hc as (c & r & E & C). rewrite append_assoc, E.
        change (String c r ++ rest) with (String c (r ++ rest)).
        rewrite matchNumberAt_lit by assumption.
        change (String c (r ++ rest)) with (String c r ++ rest). rewrite <- E.
        pose proof (matchMantissa_form d1 "" "" rest D1 eq_refl
                      (or_introl (conj eq_refl (conj eq_refl N1))) Hd Hp) as Mm.
        cbn [append] in Mm. rewrite append_nil_r in Mm. rewrite Mm, He.
        now rewrite append_nil_r. }
      rewrite <- append_assoc.
      rewrite (findNumbers_go_match _ _ _ (Ns _ N1) M). cbn [validateNumbers_loop].
      now rewrite (validateNumber_plain rt _ _ _ M El).
    + destruct (nonEmpty d2) eqn:N2.
      * (* digits, a point, digits *)
        assert (M : matchNumberAt ((sgn ++ d1 ++ "." ++ d2) ++ rest)
                    = Some (sgn ++ d1 ++ "." ++ d2, rest)).
        { destruct Hc as (c & r & E & C). rewrite append_assoc, E.
          change (String c r ++ rest) with (String c (r ++ rest)).
          rewrite matchNumberAt_lit by assumption.
          change (String c (r ++ rest)) with (String c r ++ rest). rewrite <- E.
          rewrite (matchMantissa_form d1 d2 "." rest D1 D2
                     (or_intror (conj eq_refl N2)) Hd Hp), He.
          now rewrite append_nil_r. }
        rewrite <- !append_assoc. rewrite !append_assoc in M.
        rewrite <- !append_assoc in M.
        assert (Nn : nonEmpty (((sgn ++ d1) ++ ".") ++ d2) = true).
        { rewrite !append_assoc. apply Ns. destruct d1; [|reflexivity].
          reflexivity. }
        rewrite (findNumbers_go_match _ _ _ Nn M). cbn [validateNumbers_loop].
        rewrite (validateNumber_plain rt _ _ _ M); [reflexivity|].
        now rewrite !append_assoc.
      * (* digits and a point *)
        destruct d2; [|discriminate N2]. rewrite orb_false_r in N.
        rewrite !append_nil_r in *. cbn [append] in *.
        assert (M : matchNumberAt ((sgn ++ d1) ++ String "." rest)
                    = Some (sgn ++ d1, String "." rest)).
        { destruct d1 as [|c r]; [discriminate N|].
          cbn [allb] in D1. apply andb_true_iff in D1 as [C D1].
          rewrite append_assoc.
          change (String c r ++ String "." rest) with (String c (r ++ String "." rest)).
          rewrite matchNumberAt_lit by (assumption || (unfold isLitChar; now rewrite C)).
          change (String c (r ++ String "." rest)) with (String c r ++ String "." rest).
          rewrite matchMantissa_point by (assumption || (cbn [allb]; now rewrite C)).
          cbn [matchExponent].
          change (Ascii.eqb "." "e" || Ascii.eqb "." "E")%bool with false. cbv iota.
          now rewrite append_nil_r. }
        replace (sgn ++ (d1 ++ ".") ++ rest) with ((sgn ++ d1) ++ String "." rest)
          by (rewrite !append_assoc; reflexivity).
        rewrite (findNumbers_go_match _ _ _ (Ns _ N) M). cbn [validateNumbers_loop].
        rewrite (validateNumber_plain rt _ _ _ M).
        -- now rewrite findNumbers_go_no_match.
        -- unfold containsE in *. rewrite !ContainsChar_app in *.
           cbn [ContainsChar] in El. rewrite !orb_false_r in El. exact El.
  - (* a literal with an exponent *)
    destruct (expOk_parts lit H) as (m & d & -> & Lm & Dm & Dd & Nd & Id & _).
    destruct (mantissa_forms m Lm Dm) as (d1 & d2 & pt & -> & D1 & D2 & F).
    assert (Hc : exists c r, d1 ++ pt ++ d2 = String c r /\ isLitChar c = true).
    { pose proof (litOk_chars _ Lm) as A. pose proof (litOk_nonEmpty _ Lm) as N.
      destruct (d1 ++ pt ++ d2) as [|c r]; [discriminate N|]. exists c, r.
      split; [reflexivity|]. cbn [allb] in A. now apply andb_true_iff in A. }
    set (mt := d1 ++ pt ++ d2) in *.
    assert (M : matchNumberAt ((sgn ++ mt ++ String "e" d) ++ rest)
                = Some (sgn ++ mt ++ String "e" d, rest)).
    { destruct Hc as (c & r & E & C). rewrite !append_assoc. rewrite E.
      change (String c r ++ String "e" d ++ rest)
        with (String c (r ++ String "e" (d ++ rest))).
      rewrite matchNumberAt_lit by assumption.
      change (String c (r ++ String "e" (d ++ rest)))
        with (String c r ++ String "e" (d ++ rest)). rewrite <- E. subst mt.
      rewrite (matchMantissa_form d1 d2 pt (String "e" (d ++ rest)) D1 D2 F)
        by (reflexivity || discriminate).
      now rewrite matchExponent_digits by assumption. }
    replace (sgn ++ (mt ++ "e" ++ d) ++ rest) with ((sgn ++ mt ++ String "e" d) ++ rest)
      by (rewrite !append_assoc; reflexivity).
    assert (Nn : nonEmpty (sgn ++ mt ++ String "e" d) = true).
    { apply Ns. apply nonEmpty_app. now apply litOk_nonEmpty. }
    rewrite (findNumbers_go_match _ _ _ Nn M). cbn [validateNumbers_loop].
    rewrite (validateNumber_exponent _ _ _ _ _ M S); try assumption; try reflexivity.
    + now apply litOk_chars.
    + now apply litOk_isNumber.
Qed.

End NumericNumbersFound.

Section NumericText.

Variable rt : GoMath.

Lemma matchNumberAt_minus_none (c : ascii) (R : string) :
  In c (list_ascii_of_string " +-*/()") ->
  matchNumberAt (String "-" (String c R)) = None.
Proof.
  intros H. simpl in H.
  repeat (destruct H as [<-|H]; [reflexivity|]). contradiction.
Qed.

Lemma chunk_head (t : string) (r : list string) :
  (isGap t || isSymbol t)%bool = true ->
  exists c, t = String c "" /\ In c (list_ascii_of_string " +-*/()").
Proof.
  intros H. apply orb_true_iff in H as [H|H].
  - apply isGap_eq in H. subst t. eexists. split; [reflexivity|]. simpl. tauto.
  - apply isSymbol_cases in H. simpl in H.
    repeat (destruct H as [<-|H]; [eexists; split; [reflexivity|]; simpl; tauto|]).
    contradiction.
Qed.

(** Every number that validation finds in the text is valid. *)
Lemma validateNumbers_chunks (chunks : list string) :
  chunksOk chunks = true ->
  validateNumbers_loop rt (findNumbers_go O (joinTokens chunks)) = None.
Proof.
  induction chunks as [|t r IH]; intros H; [reflexivity|].
  cbn [chunksOk] in H. cbn [joinTokens].
  destruct (isGap t || isSymbol t)%bool eqn:G.
  - destruct (chunk_head t r G) as (c & -> & Hc). specialize (IH H).
    destruct (Ascii.eqb_spec c "-") as [->|Nm].
    + (* a minus sign: the pattern takes it with the literal that follows *)
      destruct r as [|u r'].
      * reflexivity.
      * cbn [chunksOk] in H. cbn [joinTokens] in *.
        destruct (isGap u || isSymbol u)%bool eqn:Gu.
        -- destruct (chunk_head u r' Gu) as (c' & -> & Hc').
           cbn [append] in *. rewrite findNumbers_go_no_match; [exact IH|].
           now apply matchNumberAt_minus_none.
        -- repeat (apply andb_true_iff in H as [H ?]).
           pose proof (afterLiteral_boundary r' H1) as B.
           pose proof (validateNumbers_numLit rt "" u (joinTokens r')
                         (or_introl eq_refl) H B) as E0.
           pose proof (validateNumbers_numLit rt "-" u (joinTokens r')
                         (or_intror eq_refl) H B) as E1.
           cbn [append] in E0, E1 |- *. rewrite E1, <- E0. exact IH.
    + cbn [append]. rewrite findNumbers_go_no_match; [exact IH|].
      simpl in Hc.
      repeat (destruct Hc as [<-|Hc]; [first [now elim Nm | reflexivity]|]).
      contradiction.
  - repeat (apply andb_true_iff in H as [H ?]).
    pose proof (validateNumbers_numLit rt "" t (joinTokens r) (or_introl eq_refl) H
                  (afterLiteral_boundary r H1)) as E.
    cbn [append] in E. rewrite E. now apply IH.
Qed.

(** Validation accepts the text of a well-formed expression written with
    spaces between its tokens, unless the check for a division by zero
    fires. *)
Lemma ValidateExpression_numeric (chunks : list string) (e : aexp) :
  withoutGaps chunks = tokensOf e -> wellFormedBy numLit e = true ->
  passesZeroCheck (joinTokens chunks) = true ->
  ValidateExpression rt (joinTokens chunks) = None.
Proof.
  intros Hs He Hz.
  pose proof (chunksOk_tokensOf e He [] eq_refl eq_refl) as C. rewrite app_nil_r in C.
  assert (Cs : chunksOk chunks = true) by (apply chunksOk_withGaps; now rewrite Hs).
  assert (Hr : removeSpaces (joinTokens chunks) = render e)
    by now rewrite removeSpaces_joinTokens, Hs, joinTokens_tokensOf.
  set (s := joinTokens chunks) in *.
  assert (Hn : String.eqb s "" = false).
  { apply removeSpaces_nonEmpty. rewrite Hr. now apply render_nonEmpty_numeric. }
  unfold ValidateExpression. rewrite Hn.
  unfold HasBalancedParentheses.
  rewrite HasBalancedParentheses_go_spaces, Hr, <- (append_nil_r (render e)),
    HasBalancedParentheses_go_numeric by (assumption || lia).
  simpl.
  assert (Hc : HasConsecutiveOperators s = false).
  { apply (HasConsecutiveOperators_go_spaces s " "%char " "%char); [now left|].
    rewrite Hr. destruct (HasConsecutiveOperators_go_numeric e He) as (c & _ & Hgo).
    rewrite <- (append_nil_r (render e)), Hgo. reflexivity. }
  rewrite Hc.
  assert (Hv : ValidExpressionRegex_Match s = true).
  { unfold ValidExpressionRegex_Match. destruct s eqn:Es; [discriminate|].
    rewrite <- Es. apply validExprChars_sci. subst s. now apply chunks_chars. }
  rewrite Hv. simpl.
  unfold passesZeroCheck in Hz. apply negb_true_iff in Hz.
  assert (Hz' : (Contains s "/0" && negb (Contains s "/0.") && negb (Contains s "/0."))%bool
                = false).
  { now rewrite Hz. }
  rewrite Hz'.
  unfold ValidateFunctionCalls, findFuncNames.
  subst s. rewrite findFuncNames_go_chunks by assumption. simpl.
  rewrite (CountChar_spaces _ "("), (CountChar_spaces _ ")"), Hr, CountChar_numeric
    by (assumption || reflexivity).
  rewrite Nat.eqb_refl.
  unfold ValidateNumbers, findNumbers. now apply validateNumbers_chunks.
Qed.

(** The evaluation of the text of a well-formed expression. *)
Lemma EvaluateExpression_numeric (p : Parser) (chunks : list string) (e : aexp) :
  withoutGaps chunks = tokensOf e -> wellFormedBy numLit e = true ->
  passesZeroCheck (joinTokens chunks) = true -> parserOk p = true ->
  fst (EvaluateExpression rt p (joinTokens chunks)) = denote e.
Proof.
  intros Hs He Hz Hp.
  pose proof (chunksOk_tokensOf e He [] eq_refl eq_refl) as C. rewrite app_nil_r in C.
  assert (Cs : chunksOk chunks = true) by (apply chunksOk_withGaps; now rewrite Hs).
  assert (Hr : removeSpaces (joinTokens chunks) = render e)
    by now rewrite removeSpaces_joinTokens, Hs, joinTokens_tokensOf.
  unfold EvaluateExpression. cbn [EvaluateExpression_at]. unfold EvaluateExpression_body.
  rewrite (removeSpaces_nonEmpty (joinTokens chunks))
    by (rewrite Hr; now apply render_nonEmpty_numeric).
  rewrite (ValidateExpression_numeric chunks e) by assumption.
  rewrite (preprocess_numeric rt _ _ chunks e); [| assumption | assumption |].
  - rewrite evaluate_numeric by assumption.
    pose proof (denote_not_Diverge e). now destruct (denote e).
  - unfold parserOk in *. apply andb_true_iff in Hp as [Hk Hv].
    cbn [set_constant constants variables]. rewrite Hv, andb_true_r.
    now apply namesOk_map_set.
Qed.

End NumericText.

(** C7, as stated, fails: ["8/02"] is well-formed and its standard value is
    4, but its evaluation returns an error. *)
Lemma C7_counterexample_leading_zero :
  ~ (forall (rt : GoMath) (p : Parser) (s : string) (e : aexp),
        removeSpaces s = render e -> wellFormed e = true -> parserOk p = true ->
        fst (EvaluateExpression rt p s) = denote e).
Proof.
  intros H.
  specialize (H anyMath fresh "8/02" (Bin OpDiv (Num "8") (Num "02"))
                eq_refl eq_refl eq_refl).
  vm_compute in H. discriminate H.
Qed.

(** C7, amended: for every well-formed expression built from numeric
    literals, the binary operators [+ - * /] and parentheses, on which the
    textual check for a division by zero does not fire (no ["/0"] in the
    text, or a ["/0."] somewhere), evaluation returns the value of
    standard float64 arithmetic, operators of one level from left to right
    and [* /] before [+ -] (a division by zero being the error of that
    name).  The literals are the decimal ones, written with spaces
    anywhere, and those with an exponent ([e] and digits after a digit),
    written with spaces between the tokens.  ["2 + 3 * 4"] is 14 and
    ["(2 + 3) * 4"] is 20. *)
Theorem C7_arithmetic_is_standard :
  forall rt : GoMath,
    (forall (p : Parser) (s : string) (e : aexp),
        removeSpaces s = render e -> wellFormed e = true ->
        passesZeroCheck s = true -> parserOk p = true ->
        fst (EvaluateExpression rt p s) = denote e)
    /\ (forall (p : Parser) (chunks : list string) (e : aexp),
          withoutGaps chunks = tokensOf e -> wellFormedBy numLit e = true ->
          passesZeroCheck (joinTokens chunks) = true -> parserOk p = true ->
          fst (EvaluateExpression rt p (joinTokens chunks)) = denote e)
    /\ fst (EvaluateExpression rt fresh "2 + 3 * 4") = Ok (of_Z 14)
    /\ fst (EvaluateExpression rt fresh "(2 + 3) * 4") = Ok (of_Z 20).
Proof.
  intros rt.
  assert (G : forall (p : Parser) (s : string) (e : aexp),
             removeSpaces s = render e -> wellFormed e = true ->
             passesZeroCheck s = true -> parserOk p = true ->
             fst (EvaluateExpression rt p s) = denote e).
  { intros p s e Hs He Hz Hp.
    rewrite (EvaluateExpression_wellFormed rt p s e) by assumption.
    pose proof (denote_not_Diverge e). now destruct (denote e). }
  split; [exact G|]. split; [apply EvaluateExpression_numeric|]. split.
  - exact (G fresh "2 + 3 * 4" (Bin OpAdd (Num "2") (Bin OpMul (Num "3") (Num "4")))
             eq_refl eq_refl eq_refl eq_refl).
  - exact (G fresh "(2 + 3) * 4" (Bin OpMul (Par (Bin OpAdd (Num "2") (Num "3"))) (Num "4"))
             eq_refl eq_refl eq_refl eq_refl).
Qed.

(** The theorem at ["2 + 3 * 4"] and at ["2e3 + 1.5"]. *)
Lemma C7_witness_2_plus_3_times_4 :
  removeSpaces "2 + 3 * 4" = render (Bin OpAdd (Num "2") (Bin OpMul (Num "3") (Num "4")))
  /\ fst (EvaluateExpression anyMath fresh "2 + 3 * 4") = Ok (of_Z 14)
  /\ joinTokens ["2e3"; " "; "+"; " "; "1.5"] = "2e3 + 1.5"
  /\ fst (EvaluateExpression anyMath fresh "2e3 + 1.5") = Ok (of_decimal "2001.5").
Proof.
  split; [reflexivity|]. split.
  - exact (proj1 (C7_arithmetic_is_standard anyMath) fresh "2 + 3 * 4"
             (Bin OpAdd (Num "2") (Bin OpMul (Num "3") (Num "4")))
             eq_refl eq_refl eq_refl eq_refl).
  - split; [reflexivity|].
    exact (proj1 (proj2 (C7_arithmetic_is_standard anyMath)) fresh
             ["2e3"; " "; "+"; " "; "1.5"] (Bin OpAdd (Num "2e3") (Num "1.5"))
             eq_refl eq_refl eq_refl eq_refl).
Defined.
